(* ===== verification/_CoqProject ===== *)
-Q . S2P
Prelude.v
Binfmt.v
Principal.v
Keytab.v
RCache.v
Lookaside.v
Cts.v
Camellia.v
NFold.v
Crypto.v
Ulog.v
Kdb.v
GoStrings.v
Transited.v
Protocol.v
GoTime.v
Asn1.v
Wire.v
Asn1Total.v
Messages.v
Spake.v
Preauth.v
Cammac.v
Pac.v
PacData.v
KdcPolicy.v
KdcCommon.v
KdcTgs.v
KdcPreauth.v
KdcAs.v
KdcServer.v
Fast.v
ClientAs.v
Ap.v
Login.v
