(* ===== verification/Prelude.v ===== *)
(** * go-kerberos: a verification development

    The program under [src/] is a Kerberos 5 implementation in Go: the wire
    codecs, the cryptographic system, the principal database with its
    replication log, the key distribution centre (KDC), keytabs and replay
    caches, the client that logs in, and the exchange between a client and a
    service.  A login travels through most of it.  The client ([client/as.go])
    writes a request (package [asn1]) with pre-authentication data ([preauth],
    [spake], [otp]), perhaps armored ([fast]).  The KDC ([kdc/kdc.go]) asks its
    reply cache ([lookaside.go]) for a retransmission and hands the message to
    the handlers of [as.go] or [tgs.go], which look principals up ([kdb]),
    decrypt and seal with the encryption types ([crypto]), consult the policy
    ([policy.go]), protect authorization data ([pac], [cammac]) and write a
    reply.  With the ticket the client turns to a service ([ap]), which opens it
    with its [keytab] and asks a replay cache ([rcache]).

    ** Conventions

    A Go string or byte slice is a list of bytes, an integer a [Z] that is
    wrapped at its width where the code can overflow, a time the number of
    nanoseconds since 1970, a nil pointer [None].  A function that may fail
    returns [res], whose [Err] has the message of the source without the
    numbers it prints, and whose [Panic] is a run-time panic.  The handlers of
    the KDC return [E]: an error reply or a crash, or a value.  State is passed
    explicitly; the clock, random bytes and the answers of plug-ins are
    arguments.  Primitives that the repository takes from elsewhere (AES, the
    hash functions and the elliptic-curve groups) are type classes with the laws
    that their documentation states, and every theorem about them is applied to
    a toy instance of the laws.  Operations on shared state are single steps:
    those of the database and of the caches hold their lock for their whole
    body in the source, and locks are not modelled.

    ** Files

    - [Prelude]: results, bytes, machine integers, list and arithmetic lemmas.
    - [Binfmt] ([internal/binfmt]): the bounds-checked reader and writers.
    - [Principal] ([principal]): parsing and printing of names.
    - [Keytab] ([keytab]): the file codec, the in-memory keytab, resolution.
    - [RCache] ([rcache]): the file2 hash-table file and the memory cache.
    - [Lookaside] ([kdc/lookaside.go], [kpasswd/lookaside.go]): reply caches,
      refined to an abstract queue.
    - [Cts], [Camellia], [NFold], [Crypto] ([crypto] and its subpackages): CBC
      with ciphertext stealing, CMAC, the Camellia block cipher, n-fold, and the
      encryption types with derivation, checksums, PRF and string-to-key.
    - [Ulog], [Kdb] ([kdb/ulog.go], [kdb/kdb.go]): the update log and the
      database with its policies, history, aliases and replication.
    - [GoStrings]: what the source uses of [strings], [strconv] and [utf8].
    - [Transited] ([kdc/transited.go]): transited realms.
    - [Protocol], [GoTime] ([protocol], [types]): messages and time values.
    - [Asn1] ([asn1]): the reflective DER codec over a universe of Go types;
      [Wire] instantiates it at the messages of [protocol.go]; [Asn1Total] shows
      when encoding cannot fail, and [Messages] which messages that covers and
      how long they get.
    - [Cammac] ([cammac]), [Pac], [PacData] ([pac]): protected authorization
      data; signatures, containers, and the NDR codec of the PAC buffers.
    - [KdcPolicy] ([kdc/policy.go], [policy_plugins.go], parts of [kdc.go] and
      [as.go]), [KdcCommon] ([kdc.go], [fast.go], [pac.go]) and [KdcTgs]
      ([tgs.go], [authdata.go]): the ticket-granting service, up to the bytes of
      the reply.
    - [Spake] ([spake]): the password-authenticated key exchange.
    - [Preauth] ([preauth], [otp]) and [KdcPreauth] ([kdc/preauth.go], the SPAKE
      cookies of [kdc.go], [pkinit_freshness.go]): pre-authentication on both
      sides.
    - [KdcAs] ([kdc/as.go]): the authentication service; [KdcServer] ([kdc.go]):
      dispatch of messages with the reply cache.
    - [Fast] ([fast]) and [ClientAs] ([client/as.go], [client/client.go]): the
      armor and the authentication exchange of the client.
    - [Ap] ([ap/ap.go]): the exchange between a client and a service.
    - [Login]: the client of [ClientAs] against the KDC of [KdcServer].

    ** What the theorems show

    - Codecs: what is written is read back (keytabs, principals, DER messages,
      PAC containers and buffers, transited paths), decoding is typed and stays in
      range, and, where the format is canonical, what is read is written back byte
      for byte.
    - Cryptography: decryption undoes encryption and accepts nothing else but
      encryptions, checksums verify, the bitwise n-fold is the residue it
      computes, Camellia is a permutation, the two sides of SPAKE agree.
    - State: a replay cache detects every replay, a replica converges to the
      primary, lookups find the principal named, the password history window
      holds, reply caches implement a bounded queue.
    - The KDC: a ticket is issued only to the holder of a ticket and of its session
      key, for this request and once; a ticket marked as pre-authenticated only
      after one of the mechanisms has succeeded; the times are bounded by every
      limit; accounts lock; the PAC of an issued ticket verifies; a request sent
      again is answered with the first reply.
    - The exchanges end to end: a client with the right key and an account in
      order logs in; a client and a service with a valid ticket authenticate each
      other; the service accepts nothing but the authenticator of the client the
      ticket names, and accepts it once.
    - Errors: theorems of kind [error] show behaviour that the source does not
      mean to have, each by a concrete run or for every input of a class.

    ** Bounds and fuel

    Loops over a slice are structural.  The codec descends at most [maxDepth]
    levels, the constant of the source, and its fuel is that depth.  The file2
    cache probes tables of doubling size; its fuel is a bound on the number of
    tables that fit the largest file offset, and [file2_store_total_sound] shows it
    is never used up.  Readers take the length of their input as fuel and consume
    at least a byte per step.  The theorems about whole exchanges ask that names
    and tickets stay below a gigabyte, so that every length fits the 32 bits of
    the codec, and that clocks lie between 1970 and the year 9575, since the codec
    writes years with four digits.

    ** Not modelled

    Sockets, files, DNS, the kernel keyring, the Windows LSA, logging, tracing
    and the commands are input and output.  PKINIT rests on the X.509, CMS and
    big-number code of the Go library; where the KDC verifies such a request the
    outcome is an argument.  Audit and authorization plug-ins are code of the
    application; where the KDC consults one, its answer is an argument.  The
    client side of the ticket-granting exchange, KRB-SAFE and KRB-PRIV messages,
    GSS-API, credential caches and the administration protocols are not
    modelled. *)

From Stdlib Require Export ZArith Lia.
From Stdlib Require Import String Strings.Byte.
From stdpp Require Export base tactics option list numbers gmap strings sorting.

Declare Scope go_scope.
Delimit Scope go_scope with go.

(** ** Results of fallible Go code

    [Ok v] is a return with a nil error, [Err m] a return with the error [m],
    [Panic] a run-time panic (an index or a slice bound out of range). *)
Inductive res (A : Type) : Type :=
| Ok (a : A)
| Err (msg : string)
| Panic.
Arguments Ok {A} a.
Arguments Err {A} msg.
Arguments Panic {A}.

Definition res_bind {A B} (c : res A) (k : A → res B) : res B :=
  match c with
  | Ok a => k a
  | Err m => Err m
  | Panic => Panic
  end.

(** [fmt.Errorf] with a prefix and a wrapped error. *)
Definition wrap_err {A} (prefix : string) (c : res A) : res A :=
  match c with
  | Err m => Err (String.append prefix m)
  | r => r
  end.

Notation "'let!' x ':=' c 'in' k" := (res_bind c (λ x, k))
  (at level 10, x name, c at level 100, k at level 200,
   format "'[v' 'let!'  x  ':='  c  'in' '/' k ']'") : go_scope.
Notation "'let!' ' p ':=' c 'in' k" := (res_bind c (λ x, match x with p => k end))
  (at level 10, p pattern, c at level 100, k at level 200,
   format "'[v' 'let!'  ' p  ':='  c  'in' '/' k ']'") : go_scope.
Notation "'guard!' b 'else' m 'in' k" := (if b then k else Err m)
  (at level 10, b at level 100, m at level 100, k at level 200,
   format "'[v' 'guard!'  b  'else'  m  'in' '/' k ']'") : go_scope.

Definition is_ok {A} (r : res A) : bool :=
  match r with Ok _ => true | _ => false end.

(** ** Bytes and machine integers *)

Abbreviation byte := Byte.byte.
Abbreviation bytes := (list Byte.byte).

#[global] Instance byte_eq_decision : EqDecision byte := Byte.byte_eq_dec.
#[global] Program Instance byte_countable : Countable byte :=
  {| encode b := encode (Byte.to_N b);
     decode p := n ← decode p; Byte.of_N n |}.
Next Obligation. intros b; cbn. rewrite decode_encode; cbn. apply Byte.of_to_N. Qed.

(** The unsigned value of a byte, and Go's [byte(x)] conversion. *)
Definition b2z (b : byte) : Z := Z.of_N (Byte.to_N b).
Definition z2b (z : Z) : byte :=
  match Byte.of_N (Z.to_N (z mod 256)) with Some b => b | None => Byte.x00 end.

(** A Go string literal, as its bytes. *)
Definition str (s : string) : bytes := String.list_byte_of_string s.
Definition chr (n : Z) : byte := z2b n.

Definition u8 (z : Z) : Z := (z mod 2 ^ 8)%Z.
Definition u16 (z : Z) : Z := (z mod 2 ^ 16)%Z.
Definition u32 (z : Z) : Z := (z mod 2 ^ 32)%Z.
Definition u64 (z : Z) : Z := (z mod 2 ^ 64)%Z.
Definition signed (w z : Z) : Z :=
  (let u := z mod 2 ^ w in if u <? 2 ^ (w - 1) then u else u - 2 ^ w)%Z.
Definition i16 (z : Z) : Z := signed 16 z.
Definition i32 (z : Z) : Z := signed 32 z.
Definition i64 (z : Z) : Z := signed 64 z.

(** [encoding/binary]: big-endian and little-endian unsigned integers. *)
Fixpoint be_bytes (n : nat) (z : Z) : bytes :=
  match n with
  | O => []
  | S n' => z2b (Z.shiftr z (8 * Z.of_nat n')%Z) :: be_bytes n' z
  end.
Fixpoint be_value (l : bytes) : Z :=
  match l with
  | [] => 0%Z
  | b :: l' => (b2z b * 256 ^ Z.of_nat (length l') + be_value l')%Z
  end.
Definition le_bytes (n : nat) (z : Z) : bytes := rev (be_bytes n z).
Definition le_value (l : bytes) : Z := be_value (rev l).

Definition zlen {A} (l : list A) : Z := Z.of_nat (length l).

(** [l[i:j]] on a slice or a string; out of range it panics. *)
Definition go_slice {A} (l : list A) (i j : Z) : res (list A) :=
  if ((0 <=? i) && (i <=? j) && (j <=? zlen l))%Z
  then Ok (take (Z.to_nat (j - i)) (drop (Z.to_nat i) l))
  else Panic.
(** [l[i]]. *)
Definition go_index {A} (l : list A) (i : Z) : res A :=
  if (i <? 0)%Z then Panic
  else match l !! Z.to_nat i with Some x => Ok x | None => Panic end.

(** [strings.HasPrefix], [strings.HasSuffix], [strings.Join], [strings.Split] on one byte. *)
Fixpoint has_prefix (s p : bytes) {struct p} : bool :=
  match p, s with
  | [], _ => true
  | b :: p', c :: s' => Byte.eqb b c && has_prefix s' p'
  | _ :: _, [] => false
  end.
Definition has_suffix (s p : bytes) : bool := has_prefix (rev s) (rev p).
Fixpoint strings_join (sep : bytes) (l : list bytes) : bytes :=
  match l with
  | [] => []
  | [x] => x
  | x :: l' => x ++ sep ++ strings_join sep l'
  end.
Fixpoint split_byte (sep : byte) (s : bytes) : list bytes :=
  match s with
  | [] => [[]]
  | b :: s' =>
      if Byte.eqb b sep then [] :: split_byte sep s'
      else match split_byte sep s' with
           | [] => [[b]]
           | f :: fs => (b :: f) :: fs
           end
  end.
Definition bytes_eqb (a b : bytes) : bool := bool_decide (a = b).

(** ** Lemmas on results *)

Create HintDb go discriminated.

Lemma res_bind_Ok {A B} (c : res A) (k : A → res B) (b : B) :
  res_bind c k = Ok b ↔ ∃ a, c = Ok a ∧ k a = Ok b.
Proof. destruct c; cbn; naive_solver. Qed.

Lemma res_bind_assoc {A B C} (c : res A) (k : A → res B) (h : B → res C) :
  res_bind (res_bind c k) h = res_bind c (λ a, res_bind (k a) h).
Proof. by destruct c. Qed.

Lemma wrap_err_Ok {A} p (c : res A) (a : A) : wrap_err p c = Ok a ↔ c = Ok a.
Proof. destruct c; cbn; naive_solver. Qed.

Lemma Ok_inj {A} (a b : A) : Ok a = Ok b → a = b.
Proof. by intros [= ->]. Qed.

(** [inv_res] splits hypotheses that say a computation returned [Ok]. *)
Ltac inv_res :=
  repeat match goal with
  | H : res_bind _ _ = Ok _ |- _ =>
      apply res_bind_Ok in H; destruct H as (?&?&?)
  | H : wrap_err _ _ = Ok _ |- _ => apply wrap_err_Ok in H
  | H : Ok _ = Ok _ |- _ => apply Ok_inj in H
  | H : Err _ = Ok _ |- _ => discriminate H
  | H : Panic = Ok _ |- _ => discriminate H
  | H : (if ?b then _ else Err _) = Ok _ |- _ => destruct b eqn:?; [|discriminate H]
  | H : (if ?b then Err _ else _) = Ok _ |- _ => destruct b eqn:?; [discriminate H|]
  end.

(** Case analysis on the boolean tests of the code. *)
Ltac bool_cases :=
  repeat match goal with
  | H : (_ && _)%bool = true |- _ => apply andb_true_iff in H; destruct H
  | H : (_ || _)%bool = false |- _ => apply orb_false_iff in H; destruct H
  | H : negb _ = true |- _ => apply negb_true_iff in H
  | H : negb _ = false |- _ => apply negb_false_iff in H
  | H : bool_decide _ = true |- _ => apply bool_decide_eq_true in H
  | H : bool_decide _ = false |- _ => apply bool_decide_eq_false in H
  | H : (_ <? _)%Z = true |- _ => apply Z.ltb_lt in H
  | H : (_ <? _)%Z = false |- _ => apply Z.ltb_ge in H
  | H : (_ <=? _)%Z = true |- _ => apply Z.leb_le in H
  | H : (_ <=? _)%Z = false |- _ => apply Z.leb_gt in H
  | H : (_ =? _)%Z = true |- _ => apply Z.eqb_eq in H
  | H : (_ =? _)%Z = false |- _ => apply Z.eqb_neq in H
  | H : Byte.eqb _ _ = true |- _ => apply Byte.byte_dec_bl in H
  end.

(** ** Lemmas on bytes *)

Section byte_lemmas.
Local Open Scope Z_scope.

Lemma b2z_range b : 0 <= b2z b < 256.
Proof. unfold b2z. pose proof (Byte.to_N_bounded b). lia. Qed.

Lemma b2z_inj b c : b2z b = b2z c → b = c.
Proof.
  unfold b2z. intros H%N2Z.inj. apply (f_equal Byte.of_N) in H.
  rewrite !Byte.of_to_N in H. by injection H.
Qed.

Lemma b2z_z2b z : b2z (z2b z) = z mod 256.
Proof.
  unfold z2b, b2z. pose proof (Z.mod_pos_bound z 256 ltac:(lia)) as Hb.
  destruct (Byte.of_N (Z.to_N (z mod 256))) as [b|] eqn:E.
  - apply Byte.to_of_N in E. rewrite E. lia.
  - apply Byte.of_N_None_iff in E. lia.
Qed.

Lemma z2b_b2z b : z2b (b2z b) = b.
Proof. apply b2z_inj. rewrite b2z_z2b. apply Z.mod_small, b2z_range. Qed.

Lemma z2b_mod z : z2b (z mod 256) = z2b z.
Proof. apply b2z_inj. rewrite !b2z_z2b. apply Z.mod_mod. lia. Qed.

Lemma byte_eqb_refl b : Byte.eqb b b = true.
Proof. by apply Byte.byte_dec_lb. Qed.

Lemma byte_eqb_ne b c : b ≠ c → Byte.eqb b c = false.
Proof.
  intros H. destruct (Byte.eqb b c) eqn:E; [|done]. by apply Byte.byte_dec_bl in E.
Qed.

Lemma length_be_bytes n z : length (be_bytes n z) = n.
Proof. induction n; cbn; by f_equal. Qed.

Lemma be_value_range l : 0 <= be_value l < 256 ^ zlen l.
Proof.
  unfold zlen. induction l as [|b l IH]; cbn [be_value length]; [lia|].
  pose proof (b2z_range b). rewrite Nat2Z.inj_succ, Z.pow_succ_r by lia. nia.
Qed.

Lemma be_value_bytes n z : be_value (be_bytes n z) = z mod 256 ^ Z.of_nat n.
Proof.
  induction n as [|n IH]; cbn [be_bytes be_value]; [by rewrite Z.mod_1_r|].
  rewrite IH, length_be_bytes, b2z_z2b, Z.shiftr_div_pow2 by lia.
  rewrite Z.pow_mul_r by lia. change (2 ^ 8) with 256.
  rewrite Nat2Z.inj_succ, Z.pow_succ_r by lia.
  rewrite (Z.mul_comm 256), (Z.rem_mul_r z) by lia. lia.
Qed.

Lemma be_bytes_mod n k z :
  Z.of_nat n <= k → be_bytes n (z mod 256 ^ k) = be_bytes n z.
Proof.
  intros Hk. induction n as [|n IH]; cbn [be_bytes]; [done|]. f_equal; [|apply IH; lia].
  apply b2z_inj. rewrite !b2z_z2b, !Z.shiftr_div_pow2 by lia.
  rewrite Z.pow_mul_r by lia. change (2 ^ 8) with 256.
  replace (256 ^ k) with (256 ^ Z.of_nat n * (256 * 256 ^ (k - Z.of_nat n - 1))).
  - rewrite Z.rem_mul_r by nia.
    rewrite Z.mul_comm, Z.div_add by lia.
    rewrite (Z.div_small (z mod _)) by (apply Z.mod_pos_bound; lia).
    rewrite Z.rem_mul_r by lia.
    rewrite Z.add_0_l, (Z.mul_comm 256), Z.mod_add by lia. apply Z.mod_mod; lia.
  - rewrite <- Z.pow_succ_r, <- Z.pow_add_r by lia. f_equal; lia.
Qed.

Lemma be_bytes_value l : be_bytes (length l) (be_value l) = l.
Proof.
  induction l as [|b l IH]; cbn [be_bytes be_value length]; [done|].
  pose proof (be_value_range l) as Hr. unfold zlen in Hr.
  f_equal.
  - apply b2z_inj. rewrite b2z_z2b, Z.shiftr_div_pow2 by lia.
    rewrite Z.pow_mul_r by lia. change (2 ^ 8) with 256.
    rewrite Z.div_add_l, Z.div_small by lia.
    rewrite Z.add_0_r. apply Z.mod_small, b2z_range.
  - rewrite <- (be_bytes_mod _ (Z.of_nat (length l))) by lia.
    rewrite Z.add_comm, Z.mod_add, Z.mod_small by lia. apply IH.
Qed.

Lemma be_value_app l k : be_value (l ++ k) = be_value l * 256 ^ zlen k + be_value k.
Proof.
  unfold zlen. induction l as [|b l IH]; cbn [be_value app]; [lia|].
  rewrite IH, length_app, Nat2Z.inj_add, Z.pow_add_r by lia. lia.
Qed.

End byte_lemmas.

Lemma zlen_app {A} (l k : list A) : zlen (l ++ k) = (zlen l + zlen k)%Z.
Proof. unfold zlen. rewrite length_app. lia. Qed.

Lemma zlen_nonneg {A} (l : list A) : (0 <= zlen l)%Z.
Proof. unfold zlen. lia. Qed.

Lemma zlen_nil {A} : zlen (@nil A) = 0%Z.
Proof. done. Qed.

Lemma zlen_cons {A} (x : A) l : zlen (x :: l) = (1 + zlen l)%Z.
Proof. unfold zlen. cbn [length]. lia. Qed.

Lemma zlen_be_bytes n z : zlen (be_bytes n z) = Z.of_nat n.
Proof. unfold zlen. by rewrite length_be_bytes. Qed.


Lemma le_value_range l : (0 <= le_value l < 256 ^ zlen l)%Z.
Proof. unfold le_value. pose proof (be_value_range (rev l)). unfold zlen in *. by rewrite length_rev in *. Qed.
Lemma length_le_bytes n z : length (le_bytes n z) = n.
Proof. unfold le_bytes. by rewrite length_rev, length_be_bytes. Qed.
Lemma zlen_le_bytes n z : zlen (le_bytes n z) = Z.of_nat n.
Proof. unfold zlen. by rewrite length_le_bytes. Qed.
Lemma le_value_bytes n z : (0 <= z < 256 ^ Z.of_nat n)%Z → le_value (le_bytes n z) = z.
Proof. intros Hz. unfold le_value, le_bytes. rewrite rev_involutive, be_value_bytes. by apply Z.mod_small. Qed.

Create Rewrite HintDb zlen.
#[export] Hint Rewrite @zlen_app @zlen_nil @zlen_cons zlen_be_bytes : zlen.

Lemma has_prefix_spec s p : has_prefix s p = true ↔ ∃ k, s = p ++ k.
Proof.
  revert s. induction p as [|b p IH]; intros s; cbn.
  - split; [by exists s|done].
  - destruct s as [|c s]; [split; [done|by intros [k ?]]|].
    rewrite andb_true_iff, IH. split.
    + intros [->%Byte.byte_dec_bl [k ->]]. by exists k.
    + intros [k [= -> ->]]. split; [apply byte_eqb_refl|by exists k].
Qed.

Lemma has_suffix_spec s p : has_suffix s p = true ↔ ∃ k, s = k ++ p.
Proof.
  unfold has_suffix. rewrite has_prefix_spec. split; intros [k Hk].
  - exists (rev k). apply (f_equal (@rev byte)) in Hk.
    by rewrite rev_involutive, rev_app_distr, rev_involutive in Hk.
  - exists (rev k). by rewrite Hk, rev_app_distr.
Qed.

Lemma filter_all {A} (P : A → Prop) `{∀ x, Decision (P x)} (l : list A) :
  (∀ x, x ∈ l → P x) → filter P l = l.
Proof.
  induction l as [|x l IH]; intros HP; [done|].
  rewrite filter_cons_True by (apply HP; set_solver). f_equal. apply IH. set_solver.
Qed.

(** ** Two's complement *)

Lemma signed_mod w z : (0 < w → - 2 ^ (w - 1) <= z < 2 ^ (w - 1) → signed w (z mod 2 ^ w) = z)%Z.
Proof.
  intros Hw Hz. assert (Hp : (2 ^ w = 2 * 2 ^ (w - 1))%Z) by (rewrite <- Z.pow_succ_r by lia; f_equal; lia).
  unfold signed. rewrite Z.mod_mod by lia. rewrite Hp. set (M := (2 ^ (w - 1))%Z) in *. clearbody M. destruct (Z.neg_nonneg_cases z).
  - rewrite <- (Z.mod_unique_pos z (2 * M) (-1) (z + 2 * M))%Z by lia. destruct (Z.ltb_spec (z + 2 * M)%Z M); lia.
  - rewrite Z.mod_small by lia. destruct (Z.ltb_spec z M); lia.
Qed.
Lemma i32_u32 z : (- 2 ^ 31 <= z < 2 ^ 31 → i32 (u32 z) = z)%Z.
Proof. by apply (signed_mod 32). Qed.
Lemma i64_u64 z : (- 2 ^ 63 <= z < 2 ^ 63 → i64 (u64 z) = z)%Z.
Proof. by apply (signed_mod 64). Qed.
Lemma i64_id z : (- 2 ^ 63 <= z < 2 ^ 63 → i64 z = z)%Z.
Proof. intros Hz. rewrite <- (i64_u64 z) at 2 by done. unfold i64, signed, u64. by rewrite Z.mod_mod. Qed.

(** ** Bit operations on bounded numbers *)

Lemma range_bits n a :
  (0 <= n → (0 <= a < 2 ^ n ↔ 0 <= a ∧ ∀ i, n <= i → Z.testbit a i = false))%Z.
Proof.
  intros Hn. split.
  - intros Ha. split; [lia|]. intros i Hi. rewrite <- (Z.mod_small a (2 ^ n)) by lia.
    apply Z.mod_pow2_bits_high. lia.
  - intros [Ha Hb]. split; [done|]. destruct (Z.eq_dec a 0%Z) as [->|Hne]; [apply Z.pow_pos_nonneg; lia|].
    destruct (Z_lt_ge_dec a (2 ^ n)%Z) as [|Hge]; [done|]. exfalso.
    assert (n <= Z.log2 a)%Z as Hlog by (apply Z.log2_le_pow2; lia).
    pose proof (Z.bit_log2 a ltac:(lia)) as Hbit.
    rewrite Hb in Hbit by done. done.
Qed.

Lemma lxor_range n a b : (0 <= n → 0 <= a < 2 ^ n → 0 <= b < 2 ^ n → 0 <= Z.lxor a b < 2 ^ n)%Z.
Proof.
  intros Hn. rewrite !range_bits by done. intros [Ha Ha'] [Hb Hb']. split; [by apply Z.lxor_nonneg|].
  intros i Hi. by rewrite Z.lxor_spec, Ha', Hb'.
Qed.
Lemma lor_range n a b : (0 <= n → 0 <= a < 2 ^ n → 0 <= b < 2 ^ n → 0 <= Z.lor a b < 2 ^ n)%Z.
Proof.
  intros Hn. rewrite !range_bits by done. intros [Ha Ha'] [Hb Hb']. split; [by apply Z.lor_nonneg|].
  intros i Hi. by rewrite Z.lor_spec, Ha', Hb'.
Qed.
Lemma land_range n a b : (0 <= n → 0 <= a → 0 <= b < 2 ^ n → 0 <= Z.land a b < 2 ^ n)%Z.
Proof.
  intros Hn Ha. rewrite !range_bits by done. intros [Hb Hb']. split; [apply Z.land_nonneg; by left|].
  intros i Hi. by rewrite Z.land_spec, Hb', andb_false_r.
Qed.
Lemma lxor_cancel a b : Z.lxor (Z.lxor a b) b = a.
Proof. by rewrite Z.lxor_assoc, Z.lxor_nilpotent, Z.lxor_0_r. Qed.

Lemma land_shiftl_low n a z : (0 <= n → 0 <= z < 2 ^ n → Z.land (Z.shiftl a n) z = 0)%Z.
Proof.
  intros Hn Hz. apply range_bits in Hz as [Hz Hb]; [|done].
  apply Z.bits_inj'. intros i Hi. rewrite Z.land_spec, Z.shiftl_spec, Z.bits_0 by done.
  destruct (Z_lt_ge_dec i n).
  - by rewrite (Z.testbit_neg_r a) by lia.
  - by rewrite Hb, andb_false_r by lia.
Qed.
Lemma lor_shiftl n a z : (0 <= n → 0 <= z < 2 ^ n → Z.lor (Z.shiftl a n) z = a * 2 ^ n + z)%Z.
Proof.
  intros Hn Hz. rewrite <- Z.lxor_lor, <- Z.add_nocarry_lxor by (by apply land_shiftl_low).
  by rewrite Z.shiftl_mul_pow2.
Qed.
Lemma lxor_shiftl_low n a z c :
  (0 <= n → 0 <= z < 2 ^ n → 0 <= c < 2 ^ n →
   Z.lxor (a * 2 ^ n + z) c = a * 2 ^ n + Z.lxor z c)%Z.
Proof.
  intros Hn Hz Hc. pose proof (lxor_range n z c Hn Hz Hc) as Hr.
  rewrite <- Z.shiftl_mul_pow2 by done.
  rewrite !Z.add_nocarry_lxor by (by apply land_shiftl_low). by rewrite Z.lxor_assoc.
Qed.
