(* ===== verification/Binfmt.v ===== *)
(** * Bounded big-endian cursors (src/krb5/internal/binfmt/binfmt.go)

    [Reader] is the cursor over a byte slice; an operation takes the reader and
    returns the value with the advanced reader.  A writer is the byte buffer
    written so far.  [reads] states that a parser consumes exactly the bytes of
    one encoding wherever they stand in the input; the file formats are proved
    against it. *)

From S2P Require Import Prelude.
Local Open Scope Z_scope.
Local Open Scope go_scope.

Record Reader := mkReader { data : bytes; off : Z }.

Definition NewReader (d : bytes) : Reader := mkReader d 0.
Definition NewReaderAt (d : bytes) (offset : Z) : Reader := mkReader d offset.
Definition Remaining (r : Reader) : Z := zlen (data r) - off r.
Definition Offset (r : Reader) : Z := off r.

(** [Bytes(n)] *)
Definition Bytes (r : Reader) (n : Z) : res (bytes * Reader) :=
  if ((n <? 0) || (Remaining r <? n))%bool then Err "truncated field"
  else let! value := go_slice (data r) (off r) (off r + n) in
       Ok (value, mkReader (data r) (off r + n)).

Definition U8 (r : Reader) : res (Z * Reader) :=
  let! '(value, r') := Bytes r 1 in
  let! b := go_index value 0 in
  Ok (b2z b, r').

(** [binary.BigEndian.Uint16] and [Uint32] of the bytes just read. *)
Definition U16 (r : Reader) : res (Z * Reader) :=
  let! '(value, r') := Bytes r 2 in
  Ok (be_value (take 2 value), r').

Definition U32 (r : Reader) : res (Z * Reader) :=
  let! '(value, r') := Bytes r 4 in
  Ok (be_value (take 4 value), r').

Definition Counted16 (r : Reader) : res (bytes * Reader) :=
  let! '(length, r') := U16 r in
  Bytes r' length.

(** [uint64(r.Remaining())] wraps a negative remainder to a huge value. *)
Definition Counted32 (r : Reader) : res (bytes * Reader) :=
  let! '(length, r') := U32 r in
  if u64 (Remaining r') <? u64 length then Err "truncated counted field"
  else Bytes r' length.

Definition WriteCounted16 (w value : bytes) : res bytes :=
  if 65535 <? u64 (zlen value) then Err "field is too long"
  else Ok ((w ++ be_bytes 2 (u16 (zlen value))) ++ value).

Definition WriteCounted32 (w value : bytes) : res bytes :=
  if 4294967295 <? u64 (zlen value) then Err "field is too long"
  else Ok ((w ++ be_bytes 4 (u32 (zlen value))) ++ value).

(** ** Parsers that consume one encoding *)

(** [reads p e a]: started at [e] anywhere in a buffer, [p] returns [a] and
    stops right after [e]. *)
Definition reads {A} (p : Reader → res (A * Reader)) (e : bytes) (a : A) : Prop :=
  ∀ pre post,
    p (mkReader (pre ++ e ++ post) (zlen pre)) =
    Ok (a, mkReader (pre ++ e ++ post) (zlen pre + zlen e)).

(** A reader whose offset lies in its data. *)
Definition reader_ok (r : Reader) : Prop := 0 <= off r <= zlen (data r).

Create HintDb binfmt discriminated.

Lemma go_slice_mid {A} (pre e post : list A) :
  go_slice (pre ++ e ++ post) (zlen pre) (zlen pre + zlen e) = Ok e.
Proof.
  unfold go_slice. pose proof (zlen_nonneg pre). pose proof (zlen_nonneg e).
  pose proof (zlen_nonneg post). rewrite !zlen_app.
  rewrite !(proj2 (Z.leb_le _ _)) by lia. cbn [andb].
  replace (zlen pre + zlen e - zlen pre) with (zlen e) by lia.
  unfold zlen. rewrite !Nat2Z.id, drop_app_length, take_app_length. done.
Qed.

Lemma reads_Bytes e n : zlen e = n → reads (λ r, Bytes r n) e e.
Proof.
  intros <- pre post. unfold Bytes, Remaining. cbn [data off].
  pose proof (zlen_nonneg e). pose proof (zlen_nonneg post).
  rewrite (proj2 (Z.ltb_ge (zlen e) 0)), (proj2 (Z.ltb_ge _ (zlen e))) by
    (rewrite ?zlen_app; lia).
  cbn [orb]. by rewrite go_slice_mid.
Qed.

Lemma reads_bind {A B} (p : Reader → res (A * Reader)) k e1 e2 (a : A) (b : B) :
  reads p e1 a → reads (k a) e2 b →
  reads (λ r, res_bind (p r) (λ x, let '(v, r') := x in k v r')) (e1 ++ e2) b.
Proof.
  intros H1 H2 pre post. specialize (H1 pre (e2 ++ post)).
  specialize (H2 (pre ++ e1) post).
  replace (pre ++ (e1 ++ e2) ++ post) with (pre ++ e1 ++ e2 ++ post)
    by (by rewrite <- !app_assoc).
  rewrite H1. cbn [res_bind].
  rewrite !zlen_app in H2. rewrite <- !app_assoc in H2. rewrite H2, zlen_app.
  do 2 f_equal. f_equal. lia.
Qed.

(** One step of a parser standing at the encoding it expects. *)
Lemma reads_step {A B} (p : Reader → res (A * Reader)) (k : A * Reader → res B) pre e post a :
  reads p e a →
  res_bind (p (mkReader (pre ++ (e ++ post)) (zlen pre))) k =
  k (a, mkReader ((pre ++ e) ++ post) (zlen (pre ++ e))).
Proof. intros H. rewrite H. cbn [res_bind]. by rewrite zlen_app, <- app_assoc. Qed.

Lemma reads_ret {A} (a : A) : reads (λ r, Ok (a, r)) [] a.
Proof. intros pre post. cbn. do 2 f_equal. rewrite zlen_nil. f_equal. lia. Qed.

Lemma reads_map {A B} (p : Reader → res (A * Reader)) (f : A → B) e a :
  reads p e a → reads (λ r, res_bind (p r) (λ x, let '(v, r') := x in Ok (f v, r'))) e (f a).
Proof.
  intros Hp. rewrite <- (app_nil_r e) at 1.
  apply (reads_bind p (λ v r', Ok (f v, r')) e [] a); [done|apply reads_ret].
Qed.

Lemma reads_U8 z : reads U8 (be_bytes 1 z) (z mod 256).
Proof.
  intros pre post. unfold U8. rewrite (reads_Bytes (be_bytes 1 z) 1) by done.
  cbn [res_bind be_bytes]. unfold go_index.
  change (Z.to_nat 0) with 0%nat. cbn [Z.ltb Z.compare lookup list_lookup res_bind].
  by rewrite b2z_z2b, Z.shiftr_0_r.
Qed.

Lemma reads_U16 z : reads U16 (be_bytes 2 z) (z mod 2 ^ 16).
Proof.
  intros pre post. unfold U16. rewrite (reads_Bytes (be_bytes 2 z) 2) by done.
  cbn [res_bind]. rewrite (firstn_all2 (be_bytes 2 z)) by done.
  by rewrite be_value_bytes.
Qed.

Lemma reads_U32 z : reads U32 (be_bytes 4 z) (z mod 2 ^ 32).
Proof.
  intros pre post. unfold U32. rewrite (reads_Bytes (be_bytes 4 z) 4) by done.
  cbn [res_bind]. rewrite (firstn_all2 (be_bytes 4 z)) by done.
  by rewrite be_value_bytes.
Qed.

Lemma reads_Counted16 v :
  zlen v <= 65535 → reads Counted16 (be_bytes 2 (u16 (zlen v)) ++ v) v.
Proof.
  intros Hv. unfold Counted16. eapply reads_bind; [apply reads_U16|].
  apply reads_Bytes. unfold u16. pose proof (zlen_nonneg v).
  rewrite !Z.mod_small; rewrite ?Z.mod_small; lia.
Qed.

Lemma u64_small z : 0 <= z < 2 ^ 64 → u64 z = z.
Proof. apply Z.mod_small. Qed.

Lemma WriteCounted16_ok w v :
  zlen v <= 65535 →
  WriteCounted16 w v = Ok (w ++ (be_bytes 2 (u16 (zlen v)) ++ v)).
Proof.
  intros Hv. unfold WriteCounted16. pose proof (zlen_nonneg v).
  rewrite u64_small, (proj2 (Z.ltb_ge _ _)) by lia. by rewrite app_assoc.
Qed.

(** Cursor safety: no operation panics or leaves the data. *)
Lemma Bytes_safe r n :
  reader_ok r →
  match Bytes r n with
  | Ok (v, r') => zlen v = n ∧ reader_ok r' ∧ data r' = data r ∧ off r' = off r + n
  | Err _ => True
  | Panic => False
  end.
Proof.
  intros [H0 H1]. unfold Bytes, Remaining.
  destruct ((n <? 0) || _)%bool eqn:E; [done|]. bool_cases.
  unfold go_slice. rewrite !(proj2 (Z.leb_le _ _)) by lia.
  cbn [andb res_bind data off]. unfold reader_ok; cbn [data off].
  repeat split; try lia.
  unfold zlen in *. rewrite length_take, length_drop. lia.
Qed.

(** [safe p]: on a cursor inside its data, [p] never panics and leaves the
    cursor inside the same data. *)
Definition safe {A} (p : Reader → res (A * Reader)) : Prop :=
  ∀ r, reader_ok r →
    match p r with
    | Ok (_, r') => reader_ok r' ∧ data r' = data r
    | Err _ => True
    | Panic => False
    end.

Lemma safe_Bytes n : safe (λ r, Bytes r n).
Proof.
  intros r Hr. cbn beta. pose proof (Bytes_safe r n Hr) as H.
  destruct (Bytes r n) as [[v r']| |]; tauto.
Qed.

Lemma safe_bind {A B} (p : Reader → res (A * Reader)) (k : A → Reader → res (B * Reader)) :
  safe p → (∀ a, safe (k a)) →
  safe (λ r, res_bind (p r) (λ x, let '(v, r') := x in k v r')).
Proof.
  intros Hp Hk r Hr. specialize (Hp r Hr). cbn beta. destruct (p r) as [[a r']| |]; cbn; [|done..].
  destruct Hp as [Hr' Hd]. specialize (Hk a r' Hr').
  destruct (k a r') as [[b r2]| |]; [|done..]. destruct Hk; split; congruence.
Qed.

Lemma safe_ret {A} (a : A) : safe (λ r, Ok (a, r)).
Proof. intros r Hr. done. Qed.

Lemma safe_U8 : safe U8.
Proof.
  intros r Hr. unfold U8. pose proof (Bytes_safe r 1 Hr) as H.
  destruct (Bytes r 1) as [[v r']| |]; cbn [res_bind]; [|done..].
  destruct H as (Hl&Hr'&Hd&_). destruct v as [|b v]; [done|]. by cbn.
Qed.

Lemma safe_U16 : safe U16.
Proof.
  intros r Hr. unfold U16. pose proof (safe_Bytes 2 r Hr) as H. cbn beta in H.
  destruct (Bytes r 2) as [[v r']| |]; cbn; tauto.
Qed.

Lemma safe_U32 : safe U32.
Proof.
  intros r Hr. unfold U32. pose proof (safe_Bytes 4 r Hr) as H. cbn beta in H.
  destruct (Bytes r 4) as [[v r']| |]; cbn; tauto.
Qed.

Lemma safe_Counted16 : safe Counted16.
Proof. apply (safe_bind U16 (λ n r, Bytes r n)); [apply safe_U16|intros; apply safe_Bytes]. Qed.

Lemma safe_Counted32 : safe Counted32.
Proof.
  apply (safe_bind U32 (λ n r', if u64 (Remaining r') <? u64 n
    then Err "truncated counted field" else Bytes r' n)); [apply safe_U32|].
  intros n r Hr. destruct (u64 _ <? u64 _); [done|by apply safe_Bytes].
Qed.

#[export] Hint Resolve safe_Bytes safe_U8 safe_U16 safe_U32 safe_Counted16 safe_Counted32
  safe_ret : binfmt.

(** The use of [safe] at the end of a chain of reads. *)
Lemma safe_step {A B} (p : Reader → res (A * Reader)) (k : A * Reader → res B) r :
  safe p → reader_ok r → (∀ a r', reader_ok r' → k (a, r') ≠ Panic) →
  res_bind (p r) k ≠ Panic.
Proof.
  intros Hp Hr Hk. specialize (Hp r Hr). destruct (p r) as [[a r']| |]; cbn; [|done..].
  apply Hk, Hp.
Qed.
