(* ===== verification/Principal.v ===== *)
(** * Principal names (src/krb5/principal/principal.go)

    [Parse] reads the display form, [Format] writes it.  A Go string is its
    byte sequence. *)

From S2P Require Import Prelude.
Local Open Scope Z_scope.
Local Open Scope go_scope.

Definition NTUnknown : Z := 0.
Definition NTPrincipal : Z := 1.
Definition NTSrvInstance : Z := 2.
Definition NTSrvHst : Z := 3.
Definition NTWellKnown : Z := 11.

Record Principal := mkPrincipal {
  Realm : bytes;
  NameType : Z;
  Components : list bytes;
}.

#[global] Instance principal_eq_decision : EqDecision Principal.
Proof. solve_decision. Defined.

Definition slash : byte := Byte.x2f.
Definition at_sign : byte := Byte.x40.
Definition backslash : byte := Byte.x5c.

(** The value an escape sequence stands for: the inner [switch] of [Parse]. *)
Definition unescape_char (c : byte) : byte :=
  match c with
  | Byte.x74 => Byte.x09
  | Byte.x6e => Byte.x0a
  | Byte.x62 => Byte.x08
  | Byte.x30 => Byte.x00
  | _ => c
  end.

(** The variables of [Parse]'s loop. *)
Record parse_state := mkParseState {
  ps_components : list bytes;
  ps_component : bytes;
  ps_realm : bytes;
  ps_inRealm : bool;
}.

Definition ps_init : parse_state := mkParseState [] [] [] false.

Definition write_byte (st : parse_state) (value : byte) : parse_state :=
  if ps_inRealm st
  then mkParseState (ps_components st) (ps_component st) (ps_realm st ++ [value]) true
  else mkParseState (ps_components st) (ps_component st ++ [value]) (ps_realm st) false.

Definition flushComponent (st : parse_state) : res parse_state :=
  match ps_component st with
  | [] => Err "empty component"
  | c => Ok (mkParseState (ps_components st ++ [c]) [] (ps_realm st) (ps_inRealm st))
  end.

Fixpoint parse_loop (name : bytes) (st : parse_state) : res parse_state :=
  match name with
  | [] => Ok st
  | c :: rest =>
      match c with
      | Byte.x5c =>
          match rest with
          | [] => Err "parse principal: trailing escape"
          | e :: rest' => parse_loop rest' (write_byte st (unescape_char e))
          end
      | Byte.x2f =>
          if ps_inRealm st then Err "parse principal: slash in realm"
          else let! st' := wrap_err "parse principal: " (flushComponent st) in
               parse_loop rest st'
      | Byte.x40 =>
          if ps_inRealm st then Err "parse principal: multiple realms"
          else let! st' := wrap_err "parse principal: " (flushComponent st) in
               parse_loop rest
                 (mkParseState (ps_components st') (ps_component st') (ps_realm st') true)
      | _ => parse_loop rest (write_byte st c)
      end
  end.

Definition Parse (name : bytes) : res Principal :=
  match name with
  | [] => Err "parse principal: empty name"
  | _ =>
      let! st := parse_loop name ps_init in
      if negb (ps_inRealm st) then Err "parse principal: missing realm"
      else match ps_realm st with
           | [] => Err "parse principal: empty realm"
           | realm => Ok (mkPrincipal realm NTPrincipal (ps_components st))
           end
  end.

(** One iteration of [writeEscaped]. *)
Definition escape_char (c : byte) : bytes :=
  match c with
  | Byte.x2f | Byte.x40 | Byte.x5c => [backslash; c]
  | Byte.x09 => [backslash; Byte.x74]
  | Byte.x0a => [backslash; Byte.x6e]
  | Byte.x08 => [backslash; Byte.x62]
  | Byte.x00 => [backslash; Byte.x30]
  | _ => [c]
  end.

Fixpoint writeEscaped (out value : bytes) : bytes :=
  match value with
  | [] => out
  | c :: rest => writeEscaped (out ++ escape_char c) rest
  end.

(** The component loop of [Format]; [first] is [i == 0]. *)
Fixpoint format_components (first : bool) (out : bytes) (components : list bytes) : res bytes :=
  match components with
  | [] => Ok out
  | component :: rest =>
      match component with
      | [] => Err "format principal: empty component"
      | _ =>
          let out := if first then out else out ++ [slash] in
          format_components false (writeEscaped out component) rest
      end
  end.

Definition Format (p : Principal) : res bytes :=
  match Realm p, Components p with
  | [], _ => Err "format principal: empty realm"
  | _, [] => Err "format principal: no components"
  | _, _ =>
      let! out := format_components true [] (Components p) in
      Ok (writeEscaped (out ++ [at_sign]) (Realm p))
  end.

Definition principal_String (p : Principal) : bytes :=
  match Format p with Ok s => s | _ => [] end.

(** A principal that has a display form. *)
Definition principal_wf (p : Principal) : Prop :=
  Realm p ≠ [] ∧ Components p ≠ [] ∧ Forall (λ c, c ≠ []) (Components p).

(** The loop invariant of [Parse]: flushed components are non-empty, and the
    realm is entered only after a component. *)
Definition parse_inv (st : parse_state) : Prop :=
  Forall (λ c, c ≠ []) (ps_components st) ∧
  (ps_inRealm st = true → ps_components st ≠ []).

(** ** Lemmas *)

Lemma writeEscaped_app out v : writeEscaped out v = out ++ concat (escape_char <$> v).
Proof.
  revert out. induction v as [|c v IH]; intros out; cbn [writeEscaped].
  - cbn. by rewrite app_nil_r.
  - rewrite IH, <- app_assoc. done.
Qed.

Lemma parse_escape_char c rest st :
  parse_loop (escape_char c ++ rest) st = parse_loop rest (write_byte st c).
Proof. destruct c; reflexivity. Qed.

Definition write_bytes (st : parse_state) (v : bytes) : parse_state :=
  foldl write_byte st v.

Lemma parse_writeEscaped v rest st :
  parse_loop (concat (escape_char <$> v) ++ rest) st = parse_loop rest (write_bytes st v).
Proof.
  revert st. induction v as [|c v IH]; intros st; cbn; [done|].
  rewrite <- app_assoc, parse_escape_char. apply IH.
Qed.

Lemma write_bytes_component cs c r v :
  write_bytes (mkParseState cs c r false) v = mkParseState cs (c ++ v) r false.
Proof.
  revert c. induction v as [|b v IH]; intros c; cbn.
  - by rewrite app_nil_r.
  - etrans; [apply IH|]. by rewrite <- app_assoc.
Qed.

Lemma write_bytes_realm cs c r v :
  write_bytes (mkParseState cs c r true) v = mkParseState cs c (r ++ v) true.
Proof.
  revert r. induction v as [|b v IH]; intros r; cbn.
  - by rewrite app_nil_r.
  - etrans; [apply IH|]. by rewrite <- app_assoc.
Qed.

(** The display form of a component list, as text. *)
Definition components_text (cs : list bytes) : bytes :=
  strings_join [slash] ((λ c, concat (escape_char <$> c)) <$> cs).

Lemma format_components_text first out cs :
  Forall (λ c, c ≠ []) cs → cs ≠ [] →
  format_components first out cs =
  Ok ((if first then out else out ++ [slash]) ++ components_text cs).
Proof.
  intros Hne Hcs. revert first out.
  induction Hne as [|c cs Hc Hne IH]; intros first out; [done|]. clear Hcs.
  destruct c as [|b c]; [done|]. cbn [format_components].
  rewrite writeEscaped_app. destruct cs as [|c2 cs].
  - cbn [format_components]. done.
  - rewrite IH by done. unfold components_text. cbn [fmap list_fmap strings_join].
    by rewrite <- !app_assoc.
Qed.

Lemma parse_components_text cs done0 rest :
  Forall (λ c, c ≠ []) cs → cs ≠ [] →
  parse_loop (components_text cs ++ at_sign :: rest) (mkParseState done0 [] [] false) =
  parse_loop rest (mkParseState (done0 ++ cs) [] [] true).
Proof.
  intros Hne Hcs. revert done0.
  induction Hne as [|c cs Hc Hne IH]; intros done0; [done|]. clear Hcs.
  unfold components_text in *. destruct cs as [|c2 cs].
  - cbn [fmap list_fmap strings_join]. rewrite parse_writeEscaped, write_bytes_component.
    by destruct c.
  - cbn [fmap list_fmap strings_join] in *. rewrite <- !app_assoc, parse_writeEscaped.
    rewrite write_bytes_component. cbn [app].
    destruct c as [|b c]; [done|].
    cbn [parse_loop slash ps_inRealm flushComponent ps_component wrap_err res_bind
         ps_components ps_realm].
    rewrite IH by done. by rewrite <- app_assoc.
Qed.

Lemma Format_wf p :
  principal_wf p →
  Format p = Ok (components_text (Components p) ++ at_sign :: concat (escape_char <$> Realm p)).
Proof.
  intros (Hr&Hc&Hne). unfold Format.
  rewrite format_components_text by done. cbn [res_bind app].
  rewrite writeEscaped_app, <- app_assoc.
  destruct (Realm p); [done|]. destruct (Components p); done.
Qed.

(** [parse_loop] on a non-empty name, as nested tests. *)
Lemma parse_loop_cons c rest st :
  parse_loop (c :: rest) st =
  if Byte.eqb c backslash then
    match rest with
    | [] => Err "parse principal: trailing escape"
    | e :: rest' => parse_loop rest' (write_byte st (unescape_char e))
    end
  else if Byte.eqb c slash then
    if ps_inRealm st then Err "parse principal: slash in realm"
    else let! st' := wrap_err "parse principal: " (flushComponent st) in parse_loop rest st'
  else if Byte.eqb c at_sign then
    if ps_inRealm st then Err "parse principal: multiple realms"
    else let! st' := wrap_err "parse principal: " (flushComponent st) in
         parse_loop rest
           (mkParseState (ps_components st') (ps_component st') (ps_realm st') true)
  else parse_loop rest (write_byte st c).
Proof. destruct c; reflexivity. Qed.

Lemma write_byte_inv st b : parse_inv st → parse_inv (write_byte st b).
Proof. destruct st as [? ? ? []]; intros [H1 H2]; split; done. Qed.

Lemma flushComponent_inv st st' i :
  flushComponent st = Ok st' → parse_inv st →
  parse_inv (mkParseState (ps_components st') (ps_component st') (ps_realm st') i).
Proof.
  destruct st as [cs c r i0]. unfold flushComponent; cbn. intros H [H1 H2].
  destruct c as [|b c]; [done|]. injection H as <-. split; cbn.
  - apply Forall_app; split; [done|]. by constructor.
  - intros _. by destruct cs.
Qed.

Lemma parse_loop_inv n name st st' :
  (length name ≤ n)%nat → parse_loop name st = Ok st' → parse_inv st → parse_inv st'.
Proof.
  revert name st. induction n as [|n IH]; intros [|c rest] st Hn; cbn [length] in Hn;
    [by intros [= <-]|lia|by intros [= <-]|].
  rewrite parse_loop_cons. intros H Hst.
  destruct (Byte.eqb c backslash).
  { destruct rest as [|e rest]; [done|]. eapply IH; [|done|by apply write_byte_inv].
    cbn [length] in *; lia. }
  destruct (Byte.eqb c slash); [|destruct (Byte.eqb c at_sign)]; inv_res.
  - eapply IH; [|done|]; [lia|]. destruct x as [cs' c' r' i'].
    by apply (flushComponent_inv st (mkParseState cs' c' r' i') i').
  - eapply IH; [|done|]; [lia|]. by eapply flushComponent_inv.
  - eapply IH; [|done|by apply write_byte_inv]. lia.
Qed.

Lemma Parse_wf name p :
  Parse name = Ok p → principal_wf p ∧ NameType p = NTPrincipal.
Proof.
  unfold Parse. destruct name as [|c rest]; [done|]. intros H. inv_res.
  apply (parse_loop_inv _ _ _ _ (Nat.le_refl _)) in H; [|by split].
  destruct x as [cs c0 r i]; cbn in *. bool_cases. destruct r as [|b r]; [done|].
  subst i. injection H0 as <-. unfold principal_wf; cbn.
  destruct H as [H1 H2]; cbn in *. repeat split; try done. by apply H2.
Qed.

Lemma display_roundtrip p :
  principal_wf p →
  ∃ s, Format p = Ok s ∧ Parse s = Ok (mkPrincipal (Realm p) NTPrincipal (Components p)).
Proof.
  intros Hwf. eexists. split; [by apply Format_wf|].
  destruct Hwf as (Hr&Hc&Hne). unfold Parse.
  destruct (components_text (Components p) ++ _) eqn:E; [by destruct components_text|].
  rewrite <- E. unfold ps_init. rewrite parse_components_text by done.
  rewrite <- (app_nil_r (concat _)), parse_writeEscaped, write_bytes_realm. cbn.
  by destruct (Realm p).
Qed.

(** ** Properties *)

(** Formatting a principal and parsing the result gives back its realm
    and components exactly (with the name type [Parse] assigns), whatever
    bytes they contain; and every accepted name denotes a well-formed principal
    whose display form parses back to it. *)
Theorem Parse_Format_roundtrip :
  (∀ p, principal_wf p →
     ∃ s, Format p = Ok s ∧
          Parse s = Ok (mkPrincipal (Realm p) NTPrincipal (Components p))) ∧
  (∀ name p, Parse name = Ok p →
     principal_wf p ∧ ∃ s, Format p = Ok s ∧ Parse s = Ok p).
Proof.
  split; [apply display_roundtrip|].
  intros name p H. apply Parse_wf in H as [Hwf Hnt]. split; [done|].
  destruct (display_roundtrip p Hwf) as (s&Hs&Hp). exists s. split; [done|].
  rewrite Hp. destruct p; cbn in *. by subst.
Qed.

Example Parse_example :
  Parse (str "host\/a/x\t@EXAMPLE.COM") =
  Ok (mkPrincipal (str "EXAMPLE.COM") NTPrincipal
        [str "host/a"; [Byte.x78; Byte.x09]]).
Proof. reflexivity. Qed.
