(* ===== verification/Keytab.v ===== *)
(** * FILE and MEMORY keytabs (src/krb5/keytab/keytab.go)

    The entry codec, the file reader and writer, the entry operations and the
    process-wide table of MEMORY keytabs.  A handle is a location of the heap
    [ks_heap], so that handles resolved with the same name share their entries.
    The mutexes only serialize the operations, each of which is one step here. *)

From S2P Require Import Prelude Binfmt Principal.
Local Open Scope Z_scope.
Local Open Scope go_scope.

Definition Version : Z := 0x0502.
Definition maxKeytabInput : Z := Z.shiftl 64 20.

Record Entry := mkEntry {
  e_Principal : Principal;
  e_Timestamp : Z;
  e_KVNO : Z;
  e_Enctype : Z;
  e_Key : bytes;
}.

#[global] Instance entry_eq_decision : EqDecision Entry.
Proof. solve_decision. Defined.

(** A keytab value is its entries. *)
Abbreviation Keytab := (list Entry).

Definition cloneEntry (e : Entry) : Entry :=
  mkEntry (mkPrincipal (Realm (e_Principal e)) (NameType (e_Principal e))
             ([] ++ Components (e_Principal e)))
    (e_Timestamp e) (e_KVNO e) (e_Enctype e) ([] ++ e_Key e).

(** The [for i := range] comparison of two slices of equal length. *)
Fixpoint slices_equal {A} `{EqDecision A} (l k : list A) : bool :=
  match l, k with
  | [], _ => true
  | x :: l', y :: k' => if bool_decide (x = y) then slices_equal l' k' else false
  | _ :: _, [] => false
  end.

Definition principalEqual (l r : Principal) : bool :=
  if (negb (bool_decide (Realm l = Realm r)) || negb (NameType l =? NameType r)
      || negb (zlen (Components l) =? zlen (Components r)))%bool then false
  else slices_equal (Components l) (Components r).

Definition entriesEqual (l r : Entry) : bool :=
  if (negb (principalEqual (e_Principal l) (e_Principal r))
      || negb (e_Timestamp l =? e_Timestamp r) || negb (e_KVNO l =? e_KVNO r)
      || negb (e_Enctype l =? e_Enctype r)
      || negb (zlen (e_Key l) =? zlen (e_Key r)))%bool then false
  else slices_equal (e_Key l) (e_Key r).

(** ** Entry operations; [None] is a nil [*Keytab]. *)

Definition New (entries : list Entry) : Keytab :=
  foldl (λ kt e, kt ++ [cloneEntry e]) [] entries.

Definition AddEntry (kt : option Keytab) (entry : Entry) : res Keytab :=
  match kt with
  | None => Err "add keytab entry: nil keytab"
  | Some es => Ok (es ++ [cloneEntry entry])
  end.

Definition RemoveEntry (kt : option Keytab) (entry : Entry) : res Keytab :=
  match kt with
  | None => Err "remove keytab entry: nil keytab"
  | Some es =>
      Ok (foldl (λ filtered candidate,
             if entriesEqual candidate entry then filtered else filtered ++ [candidate]) [] es)
  end.

Definition Clear (kt : option Keytab) : res Keytab :=
  match kt with
  | None => Err "clear keytab: nil keytab"
  | Some _ => Ok []
  end.

Definition SetEntry (kt : option Keytab) (index : Z) (entry : Entry) : res Keytab :=
  match kt with
  | None => Err "set keytab entry: nil keytab"
  | Some es =>
      if ((index <? 0) || (zlen es <=? index))%bool
      then Err "set keytab entry: index out of range"
      else Ok (<[Z.to_nat index := cloneEntry entry]> es)
  end.

Definition EntriesSnapshot (kt : option Keytab) : list Entry :=
  match kt with None => [] | Some es => cloneEntry <$> es end.

Fixpoint find_entry (f : Entry → bool) (es : list Entry) : option Entry :=
  match es with
  | [] => None
  | e :: es' => if f e then Some e else find_entry f es'
  end.

Definition LookupPrincipal (kt : option Keytab) (name : Principal) : option Entry :=
  match kt with
  | None => None
  | Some _ => find_entry (λ e, principalEqual (e_Principal e) name) (EntriesSnapshot kt)
  end.
Definition LookupEnctype (kt : option Keytab) (enctype : Z) : option Entry :=
  match kt with
  | None => None
  | Some _ => find_entry (λ e, e_Enctype e =? enctype) (EntriesSnapshot kt)
  end.
Definition LookupKVNO (kt : option Keytab) (kvno : Z) : option Entry :=
  match kt with
  | None => None
  | Some _ => find_entry (λ e, e_KVNO e =? kvno) (EntriesSnapshot kt)
  end.

(** ** The entry codec *)

(** The component loop of [parseEntry]: [n] is [count - i]. *)
Fixpoint parse_components (n : nat) (d : Reader) : res (list bytes * Reader) :=
  match n with
  | O => Ok ([], d)
  | S n' =>
      let! '(component, d) := Counted16 d in
      let! '(rest, d) := parse_components n' d in
      Ok (component :: rest, d)
  end.

Definition parseEntry (body : bytes) : res Entry :=
  let d := NewReader body in
  let! '(count, d) := U16 d in
  let! '(realm, d) := Counted16 d in
  let! '(components, d) := parse_components (Z.to_nat count) d in
  let! '(nameType, d) := U32 d in
  let! '(timestamp, d) := U32 d in
  let! '(kvno8, d) := U8 d in
  let! '(enctype, d) := U16 d in
  let! '(key, d) := Counted16 d in
  let! kvno :=
    (if 4 <=? Remaining d then
       let! '(kvno32, d) := U32 d in
       Ok (if kvno32 =? 0 then u32 kvno8 else kvno32)
     else Ok (u32 kvno8)) in
  Ok (mkEntry (mkPrincipal realm (i32 nameType) components)
        timestamp kvno (i32 enctype) key).

(** [WriteCounted16] with its error dropped, as [marshalEntry] calls it. *)
Definition put_counted16 (w value : bytes) : bytes :=
  match WriteCounted16 w value with Ok w' => w' | _ => w end.

Fixpoint marshal_components (body : bytes) (components : list bytes) : res bytes :=
  match components with
  | [] => Ok body
  | component :: rest =>
      if 65535 <? zlen component then Err "principal component is too long"
      else marshal_components (put_counted16 body component) rest
  end.

Definition marshalEntry (entry : Entry) : res bytes :=
  if 65535 <? zlen (Components (e_Principal entry)) then Err "too many principal components"
  else if 65535 <? zlen (Realm (e_Principal entry)) then Err "realm is too long"
  else if ((e_Timestamp entry <? 0) || (4294967295 <? e_Timestamp entry))%bool
  then Err "timestamp out of range"
  else if ((e_Enctype entry <? 0) || (65535 <? e_Enctype entry))%bool
  then Err "enctype out of range"
  else if 65535 <? zlen (e_Key entry) then Err "key is too long"
  else
    let body := be_bytes 2 (u16 (zlen (Components (e_Principal entry)))) in
    let body := put_counted16 body (Realm (e_Principal entry)) in
    let! body := marshal_components body (Components (e_Principal entry)) in
    let body := body ++ be_bytes 4 (u32 (NameType (e_Principal entry))) in
    let body := body ++ be_bytes 4 (u32 (e_Timestamp entry)) in
    let body := body ++ [z2b (e_KVNO entry)] in
    let body := body ++ be_bytes 2 (u16 (e_Enctype entry)) in
    let body := put_counted16 body (e_Key entry) in
    let body := body ++ be_bytes 4 (e_KVNO entry) in
    if 2147483647 <? zlen body then Err "keytab entry is too long" else Ok body.

(** ** The file reader and writer *)

(** The record loop of [Read]; each iteration consumes at least four bytes, so
    [length data] iterations are enough ([read_loop_fuel]). *)
Fixpoint read_loop (fuel : nat) (data : bytes) (offset : Z) (entries : list Entry)
    : option (res (list Entry)) :=
  match fuel with
  | O => None
  | S fuel' =>
      if zlen data <=? offset then Some (Ok entries)
      else if zlen data - offset <? 4 then Some (Err "read keytab: truncated record length")
      else
        match go_slice data offset (zlen data) with
        | Ok tail =>
            let length := i64 (i32 (be_value (take 4 tail))) in
            let offset := offset + 4 in
            if length =? 0 then Some (Ok entries)
            else
              let size := if length <? 0 then - length else length in
              if zlen data - offset <? size then Some (Err "read keytab: truncated record")
              else if length <? 0 then read_loop fuel' data (offset + size) entries
              else
                match go_slice data offset (offset + size) with
                | Ok body =>
                    match parseEntry body with
                    | Ok entry => read_loop fuel' data (offset + size) (entries ++ [entry])
                    | Err m => Some (Err (String.append "read keytab record: " m))
                    | Panic => Some Panic
                    end
                | _ => Some Panic
                end
        | _ => Some Panic
        end
  end.

Definition Read (data : bytes) : res Keytab :=
  if maxKeytabInput <? zlen data then Err "read keytab: input too large"
  else if zlen data <? 2 then Err "read keytab: truncated version"
  else if negb (be_value (take 2 data) =? Version) then Err "read keytab: unsupported version"
  else match read_loop (S (length data)) data 2 [] with
       | Some r => r
       | None => Panic
       end.

Fixpoint write_entries (data : bytes) (entries : list Entry) : res bytes :=
  match entries with
  | [] => Ok data
  | entry :: rest =>
      let! body := wrap_err "write keytab entry: " (marshalEntry entry) in
      write_entries ((data ++ be_bytes 4 (i32 (zlen body))) ++ body) rest
  end.

(** The bytes [Write] hands to its writer. *)
Definition Write_bytes (kt : option Keytab) : res bytes :=
  match kt with
  | None => Err "write keytab: nil keytab"
  | Some _ => write_entries (be_bytes 2 Version) (EntriesSnapshot kt)
  end.

(** ** MEMORY keytabs *)

Record keytab_store := mkStore {
  ks_memory : gmap bytes nat;
  ks_heap : gmap nat Keytab;
  ks_next : nat;
}.

(** [Resolve]; [open] is [os.Open] followed by reading the file. *)
Definition Resolve (open : bytes → res bytes) (st : keytab_store) (name : bytes)
    : res (nat * keytab_store) :=
  let alloc kt residual :=
    mkStore (match residual with
             | Some r => <[r := ks_next st]> (ks_memory st)
             | None => ks_memory st
             end)
      (<[ks_next st := kt]> (ks_heap st)) (S (ks_next st)) in
  match name with
  | [] => Err "resolve keytab: empty name"
  | _ =>
      if has_prefix name (str "MEMORY:") then
        match drop 7 name with
        | [] => Err "resolve keytab: empty MEMORY name"
        | residual =>
            match ks_memory st !! residual with
            | Some l => Ok (l, st)
            | None => Ok (ks_next st, alloc [] (Some residual))
            end
        end
      else
        let name := if has_prefix name (str "FILE:") then drop 5 name else name in
        let! contents := wrap_err "resolve keytab: " (open name) in
        let! kt := Read contents in
        Ok (ks_next st, alloc kt None)
  end.

(** [kt.AddEntry] through a handle. *)
Definition store_AddEntry (st : keytab_store) (l : nat) (entry : Entry) : res keytab_store :=
  let! kt := AddEntry (ks_heap st !! l) entry in
  Ok (mkStore (ks_memory st) (<[l := kt]> (ks_heap st)) (ks_next st)).

Definition store_Entries (st : keytab_store) (l : nat) : list Entry :=
  EntriesSnapshot (ks_heap st !! l).

(** What the Go types guarantee of an [Entry]: an int32 name type and a
    uint32 key version. *)
Definition entry_typed (e : Entry) : Prop :=
  - 2 ^ 31 <= NameType (e_Principal e) < 2 ^ 31 ∧ 0 <= e_KVNO e < 2 ^ 32.

(** MEMORY names point at allocated keytabs, and no two names share one. *)
Definition store_ok (st : keytab_store) : Prop :=
  (∀ n l, ks_memory st !! n = Some l → (l < ks_next st)%nat ∧ is_Some (ks_heap st !! l)) ∧
  (∀ n m l, ks_memory st !! n = Some l → ks_memory st !! m = Some l → n = m).

(** ** Lemmas: equality and cloning *)

Lemma cloneEntry_id e : cloneEntry e = e.
Proof. by destruct e as [[] ? ? ? ?]. Qed.

Lemma clone_all (es : list Entry) : cloneEntry <$> es = es.
Proof. induction es as [|e es IH]; cbn; [done|]. by rewrite cloneEntry_id, IH. Qed.

Lemma slices_equal_spec {A} `{EqDecision A} (l k : list A) :
  zlen l = zlen k → slices_equal l k = true ↔ l = k.
Proof.
  revert k. induction l as [|x l IH]; intros [|y k] Hl; rewrite ?zlen_cons, ?zlen_nil in Hl;
    [done|pose proof (zlen_nonneg k); lia|pose proof (zlen_nonneg l); lia|].
  cbn. case_bool_decide; [|naive_solver]. rewrite IH by lia. naive_solver.
Qed.

Lemma principalEqual_spec p q : principalEqual p q = true ↔ p = q.
Proof.
  destruct p as [r n c], q as [r' n' c']. unfold principalEqual; cbn.
  case_bool_decide; cbn; [|naive_solver].
  destruct (Z.eqb_spec n n'); cbn; [|naive_solver].
  destruct (Z.eqb_spec (zlen c) (zlen c')); cbn; [|naive_solver].
  rewrite slices_equal_spec by done. naive_solver.
Qed.

Lemma entriesEqual_spec e f : entriesEqual e f = true ↔ e = f.
Proof.
  destruct e as [p t v y k], f as [p' t' v' y' k']. unfold entriesEqual; cbn.
  destruct (principalEqual p p') eqn:Hp; cbn.
  - apply principalEqual_spec in Hp as ->.
    destruct (Z.eqb_spec t t'); cbn; [|naive_solver].
    destruct (Z.eqb_spec v v'); cbn; [|naive_solver].
    destruct (Z.eqb_spec y y'); cbn; [|naive_solver].
    destruct (Z.eqb_spec (zlen k) (zlen k')); cbn; [|naive_solver].
    rewrite slices_equal_spec by done. naive_solver.
  - split; [done|]. intros [= ->]. by rewrite (proj2 (principalEqual_spec p' p') eq_refl) in Hp.
Qed.

Lemma remove_loop acc entry es :
  foldl (λ filtered candidate,
     if entriesEqual candidate entry then filtered else filtered ++ [candidate]) acc es =
  acc ++ filter (λ e, e ≠ entry) es.
Proof.
  revert acc. induction es as [|e es IH]; intros acc; cbn [foldl];
    [cbn; by rewrite app_nil_r|].
  rewrite IH. destruct (entriesEqual e entry) eqn:E.
  - apply entriesEqual_spec in E. rewrite filter_cons_False by naive_solver. done.
  - rewrite filter_cons_True; [by rewrite <- app_assoc|].
    intros ->. by rewrite (proj2 (entriesEqual_spec entry entry) eq_refl) in E.
Qed.

(** ** Lemmas: the entry codec *)

Definition enc_counted16 (v : bytes) : bytes := be_bytes 2 (u16 (zlen v)) ++ v.

Definition enc_entry (e : Entry) : bytes :=
  be_bytes 2 (u16 (zlen (Components (e_Principal e)))) ++
  enc_counted16 (Realm (e_Principal e)) ++
  concat (enc_counted16 <$> Components (e_Principal e)) ++
  be_bytes 4 (u32 (NameType (e_Principal e))) ++
  be_bytes 4 (u32 (e_Timestamp e)) ++
  be_bytes 1 (e_KVNO e) ++
  be_bytes 2 (u16 (e_Enctype e)) ++
  enc_counted16 (e_Key e) ++
  be_bytes 4 (e_KVNO e).

Lemma put_counted16_ok w v :
  zlen v <= 65535 → put_counted16 w v = w ++ enc_counted16 v.
Proof. intros H. unfold put_counted16. by rewrite WriteCounted16_ok. Qed.

Lemma marshal_components_ok body cs out :
  marshal_components body cs = Ok out →
  Forall (λ c, zlen c <= 65535) cs ∧ out = body ++ concat (enc_counted16 <$> cs).
Proof.
  revert body. induction cs as [|c cs IH]; intros body; cbn.
  - intros [= <-]. by rewrite app_nil_r.
  - intros H. inv_res. bool_cases. apply IH in H as [Hf ->].
    rewrite put_counted16_ok, <- app_assoc by lia. split; [|done]. by constructor.
Qed.

(** The limits [marshalEntry] checks. *)
Definition entry_fits (e : Entry) : Prop :=
  zlen (Components (e_Principal e)) <= 65535 ∧ zlen (Realm (e_Principal e)) <= 65535 ∧
  0 <= e_Timestamp e < 2 ^ 32 ∧ 0 <= e_Enctype e <= 65535 ∧ zlen (e_Key e) <= 65535 ∧
  Forall (λ c, zlen c <= 65535) (Components (e_Principal e)).

Lemma marshalEntry_ok e body :
  marshalEntry e = Ok body → entry_fits e ∧ body = enc_entry e ∧ zlen body < 2 ^ 31.
Proof.
  unfold marshalEntry. intros H. inv_res. bool_cases.
  apply marshal_components_ok in H as [Hf ->].
  rewrite !put_counted16_ok in * by done. subst body. unfold entry_fits.
  repeat split; try lia; [done|]. unfold enc_entry.
  replace ([z2b (e_KVNO e)]) with (be_bytes 1 (e_KVNO e))
    by (cbn; by rewrite Z.shiftr_0_r).
  by rewrite <- !app_assoc.
Qed.

Lemma reads_components cs :
  Forall (λ c, zlen c <= 65535) cs →
  reads (parse_components (length cs)) (concat (enc_counted16 <$> cs)) cs.
Proof.
  induction 1 as [|c cs Hc Hcs IH]; cbn [length parse_components]; [apply reads_ret|].
  cbn [fmap list_fmap concat].
  apply (reads_bind Counted16
    (λ component d, res_bind (parse_components (length cs) d)
       (λ x, let '(rest, d0) := x in Ok (component :: rest, d0)))
    (enc_counted16 c) (concat (enc_counted16 <$> cs)) c);
    [exact (reads_Counted16 c Hc)|].
  apply (reads_map (parse_components (length cs)) (cons c)). exact IH.
Qed.

Lemma i32_small z : 0 <= z < 2 ^ 31 → i32 z = z.
Proof.
  intros Hz. unfold i32, signed. rewrite Z.mod_small by lia.
  by rewrite (proj2 (Z.ltb_lt z (2 ^ (32 - 1)))) by lia.
Qed.

Lemma Remaining_at pre post : Remaining (mkReader (pre ++ post) (zlen pre)) = zlen post.
Proof. unfold Remaining; cbn. rewrite zlen_app. lia. Qed.

Lemma parseEntry_enc e : entry_fits e → entry_typed e → parseEntry (enc_entry e) = Ok e.
Proof.
  intros (Hc&Hr&Ht&He&Hk&Hcs) (Hn&Hv). unfold parseEntry, NewReader, enc_entry.
  change (mkReader ?b 0) with (mkReader ([] ++ b) (zlen (@nil byte))).
  rewrite (reads_step _ _ _ _ _ _ (reads_U16 _)).
  rewrite (reads_step _ _ _ _ _ _ (reads_Counted16 _ Hr)).
  assert (Z.to_nat (u16 (zlen (Components (e_Principal e))) mod 2 ^ 16) =
          length (Components (e_Principal e))) as ->.
  { unfold u16, zlen in *. rewrite Z.mod_mod, Z.mod_small by lia. apply Nat2Z.id. }
  rewrite (reads_step _ _ _ _ _ _ (reads_components _ Hcs)).
  rewrite (reads_step _ _ _ _ _ _ (reads_U32 _)).
  rewrite (reads_step _ _ _ _ _ _ (reads_U32 _)).
  rewrite (reads_step _ _ _ _ _ _ (reads_U8 _)).
  rewrite (reads_step _ _ _ _ _ _ (reads_U16 _)).
  rewrite (reads_step _ _ _ _ _ _ (reads_Counted16 _ Hk)).
  rewrite Remaining_at. rewrite zlen_be_bytes, (proj2 (Z.leb_le _ _)) by lia.
  rewrite <- (app_nil_r (be_bytes 4 (e_KVNO e))).
  rewrite (reads_step _ _ _ _ _ _ (reads_U32 _)). cbn [res_bind].
  unfold u32, u16 in *. rewrite !Z.mod_mod by lia. rewrite !(Z.mod_small (e_KVNO e)) by lia.
  rewrite (Z.mod_small (e_Timestamp e)), (Z.mod_small (e_Enctype e)) by lia.
  rewrite (i32_small (e_Enctype e)) by lia.
  fold (u32 (NameType (e_Principal e))). rewrite i32_u32 by lia.
  destruct e as [[rl nt cs] ts kv et key]; cbn [e_KVNO e_Principal Realm NameType Components
    e_Timestamp e_Enctype e_Key]. by destruct (Z.eqb_spec kv 0) as [->|_].
Qed.

(** ** Lemmas: the file reader *)

Lemma safe_components n : safe (parse_components n).
Proof.
  induction n as [|n IH]; cbn [parse_components]; [apply safe_ret|].
  apply (safe_bind Counted16 (λ component d, res_bind (parse_components n d)
    (λ x, let '(rest, d0) := x in Ok (component :: rest, d0)))); [auto with binfmt|].
  intros c. apply (safe_bind (parse_components n) (λ rest d, Ok (c :: rest, d)));
    [done|]. intros; apply safe_ret.
Qed.

Lemma parseEntry_no_panic body : parseEntry body ≠ Panic.
Proof.
  unfold parseEntry.
  assert (reader_ok (NewReader body)) as H0 by (split; cbn; [lia|apply zlen_nonneg]).
  repeat (apply safe_step; [auto using safe_components with binfmt|done|];
          intros ? [? ?] ?).
  destruct (4 <=? _); [|done]. rewrite res_bind_assoc.
  apply safe_step; [auto with binfmt|done|]. intros; cbn. done.
Qed.

Lemma go_slice_ok {A} (l : list A) i j :
  0 <= i <= j → j <= zlen l →
  go_slice l i j = Ok (take (Z.to_nat (j - i)) (drop (Z.to_nat i) l)).
Proof. intros. unfold go_slice. by rewrite !(proj2 (Z.leb_le _ _)) by lia. Qed.

(** Enough fuel: the loop always returns, and never by a panic. *)
Lemma read_loop_fuel fuel data offset es :
  0 <= offset → Z.max 0 (zlen data - offset) < Z.of_nat fuel →
  ∃ r, read_loop fuel data offset es = Some r ∧ r ≠ Panic.
Proof.
  revert offset es. induction fuel as [|fuel IH]; intros offset es H0 Hf; [lia|].
  cbn [read_loop].
  destruct (Z.leb_spec (zlen data) offset); [eauto|].
  destruct (Z.ltb_spec (zlen data - offset) 4); [eauto|].
  rewrite go_slice_ok by lia. set (n := i64 _).
  destruct (Z.eqb_spec n 0); [eauto|].
  destruct (Z.ltb_spec n 0) as [Hn|Hn].
  - destruct (Z.ltb_spec (zlen data - (offset + 4)) (- n)); [eauto|]. apply IH; lia.
  - destruct (Z.ltb_spec (zlen data - (offset + 4)) n); [eauto|].
    rewrite go_slice_ok by lia. pose proof (parseEntry_no_panic) as Hp.
    destruct (parseEntry _) eqn:E; [apply IH; lia|eauto|by apply Hp in E].
Qed.

Lemma zlen_enc_entry e : 4 <= zlen (enc_entry e).
Proof.
  unfold enc_entry, enc_counted16. autorewrite with zlen.
  pose proof (zlen_nonneg (Realm (e_Principal e))). pose proof (zlen_nonneg (e_Key e)).
  pose proof (zlen_nonneg (concat (enc_counted16 <$> Components (e_Principal e)))).
  unfold enc_counted16 in *. lia.
Qed.

Lemma drop_zlen_app {A} (l k : list A) : drop (Z.to_nat (zlen l)) (l ++ k) = k.
Proof. unfold zlen. rewrite Nat2Z.id. apply drop_app_length. Qed.

(** One record standing at the offset is read back. *)
Lemma read_loop_record fuel pre e post es :
  entry_fits e → entry_typed e → zlen (enc_entry e) < 2 ^ 31 →
  read_loop (S fuel) (pre ++ (be_bytes 4 (i32 (zlen (enc_entry e))) ++ enc_entry e) ++ post)
    (zlen pre) es =
  read_loop fuel ((pre ++ be_bytes 4 (i32 (zlen (enc_entry e))) ++ enc_entry e) ++ post)
    (zlen (pre ++ be_bytes 4 (i32 (zlen (enc_entry e))) ++ enc_entry e)) (es ++ [e]).
Proof.
  intros Hf Ht Hl. pose proof (zlen_enc_entry e) as H4.
  rewrite i32_small by lia. set (h := be_bytes 4 (zlen (enc_entry e))).
  assert (zlen h = 4) as Hh by apply zlen_be_bytes.
  pose proof (zlen_nonneg pre). pose proof (zlen_nonneg post).
  cbn [read_loop]. rewrite !zlen_app, Hh.
  rewrite (proj2 (Z.leb_gt _ _)), (proj2 (Z.ltb_ge _ 4)) by lia.
  rewrite go_slice_ok by (rewrite ?zlen_app, ?Hh; lia).
  assert (take 4 (take (Z.to_nat (zlen pre + (4 + zlen (enc_entry e) + zlen post) - zlen pre))
     (drop (Z.to_nat (zlen pre)) (pre ++ (h ++ enc_entry e) ++ post))) = h) as ->.
  { rewrite drop_zlen_app. rewrite take_take, Nat.min_l by lia. rewrite <- app_assoc.
    apply (take_app_length' h). unfold zlen in Hh. lia. }
  subst h. rewrite be_value_bytes, Z.mod_small, i32_small by lia.
  assert (i64 (zlen (enc_entry e)) = zlen (enc_entry e)) as ->.
  { unfold i64, signed. rewrite Z.mod_small by lia.
    by rewrite (proj2 (Z.ltb_lt _ (2 ^ (64 - 1)))) by lia. }
  set (h := be_bytes 4 (zlen (enc_entry e))) in *.
  rewrite (proj2 (Z.eqb_neq _ 0)), (proj2 (Z.ltb_ge (zlen (enc_entry e)) 0)) by lia.
  rewrite (proj2 (Z.ltb_ge _ (zlen (enc_entry e)))) by lia.
  replace (pre ++ (h ++ enc_entry e) ++ post) with ((pre ++ h) ++ enc_entry e ++ post)
    by (by rewrite <- !app_assoc).
  replace (zlen pre + 4) with (zlen (pre ++ h)) by (rewrite zlen_app; lia).
  rewrite go_slice_mid, parseEntry_enc by done.
  rewrite zlen_app, Hh. f_equal; [by rewrite <- !app_assoc|lia].
Qed.

Definition enc_record (e : Entry) : bytes :=
  be_bytes 4 (i32 (zlen (enc_entry e))) ++ enc_entry e.

Lemma write_entries_ok out es final :
  write_entries out es = Ok final →
  Forall (λ e, entry_fits e ∧ zlen (enc_entry e) < 2 ^ 31) es ∧
  final = out ++ concat (enc_record <$> es).
Proof.
  revert out. induction es as [|e es IH]; intros out; cbn [write_entries].
  - intros [= <-]. cbn. by rewrite app_nil_r.
  - intros H. inv_res. apply marshalEntry_ok in H as (Hf&->&Hl).
    apply IH in H0 as [Hes ->]. split; [by constructor|].
    cbn [fmap list_fmap concat]. unfold enc_record at 2. by rewrite <- !app_assoc.
Qed.

Lemma read_loop_records fuel pre es acc :
  (length es < fuel)%nat →
  Forall (λ e, entry_fits e ∧ zlen (enc_entry e) < 2 ^ 31) es → Forall entry_typed es →
  read_loop fuel (pre ++ concat (enc_record <$> es)) (zlen pre) acc = Some (Ok (acc ++ es)).
Proof.
  revert fuel pre acc. induction es as [|e es IH]; intros fuel pre acc Hf H1 H2;
    (destruct fuel as [|fuel]; [cbn in Hf; lia|]).
  - cbn [read_loop fmap list_fmap concat]. rewrite !app_nil_r.
    by rewrite (proj2 (Z.leb_le _ _)) by lia.
  - inversion_clear H1 as [|? ? [Hfits Hlen] H1']. inversion_clear H2.
    cbn [fmap list_fmap concat]. unfold enc_record at 1.
    rewrite read_loop_record by done. rewrite IH by (cbn in Hf; try lia; done).
    by rewrite <- app_assoc.
Qed.

Lemma length_records es :
  (length es ≤ length (concat (enc_record <$> es)))%nat.
Proof.
  induction es as [|e es IH]; cbn [fmap list_fmap concat length]; [done|].
  rewrite length_app. unfold enc_record at 1. rewrite length_app, length_be_bytes. lia.
Qed.

(** ** Properties *)

(** C16: writing a keytab and reading the bytes back gives exactly the entries
    written (any names, keys, time stamps and key versions the writer accepts). *)
Theorem Read_Write_roundtrip (kt : Keytab) out :
  Forall entry_typed kt →
  Write_bytes (Some kt) = Ok out →
  zlen out <= maxKeytabInput →
  Read out = Ok kt.
Proof.
  intros Ht Hw Hmax. unfold Write_bytes, EntriesSnapshot in Hw. rewrite clone_all in Hw.
  apply write_entries_ok in Hw as [Hes ->]. unfold Read.
  set (body := concat (enc_record <$> kt)) in *. pose proof (zlen_nonneg body).
  rewrite (proj2 (Z.ltb_ge maxKeytabInput _)) by lia.
  rewrite (proj2 (Z.ltb_ge _ 2)) by (rewrite zlen_app, zlen_be_bytes; lia).
  rewrite (take_app_length' (be_bytes 2 Version)) by (by rewrite length_be_bytes).
  change (negb (be_value (be_bytes 2 Version) =? Version)) with false. cbn [negb].
  change 2 with (zlen (be_bytes 2 Version)). subst body.
  rewrite read_loop_records; [done| |done|done].
  rewrite length_app. pose proof (length_records kt). lia.
Qed.

(** Reading never panics and always terminates: every input, however
    malformed, is decoded or rejected with an error. *)
Theorem Read_total data : ∃ r, Read data = r ∧ r ≠ Panic ∧
  (∀ es, r = Ok es → 2 <= zlen data <= maxKeytabInput).
Proof.
  eexists; split; [done|]. unfold Read.
  destruct (Z.ltb_spec maxKeytabInput (zlen data)); [done|].
  destruct (Z.ltb_spec (zlen data) 2); [done|].
  destruct (negb _); [done|].
  destruct (read_loop_fuel (S (length data)) data 2 []) as (r&->&Hr); [lia| |].
  - pose proof (zlen_nonneg data). unfold zlen in *. lia.
  - split; [done|]. intros; lia.
Qed.

(** ** MEMORY keytabs: lemmas and property *)

Definition memory_name (n : bytes) : bytes := str "MEMORY:" ++ n.

Lemma Resolve_memory open st n :
  n ≠ [] →
  Resolve open st (memory_name n) =
  match ks_memory st !! n with
  | Some l => Ok (l, st)
  | None => Ok (ks_next st,
                mkStore (<[n := ks_next st]> (ks_memory st))
                  (<[ks_next st := []]> (ks_heap st)) (S (ks_next st)))
  end.
Proof. intros Hn. unfold Resolve, memory_name. cbn. by destruct n. Qed.

Lemma store_ok_alloc st kt :
  store_ok st → store_ok (mkStore (ks_memory st) (<[ks_next st := kt]> (ks_heap st)) (S (ks_next st))).
Proof.
  intros [H1 H2]. split; [|done]. intros m l Hm. cbn in *. apply H1 in Hm as [? ?].
  split; [lia|]. by rewrite lookup_insert_ne by lia.
Qed.

Lemma store_ok_memory st n :
  store_ok st → ks_memory st !! n = None →
  store_ok (mkStore (<[n := ks_next st]> (ks_memory st))
              (<[ks_next st := []]> (ks_heap st)) (S (ks_next st))).
Proof.
  intros [H1 H2] Hn. split; cbn.
  - intros m l. rewrite lookup_insert. case_decide as E.
    + intros [= <-]. rewrite lookup_insert_eq. eauto.
    + intros [? ?]%H1. split; [lia|]. by rewrite lookup_insert_ne by lia.
  - intros m k l. rewrite !lookup_insert. repeat case_decide; subst; try done.
    + intros [= <-] [? _]%H1. lia.
    + intros [? _]%H1 [= <-]. lia.
    + apply H2.
Qed.

Lemma Resolve_ok open st name l st' :
  Resolve open st name = Ok (l, st') → store_ok st →
  store_ok st' ∧ is_Some (ks_heap st' !! l) ∧
  (∀ n k, ks_memory st !! n = Some k → ks_memory st' !! n = Some k).
Proof.
  intros H Hok. unfold Resolve in H. destruct name as [|b name]; [done|].
  set (nm := b :: name) in *. clearbody nm.
  destruct (has_prefix nm (str "MEMORY:")).
  - destruct (drop 7 nm) as [|c r]; [done|].
    destruct (ks_memory st !! (c :: r)) as [l'|] eqn:E; injection H as <- <-.
    + split; [done|]. split; [|done]. by apply (proj1 Hok) in E as [_ ?].
    + split; [by apply store_ok_memory|]. cbn. rewrite lookup_insert_eq. split; [eauto|].
      intros n k Hn. rewrite lookup_insert_ne; [done|]. by intros <-; rewrite E in Hn.
  - inv_res. injection H1 as <- <-. split; [by apply store_ok_alloc|]. cbn.
    rewrite lookup_insert_eq. split; [eauto|done].
Qed.

(** A MEMORY name resolves to one shared keytab: resolving it twice gives
    the same handle, an entry added through one handle is seen through the
    other, and keytabs of other MEMORY names do not change. *)
Theorem memory_keytab_shared open st n m e :
  store_ok st → n ≠ [] → m ≠ [] → n ≠ m →
  ∃ l1 st1 l2 st2 l3 st3,
    Resolve open st (memory_name n) = Ok (l1, st1) ∧
    Resolve open st1 (memory_name m) = Ok (l2, st2) ∧
    store_AddEntry st2 l1 e = Ok st3 ∧
    Resolve open st3 (memory_name n) = Ok (l3, st3) ∧
    l3 = l1 ∧ store_ok st3 ∧
    store_Entries st3 l3 = store_Entries st2 l1 ++ [e] ∧
    store_Entries st3 l2 = store_Entries st2 l2.
Proof.
  intros Hok Hn Hm Hnm.
  destruct (Resolve open st (memory_name n)) as [[l1 st1]| |] eqn:E1;
    [|rewrite Resolve_memory in E1 by done; by case_match..].
  destruct (Resolve_ok _ _ _ _ _ E1 Hok) as (Hok1&[k1 Hk1]&_).
  assert (ks_memory st1 !! n = Some l1) as Hn1.
  { rewrite Resolve_memory in E1 by done. destruct (ks_memory st !! n) eqn:E;
      injection E1 as <- <-; cbn; [done|by rewrite lookup_insert_eq]. }
  destruct (Resolve open st1 (memory_name m)) as [[l2 st2]| |] eqn:E2;
    [|rewrite Resolve_memory in E2 by done; by case_match..].
  destruct (Resolve_ok _ _ _ _ _ E2 Hok1) as (Hok2&Hk2&Hmono).
  assert (ks_memory st2 !! m = Some l2) as Hm2.
  { rewrite Resolve_memory in E2 by done. destruct (ks_memory st1 !! m) eqn:E;
      injection E2 as <- <-; cbn; [done|by rewrite lookup_insert_eq]. }
  pose proof (Hmono _ _ Hn1) as Hn2.
  assert (l1 ≠ l2) as Hl by (intros ->; by apply Hnm, (proj2 Hok2 n m l2)).
  destruct (proj1 Hok2 n l1 Hn2) as [Hlt [es Hes]].
  exists l1, st1, l2, st2, l1. eexists. split; [done|]. split; [done|].
  unfold store_AddEntry. rewrite Hes. cbn [AddEntry res_bind]. split; [done|].
  split; [rewrite Resolve_memory by done; cbn; by rewrite Hn2|].
  split; [done|]. unfold store_Entries; cbn. rewrite lookup_insert_eq, lookup_insert_ne, Hes by done.
  cbn. rewrite !clone_all, cloneEntry_id. split; [|done].
  destruct Hok2 as [H1 H2]. split; cbn; [|done]. intros k l Hk.
  apply H1 in Hk as [? ?]. split; [done|]. rewrite lookup_insert. by case_decide.
Qed.

(** The codec and the entry operations on concrete values. *)
Definition sample_entry : Entry :=
  mkEntry (mkPrincipal (str "EXAMPLE.COM") 1 [str "host"; str "a.example.com"])
    1700000000 300 18 [Byte.x01; Byte.x02; Byte.xff].

Lemma Read_Write_roundtrip_witness :
  ∃ out, Write_bytes (Some [sample_entry]) = Ok out ∧ Read out = Ok [sample_entry].
Proof.
  eexists. split; [vm_compute; reflexivity|].
  apply (Read_Write_roundtrip [sample_entry]).
  - constructor; [|constructor]. split; cbn; lia.
  - vm_compute; reflexivity.
  - vm_compute; discriminate.
Defined.
