(* ===== verification/RCache.v ===== *)
(** * Replay caches (src/krb5/rcache/rcache.go)

    The MIT file2 cache is a file of 16-byte records behind a 16-byte hash seed:
    a sequence of hash tables of growing size, in each of which a tag has a
    two-record window.  The file is its bytes; [ReadAt] and [WriteAt] have the
    behaviour of [os.File] (a short read at the end, a write past the end fills
    the gap with zeros).  Failing system calls are not modelled, and the file
    lock makes each [Store] one step. *)

From S2P Require Import Prelude.
Local Open Scope Z_scope.
Local Open Scope go_scope.

Definition hashSeedLen : Z := 16.
Definition tagLen : Z := 12.
Definition recordLen : Z := 16.
Definition firstTableRecords : Z := 1023.
Definition maxFileSize : Z := Z.shiftl 1 31 - 1.

Definition ErrReplay : string := "replay".
Definition ErrOverflow : string := "replay cache file size overflow".

(** ** SipHash-2-4 *)

Definition bitsRotate (value count : Z) : Z :=
  Z.lor (u64 (Z.shiftl value count)) (Z.shiftr value (64 - count)).

Record sip := mkSip { v0 : Z; v1 : Z; v2 : Z; v3 : Z }.

Definition sip_round (s : sip) : sip :=
  let a := u64 (v0 s + v1 s) in
  let b := bitsRotate (v1 s) 13 in
  let b := Z.lxor b a in
  let a := bitsRotate a 32 in
  let c := u64 (v2 s + v3 s) in
  let d := bitsRotate (v3 s) 16 in
  let d := Z.lxor d c in
  let a := u64 (a + d) in
  let d := bitsRotate d 21 in
  let d := Z.lxor d a in
  let c := u64 (c + b) in
  let b := bitsRotate b 17 in
  let b := Z.lxor b c in
  let c := bitsRotate c 32 in
  mkSip a b c d.

Definition sip_word (s : sip) (m : Z) : sip :=
  let s := mkSip (v0 s) (v1 s) (v2 s) (Z.lxor (v3 s) m) in
  let s := sip_round (sip_round s) in
  mkSip (Z.lxor (v0 s) m) (v1 s) (v2 s) (v3 s).

(** The loop over whole words; [n] is [len(data) / 8]. *)
Fixpoint sip_words (n : nat) (data : bytes) (s : sip) : sip * bytes :=
  match n with
  | O => (s, data)
  | S n' => sip_words n' (drop 8 data) (sip_word s (le_value (take 8 data)))
  end.

Definition sipHash24 (data seed : bytes) : Z :=
  let k0 := le_value (take 8 seed) in
  let k1 := le_value (take 8 (drop 8 seed)) in
  let s := mkSip (Z.lxor k0 0x736f6d6570736575) (Z.lxor k1 0x646f72616e646f6d)
                 (Z.lxor k0 0x6c7967656e657261) (Z.lxor k1 0x7465646279746573) in
  let '(s, rest) := sip_words (length data / 8) data s in
  let last := take 7 (rest ++ replicate 7 Byte.x00) ++ [z2b (zlen data)] in
  let s := sip_word s (le_value last) in
  let s := mkSip (v0 s) (v1 s) (Z.lxor (v2 s) 0xff) (v3 s) in
  let s := sip_round (sip_round (sip_round (sip_round s))) in
  Z.lxor (Z.lxor (Z.lxor (v0 s) (v1 s)) (v2 s)) (v3 s).

(** ** Files *)

Definition ReadAt (file : bytes) (off n : Z) : bytes :=
  take (Z.to_nat n) (drop (Z.to_nat off) file).

Definition WriteAt (file : bytes) (off : Z) (b : bytes) : bytes :=
  let o := Z.to_nat off in
  take o (file ++ replicate (o - length file) Byte.x00) ++ b ++ drop (o + length b) file.

(** ** The file2 table *)

Record record := mkRecord { r_tag : bytes; r_timestamp : Z }.

Definition readRecords (file : bytes) (offset : Z) : list record :=
  let buf := ReadAt file offset (recordLen * 2) in
  let count := (length buf / 16)%nat in
  (λ i : nat,
     mkRecord (take 12 (drop (i * 16) buf)) (be_value (take 4 (drop (i * 16 + 12) buf))))
  <$> seq 0 count.

Definition writeRecord (file : bytes) (offset : Z) (tag : bytes) (timestamp : Z) : bytes :=
  WriteAt file offset (tag ++ be_bytes 4 timestamp).

Definition nextTable (offset nrecords : Z) : res (Z * Z) :=
  let '(offset, nrecords) :=
    if offset =? -1 then (hashSeedLen, firstTableRecords)
    else if offset =? hashSeedLen
    then (offset + nrecords * recordLen, (firstTableRecords + 1) * 2)
    else (offset + nrecords * recordLen, nrecords * 2) in
  if ((Z.quot maxFileSize recordLen <? nrecords)
      || (maxFileSize - nrecords * recordLen <? offset))%bool
  then Err ErrOverflow
  else Ok (offset, nrecords).

Definition tsAfter (a b : Z) : bool := 0 <? i32 (u32 (a - b)).
Definition expired (timestamp now skew : Z) : bool := tsAfter now (u32 (timestamp + skew)).

(** The scan of the records of one window: a replay, or the updated
    [available]. *)
Fixpoint scan_records (tag : bytes) (now skew recordOffset : Z) (i : Z)
    (records : list record) (available : Z) : res Z :=
  match records with
  | [] => Ok available
  | r :: rest =>
      if (negb (r_timestamp r =? 0) && bool_decide (r_tag r = tag))%bool then Err ErrReplay
      else
        let available :=
          if ((available =? -1) &&
              ((r_timestamp r =? 0) || expired (r_timestamp r) now skew))%bool
          then recordOffset + i * recordLen else available in
        scan_records tag now skew recordOffset (i + 1) rest available
  end.

(** The exit test: fewer than two records, or an empty one. *)
Definition window_ends (records : list record) : bool :=
  match records with
  | r0 :: r1 :: rest =>
      (r_timestamp r0 =? 0) || ((zlen records =? 2) && (r_timestamp r1 =? 0))
  | _ => true
  end.

(** [seed[0]++] *)
Definition bump_seed (seed : bytes) : bytes :=
  match seed with [] => [] | b :: s => z2b (b2z b + 1) :: s end.

Fixpoint store_loop (fuel : nat) (file seed tag : bytes) (now skew : Z)
    (tableOffset nrecords available : Z) : option (res bytes) :=
  match fuel with
  | O => None
  | S fuel' =>
      match nextTable tableOffset nrecords with
      | Ok (tableOffset, nrecords) =>
          let index := (sipHash24 tag seed) mod nrecords in
          let recordOffset := tableOffset + index * recordLen in
          let records := readRecords file recordOffset in
          match scan_records tag now skew recordOffset 0 records available with
          | Ok available =>
              let available :=
                if ((available =? -1) && (zlen records =? 0))%bool
                then recordOffset else available in
              let available :=
                if ((available =? -1) && (zlen records =? 1))%bool
                then recordOffset + recordLen else available in
              if window_ends records then
                Some (if available =? -1 then Err ErrOverflow
                      else Ok (writeRecord file available tag now))
              else store_loop fuel' file (bump_seed seed) tag now skew
                     tableOffset nrecords available
          | Err m => Some (Err m)
          | Panic => Some Panic
          end
      | Err m => Some (Err m)
      | Panic => Some Panic
      end
  end.

(** [store]; the 18th table overflows the file, so 18 rounds are enough
    ([store_loop_total]). *)
Definition store_fuel : nat := 18.
Definition store (file seed tag : bytes) (now skew : Z) : res bytes :=
  match store_loop store_fuel file seed tag now skew (-1) 0 (-1) with
  | Some r => r
  | None => Panic
  end.

(** [copy(normalized[:], tag)] into a zeroed [12]byte. *)
Definition normalize12 (tag : bytes) : bytes := take 12 (tag ++ replicate 12 Byte.x00).

(** [normalizeTag] of [TagFromCiphertext] and [TagFromChecksum]. *)
Definition normalizeTag (tag : bytes) : bytes :=
  if tagLen <? zlen tag then take 12 tag else tag.
Definition TagFromCiphertext (ciphertext : bytes) (trailerLen : Z) : res bytes :=
  let trailerLen := if trailerLen <? 0 then 0 else trailerLen in
  let trailerLen := if zlen ciphertext <? trailerLen then zlen ciphertext else trailerLen in
  let! t := go_slice ciphertext (zlen ciphertext - trailerLen) (zlen ciphertext) in
  Ok (normalizeTag t).
Definition TagFromChecksum (checksum : bytes) : bytes := normalizeTag checksum.

(** [(c *File2).Store]: times are nanoseconds since the Unix epoch, [random]
    is what [rand.Read] puts in a new seed. *)
Definition second : Z := 1000000000.
Definition unix_seconds (now : Z) : Z := u32 (now / second).
Definition skew_seconds (skew : Z) : Z :=
  if 0 <? skew then u32 (Z.quot skew second) else 0.

Definition File2_Store (random file tag : bytes) (now skew : Z) : bytes * res unit :=
  let seed := ReadAt file 0 hashSeedLen in
  let '(seed, file) :=
    if zlen seed <? hashSeedLen then (random, WriteAt file 0 random) else (seed, file) in
  match store file seed (normalize12 tag) (unix_seconds now) (skew_seconds skew) with
  | Ok file' => (file', Ok tt)
  | Err m => (file, Err m)
  | Panic => (file, Panic)
  end.

(** ** The in-memory cache *)

Definition Memory_Store (entries : gmap bytes Z) (tag : bytes) (now skew : Z)
    : gmap bytes Z * res unit :=
  let skew := if skew <? 0 then - skew else skew in
  match entries !! tag with
  | Some _ => (entries, Err ErrReplay)
  | None =>
      let expiry := now - skew in
      (<[tag := now]> (filter (λ kv, ¬ (kv.2 < expiry)) entries), Ok tt)
  end.

(** ** The [Cache] interface

    What a replay cache promises: a stored tag is recorded, a record survives
    the stores that do not expire it, and a recorded tag is rejected. *)
Class ReplayCache (S : Type) := {
  rc_store : bytes → S → bytes → Z → Z → S * res unit;
  rc_recorded : S → bytes → Z → Prop;
  rc_time_ok : Z → Prop;
  rc_survives : Z → Z → Z → Prop;
}.

Class ReplayCacheLaws (S : Type) `{ReplayCache S} : Prop := {
  rc_store_records random s tag now skew s' :
    length random = 16%nat → rc_time_ok now →
    rc_store random s tag now skew = (s', Ok tt) → rc_recorded s' tag now;
  rc_store_keeps random s tag t tag' now skew :
    length random = 16%nat → rc_time_ok now → rc_survives t now skew →
    rc_recorded s tag t → rc_recorded (rc_store random s tag' now skew).1 tag t;
  rc_store_rejects random s tag t now skew :
    rc_recorded s tag t → (rc_store random s tag now skew).2 = Err ErrReplay;
}.

(** A later call of [Store], with the seed it would write to an empty file. *)
Record store_call := mkCall {
  sc_random : bytes; sc_tag : bytes; sc_now : Z; sc_skew : Z;
}.

Definition run_call {S : Type} `{ReplayCache S} (s : S) (c : store_call) : S :=
  (rc_store (sc_random c) s (sc_tag c) (sc_now c) (sc_skew c)).1.

(** SipHash-2-4 reference vector (key 00..0f, message 00..0e). *)
Example sipHash24_vector :
  sipHash24 (z2b <$> seqZ 0 15) (z2b <$> seqZ 0 16) = 0xa129ca6149be45e5.
Proof. vm_compute. reflexivity. Qed.

(** ** The file as a sequence of records *)

Definition chunk (file : bytes) (i : nat) : bytes := take 16 (drop (16 * i) file).
Definition record_of (c : bytes) : record :=
  mkRecord (take 12 c) (be_value (take 4 (drop 12 c))).

(** The record in slot [i], [None] past the end of the file. *)
Definition record_at (file : bytes) (i : nat) : option record :=
  if decide (length (chunk file i) = 16%nat) then Some (record_of (chunk file i)) else None.

(** The one or two records [readRecords] returns at slot [i]. *)
Definition window (file : bytes) (i : nat) : list record :=
  match record_at file i with
  | None => []
  | Some r => r :: match record_at file (S i) with None => [] | Some r' => [r'] end
  end.

Lemma chunk_take32 file i j :
  (j ≤ 1)%nat → take 16 (drop (j * 16) (take 32 (drop (16 * i) file))) = chunk file (i + j).
Proof.
  intros Hj. unfold chunk. rewrite skipn_firstn_comm, take_take, drop_drop.
  f_equal; [lia|]. f_equal. lia.
Qed.

Lemma length_chunk file i : length (chunk file i) = Nat.min 16 (length file - 16 * i).
Proof. unfold chunk. by rewrite length_take, length_drop. Qed.

Lemma record_at_Some file i : is_Some (record_at file i) ↔ (16 * i + 16 ≤ length file)%nat.
Proof.
  unfold record_at. rewrite length_chunk. case_decide; split; intros H1;
    [lia|eauto|by destruct H1|lia].
Qed.

Lemma readRecords_window file i :
  readRecords file (16 * Z.of_nat i) = window file i.
Proof.
  unfold readRecords, ReadAt. replace (Z.to_nat (16 * Z.of_nat i)) with (16 * i)%nat by lia.
  change (Z.to_nat (recordLen * 2)) with 32%nat.
  set (buf := take 32 (drop (16 * i) file)).
  assert (Hlen : length buf = Nat.min 32 (length file - 16 * i))
    by (unfold buf; by rewrite length_take, length_drop).
  assert (Hrec : ∀ j, (j ≤ 1)%nat →
    mkRecord (take 12 (drop (j * 16) buf)) (be_value (take 4 (drop (j * 16 + 12) buf))) =
    record_of (chunk file (i + j))).
  { intros j Hj. rewrite <- chunk_take32 by done. unfold record_of. fold buf.
    rewrite take_take, Nat.min_l by lia. f_equal. f_equal.
    rewrite skipn_firstn_comm, take_take, drop_drop. f_equal; lia. }
  assert (H0 : record_at file i = if decide (16 ≤ length file - 16 * i)%nat
                then Some (record_of (chunk file i)) else None).
  { unfold record_at. rewrite length_chunk. repeat case_decide; try done; lia. }
  assert (H1 : record_at file (S i) = if decide (32 ≤ length file - 16 * i)%nat
                then Some (record_of (chunk file (S i))) else None).
  { unfold record_at. rewrite length_chunk. repeat case_decide; try done; lia. }
  unfold window. rewrite H0, H1, Hlen.
  pose proof (Hrec 0%nat ltac:(lia)) as R0. pose proof (Hrec 1%nat ltac:(lia)) as R1.
  rewrite Nat.add_0_r in R0. replace (i + 1)%nat with (S i) in R1 by lia.
  destruct (decide (16 ≤ length file - 16 * i)%nat) as [Ha|Ha];
    [|rewrite Nat.min_r, (Nat.div_small _ 16) by lia; done].
  destruct (decide (32 ≤ length file - 16 * i)%nat) as [Hb|Hb].
  - rewrite Nat.min_l by lia. change (32 / 16)%nat with 2%nat. cbn [seq fmap list_fmap].
    by rewrite R0, R1.
  - rewrite Nat.min_r by lia.
    replace ((length file - 16 * i) / 16)%nat with 1%nat
      by (apply Nat.div_unique with (length file - 16 * i - 16)%nat; lia).
    cbn [seq fmap list_fmap]. by rewrite R0.
Qed.

Lemma length_WriteAt file o b :
  length (WriteAt file (Z.of_nat o) b) = Nat.max (length file) (o + length b).
Proof.
  unfold WriteAt. rewrite Nat2Z.id.
  rewrite !length_app, length_take, length_app, length_replicate, length_drop. lia.
Qed.

Lemma chunk_WriteAt_eq file i b :
  length b = 16%nat → chunk (WriteAt file (Z.of_nat (16 * i)) b) i = b.
Proof.
  intros Hb. unfold chunk, WriteAt. rewrite Nat2Z.id.
  rewrite drop_app_length' by
    (rewrite length_take, length_app, length_replicate; lia).
  by rewrite take_app_length'.
Qed.

Lemma chunk_WriteAt_ne file i j b :
  length b = 16%nat → i ≠ j → (16 * j + 16 ≤ length file)%nat →
  chunk (WriteAt file (Z.of_nat (16 * i)) b) j = chunk file j.
Proof.
  intros Hb Hij Hj. unfold chunk, WriteAt. rewrite Nat2Z.id, Hb.
  set (pre := take (16 * i) (file ++ _)).
  assert (length pre = (16 * i)%nat) as Hp
    by (unfold pre; rewrite length_take, length_app, length_replicate; lia).
  destruct (decide (j < i)%nat) as [Hlt|Hge].
  - rewrite drop_app_le, take_app_le by (rewrite ?length_drop; lia).
    unfold pre. rewrite skipn_firstn_comm, take_take, Nat.min_l by lia.
    by rewrite drop_app_le, take_app_le by (rewrite ?length_drop; lia).
  - rewrite drop_app_ge, Hp by lia. rewrite drop_app_ge, Hb, drop_drop by lia.
    f_equal. f_equal. lia.
Qed.

Lemma record_at_write_eq file i tag ts :
  length tag = 12%nat →
  record_at (writeRecord file (16 * Z.of_nat i) tag ts) i = Some (mkRecord tag (u32 ts)).
Proof.
  intros Ht. unfold record_at, writeRecord.
  replace (16 * Z.of_nat i) with (Z.of_nat (16 * i)) by lia.
  assert (length (tag ++ be_bytes 4 ts) = 16%nat) as Hl
    by (rewrite length_app, length_be_bytes; lia).
  rewrite chunk_WriteAt_eq by done. rewrite decide_True by done. unfold record_of.
  rewrite take_app_length', drop_app_length' by done.
  rewrite (firstn_all2 (be_bytes 4 ts)) by (by rewrite length_be_bytes).
  by rewrite be_value_bytes.
Qed.

Lemma record_at_write_ne file i j tag ts r :
  length tag = 12%nat → i ≠ j → record_at file j = Some r →
  record_at (writeRecord file (16 * Z.of_nat i) tag ts) j = Some r.
Proof.
  intros Ht Hij Hr. assert (is_Some (record_at file j)) as Hl%record_at_Some by eauto.
  unfold record_at, writeRecord in *.
  replace (16 * Z.of_nat i) with (Z.of_nat (16 * i)) by lia.
  rewrite chunk_WriteAt_ne; [done|by rewrite length_app, length_be_bytes, Ht|done|done].
Qed.

(** ** The probe sequence of a tag *)

(** The [k]-th table: its offset and its number of records. *)
Fixpoint tables (k : nat) : res (Z * Z) :=
  match k with
  | O => Ok (-1, 0)
  | S k' => let! '(o, n) := tables k' in nextTable o n
  end.

Definition seed_at (seed : bytes) (k : nat) : bytes := Nat.iter k bump_seed seed.

(** The slot where the window of [tag] in table [k] starts. *)
Definition slot (seed tag : bytes) (k : nat) : option nat :=
  match tables (S k) with
  | Ok (o, n) => Some (Z.to_nat (o / 16 + sipHash24 tag (seed_at seed k) mod n))
  | _ => None
  end.

Definition table_ok (t : Z * Z) : Prop := 16 <= t.1 ∧ t.1 mod 16 = 0 ∧ 0 < t.2.

Lemma nextTable_ok o n t :
  (o, n) = (-1, 0) ∨ table_ok (o, n) → nextTable o n = Ok t → table_ok t.
Proof.
  unfold nextTable, table_ok, hashSeedLen, firstTableRecords, recordLen. intros [[= -> ->]|(Ho&Hm&Hn)].
  - cbn. intros [= <-]. cbn. done.
  - cbn in *. rewrite (proj2 (Z.eqb_neq o (-1))) by lia.
    destruct (o =? 16); intros H; inv_res; subst t; cbn;
      (split; [lia|]); rewrite Z.mod_add by lia; lia.
Qed.

Lemma tables_ok k t : tables (S k) = Ok t → table_ok t.
Proof.
  revert t. induction k as [|k IH]; intros t H.
  - apply (nextTable_ok (-1) 0 t); [by left|exact H].
  - cbn [tables] in H. apply res_bind_Ok in H as ([o n]&H1&H2).
    apply (nextTable_ok o n t); [|exact H2]. right. apply IH, H1.
Qed.

Lemma tables_end k t : tables k = Ok t → (k ≤ 17)%nat.
Proof.
  intros H. destruct (decide (k ≤ 17)%nat) as [|Hk]; [done|]. exfalso.
  replace k with (k - 18 + 18)%nat in H by lia. revert t H.
  induction (k - 18)%nat as [|m IH]; intros t H.
  - revert H. vm_compute. discriminate.
  - change (S m + 18)%nat with (S (m + 18)) in H. cbn [tables] in H. inv_res. by eapply IH.
Qed.

Lemma seed_at_S seed k : bump_seed (seed_at seed k) = seed_at seed (S k).
Proof. done. Qed.

(** One round of the loop, at table [k]. *)
Lemma store_loop_step fuel file seed tag now skew k o n avail :
  tables k = Ok (o, n) →
  store_loop (S fuel) file (seed_at seed k) tag now skew o n avail =
  match tables (S k), slot seed tag k with
  | Ok (o', n'), Some i =>
      match scan_records tag now skew (16 * Z.of_nat i) 0 (window file i) avail with
      | Ok a =>
          let a := if ((a =? -1) && (zlen (window file i) =? 0))%bool
                   then 16 * Z.of_nat i else a in
          let a := if ((a =? -1) && (zlen (window file i) =? 1))%bool
                   then 16 * Z.of_nat i + 16 else a in
          if window_ends (window file i) then
            Some (if a =? -1 then Err ErrOverflow else Ok (writeRecord file a tag now))
          else store_loop fuel file (seed_at seed (S k)) tag now skew o' n' a
      | Err m => Some (Err m)
      | Panic => Some Panic
      end
  | Err m, _ => Some (Err m)
  | _, _ => Some Panic
  end.
Proof.
  intros Hk. cbn [store_loop]. unfold slot. pose proof (tables_ok k) as Hok.
  cbn [tables] in *. rewrite Hk in *. cbn [res_bind] in *.
  destruct (nextTable o n) as [[o' n']| |] eqn:E; [|done..].
  specialize (Hok _ eq_refl) as (H1&H2&H3); cbn in H1, H2, H3.
  set (h := sipHash24 _ _ mod n').
  assert (0 <= h < n') by (apply Z.mod_pos_bound; lia).
  assert (o' + h * recordLen = 16 * Z.of_nat (Z.to_nat (o' / 16 + h))) as ->.
  { assert (0 <= o' / 16) by (apply Z.div_pos; lia). unfold recordLen.
    rewrite Z2Nat.id by lia. pose proof (Z.div_mod o' 16). lia. }
  by rewrite readRecords_window, seed_at_S.
Qed.

Lemma slot_tables seed tag k i :
  slot seed tag k = Some i → (∃ t, tables (S k) = Ok t) ∧ (1 ≤ i)%nat.
Proof.
  unfold slot. destruct (tables (S k)) as [[o n]| |] eqn:E; [|done..].
  intros [= <-]. split; [eauto|]. apply tables_ok in E as (H1&H2&H3); cbn in *.
  pose proof (Z.mod_pos_bound (sipHash24 tag (seed_at seed k)) n H3).
  assert (1 <= o / 16) by (apply Z.div_le_lower_bound; lia). lia.
Qed.

(** The loop always returns: there are at most 17 tables. *)
Lemma store_loop_total fuel file seed tag now skew k o n avail :
  tables k = Ok (o, n) → (18 ≤ fuel + k)%nat →
  is_Some (store_loop fuel file (seed_at seed k) tag now skew o n avail).
Proof.
  revert k o n avail. induction fuel as [|fuel IH]; intros k o n avail Hk Hf.
  - apply tables_end in Hk. lia.
  - rewrite (store_loop_step _ _ _ _ _ _ k) by done.
    destruct (tables (S k)) as [[o' n']| |] eqn:E; [|eauto..].
    destruct (slot seed tag k); [|eauto].
    destruct (scan_records _ _ _ _ _ _ _); [|eauto..]. cbv zeta.
    destruct (window_ends _); [eauto|]. apply IH; [done|lia].
Qed.

(** ** Scanning a window *)

(** A slot that may be overwritten. *)
Definition free (file : bytes) (now skew : Z) (i : nat) : Prop :=
  match record_at file i with
  | None => True
  | Some r => r_timestamp r = 0 ∨ expired (r_timestamp r) now skew = true
  end.

Definition holds (tag : bytes) (r : record) : Prop := r_timestamp r ≠ 0 ∧ r_tag r = tag.

Lemma scan_found tag now skew off i recs avail :
  Exists (holds tag) recs → scan_records tag now skew off i recs avail = Err ErrReplay.
Proof.
  intros H. revert i avail. induction recs as [|r recs IH]; intros i avail; [by inversion H|].
  cbn [scan_records]. apply Exists_cons in H.
  destruct (negb _ && _)%bool eqn:E; [done|]. apply IH.
  destruct H as [[H1 H2]|H]; [|done]. exfalso.
  rewrite (proj2 (Z.eqb_neq _ _) H1), bool_decide_true in E by done. done.
Qed.

Lemma scan_cases tag now skew off i recs avail :
  scan_records tag now skew off i recs avail = Err ErrReplay ∨
  ∃ a, scan_records tag now skew off i recs avail = Ok a ∧
    (a = avail ∨ (avail = -1 ∧ ∃ j r, recs !! j = Some r ∧ a = off + (i + Z.of_nat j) * 16 ∧
       (r_timestamp r = 0 ∨ expired (r_timestamp r) now skew = true))).
Proof.
  revert i avail. induction recs as [|r recs IH]; intros i avail; cbn [scan_records]; [eauto|].
  destruct (negb _ && _)%bool; [by left|].
  destruct (((avail =? -1) && _)%bool) eqn:E; cbv zeta.
  - destruct (IH (i + 1) (off + i * recordLen)) as [H|(a&Ha&H)]; [by left|]. right.
    exists a. split; [done|]. right. bool_cases. subst. split; [done|].
    destruct H as [->|(_&j&r'&Hj&->&Hr)].
    + exists 0%nat, r. split; [done|]. split; [unfold recordLen; lia|].
      apply orb_true_iff in H1 as [?%Z.eqb_eq|?]; tauto.
    + exists (S j), r'. split; [done|]. split; [lia|done].
  - destruct (IH (i + 1) avail) as [H|(a&Ha&H)]; [by left|]. right. exists a. split; [done|].
    destruct H as [->|(Hav&j&r'&Hj&->&Hr)]; [by left|]. right. split; [done|].
    exists (S j), r'. split; [done|]. split; [lia|done].
Qed.

Lemma window_lookup file i j r :
  window file i !! j = Some r → (j ≤ 1)%nat ∧ record_at file (i + j) = Some r.
Proof.
  unfold window. destruct (record_at file i) as [r0|] eqn:E0; [|done].
  destruct j as [|j]; cbn; [intros [= <-]; rewrite Nat.add_0_r; auto with lia|].
  destruct (record_at file (S i)) as [r1|] eqn:E1; [|done].
  destruct j as [|j]; cbn; [|done]. intros [= <-].
  split; [lia|]. by replace (i + 1)%nat with (S i) by lia.
Qed.

(** The window is full: the loop goes on to the next table. *)
Definition full (file : bytes) (i : nat) : Prop :=
  ∃ r0 r1, record_at file i = Some r0 ∧ record_at file (S i) = Some r1 ∧
           r_timestamp r0 ≠ 0 ∧ r_timestamp r1 ≠ 0.

Lemma window_ends_full file i : window_ends (window file i) = false ↔ full file i.
Proof.
  unfold window, full. destruct (record_at file i) as [r0|]; [|split; [done|by intros (?&?&?&?)]].
  destruct (record_at file (S i)) as [r1|]; [|split; [done|by intros (?&?&?&?&?)]].
  cbn. change (zlen [r0; r1] =? 2) with true. cbn. rewrite orb_false_iff, !Z.eqb_neq.
  split; [intros [? ?]; eauto 10|by intros (?&?&[= <-]&[= <-]&?&?)].
Qed.

(** ** What a successful store does *)

(** Slot [i] belongs to the window of [tag] in table [k]. *)
Definition in_window (seed tag : bytes) (k i : nat) : Prop :=
  ∃ i0, slot seed tag k = Some i0 ∧ (i = i0 ∨ i = S i0).

(** The windows of the tables before [k] are full. *)
Definition full_before (file seed tag : bytes) (k : nat) : Prop :=
  ∀ j, (j < k)%nat → ∃ i, slot seed tag j = Some i ∧ full file i.

(** A free slot of a window all of whose predecessors are full. *)
Definition candidate (file seed tag : bytes) (now skew : Z) (i : nat) : Prop :=
  ∃ k, in_window seed tag k i ∧ full_before file seed tag k ∧ free file now skew i.

Lemma scan_window file seed tag now skew k i avail a :
  slot seed tag k = Some i → full_before file seed tag k →
  scan_records tag now skew (16 * Z.of_nat i) 0 (window file i) avail = Ok a →
  a = avail ∨ ∃ j, a = 16 * Z.of_nat j ∧ candidate file seed tag now skew j.
Proof.
  intros Hs Hfull Hscan.
  destruct (scan_cases tag now skew (16 * Z.of_nat i) 0 (window file i) avail)
    as [H|(a'&H&Ha)]; rewrite H in Hscan; [done|]. injection Hscan as ->.
  destruct Ha as [->|(_&j&r&Hj&->&Hr)]; [by left|]. right.
  apply window_lookup in Hj as [Hj1 Hrec]. exists (i + j)%nat. split; [lia|].
  exists k. split; [exists i; split; [done|lia]|]. split; [done|].
  unfold free. by rewrite Hrec.
Qed.

Lemma end_slot file seed tag now skew k i a :
  slot seed tag k = Some i → full_before file seed tag k →
  (a = -1 ∨ ∃ j, a = 16 * Z.of_nat j ∧ candidate file seed tag now skew j) →
  let a1 := if ((a =? -1) && (zlen (window file i) =? 0))%bool then 16 * Z.of_nat i else a in
  let a2 := if ((a1 =? -1) && (zlen (window file i) =? 1))%bool
            then 16 * Z.of_nat i + 16 else a1 in
  a2 = -1 ∨ ∃ j, a2 = 16 * Z.of_nat j ∧ candidate file seed tag now skew j.
Proof.
  intros Hs Hfull Ha. cbv zeta.
  assert (Hc : ∀ j, j = i ∨ j = S i → record_at file j = None →
            candidate file seed tag now skew j).
  { intros j Hj Hn. exists k. split; [by exists i|]. split; [done|]. unfold free. by rewrite Hn. }
  unfold window. destruct (record_at file i) as [r0|] eqn:E0.
  - rewrite (proj2 (Z.eqb_neq (zlen (r0 :: _)) 0)) by
      (rewrite zlen_cons; match goal with |- context [zlen ?l] => pose proof (zlen_nonneg l) end; lia).
    rewrite andb_false_r. destruct (record_at file (S i)) as [r1|] eqn:E1.
    + change (zlen [r0; r1] =? 1) with false. by rewrite andb_false_r.
    + change (zlen [r0] =? 1) with true. rewrite andb_true_r.
      destruct (a =? -1); [|done]. right. exists (S i). split; [lia|]. apply Hc; [by right|done].
  - change (zlen [] =? 0) with true. change (zlen [] =? 1) with false.
    rewrite andb_true_r, andb_false_r. destruct (a =? -1); [|done].
    right. exists i. split; [lia|]. apply Hc; [by left|done].
Qed.

Lemma store_loop_writes fuel file seed tag now skew k o n avail file' :
  tables k = Ok (o, n) → full_before file seed tag k →
  (avail = -1 ∨ ∃ j, avail = 16 * Z.of_nat j ∧ candidate file seed tag now skew j) →
  store_loop fuel file (seed_at seed k) tag now skew o n avail = Some (Ok file') →
  ∃ j, file' = writeRecord file (16 * Z.of_nat j) tag now ∧ candidate file seed tag now skew j.
Proof.
  revert k o n avail. induction fuel as [|fuel IH]; intros k o n avail Hk Hfull Hav; [done|].
  rewrite (store_loop_step _ _ _ _ _ _ k) by done.
  destruct (tables (S k)) as [[o' n']| |] eqn:E; [|done..].
  destruct (slot seed tag k) as [i|] eqn:Hs; [|done].
  destruct (scan_records _ _ _ _ _ _ _) as [a| |] eqn:Hscan; [|done..].
  eapply scan_window in Hscan as Ha; [|done|done].
  assert (a = -1 ∨ ∃ j, a = 16 * Z.of_nat j ∧ candidate file seed tag now skew j) as Ha'
    by (destruct Ha as [->|?]; [done|by right]).
  pose proof (end_slot file seed tag now skew k i a Hs Hfull Ha') as Hend.
  cbv zeta in *. set (a2 := if (_ && (_ =? 1))%bool then _ else _) in *.
  destruct (window_ends (window file i)) eqn:Hw.
  - destruct (Z.eqb_spec a2 (-1)); [done|]. intros [= <-].
    destruct Hend as [?|(j&->&Hj)]; [done|]. by exists j.
  - apply (IH (S k) o' n' a2); [done| |done].
    intros j Hj. destruct (decide (j = k)) as [->|]; [|apply Hfull; lia].
    exists i. split; [done|]. by apply window_ends_full.
Qed.

Lemma store_writes file seed tag now skew file' :
  store file seed tag now skew = Ok file' →
  ∃ j, file' = writeRecord file (16 * Z.of_nat j) tag now ∧
       candidate file seed tag now skew j ∧ (1 ≤ j)%nat.
Proof.
  unfold store. destruct (store_loop _ _ _ _ _ _ _ _ _) as [r|] eqn:E; [|done]. intros ->.
  change seed with (seed_at seed 0) in E.
  apply (store_loop_writes _ _ _ _ _ _ 0 (-1) 0 (-1)) in E as (j&->&Hj);
    [|done|by intros ? ?%Nat.nlt_0_r|by left].
  exists j. split; [done|]. split; [done|]. destruct Hj as (k&(i0&Hs&Hj)&_).
  apply slot_tables in Hs as [_ ?]. lia.
Qed.

(** ** The tag can be found *)

(** [tag] is recorded with time stamp [ts] in a window the probe sequence reaches. *)
Definition findable (file seed tag : bytes) (ts : Z) : Prop :=
  ∃ k i, in_window seed tag k i ∧ full_before file seed tag k ∧
         record_at file i = Some (mkRecord tag ts) ∧ ts ≠ 0.

Lemma in_window_Exists file seed tag k i r :
  in_window seed tag k i → record_at file i = Some r → holds tag r →
  ∃ i0, slot seed tag k = Some i0 ∧ Exists (holds tag) (window file i0).
Proof.
  intros (i0&Hs&Hi) Hr Hh. exists i0. split; [done|]. unfold window.
  destruct Hi as [->| ->].
  - rewrite Hr. by apply Exists_cons_hd.
  - assert (is_Some (record_at file i0)) as [r0 ->].
    { apply record_at_Some. assert (is_Some (record_at file (S i0))) as H%record_at_Some by eauto.
      lia. }
    rewrite Hr. by apply Exists_cons_tl, Exists_cons_hd.
Qed.

Lemma store_loop_finds fuel file seed tag now skew k0 i ts k o n avail :
  in_window seed tag k0 i → full_before file seed tag k0 →
  record_at file i = Some (mkRecord tag ts) → ts ≠ 0 →
  tables k = Ok (o, n) → (k ≤ k0)%nat → (k0 < fuel + k)%nat →
  store_loop fuel file (seed_at seed k) tag now skew o n avail = Some (Err ErrReplay).
Proof.
  intros Hin Hfull Hrec Hts. revert k o n avail.
  induction fuel as [|fuel IH]; intros k o n avail Hk Hle Hf; [lia|].
  rewrite (store_loop_step _ _ _ _ _ _ k) by done.
  assert (∃ i0, slot seed tag k = Some i0 ∧
    (Exists (holds tag) (window file i0) ∨ (k < k0)%nat ∧ full file i0)) as (i0&Hs&Hw).
  { destruct (decide (k = k0)) as [->|].
    - destruct (in_window_Exists file _ _ _ _ _ Hin Hrec) as (i0&?&?); [by split|]. eauto.
    - destruct (Hfull k) as (i0&?&?); [lia|]. exists i0. split; [done|]. right. split; [lia|done]. }
  destruct (slot_tables _ _ _ _ Hs) as [[[o' n'] Ht] _]. rewrite Ht, Hs.
  destruct Hw as [Hw|[Hlt Hw]]; [by rewrite scan_found|].
  destruct (scan_cases tag now skew (16 * Z.of_nat i0) 0 (window file i0) avail)
    as [->|(a&->&_)]; [done|]. cbv zeta.
  apply window_ends_full in Hw. rewrite Hw. apply IH; [done|lia|lia].
Qed.

Lemma store_finds file seed tag now skew ts :
  findable file seed tag ts → store file seed tag now skew = Err ErrReplay.
Proof.
  intros (k&i&Hin&Hfull&Hrec&Hts). unfold store. change seed with (seed_at seed 0) at 1.
  rewrite (store_loop_finds _ _ _ _ _ _ k i ts 0); try done; [lia|].
  destruct Hin as (i0&Hs&_). apply slot_tables in Hs as [[t Ht] _].
  apply tables_end in Ht. unfold store_fuel. lia.
Qed.

(** Writing a record with a non-zero time stamp keeps full windows full. *)
Lemma full_write file i j tag ts :
  length tag = 12%nat → u32 ts ≠ 0 → full file i →
  full (writeRecord file (16 * Z.of_nat j) tag ts) i.
Proof.
  intros Ht Hts (r0&r1&H0&H1&Z0&Z1).
  assert (Hget : ∀ l r, record_at file l = Some r → r_timestamp r ≠ 0 →
    ∃ r', record_at (writeRecord file (16 * Z.of_nat j) tag ts) l = Some r' ∧ r_timestamp r' ≠ 0).
  { intros l r Hl Hz. destruct (decide (j = l)) as [<-|].
    - eexists. split; [by apply record_at_write_eq|done].
    - exists r. split; [by apply record_at_write_ne|done]. }
  destruct (Hget _ _ H0 Z0) as (r0'&?&?). destruct (Hget _ _ H1 Z1) as (r1'&?&?).
  by exists r0', r1'.
Qed.

Lemma full_before_write file seed tag k j tag' ts :
  length tag' = 12%nat → u32 ts ≠ 0 → full_before file seed tag k →
  full_before (writeRecord file (16 * Z.of_nat j) tag' ts) seed tag k.
Proof.
  intros Ht Hts H l Hl. destruct (H l Hl) as (i&Hs&Hf). exists i. split; [done|].
  by apply full_write.
Qed.

Lemma store_findable file seed tag now skew file' :
  length tag = 12%nat → 0 < now < 2 ^ 32 →
  store file seed tag now skew = Ok file' → findable file' seed tag now.
Proof.
  intros Ht Hnow H. assert (u32 now = now) as Hu by (apply Z.mod_small; lia).
  apply store_writes in H as (j&->&(k&Hin&Hfull&_)&_). exists k, j.
  split; [done|]. split; [apply full_before_write; [done|lia|done]|].
  split; [|lia]. by rewrite record_at_write_eq, Hu.
Qed.

Lemma store_keeps file seed tag ts tag' now skew file' :
  length tag' = 12%nat → 0 < now < 2 ^ 32 →
  findable file seed tag ts → expired ts now skew = false →
  store file seed tag' now skew = Ok file' → findable file' seed tag ts.
Proof.
  intros Ht Hnow (k&i&Hin&Hfull&Hrec&Hts) Hexp H.
  assert (u32 now = now) as Hu by (apply Z.mod_small; lia).
  apply store_writes in H as (j&->&(_&_&_&Hfree)&_). exists k, i.
  split; [done|]. split; [apply full_before_write; [done|lia|done]|]. split; [|done].
  apply record_at_write_ne; [done| |done].
  intros ->. unfold free in Hfree. rewrite Hrec in Hfree; cbn in Hfree.
  destruct Hfree as [?|He]; [done|]. by rewrite Hexp in He.
Qed.

(** ** The interface theorem *)

Lemma recorded_after_calls {S : Type} `{ReplayCacheLaws S} (s : S) tag t calls :
  rc_recorded s tag t →
  Forall (λ c, length (sc_random c) = 16%nat ∧ rc_time_ok (sc_now c) ∧
               rc_survives t (sc_now c) (sc_skew c)) calls →
  rc_recorded (foldl run_call s calls) tag t.
Proof.
  intros Hs Hc. revert s Hs. induction Hc as [|c calls (?&?&?) _ IH]; intros s Hs; [done|].
  cbn [foldl]. apply IH. by apply rc_store_keeps.
Qed.

(** ** The instances *)

#[export] Instance File2_cache : ReplayCache bytes := {
  rc_store random file tag now skew := File2_Store random file tag now skew;
  rc_recorded file tag t :=
    (16 ≤ length file)%nat ∧
    findable file (take 16 file) (normalize12 tag) (unix_seconds t);
  rc_time_ok now := unix_seconds now ≠ 0;
  rc_survives t now skew := expired (unix_seconds t) (unix_seconds now) (skew_seconds skew) = false;
}.

#[export] Instance Memory_cache : ReplayCache (gmap bytes Z) := {
  rc_store _ entries tag now skew := Memory_Store entries tag now skew;
  rc_recorded entries tag t := entries !! tag = Some t;
  rc_time_ok _ := True;
  rc_survives t now skew := now <= t + Z.abs skew;
}.

Lemma length_normalize12 tag : length (normalize12 tag) = 12%nat.
Proof. unfold normalize12. rewrite length_take, length_app, length_replicate. lia. Qed.

Lemma unix_seconds_range now : unix_seconds now ≠ 0 → 0 < unix_seconds now < 2 ^ 32.
Proof. unfold unix_seconds, u32. pose proof (Z.mod_pos_bound (now / second) (2 ^ 32)). lia. Qed.

(** The seed and the file a [Store] works on. *)
Lemma File2_Store_start random file tag now skew :
  length random = 16%nat →
  ∃ file0, (16 ≤ length file0)%nat ∧
    ((16 ≤ length file)%nat → file0 = file) ∧
    File2_Store random file tag now skew =
    match store file0 (take 16 file0) (normalize12 tag) (unix_seconds now) (skew_seconds skew) with
    | Ok file' => (file', Ok tt)
    | Err m => (file0, Err m)
    | Panic => (file0, Panic)
    end.
Proof.
  intros Hr. unfold File2_Store, ReadAt. change (Z.to_nat hashSeedLen) with 16%nat.
  change (Z.to_nat 0) with 0%nat. rewrite drop_0. unfold hashSeedLen.
  destruct (Z.ltb_spec (zlen (take 16 file)) 16) as [H|H]; unfold zlen in H; rewrite length_take in H.
  - exists (WriteAt file 0 random).
    assert (take 16 (WriteAt file 0 random) = random) as ->.
    { unfold WriteAt. change (Z.to_nat 0) with 0%nat. rewrite take_0, app_nil_l. by apply take_app_length'. }
    split; [|split; [lia|done]].
    unfold WriteAt. rewrite !length_app. lia.
  - exists file. split; [lia|]. done.
Qed.

Lemma writeRecord_seed file j tag ts :
  (1 ≤ j)%nat → length tag = 12%nat → (16 ≤ length file)%nat →
  (16 ≤ length (writeRecord file (16 * Z.of_nat j) tag ts))%nat ∧
  take 16 (writeRecord file (16 * Z.of_nat j) tag ts) = take 16 file.
Proof.
  intros Hj Ht Hf. unfold writeRecord.
  replace (16 * Z.of_nat j) with (Z.of_nat (16 * j)) by lia.
  split; [rewrite length_WriteAt; lia|].
  pose proof (chunk_WriteAt_ne file j 0 (tag ++ be_bytes 4 ts)) as H. unfold chunk in H.
  change (16 * 0)%nat with 0%nat in H. rewrite !drop_0 in H.
  apply H; [by rewrite length_app, length_be_bytes, Ht|lia|lia].
Qed.

#[export] Instance File2_laws : ReplayCacheLaws bytes.
Proof.
  split.
  - intros random file tag now skew file' Hr Ht H. cbn in *.
    destruct (File2_Store_start random file tag now skew Hr) as (file0&Hl&_&Heq).
    rewrite Heq in H. destruct (store _ _ _ _ _) as [f| |] eqn:E; [|done..]. injection H as ->.
    apply unix_seconds_range in Ht.
    pose proof (store_findable _ _ _ _ _ _ (length_normalize12 tag) Ht E) as Hfind.
    apply store_writes in E as (j&->&_&Hj).
    destruct (writeRecord_seed file0 j (normalize12 tag) (unix_seconds now) Hj
      (length_normalize12 tag) Hl) as [H1 H2].
    split; [done|]. by rewrite H2.
  - intros random file tag t tag' now skew Hr Ht Hs [Hl Hf]. cbn in *.
    destruct (File2_Store_start random file tag' now skew Hr) as (file0&_&Hsame&Heq).
    rewrite Hsame in Heq by done. rewrite Heq. destruct (store _ _ _ _ _) as [f| |] eqn:E; [|done..].
    apply unix_seconds_range in Ht.
    pose proof (store_keeps _ _ _ _ _ _ _ _ (length_normalize12 tag') Ht Hf Hs E) as Hfind.
    apply store_writes in E as (j&->&_&Hj).
    destruct (writeRecord_seed file j (normalize12 tag') (unix_seconds now) Hj
      (length_normalize12 tag') Hl) as [H1 H2].
    cbn. split; [done|]. by rewrite H2.
  - intros random file tag t now skew [Hl Hf]. cbn. unfold File2_Store, ReadAt.
    change (Z.to_nat hashSeedLen) with 16%nat. change (Z.to_nat 0) with 0%nat. rewrite drop_0.
    rewrite (proj2 (Z.ltb_ge _ _)); [by rewrite (store_finds _ _ _ _ _ _ Hf)|].
    unfold zlen, hashSeedLen. rewrite length_take. lia.
Qed.

#[export] Instance Memory_laws : ReplayCacheLaws (gmap bytes Z).
Proof.
  split; cbn.
  - intros _ m tag now skew m' _ _. unfold Memory_Store. destruct (m !! tag); [done|].
    intros [= <-]. by rewrite lookup_insert_eq.
  - intros _ m tag t tag' now skew _ _ Hs Hm. unfold Memory_Store.
    destruct (m !! tag') eqn:E; [done|]. cbn.
    rewrite lookup_insert_ne by (intros ->; by rewrite E in Hm).
    apply map_lookup_filter_Some. split; [done|]. cbn.
    destruct (Z.ltb_spec skew 0); lia.
  - intros _ m tag t now skew Hm. unfold Memory_Store. by rewrite Hm.
Qed.

(** No spurious replay: the rejected tag is recorded in the file. *)
Lemma scan_replay tag now skew off i recs avail :
  scan_records tag now skew off i recs avail = Err ErrReplay → Exists (holds tag) recs.
Proof.
  revert i avail. induction recs as [|r recs IH]; intros i avail; cbn [scan_records]; [done|].
  destruct (negb _ && _)%bool eqn:E.
  - intros _. bool_cases. apply Exists_cons_hd. by split.
  - intros H. eapply Exists_cons_tl, IH, H.
Qed.

Lemma store_loop_replay fuel file seed tag now skew k o n avail :
  tables k = Ok (o, n) →
  store_loop fuel file (seed_at seed k) tag now skew o n avail = Some (Err ErrReplay) →
  ∃ i r, record_at file i = Some r ∧ holds tag r.
Proof.
  revert k o n avail. induction fuel as [|fuel IH]; intros k o n avail Hk; [done|].
  rewrite (store_loop_step _ _ _ _ _ _ k) by done.
  destruct (tables (S k)) as [[o' n']|m|] eqn:E; [| |done].
  - destruct (slot seed tag k) as [i|] eqn:Hs; [|done].
    destruct (scan_cases tag now skew (16 * Z.of_nat i) 0 (window file i) avail)
      as [Hsc|(a&->&_)].
    + intros _. apply scan_replay in Hsc. apply Exists_exists in Hsc as (r&Hr&Hh).
      apply list_elem_of_lookup in Hr as [j Hj]. apply window_lookup in Hj as [_ Hj]. eauto.
    + cbv zeta. destruct (window_ends _); [by repeat case_match|]. by apply IH.
  - intros [= ->]. cbn [tables] in E. rewrite Hk in E. cbn [res_bind] in E.
    unfold nextTable in E. repeat case_match; simplify_eq.
Qed.

Lemma store_loop_no_panic fuel file seed tag now skew k o n avail :
  tables k = Ok (o, n) →
  store_loop fuel file (seed_at seed k) tag now skew o n avail ≠ Some Panic.
Proof.
  revert k o n avail. induction fuel as [|fuel IH]; intros k o n avail Hk; [done|].
  rewrite (store_loop_step _ _ _ _ _ _ k) by done.
  destruct (tables (S k)) as [[o' n']|m|] eqn:E; [|done|].
  - unfold slot. rewrite E.
    destruct (scan_cases tag now skew
      (16 * Z.of_nat (Z.to_nat (o' / 16 + sipHash24 tag (seed_at seed k) `mod` n'))) 0
      (window file (Z.to_nat (o' / 16 + sipHash24 tag (seed_at seed k) `mod` n'))) avail)
      as [->|(a&->&_)]; [done|].
    cbv zeta. destruct (window_ends _); [by case_match|]. by apply IH.
  - cbn [tables] in E. rewrite Hk in E. cbn [res_bind] in E.
    unfold nextTable in E. repeat case_match; done.
Qed.

(** ** Properties *)

(** C12: no replay within the lifetime of its record (file2): once a tag has
    been stored, every later [Store] of the same (normalized) tag reports a
    replay, whatever calls come in between, as long as none of them comes after
    the record has expired.  The file's two-record windows, growing tables,
    reuse of expired slots and time-stamp wrap-around are all covered; the
    time 0, which marks an empty slot, is excluded. *)
Theorem file2_replay_detected random file tag now skew file' calls random' tag' now' skew' :
  length random = 16%nat → unix_seconds now ≠ 0 →
  File2_Store random file tag now skew = (file', Ok tt) →
  Forall (λ c, length (sc_random c) = 16%nat ∧ unix_seconds (sc_now c) ≠ 0 ∧
               expired (unix_seconds now) (unix_seconds (sc_now c)) (skew_seconds (sc_skew c))
               = false) calls →
  normalize12 tag' = normalize12 tag →
  (File2_Store random' (foldl run_call file' calls) tag' now' skew').2 = Err ErrReplay.
Proof.
  intros Hr Hn Hst Hc Htag.
  pose proof (rc_store_records random file tag now skew file' Hr Hn Hst) as Hrec.
  apply (recorded_after_calls file' tag now calls Hrec) in Hc.
  cbn in Hc. rewrite <- Htag in Hc.
  exact (rc_store_rejects random' (foldl run_call file' calls) tag' now now' skew' Hc).
Qed.

(** C27: no spurious replay and termination (file2): [Store] always returns,
    never panics, and reports a replay only for a tag that a record of the file
    holds with a non-zero time stamp. *)
Theorem file2_store_total_sound file seed tag now skew :
  store file seed tag now skew ≠ Panic ∧
  (store file seed tag now skew = Err ErrReplay →
   ∃ i r, record_at file i = Some r ∧ r_timestamp r ≠ 0 ∧ r_tag r = tag).
Proof.
  assert (Hl : is_Some (store_loop store_fuel file (seed_at seed 0) tag now skew (-1) 0 (-1))).
  { by apply store_loop_total. }
  change (seed_at seed 0) with seed in Hl. destruct Hl as [r Hl].
  unfold store. rewrite Hl. change seed with (seed_at seed 0) in Hl. split.
  - intros ->. by eapply (store_loop_no_panic _ _ _ _ _ _ 0).
  - intros ->. by apply store_loop_replay in Hl.
Qed.

(** No replay within the clock skew (memory cache): a tag stored at time
    [now] is rejected by every later [Store], whatever stores of other tags come
    in between, as long as each of them happens no later than [now] plus its
    own clock skew. *)
Theorem memory_replay_detected m tag now skew m' calls now' skew' :
  Memory_Store m tag now skew = (m', Ok tt) →
  Forall (λ c, length (sc_random c) = 16%nat ∧ True ∧
               sc_now c <= now + Z.abs (sc_skew c)) calls →
  (Memory_Store (foldl run_call m' calls) tag now' skew').2 = Err ErrReplay.
Proof.
  intros Hst Hc.
  assert (rc_recorded m' tag now) as Hrec
    by (by apply (rc_store_records (replicate 16 Byte.x00) m tag now skew m')).
  apply (recorded_after_calls m' tag now calls Hrec) in Hc.
  exact (rc_store_rejects [] (foldl run_call m' calls) tag now now' skew' Hc).
Qed.

Definition w_seed : bytes := replicate 16 Byte.x2a.
Definition w_call : store_call := mkCall w_seed (str "another tag") (1700000100 * second) (300 * second).

Lemma file2_replay_detected_witness :
  (File2_Store w_seed
     (foldl run_call (File2_Store w_seed [] (str "tag") (1700000000 * second) (300 * second)).1
        [w_call]) (str "tag") (1700000200 * second) (300 * second)).2 = Err ErrReplay.
Proof.
  apply (file2_replay_detected w_seed [] (str "tag") (1700000000 * second) (300 * second)).
  - reflexivity.
  - vm_compute. discriminate.
  - vm_compute. reflexivity.
  - constructor; [|constructor]. split; [reflexivity|]. split; vm_compute; [discriminate|reflexivity].
  - reflexivity.
Defined.

Lemma memory_replay_detected_witness :
  (Memory_Store
     (foldl run_call (Memory_Store ∅ (str "tag") (1700000000 * second) (300 * second)).1
        [w_call]) (str "tag") (1700000200 * second) (300 * second)).2 = Err ErrReplay.
Proof.
  apply (memory_replay_detected ∅ (str "tag") (1700000000 * second) (300 * second)).
  - unfold Memory_Store. rewrite lookup_empty. reflexivity.
  - constructor; [|constructor]. split; [reflexivity|]. split; [exact I|]. vm_compute. discriminate.
Defined.
