(* ===== verification/Lookaside.v ===== *)
(** * Reply lookaside caches (src/krb5/kdc/lookaside.go, src/krb5/kpasswd/lookaside.go)

    Both servers remember the replies to recent requests, so that a
    retransmitted request is answered again without being processed twice.  The
    two packages have the same cache and differ in three places, collected in
    [variant].  An entry is shared between the map and the queue, so entries
    live in a heap and both hold locations; the list element of an entry is its
    location in [queue].  A nil map is an empty one ([initializeLocked] creates
    it before any use).  Times and durations are nanoseconds. *)

From S2P Require Import Prelude.
Local Open Scope Z_scope.

Definition minute : Z := 60 * 1000000000.
Definition kdcLookasideStaleTime : Z := 2 * minute.
Definition kdcLookasideMaxSize : Z := Z.shiftl 10 20.

Record lookasideEntry := mkEntry {
  le_request : bytes;
  le_response : option bytes;
  le_timeIn : Z;
  le_hits : Z;
}.

Record lookasideCache := mkCache {
  c_heap : gmap nat lookasideEntry;
  c_entries : gmap bytes nat;
  c_queue : list nat;
  c_size : Z;
  c_maxSize : Z;
  c_next : nat;
}.

Definition newLookasideCache : lookasideCache :=
  mkCache ∅ ∅ [] 0 kdcLookasideMaxSize 0.

(** Where the two packages differ: the freshness test of [expireLocked], the
    responses for which [complete] drops the reservation, and the size
    [evictLocked] leaves when it finds the queue empty. *)
Record variant := mkVariant {
  v_fresh : Z → Z → bool;
  v_drops : option bytes → bool;
  v_empty_size : Z → Z;
}.

Definition kdc_variant : variant := {|
  v_fresh now timeIn := now <? timeIn + kdcLookasideStaleTime;
  v_drops response := match response with None | Some [] => true | Some (_ :: _) => false end;
  v_empty_size size := size;
|}.

Definition kpasswd_variant : variant := {|
  v_fresh now timeIn := (now <? timeIn) || (now - timeIn <? kdcLookasideStaleTime);
  v_drops response := match response with None => true | Some _ => false end;
  v_empty_size _ := 0;
|}.

Definition set_size (c : lookasideCache) (n : Z) : lookasideCache :=
  mkCache (c_heap c) (c_entries c) (c_queue c) n (c_maxSize c) (c_next c).
Definition set_entry (c : lookasideCache) (l : nat) (e : lookasideEntry) : lookasideCache :=
  mkCache (<[l := e]> (c_heap c)) (c_entries c) (c_queue c) (c_size c) (c_maxSize c) (c_next c).

Definition rlen (r : option bytes) : Z := match r with None => 0 | Some b => zlen b end.

Definition initializeLocked (c : lookasideCache) : lookasideCache :=
  if c_maxSize c <=? 0
  then mkCache (c_heap c) (c_entries c) (c_queue c) (c_size c) kdcLookasideMaxSize (c_next c)
  else c.

Definition removeLocked (c : lookasideCache) (l : nat) : lookasideCache :=
  match c_heap c !! l with
  | None => c
  | Some e =>
      let size := c_size c - (zlen (le_request e) + rlen (le_response e)) in
      mkCache (c_heap c) (delete (le_request e) (c_entries c))
        (filter (λ l', l' ≠ l) (c_queue c))
        (if size <? 0 then 0 else size) (c_maxSize c) (c_next c)
  end.

Section ops.
Context (v : variant).

(** The loop of [expireLocked] from the element at the front of [q]. *)
Fixpoint expire_loop (now : Z) (q : list nat) (c : lookasideCache) : lookasideCache :=
  match q with
  | [] => c
  | l :: q' =>
      match c_heap c !! l with
      | None => c
      | Some e =>
          if v_fresh v now (le_timeIn e) then c
          else expire_loop now q' (removeLocked c l)
      end
  end.
Definition expireLocked (c : lookasideCache) (now : Z) : lookasideCache :=
  expire_loop now (c_queue c) c.

(** The loop of [evictLocked]; each round removes the front of the queue. *)
Fixpoint evict_loop (q : list nat) (c : lookasideCache) : lookasideCache :=
  if c_maxSize c <? c_size c then
    match q with
    | [] => set_size c (v_empty_size v (c_size c))
    | l :: q' => evict_loop q' (removeLocked c l)
    end
  else c.
Definition evictLocked (c : lookasideCache) : lookasideCache := evict_loop (c_queue c) c.

(** [begin]: the cached response (or nil) and whether the request is known. *)
Definition begin (c : lookasideCache) (request : bytes) (now : Z)
    : (option bytes * bool) * lookasideCache :=
  let c := initializeLocked c in
  let c := expireLocked c now in
  match c_entries c !! request with
  | Some l =>
      match c_heap c !! l with
      | Some e =>
          let c := set_entry c l
            (mkEntry (le_request e) (le_response e) (le_timeIn e) (u64 (le_hits e + 1))) in
          match le_response e with
          | None => ((None, true), c)
          | Some r => ((Some r, true), c)
          end
      | None => ((None, true), c)
      end
  | None =>
      let entry := mkEntry request None now 0 in
      let l := c_next c in
      let c := mkCache (<[l := entry]> (c_heap c)) (<[request := l]> (c_entries c))
                 (c_queue c ++ [l]) (c_size c + zlen request) (c_maxSize c) (S l) in
      ((None, false), evictLocked c)
  end.

(** [complete] *)
Definition complete (c : lookasideCache) (request : bytes) (response : option bytes) (now : Z)
    : lookasideCache :=
  let c := initializeLocked c in
  let c := expireLocked c now in
  match c_entries c !! request with
  | None => c
  | Some l =>
      if v_drops v response then removeLocked c l
      else match c_heap c !! l with
           | None => c
           | Some e =>
               let c := set_entry c l
                 (mkEntry (le_request e) response (le_timeIn e) (le_hits e)) in
               evictLocked (set_size c (c_size c + rlen response))
           end
  end.

End ops.

(** The kpasswd server's cache. *)
Definition kpasswd_begin := begin kpasswd_variant.
Definition kpasswd_complete := complete kpasswd_variant.

(** ** The abstract cache: a queue of requests and replies, oldest first *)

Record aentry := mkA { a_request : bytes; a_response : option bytes; a_time : Z }.

(** [a_extra] counts bytes that the size field still counts although no entry
    holds them any more. *)
Record acache := mkAC { a_queue : list aentry; a_extra : Z; a_max : Z }.

Definition a_bytes (e : aentry) : Z := zlen (a_request e) + rlen (a_response e).
Definition a_total (q : list aentry) : Z := foldr (λ e n, a_bytes e + n) 0 q.

Definition a_find (q : list aentry) (r : bytes) : option aentry :=
  list_find (λ e, a_request e = r) q ≫= λ p, Some p.2.

Section spec.
Context (v : variant).

Fixpoint a_expire (now : Z) (q : list aentry) : list aentry :=
  match q with
  | [] => []
  | e :: q' => if v_fresh v now (a_time e) then q else a_expire now q'
  end.

Fixpoint a_evict (max extra : Z) (q : list aentry) : acache :=
  if max <? a_total q + extra then
    match q with
    | [] => mkAC [] (v_empty_size v extra) max
    | _ :: q' => a_evict max extra q'
    end
  else mkAC q extra max.

Definition a_init (a : acache) : acache :=
  mkAC (a_queue a) (a_extra a) (if a_max a <=? 0 then kdcLookasideMaxSize else a_max a).

Definition a_set_response (q : list aentry) (r : bytes) (resp : option bytes) : list aentry :=
  (λ e, if bool_decide (a_request e = r) then mkA r resp (a_time e) else e) <$> q.

Definition a_begin (a : acache) (r : bytes) (now : Z) : (option bytes * bool) * acache :=
  let a := a_init a in
  let q := a_expire now (a_queue a) in
  match a_find q r with
  | Some e => ((a_response e, true), mkAC q (a_extra a) (a_max a))
  | None => ((None, false), a_evict (a_max a) (a_extra a) (q ++ [mkA r None now]))
  end.

(** Completing a request whose entry already holds a reply leaves the bytes of
    the old reply in the size: they become [a_extra]. *)
Definition a_complete (a : acache) (r : bytes) (resp : option bytes) (now : Z) : acache :=
  let a := a_init a in
  let q := a_expire now (a_queue a) in
  match a_find q r with
  | None => mkAC q (a_extra a) (a_max a)
  | Some e =>
      if v_drops v resp
      then mkAC (filter (λ e', a_request e' ≠ r) q) (a_extra a) (a_max a)
      else a_evict (a_max a) (a_extra a + rlen (a_response e)) (a_set_response q r resp)
  end.
End spec.

(** ** The abstraction *)

Definition a_of (e : lookasideEntry) : aentry :=
  mkA (le_request e) (le_response e) (le_timeIn e).
Definition abs_queue (c : lookasideCache) : list aentry :=
  omap (λ l, a_of <$> c_heap c !! l) (c_queue c).
Definition abs (c : lookasideCache) : acache :=
  mkAC (abs_queue c) (c_size c - a_total (abs_queue c)) (c_maxSize c).

(** The map and the queue hold the same entries, each once, and the size
    counts at least the bytes held. *)
Record cache_ok (c : lookasideCache) : Prop := {
  ok_nodup : NoDup (c_queue c);
  ok_queue l : l ∈ c_queue c →
    ∃ e, c_heap c !! l = Some e ∧ c_entries c !! le_request e = Some l;
  ok_entries r l : c_entries c !! r = Some l →
    l ∈ c_queue c ∧ ∃ e, c_heap c !! l = Some e ∧ le_request e = r;
  ok_next l : is_Some (c_heap c !! l) → (l < c_next c)%nat;
  ok_size : a_total (abs_queue c) <= c_size c;
}.

(** ** Lemmas *)

Notation locs c q := (omap (λ l, a_of <$> c_heap c !! l) q).

Lemma locs_cons c l e q :
  c_heap c !! l = Some e → locs c (l :: q) = a_of e :: locs c q.
Proof. intros He. cbn. by rewrite He. Qed.

Lemma a_bytes_of e : a_bytes (a_of e) = zlen (le_request e) + rlen (le_response e).
Proof. done. Qed.

Lemma total_locs_cons c l q :
  a_total (locs c (l :: q)) =
  match c_heap c !! l with Some e => a_bytes (a_of e) | None => 0 end + a_total (locs c q).
Proof. cbn. by destruct (c_heap c !! l). Qed.

Lemma a_total_app q1 q2 : a_total (q1 ++ q2) = a_total q1 + a_total q2.
Proof. induction q1; simpl; lia. Qed.

Lemma a_total_nonneg q : 0 <= a_total q.
Proof.
  induction q as [|e q IH]; [done|].
  change (a_total (e :: q)) with (zlen (a_request e) + rlen (a_response e) + a_total q).
  pose proof (zlen_nonneg (a_request e)).
  assert (0 <= rlen (a_response e)) by (destruct (a_response e); [apply zlen_nonneg | done]). lia.
Qed.

Lemma a_find_Some q r e :
  a_find q r = Some e → e ∈ q ∧ a_request e = r.
Proof.
  unfold a_find. intros Hf. apply bind_Some in Hf as [[i x] [Hf Hx]]. simplify_eq/=.
  apply list_find_Some in Hf as (Hi & Hr & _). eauto using list_elem_of_lookup_2.
Qed.

Lemma a_find_None q r :
  a_find q r = None → ∀ e, e ∈ q → a_request e ≠ r.
Proof.
  unfold a_find. intros Hf. apply bind_None in Hf as [Hf|[x [_ Hx]]]; [|done].
  apply list_find_None in Hf. by rewrite Forall_forall in Hf.
Qed.

Lemma total_filter c l e q :
  NoDup q → l ∈ q → c_heap c !! l = Some e →
  a_total (locs c q) = a_bytes (a_of e) + a_total (locs c (filter (λ l', l' ≠ l) q)).
Proof.
  intros Hnd Hl He. induction Hnd as [|l' q Hl' Hnd IH]; [set_solver|].
  rewrite filter_cons. case_decide as Hd.
  - rewrite !total_locs_cons, IH by set_solver. lia.
  - subst l'. rewrite total_locs_cons, He. do 3 f_equal.
    symmetry. apply filter_all. set_solver.
Qed.

Section queue.
Context (c : lookasideCache).
Context (Hc : cache_ok c).

Lemma in_abs_queue e : e ∈ abs_queue c ↔ ∃ l x, l ∈ c_queue c ∧ c_heap c !! l = Some x ∧ e = a_of x.
Proof.
  unfold abs_queue. rewrite list_elem_of_omap. split.
  - intros (l & Hl & He). apply fmap_Some in He as (x & Hx & ->). eauto.
  - intros (l & x & Hl & Hx & ->). exists l. by rewrite Hx.
Qed.

Lemma entries_find r l e :
  c_entries c !! r = Some l → c_heap c !! l = Some e → a_find (abs_queue c) r = Some (a_of e).
Proof.
  intros Hr Hl. destruct (ok_entries _ Hc _ _ Hr) as (Hq & e' & He' & Hre). simplify_eq.
  destruct (a_find (abs_queue c) (le_request e)) as [a|] eqn:Hf.
  - apply a_find_Some in Hf as [Ha Hra]. apply in_abs_queue in Ha as (l' & x & Hl' & Hx & ->).
    cbn in Hra. destruct (ok_queue _ Hc _ Hl') as (x' & Hx' & Hent). simplify_eq.
    rewrite Hra in Hent. by simplify_eq.
  - eapply a_find_None in Hf; [|apply in_abs_queue; eauto 6]. done.
Qed.

Lemma entries_find_None r :
  c_entries c !! r = None → a_find (abs_queue c) r = None.
Proof.
  intros Hr. destruct (a_find (abs_queue c) r) as [a|] eqn:Hf; [|done].
  apply a_find_Some in Hf as [Ha Hra]. apply in_abs_queue in Ha as (l' & x & Hl' & Hx & ->).
  destruct (ok_queue _ Hc _ Hl') as (x' & Hx' & Hent). by simplify_eq/=.
Qed.

Lemma locs_filter l e q :
  q ⊆ c_queue c → l ∈ c_queue c → c_heap c !! l = Some e →
  locs c (filter (λ l', l' ≠ l) q) = filter (λ a, a_request a ≠ le_request e) (locs c q).
Proof.
  intros Hq Hl He. induction q as [|l' q IH]; [done|].
  destruct (ok_queue _ Hc l') as (e' & He' & Hent'); [set_solver|].
  destruct (ok_queue _ Hc l Hl) as (e0 & He0 & Hent). simplify_eq.
  rewrite filter_cons. rewrite (locs_cons _ _ _ _ He'). case_decide as Hd.
  - rewrite (locs_cons _ _ _ _ He'), filter_cons_True; [|cbn; congruence]. f_equal. apply IH. set_solver.
  - subst l'. rewrite filter_cons_False; [|cbn; naive_solver].
    apply IH. set_solver.
Qed.

Lemma remove_spec l e :
  l ∈ c_queue c → c_heap c !! l = Some e →
  cache_ok (removeLocked c l) ∧
  abs (removeLocked c l) =
    mkAC (filter (λ a, a_request a ≠ le_request e) (abs_queue c)) (a_extra (abs c)) (c_maxSize c).
Proof.
  intros Hl He. unfold removeLocked. rewrite He.
  pose proof (total_filter c l e (c_queue c) (ok_nodup _ Hc) Hl He) as Ht.
  pose proof (a_total_nonneg (locs c (filter (λ l', l' ≠ l) (c_queue c)))) as Hn.
  pose proof (ok_size _ Hc) as Hs. unfold abs_queue in Hs.
  replace (_ <? 0) with false
    by (symmetry; apply Z.ltb_ge; rewrite a_bytes_of in Ht; lia).
  split.
  - split; cbn [c_heap c_entries c_queue c_size c_maxSize c_next].
    + apply NoDup_filter, Hc.
    + intros l' [Hne Hl']%list_elem_of_filter.
      destruct (ok_queue _ Hc _ Hl') as (e' & He' & Hent). exists e'. split; [done|].
      rewrite lookup_delete_ne; [done|]. intros Heq.
      destruct (ok_queue _ Hc _ Hl) as (e0 & He0 & Hent0). simplify_eq.
      rewrite Heq in Hent0. congruence.
    + intros r l' [Hne Hent]%lookup_delete_Some.
      destruct (ok_entries _ Hc _ _ Hent) as (Hq & e' & He' & Hr).
      split; [|eauto]. apply list_elem_of_filter. split; [|done]. intros ->. congruence.
    + apply Hc.
    + unfold abs_queue. cbn [c_heap c_queue c_size]. rewrite a_bytes_of in Ht. lia.
  - unfold abs, abs_queue; cbn [c_heap c_queue c_size c_maxSize a_extra]. f_equal.
    + by apply locs_filter.
    + rewrite a_bytes_of in Ht. lia.
Qed.
End queue.

Definition variant_ok (v : variant) : Prop := ∀ n, 0 <= n → 0 <= v_empty_size v n.

Lemma variants_ok v : v = kdc_variant ∨ v = kpasswd_variant → variant_ok v.
Proof. by intros [-> | ->] n Hn; cbn. Qed.

Lemma abs_queue_nil c : c_queue c = [] → abs_queue c = [].
Proof. unfold abs_queue. by intros ->. Qed.

Lemma abs_queue_cons c l e q :
  c_queue c = l :: q → c_heap c !! l = Some e → abs_queue c = a_of e :: locs c q.
Proof. unfold abs_queue. intros ->. apply locs_cons. Qed.

Lemma ok_front c l q :
  cache_ok c → c_queue c = l :: q → ∃ e, c_heap c !! l = Some e.
Proof. intros Hc Hq. destruct (ok_queue _ Hc l) as (e & He & _); [rewrite Hq; set_solver | eauto]. Qed.

Lemma remove_front c l e q :
  cache_ok c → c_queue c = l :: q → c_heap c !! l = Some e →
  let c' := removeLocked c l in
  cache_ok c' ∧ c_queue c' = q ∧ c_maxSize c' = c_maxSize c ∧
  abs_queue c' = locs c q ∧ a_extra (abs c') = a_extra (abs c).
Proof.
  intros Hc Hq He. destruct (remove_spec c Hc l e) as [Hok Habs]; [rewrite Hq; set_solver|done|].
  assert (Hq' : c_queue (removeLocked c l) = q).
  { unfold removeLocked. rewrite He. cbn [c_queue]. rewrite Hq, filter_cons_False by tauto.
    apply filter_all. pose proof (ok_nodup _ Hc) as Hnd. rewrite Hq in Hnd.
    apply NoDup_cons in Hnd as [Hl _]. set_solver. }
  intros c'. split_and!; [done..| | |].
  - by unfold c', removeLocked; rewrite He.
  - unfold abs_queue. unfold c'. rewrite Hq'. by unfold removeLocked; rewrite He.
  - unfold c'. by rewrite Habs.
Qed.

Section loops.
Context (v : variant).

Lemma expire_loop_spec now q c :
  cache_ok c → c_queue c = q →
  cache_ok (expire_loop v now q c) ∧ c_maxSize (expire_loop v now q c) = c_maxSize c ∧
  abs_queue (expire_loop v now q c) = a_expire v now (abs_queue c) ∧
  a_extra (abs (expire_loop v now q c)) = a_extra (abs c).
Proof.
  revert c. induction q as [|l q IH]; intros c Hc Hq; cbn [expire_loop].
  - by rewrite (abs_queue_nil _ Hq).
  - destruct (ok_front _ _ _ Hc Hq) as [e He]. rewrite He, (abs_queue_cons _ _ _ _ Hq He).
    cbn [a_expire]. change (a_time (a_of e)) with (le_timeIn e).
    destruct (v_fresh v now (le_timeIn e)).
    + split_and!; [done..| |done]. exact (abs_queue_cons _ _ _ _ Hq He).
    + destruct (remove_front c l e q Hc Hq He) as (Hok & Hq' & Hm & Ha & Hx).
      destruct (IH _ Hok Hq') as (? & -> & -> & ->). by rewrite Ha.
Qed.

Lemma expire_spec c now :
  cache_ok c →
  cache_ok (expireLocked v c now) ∧
  abs (expireLocked v c now) =
    mkAC (a_expire v now (a_queue (abs c))) (a_extra (abs c)) (a_max (abs c)).
Proof.
  intros Hc. destruct (expire_loop_spec now _ c Hc eq_refl) as (? & Hm & Hq & Hx).
  split; [done|]. unfold expireLocked, abs in *. cbn in *. by rewrite Hq, Hm, <- Hx, Hq.
Qed.

Context (Hv : variant_ok v).

Lemma evict_loop_spec q c :
  cache_ok c → c_queue c = q →
  cache_ok (evict_loop v q c) ∧
  abs (evict_loop v q c) = a_evict v (c_maxSize c) (a_extra (abs c)) (abs_queue c).
Proof.
  revert c. induction q as [|l q IH]; intros c Hc Hq; cbn [evict_loop].
  - rewrite (abs_queue_nil _ Hq). cbn [a_evict a_total foldr]. unfold abs. cbn [a_extra].
    rewrite (abs_queue_nil _ Hq). cbn [a_total foldr]. rewrite Z.add_0_l, Z.sub_0_r.
    pose proof (ok_size _ Hc) as Hs. rewrite (abs_queue_nil _ Hq) in Hs. cbn in Hs.
    destruct (Z.ltb_spec (c_maxSize c) (c_size c)).
    + assert (Hq' : abs_queue (set_size c (v_empty_size v (c_size c))) = []) by (by apply abs_queue_nil).
      rewrite Hq'. split; [|cbn; f_equal; lia].
      destruct Hc. split; [done..|]. rewrite Hq'. cbn. by apply Hv.
    + by rewrite (abs_queue_nil _ Hq), Z.sub_0_r.
  - destruct (ok_front _ _ _ Hc Hq) as [e He]. pose proof (abs_queue_cons _ _ _ _ Hq He) as Hcons.
    replace (a_evict _ _ _ (abs_queue c)) with
      (if c_maxSize c <? c_size c then a_evict v (c_maxSize c) (a_extra (abs c)) (locs c q)
       else abs c).
    2: { rewrite Hcons. cbn [a_evict]. rewrite <- Hcons.
         replace (a_total _ + _) with (c_size c) by (cbn; lia). done. }
    destruct (c_maxSize c <? c_size c); [|done].
    destruct (remove_front c l e q Hc Hq He) as (Hok & Hq' & Hm & Ha & Hx).
    destruct (IH _ Hok Hq') as (? & ->). by rewrite Ha, Hm, Hx.
Qed.
End loops.

Lemma locs_ext c c' (q : list nat) :
  (∀ l, l ∈ q → a_of <$> c_heap c' !! l = a_of <$> c_heap c !! l) → locs c' q = locs c q.
Proof.
  induction q as [|l q IH]; intros Hq; [done|]. cbn. rewrite (Hq l) by set_solver.
  destruct (a_of <$> c_heap c !! l); [f_equal|]; apply IH; set_solver.
Qed.

Lemma push_spec c r now :
  cache_ok c → c_entries c !! r = None →
  let l := c_next c in
  let c' := mkCache (<[l := mkEntry r None now 0]> (c_heap c)) (<[r := l]> (c_entries c))
              (c_queue c ++ [l]) (c_size c + zlen r) (c_maxSize c) (S l) in
  cache_ok c' ∧ abs_queue c' = abs_queue c ++ [mkA r None now] ∧ a_extra (abs c') = a_extra (abs c).
Proof.
  intros Hc Hr l c'.
  assert (Hl : c_heap c !! l = None).
  { destruct (c_heap c !! l) eqn:Hl; [|done]. pose proof (ok_next _ Hc l ltac:(eauto)). lia. }
  assert (Hlq : l ∉ c_queue c).
  { intros (e & He & _)%(ok_queue _ Hc). congruence. }
  assert (Hlocs : abs_queue c' = abs_queue c ++ [mkA r None now]).
  { unfold abs_queue, c'; cbn [c_heap c_queue]. rewrite omap_app. cbn [omap list_omap].
    rewrite lookup_insert_eq. cbn. f_equal. apply (locs_ext c c'). intros l' Hl'.
    cbn. rewrite lookup_insert_ne; [done|]. by intros <-. }
  split_and!; [|done|].
  - split.
    + cbn. apply NoDup_app. split_and!; [apply Hc|set_solver|apply NoDup_singleton].
    + cbn. intros l' [Hl'| ->%list_elem_of_singleton]%elem_of_app.
      * destruct (ok_queue _ Hc _ Hl') as (e & He & Hent). exists e.
        rewrite !lookup_insert_ne; [done|congruence|by intros <-].
      * rewrite lookup_insert_eq. eexists. split; [done|]. by rewrite lookup_insert_eq.
    + cbn. intros r' l' [[<- <-]|[Hne Hent]]%lookup_insert_Some.
      * split; [set_solver|]. rewrite lookup_insert_eq. eauto.
      * destruct (ok_entries _ Hc _ _ Hent) as (Hq & e & He & Hre). split; [set_solver|].
        rewrite lookup_insert_ne; [eauto|]. by intros <-.
    + cbn. intros l' [e [[<- <-]|[Hne He]]%lookup_insert_Some]; [lia|].
      pose proof (ok_next _ Hc l' ltac:(eauto)). lia.
    + rewrite Hlocs, a_total_app. pose proof (ok_size _ Hc). cbn [c_size c'].
      change (a_total [mkA r None now]) with (zlen r + 0 + 0). lia.
  - unfold abs. cbn [a_extra c_size c']. fold c'. rewrite Hlocs, a_total_app.
    change (a_total [mkA r None now]) with (zlen r + 0 + 0). lia.
Qed.

Section set_entry.
Context (c : lookasideCache) (Hc : cache_ok c).
Context (l : nat) (e e' : lookasideEntry).
Context (Hl : l ∈ c_queue c) (He : c_heap c !! l = Some e) (Hre : le_request e' = le_request e).

Lemma total_set_entry :
  a_total (abs_queue (set_entry c l e')) =
  a_total (abs_queue c) - rlen (le_response e) + rlen (le_response e').
Proof using Hc Hl He Hre.
  unfold abs_queue. change (c_queue (set_entry c l e')) with (c_queue c).
  rewrite (total_filter c l e (c_queue c) (ok_nodup _ Hc) Hl He).
  rewrite (total_filter (set_entry c l e') l e' (c_queue c) (ok_nodup _ Hc) Hl)
    by apply lookup_insert_eq.
  rewrite (locs_ext c (set_entry c l e')), !a_bytes_of, Hre; [lia|].
  intros l' [Hne _]%list_elem_of_filter. cbn. by rewrite lookup_insert_ne by done.
Qed.

Lemma locs_set_entry q :
  q ⊆ c_queue c →
  locs (set_entry c l e') q =
  (λ a, if bool_decide (a_request a = le_request e) then a_of e' else a) <$> locs c q.
Proof using Hc Hl He Hre.
  intros Hq. induction q as [|l' q IH]; [done|].
  destruct (ok_queue _ Hc l') as (x & Hx & Hent); [set_solver|].
  destruct (ok_queue _ Hc l Hl) as (x0 & Hx0 & Hent0). simplify_eq.
  rewrite (locs_cons c l' x q Hx). cbn [fmap list_fmap]. rewrite <- IH by set_solver.
  change (a_request (a_of x)) with (le_request x). case_bool_decide as Hd.
  - assert (l' = l) as -> by congruence. apply locs_cons. apply lookup_insert_eq.
  - assert (l' ≠ l) by congruence. apply locs_cons. cbn. by rewrite lookup_insert_ne.
Qed.

Lemma ok_set_entry n :
  a_total (abs_queue (set_entry c l e')) <= n → cache_ok (set_size (set_entry c l e') n).
Proof using Hc Hl He Hre.
  intros Hn. split; cbn [set_size set_entry c_heap c_queue c_entries c_size c_next]; try apply Hc.
  - intros l' Hl'. destruct (ok_queue _ Hc _ Hl') as (x & Hx & Hent).
    destruct (decide (l' = l)) as [->|].
    + rewrite lookup_insert_eq. exists e'. split; [done|]. rewrite Hre. congruence.
    + rewrite lookup_insert_ne by done. eauto.
  - intros r l' Hent. destruct (ok_entries _ Hc _ _ Hent) as (Hq & x & Hx & Hr). split; [done|].
    destruct (decide (l' = l)) as [->|].
    + rewrite lookup_insert_eq. exists e'. split; [done|]. congruence.
    + rewrite lookup_insert_ne by done. eauto.
  - intros l' [x [[<- <-]|[Hne Hx]]%lookup_insert_Some]; apply (ok_next _ Hc); eauto.
  - exact Hn.
Qed.
End set_entry.

(** ** Traces of operations *)

Inductive op := OBegin (r : bytes) (now : Z) | OComplete (r : bytes) (resp : option bytes) (now : Z).

Definition op_time (o : op) : Z := match o with OBegin _ t | OComplete _ _ t => t end.
(** The bytes an operation can add to the cache. *)
Definition op_cost (o : op) : Z :=
  match o with OBegin r _ => zlen r | OComplete _ resp _ => rlen resp end.

Section traces.
Context (v : variant).

Definition step (c : lookasideCache) (o : op) : option (option bytes * bool) * lookasideCache :=
  match o with
  | OBegin r now => let '(out, c') := begin v c r now in (Some out, c')
  | OComplete r resp now => (None, complete v c r resp now)
  end.
Definition a_step (a : acache) (o : op) : option (option bytes * bool) * acache :=
  match o with
  | OBegin r now => let '(out, a') := a_begin v a r now in (Some out, a')
  | OComplete r resp now => (None, a_complete v a r resp now)
  end.

Fixpoint run (c : lookasideCache) (ops : list op)
    : list (option (option bytes * bool)) * lookasideCache :=
  match ops with
  | [] => ([], c)
  | o :: ops => let '(out, c) := step c o in let '(outs, c) := run c ops in (out :: outs, c)
  end.
Fixpoint a_run (a : acache) (ops : list op)
    : list (option (option bytes * bool)) * acache :=
  match ops with
  | [] => ([], a)
  | o :: ops => let '(out, a) := a_step a o in let '(outs, a) := a_run a ops in (out :: outs, a)
  end.

Lemma init_spec c :
  cache_ok c → cache_ok (initializeLocked c) ∧ abs (initializeLocked c) = a_init (abs c).
Proof.
  intros Hc. unfold initializeLocked, a_init. cbn [a_max abs a_queue a_extra].
  destruct (c_maxSize c <=? 0); [|done]. split; [|done]. by destruct Hc.
Qed.

Context (Hv : variant_ok v).

Lemma begin_refines c r now :
  cache_ok c →
  cache_ok (begin v c r now).2 ∧
  a_begin v (abs c) r now = ((begin v c r now).1, abs (begin v c r now).2).
Proof using Hv.
  intros Hc0. destruct (init_spec c Hc0) as [Hc1 Ha1].
  destruct (expire_spec v (initializeLocked c) now Hc1) as [Hc Ha]. unfold begin, a_begin.
  rewrite <- Ha1. set (c' := expireLocked v (initializeLocked c) now) in *.
  assert (Hq : a_expire v now (a_queue (abs (initializeLocked c))) = abs_queue c') by (by injection Ha).
  assert (Hx : a_extra (abs (initializeLocked c)) = a_extra (abs c')) by (by rewrite Ha).
  assert (Hm : a_max (abs (initializeLocked c)) = c_maxSize c') by (by injection Ha).
  rewrite Hq, Hx, Hm. destruct (c_entries c' !! r) as [l|] eqn:Hent.
  - destruct (ok_entries _ Hc _ _ Hent) as (Hlq & e & He & Hr). rewrite He.
    rewrite (entries_find c' Hc r l e Hent He). set (e' := mkEntry _ _ _ _).
    pose proof (total_set_entry c' Hc l e e' Hlq He eq_refl) as Ht.
    assert (Hok : cache_ok (set_entry c' l e')).
    { apply (ok_set_entry c' Hc l e e' Hlq He eq_refl (c_size c')).
      pose proof (ok_size _ Hc). rewrite Ht. cbn [le_response e']. lia. }
    assert (Habs : abs_queue (set_entry c' l e') = abs_queue c').
    { apply (locs_ext c' (set_entry c' l e')). intros l' _. cbn.
      destruct (decide (l' = l)) as [->|]; [rewrite lookup_insert_eq, He | rewrite lookup_insert_ne by done]; done. }
    assert (Heq : mkAC (abs_queue c') (a_extra (abs c')) (c_maxSize c') = abs (set_entry c' l e')).
    { unfold abs at 2. rewrite Habs. done. }
    change (a_response (a_of e)) with (le_response e).
    rewrite Heq. by destruct (le_response e).
  - rewrite (entries_find_None c' Hc r Hent).
    destruct (push_spec c' r now Hc Hent) as (Hok & Hq' & Hx').
    destruct (evict_loop_spec v Hv _ _ Hok eq_refl) as (Hok' & Habs).
    split; [exact Hok'|]. cbn [fst snd]. f_equal.
    unfold evictLocked. rewrite Habs, Hq', Hx'. done.
Qed.

Lemma complete_refines c r resp now :
  cache_ok c →
  cache_ok (complete v c r resp now) ∧ a_complete v (abs c) r resp now = abs (complete v c r resp now).
Proof using Hv.
  intros Hc0. destruct (init_spec c Hc0) as [Hc1 Ha1].
  destruct (expire_spec v (initializeLocked c) now Hc1) as [Hc Ha]. unfold complete, a_complete.
  rewrite <- Ha1. set (c' := expireLocked v (initializeLocked c) now) in *.
  assert (Hq : a_expire v now (a_queue (abs (initializeLocked c))) = abs_queue c') by (by injection Ha).
  assert (Hx : a_extra (abs (initializeLocked c)) = a_extra (abs c')) by (by rewrite Ha).
  assert (Hm : a_max (abs (initializeLocked c)) = c_maxSize c') by (by injection Ha).
  rewrite Hq, Hx, Hm. destruct (c_entries c' !! r) as [l|] eqn:Hent.
  2: { by rewrite (entries_find_None c' Hc r Hent). }
  destruct (ok_entries _ Hc _ _ Hent) as (Hlq & e & He & Hr).
  rewrite (entries_find c' Hc r l e Hent He). destruct (v_drops v resp).
  - destruct (remove_spec c' Hc l e Hlq He) as [Hok ->]. by rewrite Hr.
  - rewrite He. set (e' := mkEntry _ _ _ _).
    pose proof (total_set_entry c' Hc l e e' Hlq He eq_refl) as Ht. cbn [le_response e'] in Ht.
    pose proof (ok_size _ Hc) as Hs.
    assert (Hok : cache_ok (set_size (set_entry c' l e') (c_size (set_entry c' l e') + rlen resp))).
    { apply (ok_set_entry c' Hc l e e' Hlq He eq_refl). rewrite Ht. cbn [set_entry c_size].
      assert (0 <= rlen (le_response e)) by (destruct (le_response e); [apply zlen_nonneg|done]). lia. }
    destruct (evict_loop_spec v Hv _ _ Hok eq_refl) as (Hok' & Habs). split; [exact Hok'|].
    unfold evictLocked. rewrite Habs. f_equal.
    + unfold abs. cbn [a_extra set_size c_size set_entry].
      change (abs_queue (set_size _ _)) with (abs_queue (set_entry c' l e')).
      change (a_response (a_of e)) with (le_response e). lia.
    + unfold a_set_response. rewrite <- Hr.
      change (abs_queue (set_size _ _)) with (locs (set_entry c' l e') (c_queue c')).
      rewrite (locs_set_entry c' Hc l e e' Hlq He eq_refl) by done. unfold abs_queue.
      apply list_fmap_ext. intros i x Hix. case_bool_decide as Hd; [|done].
      assert (Hin : x ∈ abs_queue c') by (by eapply list_elem_of_lookup_2).
      apply in_abs_queue in Hin as (l2 & y & Hl2 & Hy & ->).
      destruct (ok_queue _ Hc _ Hl2) as (y' & Hy' & Hent2). simplify_eq.
      cbn in Hd. rewrite Hd in Hent2. by simplify_eq.
Qed.
End traces.

Lemma new_ok : cache_ok newLookasideCache ∧ abs newLookasideCache = mkAC [] 0 kdcLookasideMaxSize.
Proof. split; [split|]; cbn; try done; [constructor | set_solver | by intros l [e He]]. Qed.

Lemma run_refines v c ops :
  variant_ok v → cache_ok c →
  cache_ok (run v c ops).2 ∧ a_run v (abs c) ops = ((run v c ops).1, abs (run v c ops).2).
Proof.
  intros Hv. revert c. induction ops as [|o ops IH]; intros c Hc; cbn [run a_run]; [done|].
  assert (Hstep : cache_ok (step v c o).2 ∧ a_step v (abs c) o = ((step v c o).1, abs (step v c o).2)).
  { destruct o as [r now|r resp now]; cbn.
    - destruct (begin_refines v Hv c r now Hc) as [Hok ->]. by destruct (begin v c r now).
    - destruct (complete_refines v Hv c r resp now Hc) as [Hok ->]. done. }
  destruct Hstep as [Hok ->]. destruct (step v c o) as [out c']. cbn in *.
  destruct (IH c' Hok) as [Hok' ->]. by destruct (run v c' ops).
Qed.

(** C14: Functional refinement of both reply caches: on every sequence of
    [begin] and [complete] calls, the map, the queue and the shared entries of
    the code give exactly the answers of the abstract queue of requests (expire
    from the front, evict the oldest, look up by request), in the KDC and in
    the kpasswd server. *)
Theorem lookaside_refines_queue (ops : list op) :
  (run kdc_variant newLookasideCache ops).1 =
    (a_run kdc_variant (mkAC [] 0 kdcLookasideMaxSize) ops).1 ∧
  (run kpasswd_variant newLookasideCache ops).1 =
    (a_run kpasswd_variant (mkAC [] 0 kdcLookasideMaxSize) ops).1.
Proof.
  destruct new_ok as [Hok Habs]. split.
  - destruct (run_refines kdc_variant _ ops (variants_ok _ (or_introl eq_refl)) Hok) as [_ Hr].
    by rewrite Habs in Hr; rewrite Hr.
  - destruct (run_refines kpasswd_variant _ ops (variants_ok _ (or_intror eq_refl)) Hok) as [_ Hr].
    by rewrite Habs in Hr; rewrite Hr.
Qed.

(** The two freshness tests are the same test. *)
Lemma fresh_spec v now t :
  v = kdc_variant ∨ v = kpasswd_variant →
  v_fresh v now t = (now <? t + kdcLookasideStaleTime).
Proof.
  intros [-> | ->]; [done|]. cbn [v_fresh kpasswd_variant].
  assert (0 < kdcLookasideStaleTime) by done. apply eq_iff_eq_true.
  rewrite orb_true_iff, !Z.ltb_lt. lia.
Qed.

(** *** Entries survive while they are fresh and the newer entries fit *)

Section survival.
Context (v : variant).

(** Entry [e] is held, alone for its request, with [m] bytes to spare before
    it could be evicted. *)
Definition holds (a : acache) (e : aentry) (m : Z) : Prop :=
  NoDup (a_request <$> a_queue a) ∧ 0 < a_max a ∧ 0 <= m ∧
  ∃ q1 q2, a_queue a = q1 ++ e :: q2 ∧ a_total (e :: q2) + a_extra a + m <= a_max a.

(** The operation does not complete a request that was already completed. *)
Definition clean (a : acache) (o : op) : Prop :=
  match o with
  | OBegin _ _ => True
  | OComplete r _ now =>
      match a_find (a_expire v now (a_queue a)) r with
      | Some e => a_response e = None
      | None => True
      end
  end.
Fixpoint clean_run (a : acache) (ops : list op) : Prop :=
  match ops with
  | [] => True
  | o :: ops => clean a o ∧ clean_run (a_step v a o).2 ops
  end.

Definition completes (r : bytes) (o : op) : bool :=
  match o with OBegin _ _ => false | OComplete r' _ _ => bool_decide (r' = r) end.

Lemma a_find_unique q1 e q2 :
  NoDup (a_request <$> (q1 ++ e :: q2)) → a_find (q1 ++ e :: q2) (a_request e) = Some e.
Proof.
  intros Hnd. destruct (a_find _ _) as [x|] eqn:Hf.
  - apply a_find_Some in Hf as [Hin Hr]. f_equal.
    apply list_elem_of_lookup in Hin as [i Hi].
    assert (Hj : (q1 ++ e :: q2) !! length q1 = Some e) by (by apply list_lookup_middle).
    assert (i = length q1) as ->; [|congruence].
    apply (NoDup_lookup (a_request <$> (q1 ++ e :: q2)) i (length q1) (a_request e)); [done| |];
      rewrite list_lookup_fmap; [rewrite Hi; cbn; by rewrite Hr | by rewrite Hj].
  - eapply a_find_None in Hf; [|apply elem_of_app; right; left]. done.
Qed.

Lemma a_expire_suffix now q : ∃ p, q = p ++ a_expire v now q.
Proof.
  induction q as [|x q [p IH]]; cbn; [by exists []|].
  destruct (v_fresh v now (a_time x)); [by exists []|]. exists (x :: p). cbn. by f_equal.
Qed.

Lemma a_expire_keeps now q1 e q2 :
  v_fresh v now (a_time e) = true →
  ∃ p q1', q1 = p ++ q1' ∧ a_expire v now (q1 ++ e :: q2) = q1' ++ e :: q2.
Proof.
  intros Hf. induction q1 as [|x q1 IH]; cbn.
  - rewrite Hf. by exists [], [].
  - destruct (v_fresh v now (a_time x)); [by exists [], (x :: q1)|].
    destruct IH as (p & q1' & -> & ->). by exists (x :: p), q1'.
Qed.

Lemma a_evict_holds max extra q1 e q2 m :
  NoDup (a_request <$> (q1 ++ e :: q2)) → 0 < max → 0 <= m →
  a_total (e :: q2) + extra + m <= max →
  holds (a_evict v max extra (q1 ++ e :: q2)) e m.
Proof.
  intros Hnd Hmax Hm Hle. induction q1 as [|x q1 IH].
  - cbn [app a_evict]. rewrite (proj2 (Z.ltb_ge _ _)) by lia.
    split_and!; [done..|]. by exists [], q2.
  - cbn [app a_evict]. destruct (max <? _).
    + apply IH. cbn in Hnd. by apply NoDup_cons in Hnd as [_ Hnd].
    + split_and!; [done..|]. by exists (x :: q1), q2.
Qed.

Lemma total_set_response q r resp :
  NoDup (a_request <$> q) → 0 <= rlen resp →
  a_total (a_set_response q r resp) <= a_total q + rlen resp.
Proof.
  intros Hnd Hresp. induction q as [|e q IH]; [cbn; lia|].
  cbn in Hnd. apply NoDup_cons in Hnd as [Hnot Hnd].
  unfold a_set_response in *. cbn [fmap list_fmap a_total foldr]. fold (a_total q).
  change (foldr _ _ ?x) with (a_total x). case_bool_decide as Hd.
  - subst r. rewrite (list_fmap_ext _ id q), list_fmap_id.
    + unfold a_bytes. cbn [a_request a_response].
      assert (0 <= rlen (a_response e)) by (destruct (a_response e); [apply zlen_nonneg|done]). lia.
    + intros i x Hix. rewrite bool_decide_eq_false_2; [done|]. intros Heq. apply Hnot.
      rewrite <- Heq. by eapply list_elem_of_fmap_2, list_elem_of_lookup_2.
  - specialize (IH Hnd). lia.
Qed.

Lemma total_filter_le (P : aentry → Prop) `{∀ x, Decision (P x)} q : a_total (filter P q) <= a_total q.
Proof.
  induction q as [|e q IH]; [done|]. rewrite filter_cons.
  assert (0 <= a_bytes e).
  { pose proof (a_total_nonneg [e]) as Hn. change (a_total [e]) with (a_bytes e + 0) in Hn. lia. }
  case_decide; change (a_total (e :: ?q)) with (a_bytes e + a_total q); lia.
Qed.

Lemma requests_set_response q r resp :
  a_request <$> a_set_response q r resp = a_request <$> q.
Proof.
  unfold a_set_response. rewrite <- list_fmap_compose. apply list_fmap_ext. intros i x _. cbn.
  by case_bool_decide.
Qed.

Lemma rlen_nonneg r : 0 <= rlen r.
Proof. destruct r; [apply zlen_nonneg | done]. Qed.
Lemma op_cost_nonneg o : 0 <= op_cost o.
Proof. destruct o; [apply zlen_nonneg | apply rlen_nonneg]. Qed.

Lemma holds_init a e m : holds a e m → a_init a = a.
Proof. destruct a. unfold holds, a_init. cbn. intros (_ & Hm & _). by rewrite (proj2 (Z.leb_gt _ _)). Qed.

(** What expiry leaves of a held entry. *)
Lemma holds_expire a e m now :
  holds a e m → v_fresh v now (a_time e) = true →
  holds (mkAC (a_expire v now (a_queue a)) (a_extra a) (a_max a)) e m.
Proof.
  intros (Hnd & Hmax & Hm & q1 & q2 & Hq & Hle) Hf.
  destruct (a_expire_keeps now q1 e q2 Hf) as (p & q1' & -> & Hex).
  split_and!; cbn; [|done..|].
  - rewrite Hq, Hex. rewrite Hq, <- app_assoc, fmap_app in Hnd. by apply NoDup_app in Hnd as (_ & _ & ?).
  - exists q1', q2. by rewrite Hq, Hex.
Qed.

Lemma held_find a e m : holds a e m → a_find (a_queue a) (a_request e) = Some e.
Proof. intros (Hnd & _ & _ & q1 & q2 & Hq & _). rewrite Hq in *. by apply a_find_unique. Qed.

Lemma begin_held a e m now :
  holds a e m → v_fresh v now (a_time e) = true →
  (a_begin v a (a_request e) now).1 = (a_response e, true).
Proof.
  intros Hh Hf. unfold a_begin. rewrite (holds_init _ _ _ Hh).
  pose proof (holds_expire _ _ _ _ Hh Hf) as Hex. apply held_find in Hex. cbn [a_queue] in Hex. by rewrite Hex.
Qed.

Lemma begin_miss_holds a r now m :
  a_begin v a r now = ((None, false), (a_begin v a r now).2) → NoDup (a_request <$> a_queue a) →
  0 < a_max a → 0 <= m → zlen r + a_extra a + m <= a_max a →
  holds (a_begin v a r now).2 (mkA r None now) m.
Proof.
  intros Hb Hnd Hmax Hm Hle. unfold a_begin in *.
  destruct (a_expire_suffix now (a_queue a)) as [p Hp].
  destruct (a_find _ _) eqn:Hf; [done|]. cbn [snd].
  assert (Hi : a_init a = a) by (destruct a; cbn in *; unfold a_init; cbn; by rewrite (proj2 (Z.leb_gt _ _))).
  rewrite Hi in *. apply (a_evict_holds _ _ _ _ []); [|done..|].
  - rewrite fmap_app. rewrite Hp, fmap_app in Hnd. apply NoDup_app in Hnd as (_ & _ & Hnd).
    apply NoDup_app. split_and!; [done| |apply NoDup_singleton].
    intros x Hx Hx'. apply list_elem_of_singleton in Hx' as ->. cbn in Hx.
    apply list_elem_of_fmap in Hx as (y & Hy & Hin). by eapply a_find_None in Hf.
  - change (a_total [mkA r None now]) with (zlen r + 0 + 0). lia.
Qed.

Lemma survive_step a e m o :
  0 <= m → holds a e (m + op_cost o) → v_fresh v (op_time o) (a_time e) = true →
  completes (a_request e) o = false → clean a o → holds (a_step v a o).2 e m.
Proof.
  intros Hm0 Hh Hf Hne Hcl. pose proof (holds_expire _ _ _ _ Hh Hf) as Hex.
  pose proof (op_cost_nonneg o) as Hcost.
  destruct o as [r now|r resp now]; cbn [op_time completes clean] in Hf, Hne, Hcl, Hex; cbn [op_cost] in *;
    cbn [a_step]; unfold a_begin, a_complete; rewrite (holds_init _ _ _ Hh);
    destruct Hex as (Hnd & Hmax & Hm & q1 & q2 & Hq & Hle); cbn [a_queue a_extra a_max op_time] in *; rewrite Hq in *.
  - destruct (a_find _ r) as [x|] eqn:Hx; cbn [snd].
    + split_and!; [done..|]. exists q1, q2. cbn [a_queue a_extra a_max]. split; [done|]. lia.
    + rewrite <- app_assoc. cbn [app]. apply a_evict_holds; [|done..|].
      * change (e :: q2 ++ [mkA r None now]) with ((e :: q2) ++ [mkA r None now]).
        rewrite app_assoc, fmap_app. apply NoDup_app. split_and!; [done| |apply NoDup_singleton].
        intros y Hy ->%list_elem_of_singleton. apply list_elem_of_fmap in Hy as (z & Hz & Hin).
        by eapply a_find_None in Hx.
      * rewrite app_comm_cons, a_total_app. change (a_total [mkA r None now]) with (zlen r + 0 + 0). lia.
  - apply bool_decide_eq_false in Hne. cbn [snd]. destruct (a_find _ r) as [x|] eqn:Hx.
    2: { split_and!; [done..|]. exists q1, q2. cbn [a_queue a_extra a_max]. split; [done|]. lia. }
    rewrite fmap_app, fmap_cons in Hnd. destruct (v_drops v resp).
    + split_and!; cbn [a_queue a_max]; [|done..|].
      * rewrite <- fmap_cons, <- fmap_app in Hnd. eapply sublist_NoDup; [exact Hnd|].
        apply fmap_sublist, sublist_filter.
      * exists (filter (λ e', a_request e' ≠ r) q1), (filter (λ e', a_request e' ≠ r) q2).
        rewrite filter_app, filter_cons_True by done. split; [done|]. cbn [a_extra].
        pose proof (total_filter_le (λ e', a_request e' ≠ r) q2).
        change (a_total (e :: ?q)) with (a_bytes e + a_total q) in *. lia.
    + rewrite Hcl. unfold a_set_response. rewrite fmap_app, fmap_cons.
      rewrite bool_decide_eq_false_2 by done. fold (a_set_response q1 r resp) (a_set_response q2 r resp).
      apply a_evict_holds; [|done..|].
      * rewrite fmap_app, fmap_cons, !requests_set_response. done.
      * apply NoDup_app in Hnd as (_ & _ & Hnd). apply NoDup_cons in Hnd as [_ Hnd].
        pose proof (total_set_response q2 r resp Hnd (rlen_nonneg _)).
        change (a_total (e :: ?q)) with (a_bytes e + a_total q) in *. cbn [rlen]. lia.
Qed.

Lemma survive_run a e m ops :
  0 <= m → holds a e (foldr (λ o n, op_cost o + n) m ops) →
  Forall (λ o, v_fresh v (op_time o) (a_time e) = true ∧ completes (a_request e) o = false) ops →
  clean_run a ops → holds (a_run v a ops).2 e m.
Proof.
  revert a. induction ops as [|o ops IH]; intros a Hm Hh Hops Hcl; [done|].
  apply Forall_cons in Hops as [[Hf Hne] Hops]. destruct Hcl as [Hcl Hcls]. cbn [foldr] in Hh.
  rewrite Z.add_comm in Hh.
  assert (Hs : 0 <= foldr (λ o n, op_cost o + n) m ops).
  { clear -Hm. induction ops as [|o ops IH]; [done|]. cbn [foldr]. pose proof (op_cost_nonneg o). lia. }
  pose proof (survive_step a e _ o Hs Hh Hf Hne Hcl) as Hh'. cbn [a_run].
  destruct (a_step v a o) as [out a']. cbn [snd] in *.
  specialize (IH a' Hm Hh' Hops Hcls). by destruct (a_run v a' ops).
Qed.

Lemma complete_holds a e m resp now :
  0 <= m → holds a e (m + rlen resp) → a_response e = None → v_drops v resp = false →
  v_fresh v now (a_time e) = true →
  holds (a_complete v a (a_request e) resp now) (mkA (a_request e) resp (a_time e)) m.
Proof.
  intros Hm0 Hh He Hd Hf. pose proof (holds_expire _ _ _ _ Hh Hf) as Hex.
  unfold a_complete. rewrite (holds_init _ _ _ Hh). pose proof (held_find _ _ _ Hex) as Hfind.
  cbn [a_queue] in Hfind. rewrite Hfind, Hd, He.
  destruct Hex as (Hnd & Hmax & Hm & q1 & q2 & Hq & Hle). cbn [a_queue a_extra a_max] in *. rewrite Hq in *.
  pose proof (requests_set_response (q1 ++ e :: q2) (a_request e) resp) as Hreq.
  unfold a_set_response in *. rewrite fmap_app, fmap_cons in Hreq |- *.
  rewrite bool_decide_eq_true_2 in Hreq |- * by done.
  assert (Hq2 : (λ x, if bool_decide (a_request x = a_request e) then mkA (a_request e) resp (a_time x) else x)
                  <$> q2 = q2).
  { rewrite <- (list_fmap_id q2) at 2. apply list_fmap_ext. intros i x Hx.
    rewrite bool_decide_eq_false_2; [done|]. intros Heq.
    rewrite fmap_app, fmap_cons in Hnd.
    apply NoDup_app in Hnd as (_ & _ & [Hnot _]%NoDup_cons). apply Hnot. rewrite <- Heq.
    by eapply list_elem_of_fmap_2, list_elem_of_lookup_2. }
  rewrite Hq2 in Hreq |- *. apply a_evict_holds; [|done..|].
  - rewrite Hreq. revert Hnd. by rewrite ?fmap_app, ?fmap_cons.
  - change (a_total (?e :: ?q)) with (zlen (a_request e) + rlen (a_response e) + a_total q) in *.
    rewrite He in Hle. cbn [a_request a_response rlen] in *. lia.
Qed.
End survival.

Lemma ok_requests_nodup c : cache_ok c → NoDup (a_request <$> abs_queue c).
Proof.
  intros Hc. unfold abs_queue. pose proof (ok_nodup _ Hc) as Hnd.
  pose proof (ok_queue _ Hc) as Hq. revert Hnd Hq.
  generalize (c_queue c) as q. intros q Hnd Hq. induction Hnd as [|l q Hl Hnd IH]; [constructor|].
  destruct (Hq l) as (e & He & Hent); [set_solver|]. rewrite (locs_cons _ _ _ _ He). cbn.
  apply NoDup_cons. split; [|apply IH; set_solver].
  intros (a & Ha & (l' & Hl' & Hx)%list_elem_of_omap)%list_elem_of_fmap.
  apply fmap_Some in Hx as (x & Hx & ->). destruct (Hq l') as (x' & Hx' & Hent'); [set_solver|].
  cbn in Ha. simplify_eq. rewrite Ha in Hent. by simplify_eq.
Qed.

Lemma run_abs v c ops :
  variant_ok v → cache_ok c → abs (run v c ops).2 = (a_run v (abs c) ops).2.
Proof. intros Hv Hc. by rewrite (proj2 (run_refines v c ops Hv Hc)). Qed.

Lemma clean_run_app v a ops1 ops2 :
  clean_run v a (ops1 ++ ops2) → clean_run v a ops1 ∧ clean_run v (a_run v a ops1).2 ops2.
Proof.
  revert a. induction ops1 as [|o ops1 IH]; intros a; cbn [app clean_run a_run]; [done|].
  intros [Ho Hc]. apply IH in Hc as [H1 H2]. split; [done|].
  destruct (a_step v a o) as [out a']. cbn [snd] in *. by destruct (a_run v a' ops1).
Qed.

(** A request just begun may be completed. *)
Lemma a_evict_in v max extra q e : e ∈ a_queue (a_evict v max extra q) → e ∈ q.
Proof.
  induction q as [|x q IH]; cbn [a_evict]; case_match; cbn [a_queue]; try done. intros He. right. by apply IH.
Qed.
Lemma begin_clean v a r resp now : (a_begin v a r now).1 = (None, false) → clean v (a_begin v a r now).2 (OComplete r resp now).
Proof.
  unfold a_begin. destruct (a_find _ r) as [e|] eqn:Hf; [done|]. intros _. cbn [snd clean].
  destruct (a_find (a_expire v now (a_queue (a_evict v _ _ _))) r) as [e|] eqn:He; [|done].
  apply a_find_Some in He as [Hin Hr]. set (a' := a_evict v _ _ _) in *.
  destruct (a_expire_suffix v now (a_queue a')) as [p Hp].
  assert (He : e ∈ a_queue a') by (rewrite Hp; set_solver). subst a'. apply a_evict_in, elem_of_app in He as [He|He].
  - by apply (a_find_None _ _ Hf) in He.
  - by apply list_elem_of_singleton in He as ->.
Qed.

Definition total_cost (ops : list op) : Z := foldr (λ o n, op_cost o + n) 0 ops.

Lemma total_cost_acc m ops : foldr (λ o n, op_cost o + n) m ops = total_cost ops + m.
Proof. unfold total_cost. induction ops as [|o ops IH]; cbn [foldr]; lia. Qed.
Lemma total_cost_nonneg ops : 0 <= total_cost ops.
Proof.
  unfold total_cost. induction ops as [|o ops IH]; cbn [foldr]; [done|].
  pose proof (op_cost_nonneg o). lia.
Qed.

(** Retransmissions: after a request is first seen, and while other
    requests come and go, a duplicate is recognised as being in progress until
    it is answered, and from then on gets the same reply, until the entry is
    two minutes old, provided the bytes added meanwhile fit and no answered
    request is answered again. *)
Theorem reply_remembered v c c1 r resp t0 t1 t2 ops1 ops2 :
  v = kdc_variant ∨ v = kpasswd_variant →
  cache_ok c → 0 < c_maxSize c → c_size c = a_total (abs_queue c) →
  resp ≠ [] →
  begin v c r t0 = ((None, false), c1) →
  clean_run v (abs c1) (ops1 ++ OComplete r (Some resp) t1 :: ops2) →
  Forall (λ o, op_time o < t0 + kdcLookasideStaleTime ∧ completes r o = false) (ops1 ++ ops2) →
  t1 < t0 + kdcLookasideStaleTime → t2 < t0 + kdcLookasideStaleTime →
  zlen r + zlen resp + total_cost ops1 + total_cost ops2 <= c_maxSize c →
  let c2 := (run v c1 ops1).2 in
  let c3 := (run v (complete v c2 r (Some resp) t1) ops2).2 in
  (begin v c2 r t1).1 = (None, true) ∧ (begin v c3 r t2).1 = (Some resp, true).
Proof.
  intros Hv Hc Hmax Hsize Hresp Hb Hcl Hops Ht1 Ht2 Hfit c2 c3.
  pose proof (variants_ok _ Hv) as Hvok.
  pose proof (total_cost_nonneg ops1). pose proof (total_cost_nonneg ops2).
  pose proof (zlen_nonneg resp). pose proof (zlen_nonneg r).
  assert (Hfresh : ∀ now, now < t0 + kdcLookasideStaleTime → v_fresh v now t0 = true).
  { intros now Hn. rewrite fresh_spec by done. by apply Z.ltb_lt. }
  assert (Hops' : ∀ e, a_time e = t0 → a_request e = r → Forall (λ o,
    v_fresh v (op_time o) (a_time e) = true ∧ completes (a_request e) o = false) (ops1 ++ ops2)).
  { intros e -> ->. eapply Forall_impl; [exact Hops|]. cbn. naive_solver. }
  destruct (begin_refines v Hvok c r t0 Hc) as [Hc1 Ha1]. rewrite Hb in Hc1, Ha1. cbn [fst snd] in *.
  assert (Hh1 : holds (abs c1) (mkA r None t0) (total_cost ops1 + (total_cost ops2 + zlen resp))).
  { replace (abs c1) with (a_begin v (abs c) r t0).2 by (by rewrite Ha1).
    apply begin_miss_holds; [by rewrite Ha1|by apply ok_requests_nodup|done|lia|].
    cbn [abs a_extra a_max]. lia. }
  apply clean_run_app in Hcl as [Hcl1 [_ Hcl2]]. cbn [a_step snd] in Hcl2.
  rewrite <- total_cost_acc in Hh1.
  pose proof (Hops' (mkA r None t0) eq_refl eq_refl) as [Hops1 _]%Forall_app.
  apply (survive_run v) in Hh1; [|lia|done|done].
  destruct (run_refines v c1 ops1 Hvok Hc1) as [Hc2 _].
  rewrite <- (run_abs v c1 ops1 Hvok Hc1) in Hh1, Hcl2. fold c2 in Hc2, Hh1, Hcl2. split.
  - destruct (begin_refines v Hvok c2 r t1 Hc2) as [_ Hb2].
    change (begin v c2 r t1).1 with ((begin v c2 r t1).1, abs (begin v c2 r t1).2).1.
    rewrite <- Hb2. apply (begin_held v _ _ _ _ Hh1). by apply Hfresh.
  - destruct (complete_refines v Hvok c2 r (Some resp) t1 Hc2) as [Hok3 Ha3].
    assert (Hd : v_drops v (Some resp) = false) by (destruct Hv as [-> | ->]; by destruct resp).
    apply (complete_holds v _ _ _ (Some resp) t1) in Hh1; [|done|done|done|by apply Hfresh].
    cbn [a_request a_time] in Hh1. rewrite Ha3 in Hh1, Hcl2.
    replace (total_cost ops2) with (total_cost ops2 + 0) in Hh1 by lia.
    rewrite <- total_cost_acc in Hh1.
    pose proof (Hops' (mkA r (Some resp) t0) eq_refl eq_refl) as [_ Hops2]%Forall_app.
    apply (survive_run v) in Hh1; [|done..]. rewrite <- run_abs in Hh1 by done. fold c3 in Hh1.
    destruct (run_refines v _ ops2 Hvok Hok3) as [Hc3 _].
    destruct (begin_refines v Hvok c3 r t2 Hc3) as [_ Hb3].
    change (begin v c3 r t2).1 with ((begin v c3 r t2).1, abs (begin v c3 r t2).2).1.
    rewrite <- Hb3. apply (begin_held v _ _ _ _ Hh1). by apply Hfresh.
Qed.

Lemma reply_remembered_witness :
  let a := str "A" in let b := str "B" in let r := str "reply" in
  let c1 := (begin kdc_variant newLookasideCache a 0).2 in
  let c2 := (run kdc_variant c1 [OBegin b 5]).2 in
  let c3 := (run kdc_variant (complete kdc_variant c2 a (Some r) 7) [OComplete b None 8]).2 in
  (begin kdc_variant c2 a 7).1 = (None, true) ∧ (begin kdc_variant c3 a 9).1 = (Some r, true).
Proof.
  cbv zeta. apply (reply_remembered kdc_variant newLookasideCache _ (str "A") (str "reply") 0 7 9
           [OBegin (str "B") 5] [OComplete (str "B") None 8]).
  - by left.
  - apply new_ok.
  - done.
  - done.
  - done.
  - vm_compute. reflexivity.
  - vm_compute. repeat split.
  - repeat constructor.
  - done.
  - done.
  - vm_compute. discriminate.
Defined.

(** The state in which the size counts exactly the bytes held, within the limit. *)
Definition exact (a : acache) : Prop :=
  a_extra a = 0 ∧ a_total (a_queue a) <= a_max a ∧ 0 < a_max a.

Section exact.
Context (v : variant).

Lemma a_expire_total now q : a_total (a_expire v now q) <= a_total q.
Proof.
  destruct (a_expire_suffix v now q) as [p Hp]. rewrite Hp at 2. rewrite a_total_app.
  pose proof (a_total_nonneg p). lia.
Qed.

Lemma a_evict_exact max q : 0 < max → exact (a_evict v max 0 q) ∧ a_max (a_evict v max 0 q) = max.
Proof.
  intros Hmax. induction q as [|e q IH]; cbn [a_evict].
  - cbn [a_total foldr]. rewrite (proj2 (Z.ltb_ge _ _)) by lia. split; [|done]. split_and!; cbn; lia.
  - destruct (Z.ltb_spec max (a_total (e :: q) + 0)); [done|].
    split; [|done]. split_and!; [done| |done]. cbn [a_queue a_max]. lia.
Qed.

Lemma exact_step a o : exact a → clean v a o → exact (a_step v a o).2 ∧ a_max (a_step v a o).2 = a_max a.
Proof.
  intros (Hx & Hle & Hmax) Hcl.
  assert (Hi : a_init a = a) by (destruct a; unfold a_init; cbn in *; by rewrite (proj2 (Z.leb_gt _ _))).
  pose proof (a_expire_total (op_time o) (a_queue a)) as He.
  destruct o as [r now|r resp now]; cbn [a_step op_time clean] in *; unfold a_begin, a_complete; rewrite Hi.
  - destruct (a_find _ r); cbn [snd].
    + split; [|done]. split_and!; cbn [a_extra a_queue a_max]; lia.
    + rewrite Hx. by apply a_evict_exact.
  - destruct (a_find _ r) as [e|]; cbn [snd].
    2: { split; [|done]. split_and!; cbn [a_extra a_queue a_max]; lia. }
    destruct (v_drops v resp).
    + split; [|done].
      pose proof (total_filter_le (λ e', a_request e' ≠ r) (a_expire v now (a_queue a))).
      split_and!; cbn [a_extra a_queue a_max]; lia.
    + rewrite Hx, Hcl. by apply a_evict_exact.
Qed.

Lemma exact_run a ops : exact a → clean_run v a ops → exact (a_run v a ops).2 ∧ a_max (a_run v a ops).2 = a_max a.
Proof.
  revert a. induction ops as [|o ops IH]; intros a Ha Hcl; [done|].
  destruct Hcl as [Hcl Hcls]. destruct (exact_step a o Ha Hcl) as [Ha' Hm]. cbn [a_run].
  destruct (a_step v a o) as [out a']. cbn [snd] in *. destruct (IH a' Ha' Hcls).
  destruct (a_run v a' ops). cbn [snd] in *. split; [done|congruence].
Qed.
End exact.

(** Bounded memory: after any sequence of calls in which no answered
    request is answered again, the size field is exactly the number of request
    and reply bytes held and does not exceed the limit of ten megabytes. *)
Theorem lookaside_size_bounded v ops :
  v = kdc_variant ∨ v = kpasswd_variant →
  clean_run v (mkAC [] 0 kdcLookasideMaxSize) ops →
  let c := (run v newLookasideCache ops).2 in
  c_size c = a_total (abs_queue c) ∧ c_size c <= kdcLookasideMaxSize.
Proof.
  intros Hv Hcl c. destruct new_ok as [Hok Habs].
  assert (He : exact (mkAC [] 0 kdcLookasideMaxSize)) by (by repeat split).
  destruct (exact_run v _ ops He Hcl) as [(Hx & Hle & _) Hm].
  rewrite <- Habs, <- run_abs in Hx, Hle, Hm by (by apply variants_ok || done). fold c in Hx, Hle, Hm.
  cbn [abs a_extra a_queue a_max] in Hx, Hle, Hm. rewrite Hm in Hle. cbn in Hle. lia.
Qed.

Lemma lookaside_size_bounded_witness :
  let c := (run kpasswd_variant newLookasideCache
              [OBegin (str "A") 0; OBegin (str "B") 1; OComplete (str "A") (Some (str "reply")) 2]).2 in
  c_size c = a_total (abs_queue c) ∧ c_size c <= kdcLookasideMaxSize.
Proof. apply (lookaside_size_bounded kpasswd_variant); [by right | vm_compute; repeat split]. Defined.

Lemma extra_evict max extra q : a_extra (a_evict kdc_variant max extra q) = extra.
Proof. induction q as [|e q IH]; cbn [a_evict]; destruct (max <? _); done. Qed.

Lemma extra_step a o : a_extra a <= a_extra (a_step kdc_variant a o).2.
Proof.
  destruct o as [r now|r resp now]; cbn [a_step]; unfold a_begin, a_complete.
  - destruct (a_find _ _); cbn [snd a_extra a_init]; [lia|]. rewrite extra_evict. done.
  - destruct (a_find _ _) as [e|]; cbn [snd a_extra a_init]; [|lia].
    destruct (v_drops _ _); cbn [a_extra]; [lia|]. rewrite extra_evict.
    pose proof (rlen_nonneg (a_response e)). lia.
Qed.

(** A request is evicted while it is being processed, is accepted again, and
    both workers answer it. *)
Definition double_answer : list op :=
  [OBegin (str "A") 0; OBegin (str "BBBBBBBB") 0; OBegin (str "A") 0;
   OComplete (str "A") (Some (str "1234")) 0; OComplete (str "A") (Some (str "1234")) 0;
   OBegin (str "A") 0; OComplete (str "A") (Some (str "567")) 0; OComplete (str "A") (Some (str "567")) 0].

(** C28: The KDC cache leaks capacity: the bytes counted for replies that are
    no longer held never decrease, and answering a request twice adds to them;
    with a limit of eight bytes, after [double_answer] the queue is empty, the
    size is seven, and a request that is answered is no longer remembered. *)
Theorem kdc_lookaside_leaks :
  (∀ a ops, a_extra a <= a_extra (a_run kdc_variant a ops).2) ∧
  let c := (run kdc_variant (mkCache ∅ ∅ [] 0 8 0) double_answer).2 in
  let again := [OBegin (str "C") 1; OComplete (str "C") (Some (str "ok")) 1; OBegin (str "C") 1] in
  c_queue c = [] ∧ c_size c = 7 ∧
  (run kdc_variant c again).1 = [Some (None, false); None; Some (None, false)] ∧
  (run kdc_variant (mkCache ∅ ∅ [] 0 8 0) again).1 =
    [Some (None, false); None; Some (Some (str "ok"), true)].
Proof.
  split; [|by vm_compute].
  intros a ops. revert a. induction ops as [|o ops IH]; intros a; cbn [a_run]; [done|].
  pose proof (extra_step a o). destruct (a_step kdc_variant a o) as [out a']. cbn [snd] in *.
  specialize (IH a'). destruct (a_run kdc_variant a' ops). cbn [snd] in *. lia.
Qed.
