(* ===== verification/Cts.v ===== *)
(** * Block ciphers, CBC with ciphertext stealing, CMAC

    src/krb5/crypto/internal/cts/cts.go, src/krb5/crypto/internal/cmac/cmac.go,
    src/krb5/crypto/aescts/aescts.go.

    Go's [cipher.Block] interface is the class [BlockCipher], and what every
    user of it relies on is [BlockCipherLaws]; [Camellia] is the instance of
    this repository, the AES of Go's library is a parameter.  Slices of a
    length fixed by the block size are handled with natural numbers. *)

From S2P Require Import Prelude.
Local Open Scope nat_scope.

(** ** Bytes under exclusive or *)

Definition bxor (a b : byte) : byte := z2b (Z.lxor (b2z a) (b2z b)).

(** [xor dst left right]: the three slices have the same length at every call. *)
Definition xor (left right : bytes) : bytes := zip_with bxor left right.

(** ** The interface *)

Class BlockCipher (C : Type) := {
  BlockSize : nat;
  block_Encrypt : C → bytes → bytes;
  block_Decrypt : C → bytes → bytes;
}.

Class BlockCipherLaws (C : Type) `{BlockCipher C} : Prop := {
  BlockSize_pos : 0 < BlockSize;
  length_Encrypt c b : length b = BlockSize → length (block_Encrypt c b) = BlockSize;
  length_Decrypt c b : length b = BlockSize → length (block_Decrypt c b) = BlockSize;
  Decrypt_Encrypt c b : length b = BlockSize → block_Decrypt c (block_Encrypt c b) = b;
  Encrypt_Decrypt c b : length b = BlockSize → block_Encrypt c (block_Decrypt c b) = b;
}.

(** [copy] into a zeroed block. *)
Definition pad_to (n : nat) (b : bytes) : bytes := take n (b ++ replicate n Byte.x00).

Definition ErrInvalidIV : string := "invalid IV length".
Definition ErrShortInput : string := "input shorter than one block".

Section cts.
Context {C : Type} `{BlockCipher C}.

Definition encryptBlock (block : C) (plain previous : bytes) : bytes :=
  block_Encrypt block (xor plain previous).

(** The CBC loops over [n] blocks: the blocks written and the last ciphertext
    block. *)
Fixpoint cbc_encrypt (block : C) (n : nat) (previous plaintext : bytes) : bytes * bytes :=
  match n with
  | 0 => ([], previous)
  | S n =>
      let encrypted := encryptBlock block (take BlockSize plaintext) previous in
      let '(out, last) := cbc_encrypt block n encrypted (drop BlockSize plaintext) in
      (encrypted ++ out, last)
  end.

Fixpoint cbc_decrypt (block : C) (n : nat) (previous ciphertext : bytes) : bytes * bytes :=
  match n with
  | 0 => ([], previous)
  | S n =>
      let plain := xor (block_Decrypt block (take BlockSize ciphertext)) previous in
      let '(out, last) := cbc_decrypt block n (take BlockSize ciphertext) (drop BlockSize ciphertext) in
      (plain ++ out, last)
  end.

Definition cts_Encrypt (block : C) (iv plaintext : bytes) : res (bytes * bytes) :=
  let bs := BlockSize in
  if negb (length iv =? bs) then Err ErrInvalidIV
  else if length plaintext <? bs then Err ErrShortInput
  else if length plaintext =? bs then
    let out := encryptBlock block plaintext iv in Ok (out, out)
  else if length plaintext mod bs =? 0 then
    let '(out, _) := cbc_encrypt block (length plaintext / bs) iv plaintext in
    let last := length out - bs in
    let previousOffset := last - bs in
    let swapped := take (last - previousOffset) (drop previousOffset out) in
    let out := take previousOffset out ++ drop last out ++ swapped in
    Ok (out, take bs (drop (length out - 2 * bs) out))
  else
    let fullBlocks := length plaintext / bs in
    let remainder := length plaintext mod bs in
    let '(out, previous) := cbc_encrypt block (fullBlocks - 1) iv plaintext in
    let penultimate := take bs (drop ((fullBlocks - 1) * bs) plaintext) in
    let last := drop (fullBlocks * bs) plaintext in
    let x := encryptBlock block penultimate previous in
    let paddedLast := xor (pad_to bs last) x in
    let y := block_Encrypt block paddedLast in
    let out := out ++ y ++ take remainder x in
    let nextOffset := length out - remainder - bs in
    Ok (out, take bs (drop nextOffset out)).

Definition cts_Decrypt (block : C) (iv ciphertext : bytes) : res (bytes * bytes) :=
  let bs := BlockSize in
  if negb (length iv =? bs) then Err ErrInvalidIV
  else if length ciphertext <? bs then Err ErrShortInput
  else if length ciphertext =? bs then
    Ok (xor (block_Decrypt block ciphertext) iv, ciphertext)
  else
    let fullBlocks := length ciphertext / bs in
    let remainder := length ciphertext mod bs in
    let previousBlocks := if negb (remainder =? 0) then fullBlocks - 1 else fullBlocks - 2 in
    let '(out, previous) := cbc_decrypt block previousBlocks iv ciphertext in
    let yBlock := if negb (remainder =? 0) then fullBlocks - 1 else fullBlocks - 2 in
    let yOffset := yBlock * bs in
    let y := take bs (drop yOffset ciphertext) in
    let xPart := drop (yOffset + bs) ciphertext in
    if remainder =? 0 then
      let dy := block_Decrypt block y in
      let plainLast := xor dy xPart in
      let dx := block_Decrypt block xPart in
      let plainPenultimate := xor dx previous in
      Ok (out ++ plainPenultimate ++ plainLast,
          take bs (drop (length ciphertext - 2 * bs) ciphertext))
    else
      let dy := block_Decrypt block y in
      let x := take remainder (pad_to bs xPart) ++ drop remainder dy in
      let plainLast := xor (take remainder dy) (take remainder x) in
      let dx := block_Decrypt block x in
      let plainPenultimate := xor dx previous in
      let nextOffset := length ciphertext - remainder - bs in
      Ok (out ++ plainPenultimate ++ plainLast, take bs (drop nextOffset ciphertext)).

(** ** CMAC *)

(** [double]: the shift of the block by one bit, from the last byte to the
    first, with the carry into the first. *)
Fixpoint double_shift (l : bytes) : bytes * Z :=
  match l with
  | [] => ([], 0%Z)
  | b :: l =>
      let '(out, carry) := double_shift l in
      (z2b (Z.lor (u8 (Z.shiftl (b2z b) 1)) carry) :: out, Z.shiftr (b2z b) 7)
  end.
Definition double (l : bytes) : bytes :=
  let '(out, carry) := double_shift l in
  if (carry =? 0)%Z then out
  else take (length out - 1) out ++ map (λ b, bxor b Byte.x87) (drop (length out - 1) out).

Fixpoint cmac_loop (block : C) (n : nat) (state data : bytes) : bytes :=
  match n with
  | 0 => state
  | S n =>
      cmac_loop block n (block_Encrypt block (xor (pad_to BlockSize data) state)) (drop BlockSize data)
  end.

Definition cmac_Sum (block : C) (data : bytes) : bytes :=
  let bs := BlockSize in
  let l := block_Encrypt block (replicate bs Byte.x00) in
  let k1 := double l in
  let k2 := double k1 in
  let n := (length data + bs - 1) / bs in
  let complete := (0 <? length data) && (length data mod bs =? 0) in
  let n := if n =? 0 then 1 else n in
  let last := pad_to bs (drop ((n - 1) * bs) data) in
  let last :=
    if complete then xor last k1
    else xor (<[length data mod bs := Byte.x80]> last) k2 in
  let state := cmac_loop block (n - 1) (replicate bs Byte.x00) data in
  block_Encrypt block (xor last state).
End cts.

(** ** AES with ciphertext stealing *)

Section aescts.
Context {A : Type} `{BlockCipher A}.
(** [aes.NewCipher] of Go's library. *)
Context (aes_NewCipher : bytes → res A).

Definition aes_BlockSize : nat := 16.

Definition newBlock (key iv : bytes) : res A :=
  match aes_NewCipher key with
  | Err e => Err ("AES CTS cipher: " +:+ e)
  | Panic => Panic
  | Ok block =>
      if negb (length iv =? BlockSize) then Err "AES CTS IV length"
      else Ok block
  end.

Definition EncryptWithState (key iv plaintext : bytes) : res (bytes * bytes) :=
  res_bind (newBlock key iv) (λ block,
    if length plaintext <? aes_BlockSize then Err "AES CTS encrypt: plaintext shorter than one block"
    else wrap_err "AES CTS encrypt: " (cts_Encrypt block iv plaintext)).

Definition DecryptWithState (key iv ciphertext : bytes) : res (bytes * bytes) :=
  res_bind (newBlock key iv) (λ block,
    if length ciphertext <? aes_BlockSize then Err "AES CTS decrypt: ciphertext shorter than one block"
    else wrap_err "AES CTS decrypt: " (cts_Decrypt block iv ciphertext)).

Definition aescts_Encrypt (key iv plaintext : bytes) : res bytes :=
  res_bind (EncryptWithState key iv plaintext) (λ r, Ok r.1).
Definition aescts_Decrypt (key iv ciphertext : bytes) : res bytes :=
  res_bind (DecryptWithState key iv ciphertext) (λ r, Ok r.1).
End aescts.

(** ** Lemmas: exclusive or *)

Lemma bxor_b2z a b : b2z (bxor a b) = Z.lxor (b2z a) (b2z b).
Proof.
  unfold bxor. rewrite b2z_z2b. apply Z.mod_small, (lxor_range 8); [done|apply b2z_range..].
Qed.

Lemma bxor_bxor a b : bxor (bxor a b) b = a.
Proof. apply b2z_inj. rewrite !bxor_b2z. apply lxor_cancel. Qed.

Lemma length_xor a b : length a = length b → length (xor a b) = length b.
Proof. intros Hl. unfold xor. rewrite length_zip_with. lia. Qed.

Lemma xor_xor a b : length a = length b → xor (xor a b) b = a.
Proof.
  revert b. induction a as [|x a IH]; intros [|y b]; try done. cbn. intros [= Hl].
  rewrite bxor_bxor. f_equal. by apply IH.
Qed.

Lemma xor_zero_l b n : n = length b → xor (replicate n Byte.x00) b = b.
Proof.
  intros ->. induction b as [|x b IH]; [done|]. cbn. f_equal; [|exact IH].
  apply b2z_inj. by rewrite bxor_b2z.
Qed.

Lemma xor_comm a b : xor a b = xor b a.
Proof.
  revert b. induction a as [|x a IH]; intros [|y b]; try done. cbn. f_equal; [|apply IH].
  unfold bxor. by rewrite Z.lxor_comm.
Qed.

Lemma take_xor n a b : take n (xor a b) = xor (take n a) (take n b).
Proof. apply zip_with_take. Qed.

Lemma pad_to_id n b : length b = n → pad_to n b = b.
Proof. intros <-. unfold pad_to. by rewrite take_app_length. Qed.
Lemma length_pad_to n b : length (pad_to n b) = n.
Proof. unfold pad_to. rewrite length_take, length_app, length_replicate. lia. Qed.
Lemma pad_to_short n b : length b ≤ n → pad_to n b = b ++ replicate (n - length b) Byte.x00.
Proof.
  intros Hl. unfold pad_to. rewrite take_app, take_replicate.
  rewrite take_ge by done. do 2 f_equal. lia.
Qed.

(** ** Lemmas: CBC *)

Section cts_proofs.
Context {C : Type} `{BlockCipherLaws C}.
Implicit Types (block : C).

Lemma length_encryptBlock block p prev :
  length p = BlockSize → length prev = BlockSize → length (encryptBlock block p prev) = BlockSize.
Proof. intros Hp Hv. apply length_Encrypt. rewrite length_xor; congruence. Qed.

Lemma decrypt_encryptBlock block p prev :
  length p = BlockSize → length prev = BlockSize →
  xor (block_Decrypt block (encryptBlock block p prev)) prev = p.
Proof.
  intros Hp Hv. unfold encryptBlock. rewrite Decrypt_Encrypt by (rewrite length_xor; congruence).
  apply xor_xor. congruence.
Qed.

(** Encryption of [n] blocks and its inverse, whatever follows. *)
Lemma cbc_roundtrip block n previous p rest :
  length previous = BlockSize → length p = n * BlockSize →
  ∃ out last, cbc_encrypt block n previous (p ++ rest) = (out, last) ∧
    length out = n * BlockSize ∧ length last = BlockSize ∧
    ∀ rest', cbc_decrypt block n previous (out ++ rest') = (p, last).
Proof.
  revert previous p. induction n as [|n IH]; intros previous p Hprev Hp.
  - destruct p; [|done]. by exists [], previous.
  - assert (Hsp : p = take BlockSize p ++ drop BlockSize p) by (by rewrite take_drop).
    assert (Ht : length (take BlockSize p) = BlockSize) by (rewrite length_take; lia).
    assert (Hd : length (drop BlockSize p) = n * BlockSize) by (rewrite length_drop; lia).
    revert Ht Hd Hsp. generalize (take BlockSize p) (drop BlockSize p). intros b q Hb Hq ->.
    rewrite <- app_assoc. cbn [cbc_encrypt cbc_decrypt].
    rewrite take_app_length', drop_app_length' by done.
    pose proof (length_encryptBlock block b previous Hb Hprev) as He.
    destruct (IH (encryptBlock block b previous) q He Hq) as (out & last & -> & Hout & Hlast & Hdec).
    eexists _, _. split_and!; [done|rewrite length_app; lia|done|].
    intros rest'. rewrite <- app_assoc, take_app_length', drop_app_length' by done.
    rewrite Hdec, decrypt_encryptBlock by done. done.
Qed.

Lemma cbc_encrypt_app block n m previous p :
  length p = n * BlockSize + m * BlockSize → length previous = BlockSize →
  cbc_encrypt block (n + m) previous p =
    let '(o1, l1) := cbc_encrypt block n previous p in
    let '(o2, l2) := cbc_encrypt block m l1 (drop (n * BlockSize) p) in (o1 ++ o2, l2).
Proof.
  revert previous p. induction n as [|n IH]; intros previous p Hp Hprev.
  - cbn. rewrite drop_0. by destruct (cbc_encrypt block m previous p).
  - cbn [Nat.add cbc_encrypt].
    rewrite IH.
    + destruct (cbc_encrypt block n _ _) as [o1 l1]. rewrite drop_drop.
      replace (BlockSize + n * BlockSize) with (S n * BlockSize) by lia.
      destruct (cbc_encrypt block m l1 _) as [o2 l2]. by rewrite app_assoc.
    + rewrite length_drop. lia.
    + apply length_encryptBlock; [|done]. rewrite length_take. lia.
Qed.

Ltac cts_len := rewrite ?length_app, ?length_take, ?length_drop, ?length_replicate; lia.

Lemma cts_one block iv p :
  length iv = BlockSize → length p = BlockSize →
  ∃ ct, cts_Encrypt block iv p = Ok (ct, ct) ∧ length ct = BlockSize ∧
    cts_Decrypt block iv ct = Ok (p, ct).
Proof.
  intros Hiv Hp. pose proof (length_encryptBlock block p iv Hp Hiv) as He.
  exists (encryptBlock block p iv). unfold cts_Encrypt, cts_Decrypt.
  rewrite Hiv, Hp, He, Nat.eqb_refl, (proj2 (Nat.ltb_ge _ _)) by lia. cbn [negb].
  by rewrite decrypt_encryptBlock.
Qed.

Lemma mid_slice (c y x : bytes) n k : n = length c → k = length y → take k (drop n (c ++ y ++ x)) = y.
Proof. intros -> ->. by rewrite drop_app_length, take_app_length. Qed.
Lemma tail_slice (c y x : bytes) n : n = length c + length y → drop n (c ++ y ++ x) = x.
Proof. intros ->. by rewrite app_assoc, <- length_app, drop_app_length. Qed.

(** What encryption writes after the first [m] blocks. *)
Lemma cts_Encrypt_full block iv pre p1 p2 m c last :
  length iv = BlockSize → length pre = m * BlockSize →
  length p1 = BlockSize → length p2 = BlockSize →
  cbc_encrypt block m iv (pre ++ p1 ++ p2) = (c, last) → length c = m * BlockSize → length last = BlockSize →
  let x := encryptBlock block p1 last in
  let y := encryptBlock block p2 x in
  cts_Encrypt block iv (pre ++ p1 ++ p2) = Ok (c ++ y ++ x, y).
Proof.
  intros Hiv Hpre Hp1 Hp2 Henc Hc Hlast x y. pose proof BlockSize_pos as Hpos.
  assert (Hl : length (pre ++ p1 ++ p2) = (m + 2) * BlockSize) by cts_len.
  assert (Hpre2 : length (pre ++ p1 ++ p2) = m * BlockSize + 2 * BlockSize) by cts_len.
  assert (Hx : length x = BlockSize) by (by apply length_encryptBlock).
  assert (Hy : length y = BlockSize) by (by apply length_encryptBlock).
  unfold cts_Encrypt. rewrite Hiv, Nat.eqb_refl, Hl. cbn [negb].
  rewrite (proj2 (Nat.ltb_ge _ _)), (proj2 (Nat.eqb_neq _ _)) by nia.
  rewrite Nat.Div0.mod_mul, Nat.eqb_refl, Nat.div_mul by lia.
  rewrite cbc_encrypt_app, Henc by (lia || done).
  rewrite (drop_app_length' pre) by done. cbn [cbc_encrypt].
  rewrite (take_app_length' p1), (drop_app_length' p1), (take_ge p2) by (done || lia).
  fold x. fold y. rewrite app_nil_r.
  replace (length (c ++ x ++ y) - BlockSize) with (length (c ++ x)) by cts_len.
  replace (length (c ++ x) - BlockSize) with (length c) by cts_len.
  rewrite drop_app_length, take_app_length.
  replace (length (c ++ x) - length c) with BlockSize by cts_len.
  rewrite (take_app_length' x) by done. rewrite (app_assoc c x y), drop_app_length.
  rewrite (drop_app_length' c) by cts_len. by rewrite take_app_length'.
Qed.

Lemma cts_Encrypt_partial block iv pre p1 p2 m c last :
  length iv = BlockSize → length pre = m * BlockSize →
  length p1 = BlockSize → 0 < length p2 < BlockSize →
  cbc_encrypt block m iv (pre ++ p1 ++ p2) = (c, last) → length c = m * BlockSize → length last = BlockSize →
  let x := encryptBlock block p1 last in
  let y := block_Encrypt block (xor (pad_to BlockSize p2) x) in
  cts_Encrypt block iv (pre ++ p1 ++ p2) = Ok (c ++ y ++ take (length p2) x, y).
Proof.
  intros Hiv Hpre Hp1 Hp2 Henc Hc Hlast x y. pose proof BlockSize_pos as Hpos.
  set (r := length p2) in *.
  assert (Hx : length x = BlockSize) by (by apply length_encryptBlock).
  assert (Hy : length y = BlockSize).
  { apply length_Encrypt. rewrite length_xor; [done|rewrite length_pad_to; congruence]. }
  assert (Hmod : ((m + 1) * BlockSize + r) mod BlockSize = r).
  { rewrite Nat.add_comm, Nat.Div0.mod_add. apply Nat.mod_small. lia. }
  assert (Hdiv : ((m + 1) * BlockSize + r) / BlockSize = m + 1).
  { rewrite Nat.div_add_l, Nat.div_small by lia. lia. }
  unfold cts_Encrypt.
  assert (Hl : length (pre ++ p1 ++ p2) = (m + 1) * BlockSize + r) by (unfold r; cts_len).
  rewrite Hiv, Nat.eqb_refl, Hl, Hmod, Hdiv. cbn [negb].
  rewrite (proj2 (Nat.ltb_ge _ _)), !(proj2 (Nat.eqb_neq _ _)) by nia.
  replace (m + 1 - 1) with m by lia. rewrite Henc.
  rewrite (tail_slice pre p1 p2), (mid_slice pre p1 p2) by lia. fold x. fold y.
  replace (length (c ++ y ++ take r x) - r - BlockSize) with (length c) by cts_len.
  rewrite drop_app_length. by rewrite take_app_length'.
Qed.

Lemma cts_full block iv pre p1 p2 m :
  length iv = BlockSize → length pre = m * BlockSize →
  length p1 = BlockSize → length p2 = BlockSize →
  ∃ c y x, cts_Encrypt block iv (pre ++ p1 ++ p2) = Ok (c ++ y ++ x, y) ∧
    length c = m * BlockSize ∧ length y = BlockSize ∧ length x = BlockSize ∧
    cts_Decrypt block iv (c ++ y ++ x) = Ok (pre ++ p1 ++ p2, y).
Proof.
  intros Hiv Hpre Hp1 Hp2. pose proof BlockSize_pos as Hpos.
  assert (Hl : length (pre ++ p1 ++ p2) = (m + 2) * BlockSize) by cts_len.
  assert (Hpre2 : length (pre ++ p1 ++ p2) = m * BlockSize + 2 * BlockSize) by cts_len.
  destruct (cbc_roundtrip block m iv pre (p1 ++ p2) Hiv Hpre) as (c & last & Henc & Hc & Hlast & Hdec).
  set (x := encryptBlock block p1 last). set (y := encryptBlock block p2 x).
  assert (Hx : length x = BlockSize) by (by apply length_encryptBlock).
  assert (Hy : length y = BlockSize) by (by apply length_encryptBlock).
  exists c, y, x. split_and!; [|done..|].
  - by apply (cts_Encrypt_full block iv pre p1 p2 m).
  - unfold cts_Decrypt. assert (Hl' : length (c ++ y ++ x) = (m + 2) * BlockSize) by cts_len.
    rewrite Hiv, Nat.eqb_refl, Hl'. cbn [negb].
    rewrite (proj2 (Nat.ltb_ge _ _)), (proj2 (Nat.eqb_neq _ _)) by nia.
    rewrite Nat.Div0.mod_mul, Nat.eqb_refl, Nat.div_mul by lia. cbn [negb].
    replace (m + 2 - 2) with m by lia. rewrite Hdec.
    rewrite (tail_slice c y x), (mid_slice c y x) by lia.
    assert (xor (block_Decrypt block y) x = p2) as -> by (by apply decrypt_encryptBlock).
    assert (xor (block_Decrypt block x) last = p1) as -> by (by apply decrypt_encryptBlock).
    by rewrite (mid_slice c y x) by lia.
Qed.

Lemma cts_partial block iv pre p1 p2 m :
  length iv = BlockSize → length pre = m * BlockSize →
  length p1 = BlockSize → 0 < length p2 < BlockSize →
  ∃ c y x, cts_Encrypt block iv (pre ++ p1 ++ p2) = Ok (c ++ y ++ x, y) ∧
    length c = m * BlockSize ∧ length y = BlockSize ∧ length x = length p2 ∧
    cts_Decrypt block iv (c ++ y ++ x) = Ok (pre ++ p1 ++ p2, y).
Proof.
  intros Hiv Hpre Hp1 Hp2. pose proof BlockSize_pos as Hpos.
  set (r := length p2) in *.
  destruct (cbc_roundtrip block m iv pre (p1 ++ p2) Hiv Hpre) as (c & last & Henc & Hc & Hlast & Hdec).
  set (x := encryptBlock block p1 last).
  assert (Hx : length x = BlockSize) by (by apply length_encryptBlock).
  set (d := xor (pad_to BlockSize p2) x). set (y := block_Encrypt block d).
  assert (Hd : length d = BlockSize) by (unfold d; rewrite length_xor; [done|rewrite length_pad_to; congruence]).
  assert (Hy : length y = BlockSize) by (by apply length_Encrypt).
  assert (Hmod : ((m + 1) * BlockSize + r) mod BlockSize = r).
  { rewrite Nat.add_comm, Nat.Div0.mod_add. apply Nat.mod_small. lia. }
  assert (Hdiv : ((m + 1) * BlockSize + r) / BlockSize = m + 1).
  { rewrite Nat.div_add_l, Nat.div_small by lia. lia. }
  exists c, y, (take r x). split_and!; [|done..| |].
  - by apply (cts_Encrypt_partial block iv pre p1 p2 m).
  - rewrite length_take. lia.
  - unfold cts_Decrypt.
    assert (Hl : length (c ++ y ++ take r x) = (m + 1) * BlockSize + r) by cts_len.
    rewrite Hiv, Nat.eqb_refl, Hl, Hmod, Hdiv. cbn [negb].
    rewrite (proj2 (Nat.ltb_ge _ _)), !(proj2 (Nat.eqb_neq _ _)) by nia. cbn [negb].
    replace (m + 1 - 1) with m by lia. rewrite Hdec.
    rewrite (tail_slice c y (take r x)), (mid_slice c y (take r x)) by lia.
    assert (block_Decrypt block y = d) as -> by (by apply Decrypt_Encrypt).
    rewrite (pad_to_short BlockSize (take r x)) by cts_len.
    rewrite (take_app_length' (take r x)) by cts_len.
    assert (Hdrop : drop r d = drop r x).
    { unfold d. rewrite pad_to_short by lia. unfold xor.
      rewrite zip_with_drop, (drop_app_length' p2) by done. apply xor_zero_l. cts_len. }
    rewrite Hdrop, take_drop.
    assert (xor (block_Decrypt block x) last = p1) as -> by (by apply decrypt_encryptBlock).
    rewrite (mid_slice c y (take r x)) by lia. unfold d. rewrite take_xor, xor_xor.
    + rewrite pad_to_short by lia. by rewrite (take_app_length' p2).
    + rewrite !length_take, length_pad_to. lia.
Qed.

(** Every input of at least one block is one block, whole blocks, or whole
    blocks and a remainder. *)
Lemma cts_cases (p : bytes) :
  BlockSize ≤ length p →
  length p = BlockSize ∨
  ∃ m pre p1 p2, p = pre ++ p1 ++ p2 ∧ length pre = m * BlockSize ∧ length p1 = BlockSize ∧
    0 < length p2 ≤ BlockSize.
Proof.
  intros Hp. pose proof BlockSize_pos as Hpos.
  destruct (decide (length p = BlockSize)) as [|Hne]; [by left|right].
  set (m := (length p - 1) / BlockSize - 1).
  assert (Hm : (m + 1) * BlockSize < length p ≤ (m + 2) * BlockSize).
  { pose proof (Nat.div_mod_eq (length p - 1) BlockSize) as He.
    pose proof (Nat.mod_upper_bound (length p - 1) BlockSize ltac:(lia)) as Hu.
    assert (0 < (length p - 1) / BlockSize) by (apply Nat.div_str_pos; lia).
    unfold m. nia. }
  exists m, (take (m * BlockSize) p), (take BlockSize (drop (m * BlockSize) p)),
    (drop BlockSize (drop (m * BlockSize) p)). split_and!.
  - by rewrite !take_drop.
  - rewrite length_take. lia.
  - rewrite length_take, length_drop. lia.
  - rewrite !length_drop. lia.
  - rewrite !length_drop. lia.
Qed.

Lemma cts_ok block iv p :
  length iv = BlockSize → BlockSize ≤ length p →
  ∃ ct state, cts_Encrypt block iv p = Ok (ct, state) ∧ length ct = length p ∧
    length state = BlockSize ∧ cts_Decrypt block iv ct = Ok (p, state).
Proof.
  intros Hiv Hp. destruct (cts_cases p Hp) as [H1|(m & pre & p1 & p2 & -> & Hpre & Hp1 & Hp2)].
  - destruct (cts_one block iv p Hiv H1) as (ct & -> & Hl & Hd). exists ct, ct.
    split_and!; [done|congruence|done|done].
  - destruct (decide (length p2 = BlockSize)) as [H2|H2].
    + destruct (cts_full block iv pre p1 p2 m Hiv Hpre Hp1 H2) as (c & y & x & -> & Hc & Hy & Hx & Hd).
      eexists _, _. split_and!; [done| |done|done]. rewrite !length_app. lia.
    + destruct (cts_partial block iv pre p1 p2 m Hiv Hpre Hp1 ltac:(lia)) as (c & y & x & -> & Hc & Hy & Hx & Hd).
      eexists _, _. split_and!; [done| |done|done]. rewrite !length_app. lia.
Qed.

(** *** The other direction: every ciphertext is the encryption of its decryption *)

Lemma encrypt_decryptBlock block b prev :
  length b = BlockSize → length prev = BlockSize →
  encryptBlock block (xor (block_Decrypt block b) prev) prev = b.
Proof.
  intros Hb Hv. unfold encryptBlock. rewrite xor_xor by (rewrite length_Decrypt; congruence).
  by apply Encrypt_Decrypt.
Qed.

Lemma cbc_inverse block n previous c rest :
  length previous = BlockSize → length c = n * BlockSize →
  ∃ out last, cbc_decrypt block n previous (c ++ rest) = (out, last) ∧
    length out = n * BlockSize ∧ length last = BlockSize ∧
    ∀ rest', cbc_encrypt block n previous (out ++ rest') = (c, last).
Proof.
  revert previous c. induction n as [|n IH]; intros previous c Hprev Hc.
  - destruct c; [|done]. by exists [], previous.
  - assert (Hsp : c = take BlockSize c ++ drop BlockSize c) by (by rewrite take_drop).
    assert (Ht : length (take BlockSize c) = BlockSize) by (rewrite length_take; lia).
    assert (Hd : length (drop BlockSize c) = n * BlockSize) by (rewrite length_drop; lia).
    revert Ht Hd Hsp. generalize (take BlockSize c) (drop BlockSize c). intros b q Hb Hq ->.
    rewrite <- app_assoc. cbn [cbc_encrypt cbc_decrypt].
    rewrite take_app_length', drop_app_length' by done.
    set (p := xor (block_Decrypt block b) previous).
    assert (Hp : length p = BlockSize) by (unfold p; rewrite length_xor; [done|rewrite length_Decrypt; congruence]).
    destruct (IH b q Hb Hq) as (out & last & -> & Hout & Hlast & Henc).
    eexists _, _. split_and!; [done|rewrite length_app; lia|done|].
    intros rest'. rewrite <- app_assoc, take_app_length', drop_app_length' by done.
    unfold p. rewrite encrypt_decryptBlock by done. by rewrite Henc.
Qed.

Lemma cts_one_inv block iv ct :
  length iv = BlockSize → length ct = BlockSize →
  ∃ p, cts_Decrypt block iv ct = Ok (p, ct) ∧ length p = BlockSize ∧ cts_Encrypt block iv p = Ok (ct, ct).
Proof.
  intros Hiv Hct. exists (xor (block_Decrypt block ct) iv).
  assert (Hp : length (xor (block_Decrypt block ct) iv) = BlockSize).
  { rewrite length_xor; [done|]. rewrite length_Decrypt; congruence. }
  split_and!; [|done|]; unfold cts_Encrypt, cts_Decrypt;
    rewrite Hiv, ?Hp, ?Hct, Nat.eqb_refl, (proj2 (Nat.ltb_ge _ _)) by lia; cbn [negb]; [done|].
  by rewrite encrypt_decryptBlock.
Qed.

Lemma cts_full_inv block iv c y x m :
  length iv = BlockSize → length c = m * BlockSize → length y = BlockSize → length x = BlockSize →
  ∃ p, cts_Encrypt block iv p = Ok (c ++ y ++ x, y) ∧ length p = length (c ++ y ++ x).
Proof.
  intros Hiv Hc Hy Hx.
  destruct (cbc_inverse block m iv c [] Hiv Hc) as (pre & last & _ & Hpre & Hlast & Henc).
  set (p1 := xor (block_Decrypt block x) last). set (p2 := xor (block_Decrypt block y) x).
  assert (Hp1 : length p1 = BlockSize) by (unfold p1; rewrite length_xor; [done|rewrite length_Decrypt; congruence]).
  assert (Hp2 : length p2 = BlockSize) by (unfold p2; rewrite length_xor; [done|rewrite length_Decrypt; congruence]).
  exists (pre ++ p1 ++ p2). split; [|cts_len].
  rewrite (cts_Encrypt_full block iv pre p1 p2 m c last) by done.
  unfold p1, p2. by rewrite !(encrypt_decryptBlock block x last), (encrypt_decryptBlock block y x).
Qed.

Lemma cts_partial_inv block iv c y x m :
  length iv = BlockSize → length c = m * BlockSize → length y = BlockSize → 0 < length x < BlockSize →
  ∃ p, cts_Encrypt block iv p = Ok (c ++ y ++ x, y) ∧ length p = length (c ++ y ++ x).
Proof.
  intros Hiv Hc Hy Hx.
  destruct (cbc_inverse block m iv c [] Hiv Hc) as (pre & last & _ & Hpre & Hlast & Henc).
  set (d := block_Decrypt block y). assert (Hd : length d = BlockSize) by (by apply length_Decrypt).
  set (x' := x ++ drop (length x) d). assert (Hx' : length x' = BlockSize) by (unfold x'; cts_len).
  set (p1 := xor (block_Decrypt block x') last). set (p2 := xor (take (length x) d) x).
  assert (Hp1 : length p1 = BlockSize) by (unfold p1; rewrite length_xor; [done|rewrite length_Decrypt; congruence]).
  assert (Hp2 : length p2 = length x) by (unfold p2; rewrite length_xor; [done|cts_len]).
  exists (pre ++ p1 ++ p2). split; [|cts_len].
  rewrite (cts_Encrypt_partial block iv pre p1 p2 m c last) by (done || lia). cbv zeta.
  unfold p1. rewrite !(encrypt_decryptBlock block x' last) by done. rewrite Hp2.
  assert (Hpad : xor (pad_to BlockSize p2) x' = d).
  { rewrite pad_to_short, Hp2 by lia. unfold x', xor. rewrite zip_with_app by done.
    fold (xor p2 x) (xor (replicate (BlockSize - length x) Byte.x00) (drop (length x) d)).
    rewrite xor_zero_l by cts_len. unfold p2. rewrite xor_xor by cts_len. apply take_drop. }
  rewrite Hpad. unfold d. rewrite Encrypt_Decrypt by done. unfold x'. by rewrite take_app_length.
Qed.

(** Every ciphertext of at least one block is the encryption of its
    decryption. *)
Lemma cts_onto block iv ct :
  length iv = BlockSize → BlockSize ≤ length ct →
  ∃ p state, cts_Decrypt block iv ct = Ok (p, state) ∧ length p = length ct ∧
    cts_Encrypt block iv p = Ok (ct, state).
Proof.
  intros Hiv Hct.
  assert (Hp : ∃ p state, cts_Encrypt block iv p = Ok (ct, state) ∧ length p = length ct).
  { destruct (cts_cases ct Hct) as [H1|(m & c & y & x & -> & Hc & Hy & Hx)].
    - destruct (cts_one_inv block iv ct Hiv H1) as (p & _ & Hl & He). exists p, ct. split; [done|congruence].
    - destruct (decide (length x = BlockSize)) as [H2|H2].
      + destruct (cts_full_inv block iv c y x m Hiv Hc Hy H2) as (p & He & Hl). eauto.
      + destruct (cts_partial_inv block iv c y x m Hiv Hc Hy ltac:(lia)) as (p & He & Hl). eauto. }
  destruct Hp as (p & state & He & Hl). exists p, state.
  destruct (cts_ok block iv p Hiv ltac:(lia)) as (ct' & st' & He' & _ & _ & Hd). rewrite He in He'. injection He' as <- <-. done.
Qed.
End cts_proofs.

(** ** Lemmas: doubling in CMAC *)

Local Open Scope Z_scope.

Lemma double_byte b carry :
  0 <= carry <= 1 →
  b2z (z2b (Z.lor (u8 (Z.shiftl (b2z b) 1)) carry)) = (2 * b2z b) mod 256 + carry.
Proof.
  intros Hc. pose proof (b2z_range b) as Hb. unfold u8.
  rewrite Z.shiftl_mul_pow2 by done. change (2 ^ 1) with 2. change (2 ^ 8) with 256.
  rewrite (Z.mul_comm _ 2).
  assert (Hev : (2 * b2z b) mod 256 = Z.shiftl ((b2z b) mod 128) 1).
  { rewrite Z.shiftl_mul_pow2 by done. change 256 with (2 * 128).
    rewrite Zmult_mod_distr_l. change (2 ^ 1) with 2. lia. }
  pose proof (Z.mod_pos_bound (b2z b) 128 ltac:(lia)).
  rewrite Hev, lor_shiftl, Z.shiftl_mul_pow2 by lia. rewrite b2z_z2b, Z.mod_small by lia. done.
Qed.

Lemma double_shift_spec l :
  let '(out, carry) := double_shift l in
  length out = length l ∧ 0 <= carry <= 1 ∧
  2 * be_value l = carry * 256 ^ Z.of_nat (length l) + be_value out.
Proof.
  induction l as [|b l IH]; cbn [double_shift]; [by repeat split|].
  destruct (double_shift l) as [out carry]. destruct IH as (Hl & Hc & Hv).
  pose proof (b2z_range b) as Hb. cbn [length]. rewrite Z.shiftr_div_pow2 by done.
  change (2 ^ 7) with 128. split_and!.
  - congruence.
  - apply Z.div_pos; lia.
  - assert (b2z b / 128 < 2) by (apply Z.div_lt_upper_bound; lia). lia.
  - cbn [be_value length]. rewrite double_byte, Hl by done.
    rewrite Nat2Z.inj_succ, Z.pow_succ_r by lia.
    assert (Hd : 2 * b2z b = 256 * (b2z b / 128) + (2 * b2z b) mod 256).
    { replace (b2z b / 128) with (2 * b2z b / 256) by (change 256 with (2 * 128);
        by rewrite Z.div_mul_cancel_l). apply Z.div_mod. lia. }
    nia.
Qed.

Lemma be_value_last o z c :
  be_value (o ++ [bxor z c]) = Z.lxor (be_value (o ++ [z])) (b2z c).
Proof.
  rewrite !be_value_app. cbn [be_value length]. rewrite !Z.mul_1_r, !Z.add_0_r, bxor_b2z.
  change (zlen [z]) with 1. change (zlen [bxor z c]) with 1. change (256 ^ 1) with (2 ^ 8).
  symmetry. apply lxor_shiftl_low; [done|apply (b2z_range z)|apply (b2z_range c)].
Qed.

(** CMAC subkey derivation: [double] is multiplication by x in the field
    of the block: the big-endian value is doubled modulo 2 to the number of
    bits of the block, and reduced by 0x87 exactly when the top bit was set. *)
Theorem double_spec l :
  l ≠ [] →
  let n := 256 ^ zlen l in
  length (double l) = length l ∧
  be_value (double l) =
    if n / 2 <=? be_value l then Z.lxor ((2 * be_value l) mod n) 0x87 else 2 * be_value l.
Proof.
  intros Hl n. unfold double, zlen in *. pose proof (double_shift_spec l) as Hs.
  destruct (double_shift l) as [out carry]. destruct Hs as (Hlen & Hc & Hv).
  pose proof (be_value_range out) as Hr. unfold zlen in Hr. rewrite Hlen in Hr. fold n in Hr, Hv.
  assert (Hn : n = 2 * (n / 2)).
  { unfold n. destruct (length l) eqn:E; [by destruct l|]. rewrite Nat2Z.inj_succ, Z.pow_succ_r by lia.
    replace (256 * 256 ^ Z.of_nat n0) with (2 * (128 * 256 ^ Z.of_nat n0)) by lia.
    rewrite (Z.mul_comm 2), Z.div_mul by done. lia. }
  destruct (Z.eqb_spec carry 0) as [->|Hne].
  - split; [done|]. rewrite (proj2 (Z.leb_gt _ _)) by lia. lia.
  - assert (carry = 1) as -> by lia. rewrite (proj2 (Z.leb_le _ _)) by lia.
    assert ((2 * be_value l) mod n = be_value out) as ->.
    { rewrite Hv, Z.add_comm, Z.mod_add by lia. by apply Z.mod_small. }
    destruct out as [|z out _] using rev_ind; [by destruct l|].
    replace (length (out ++ [z]) - 1)%nat with (length out) by (rewrite length_app; cbn; lia).
    rewrite take_app_length, drop_app_length. cbn [map]. split.
    + rewrite <- Hlen, !length_app. done.
    + by rewrite be_value_last.
Qed.
(** *** Lengths of message authentication codes *)

Lemma length_double l : length (double l) = length l.
Proof.
  unfold double. pose proof (double_shift_spec l) as Hs. destruct (double_shift l) as [out carry].
  destruct Hs as (Hl & _). destruct (carry =? 0); [done|].
  rewrite length_app, length_map, length_take, length_drop. lia.
Qed.

Lemma length_xor_block a b n : length a = n → length b = n → length (xor a b) = n.
Proof. intros Ha Hb. rewrite length_xor; congruence. Qed.

Section cmac_proofs.
Context {C : Type} `{BlockCipherLaws C}.
Local Open Scope nat_scope.

Lemma length_cmac_loop (block : C) n state data :
  length state = BlockSize → length (cmac_loop block n state data) = BlockSize.
Proof.
  revert state data. induction n as [|n IH]; intros state data Hs; cbn [cmac_loop]; [done|].
  apply IH, length_Encrypt, length_xor_block; [apply length_pad_to|done].
Qed.

Lemma length_cmac_Sum (block : C) data : length (cmac_Sum block data) = BlockSize.
Proof.
  unfold cmac_Sum. cbv zeta.
  set (l := block_Encrypt block (replicate BlockSize Byte.x00)).
  assert (Hl : length l = BlockSize) by (apply length_Encrypt, length_replicate).
  apply length_Encrypt, length_xor_block; [|apply length_cmac_loop, length_replicate].
  destruct (_ && _); apply length_xor_block; rewrite ?length_double, ?length_insert, ?length_pad_to; done.
Qed.
End cmac_proofs.

(** ** Theorems *)

(** Ciphertext stealing round trip: over every block cipher, for every
    initial vector of one block and every plaintext of at least one block (one
    block, whole blocks, or blocks and a remainder), encryption succeeds,
    keeps the length, and decryption gives back the plaintext and the same
    chaining state for the next message. *)
Theorem cts_roundtrip {C : Type} `{BlockCipherLaws C} (block : C) (iv plaintext : bytes) :
  length iv = BlockSize → (BlockSize ≤ length plaintext)%nat →
  ∃ ct state, cts_Encrypt block iv plaintext = Ok (ct, state) ∧
    length ct = length plaintext ∧ length state = BlockSize ∧
    cts_Decrypt block iv ct = Ok (plaintext, state).
Proof. apply cts_ok. Qed.

(** The AES interface: when the library accepts the key, encryption
    succeeds exactly when the initial vector is one block and the plaintext at
    least one block; decryption with the same key and vector gives back the
    plaintext and the chaining state; the caller never sees a panic. *)
Theorem aescts_roundtrip {A : Type} `{BlockCipherLaws A} (NewCipher : bytes → res A) key iv plaintext block :
  NewCipher key = Ok block → BlockSize (C := A) = aes_BlockSize →
  if ((length iv =? 16) && (16 <=? length plaintext))%nat then
    ∃ ct state, EncryptWithState NewCipher key iv plaintext = Ok (ct, state) ∧
      length ct = length plaintext ∧ DecryptWithState NewCipher key iv ct = Ok (plaintext, state)
  else ∃ e, EncryptWithState NewCipher key iv plaintext = Err e.
Proof.
  intros Hk Hbs. unfold EncryptWithState, DecryptWithState, newBlock. rewrite Hk, Hbs.
  destruct (Nat.eqb_spec (length iv) 16) as [Hiv|Hiv]; cbn [andb]; unfold aes_BlockSize in *.
  2: { rewrite (proj2 (Nat.eqb_neq _ _)) by done. cbn. eauto. }
  rewrite Hiv, Nat.eqb_refl. cbn [negb res_bind].
  destruct (Nat.leb_spec 16 (length plaintext)) as [Hp|Hp].
  - destruct (cts_ok block iv plaintext) as (ct & state & He & Hl & Hst & Hd); [congruence|lia|].
    exists ct, state. rewrite Hl, (proj2 (Nat.ltb_ge _ _)), He, Hd by lia. done.
  - rewrite (proj2 (Nat.ltb_lt _ _)) by lia. eauto.
Qed.

(** *** A small cipher: exclusive or with a block of key *)

Definition xor_cipher : Type := bytes.
#[export] Instance xor_cipher_block : BlockCipher xor_cipher := {|
  BlockSize := 16;
  block_Encrypt key b := xor b (pad_to 16 key);
  block_Decrypt key b := xor b (pad_to 16 key);
|}.
#[export] Instance xor_cipher_laws : BlockCipherLaws xor_cipher.
Proof.
  split; cbn; [lia|..]; intros c b Hb; try (rewrite length_xor; rewrite length_pad_to; done).
  all: apply xor_xor; by rewrite length_pad_to.
Qed.

Lemma cts_roundtrip_witness :
  let key : xor_cipher := str "0123456789abcdef" in
  ∃ ct state, cts_Encrypt key (replicate 16 Byte.x00) (str "a message of twenty-nine byte") = Ok (ct, state) ∧
    length ct = length (str "a message of twenty-nine byte") ∧ length state = 16%nat ∧
    cts_Decrypt key (replicate 16 Byte.x00) ct = Ok (str "a message of twenty-nine byte", state).
Proof.
  refine (cts_roundtrip (C := xor_cipher) (str "0123456789abcdef") (replicate 16 Byte.x00)
           (str "a message of twenty-nine byte") eq_refl _). vm_compute. lia.
Defined.

Lemma aescts_roundtrip_witness :
  ∃ ct state, EncryptWithState (A := xor_cipher) Ok (str "key") (replicate 16 Byte.x00) (replicate 20 Byte.x41)
      = Ok (ct, state) ∧
    length ct = 20%nat ∧
    DecryptWithState (A := xor_cipher) Ok (str "key") (replicate 16 Byte.x00) ct = Ok (replicate 20 Byte.x41, state).
Proof.
  exact (aescts_roundtrip (A := xor_cipher) Ok (str "key") (replicate 16 Byte.x00) (replicate 20 Byte.x41)
           (str "key") eq_refl eq_refl).
Defined.
