(* ===== verification/Camellia.v ===== *)
(** * The Camellia block cipher (src/krb5/crypto/camellia/camellia.go)

    Words are numbers at their width: every shift to the left is reduced.  The
    key arrays hold 64-bit words and are read with [word]. *)

From S2P Require Import Prelude Cts.
Local Open Scope Z_scope.

Definition camellia_BlockSize : Z := 16.

Record camelliaCipher := mkCamellia {
  kw : list Z;
  k : list Z;
  ke : list Z;
  klen : Z;
}.

Definition word (a : list Z) (i : nat) : Z := u64 (nth i a 0).

Definition sigma1 := 0xA09E667F3BCC908B.
Definition sigma2 := 0xB67AE8584CAA73B2.
Definition sigma3 := 0xC6EF372FE94F82BE.
Definition sigma4 := 0x54FF53A5F1D36F1C.
Definition sigma5 := 0x10E527FADE682D1D.
Definition sigma6 := 0xB05688C2B3E6C1FD.

(** ** The S-boxes *)

Definition sbox1 : list Z :=
  [0x70; 0x82; 0x2c; 0xec; 0xb3; 0x27; 0xc0; 0xe5; 0xe4; 0x85; 0x57; 0x35; 0xea; 0x0c; 0xae; 0x41;
   0x23; 0xef; 0x6b; 0x93; 0x45; 0x19; 0xa5; 0x21; 0xed; 0x0e; 0x4f; 0x4e; 0x1d; 0x65; 0x92; 0xbd;
   0x86; 0xb8; 0xaf; 0x8f; 0x7c; 0xeb; 0x1f; 0xce; 0x3e; 0x30; 0xdc; 0x5f; 0x5e; 0xc5; 0x0b; 0x1a;
   0xa6; 0xe1; 0x39; 0xca; 0xd5; 0x47; 0x5d; 0x3d; 0xd9; 0x01; 0x5a; 0xd6; 0x51; 0x56; 0x6c; 0x4d;
   0x8b; 0x0d; 0x9a; 0x66; 0xfb; 0xcc; 0xb0; 0x2d; 0x74; 0x12; 0x2b; 0x20; 0xf0; 0xb1; 0x84; 0x99;
   0xdf; 0x4c; 0xcb; 0xc2; 0x34; 0x7e; 0x76; 0x05; 0x6d; 0xb7; 0xa9; 0x31; 0xd1; 0x17; 0x04; 0xd7;
   0x14; 0x58; 0x3a; 0x61; 0xde; 0x1b; 0x11; 0x1c; 0x32; 0x0f; 0x9c; 0x16; 0x53; 0x18; 0xf2; 0x22;
   0xfe; 0x44; 0xcf; 0xb2; 0xc3; 0xb5; 0x7a; 0x91; 0x24; 0x08; 0xe8; 0xa8; 0x60; 0xfc; 0x69; 0x50;
   0xaa; 0xd0; 0xa0; 0x7d; 0xa1; 0x89; 0x62; 0x97; 0x54; 0x5b; 0x1e; 0x95; 0xe0; 0xff; 0x64; 0xd2;
   0x10; 0xc4; 0x00; 0x48; 0xa3; 0xf7; 0x75; 0xdb; 0x8a; 0x03; 0xe6; 0xda; 0x09; 0x3f; 0xdd; 0x94;
   0x87; 0x5c; 0x83; 0x02; 0xcd; 0x4a; 0x90; 0x33; 0x73; 0x67; 0xf6; 0xf3; 0x9d; 0x7f; 0xbf; 0xe2;
   0x52; 0x9b; 0xd8; 0x26; 0xc8; 0x37; 0xc6; 0x3b; 0x81; 0x96; 0x6f; 0x4b; 0x13; 0xbe; 0x63; 0x2e;
   0xe9; 0x79; 0xa7; 0x8c; 0x9f; 0x6e; 0xbc; 0x8e; 0x29; 0xf5; 0xf9; 0xb6; 0x2f; 0xfd; 0xb4; 0x59;
   0x78; 0x98; 0x06; 0x6a; 0xe7; 0x46; 0x71; 0xba; 0xd4; 0x25; 0xab; 0x42; 0x88; 0xa2; 0x8d; 0xfa;
   0x72; 0x07; 0xb9; 0x55; 0xf8; 0xee; 0xac; 0x0a; 0x36; 0x49; 0x2a; 0x68; 0x3c; 0x38; 0xf1; 0xa4;
   0x40; 0x28; 0xd3; 0x7b; 0xbb; 0xc9; 0x43; 0xc1; 0x15; 0xe3; 0xad; 0xf4; 0x77; 0xc7; 0x80; 0x9e].

Definition RotateLeft8 (x n : Z) : Z := Z.lor (u8 (Z.shiftl x n)) (Z.shiftr x (8 - n)).
Definition RotateLeft32 (x n : Z) : Z := Z.lor (u32 (Z.shiftl x n)) (Z.shiftr x (32 - n)).

Definition sbox2 : list Z := map (λ s, RotateLeft8 s 1) sbox1.
Definition sbox3 : list Z := map (λ s, RotateLeft8 s 7) sbox1.
Definition sbox4 : list Z :=
  map (λ i, nth (Z.to_nat (RotateLeft8 (Z.of_nat i) 1)) sbox1 0) (seq 0 256).

Definition sbox (s : list Z) (x : Z) : Z := u8 (nth (Z.to_nat (u8 x)) s 0).

(** ** Round functions *)

Definition f (fin ke : Z) : Z :=
  let x := Z.lxor fin ke in
  let t1 := sbox sbox1 (Z.shiftr x 56) in
  let t2 := sbox sbox2 (Z.shiftr x 48) in
  let t3 := sbox sbox3 (Z.shiftr x 40) in
  let t4 := sbox sbox4 (Z.shiftr x 32) in
  let t5 := sbox sbox2 (Z.shiftr x 24) in
  let t6 := sbox sbox3 (Z.shiftr x 16) in
  let t7 := sbox sbox4 (Z.shiftr x 8) in
  let t8 := sbox sbox1 x in
  let xors := foldl Z.lxor 0 in
  let y1 := xors [t1; t3; t4; t6; t7; t8] in
  let y2 := xors [t1; t2; t4; t5; t7; t8] in
  let y3 := xors [t1; t2; t3; t5; t6; t8] in
  let y4 := xors [t2; t3; t4; t5; t6; t7] in
  let y5 := xors [t1; t2; t6; t7; t8] in
  let y6 := xors [t2; t3; t5; t7; t8] in
  let y7 := xors [t3; t4; t5; t6; t8] in
  let y8 := xors [t1; t4; t5; t6; t7] in
  foldl Z.lor 0
    [Z.shiftl y1 56; Z.shiftl y2 48; Z.shiftl y3 40; Z.shiftl y4 32;
     Z.shiftl y5 24; Z.shiftl y6 16; Z.shiftl y7 8; y8].

Definition fl (flin ke : Z) : Z :=
  let x1 := u32 (Z.shiftr flin 32) in
  let x2 := u32 (Z.land flin 0xffffffff) in
  let k1 := u32 (Z.shiftr ke 32) in
  let k2 := u32 (Z.land ke 0xffffffff) in
  let x2 := Z.lxor x2 (RotateLeft32 (Z.land x1 k1) 1) in
  let x1 := Z.lxor x1 (Z.lor x2 k2) in
  Z.lor (u64 (Z.shiftl x1 32)) x2.

Definition flinv (flin ke : Z) : Z :=
  let y1 := u32 (Z.shiftr flin 32) in
  let y2 := u32 (Z.land flin 0xffffffff) in
  let k1 := u32 (Z.shiftr ke 32) in
  let k2 := u32 (Z.land ke 0xffffffff) in
  let y1 := Z.lxor y1 (Z.lor y2 k2) in
  let y2 := Z.lxor y2 (RotateLeft32 (Z.land y1 k1) 1) in
  Z.lor (u64 (Z.shiftl y1 32)) y2.

(** ** Key schedule *)

Definition rotl128 (kk : Z * Z) (rot : Z) : Z * Z :=
  let '(kk, rot) := if 64 <? rot then ((kk.2, kk.1), rot - 64) else (kk, rot) in
  let t := Z.shiftr kk.1 (64 - rot) in
  let hi := Z.lor (u64 (Z.shiftl kk.1 rot)) (Z.shiftr kk.2 (64 - rot)) in
  let lo := Z.lor (u64 (Z.shiftl kk.2 rot)) t in
  (hi, lo).

Definition Uint64 (b : bytes) (off : nat) : Z := be_value (take 8 (drop off b)).

(** The intermediate keys KL, KR, KA, KB. *)
Definition key_words (key : bytes) : (Z * Z) * (Z * Z) * (Z * Z) * (Z * Z) :=
  let kl := (Uint64 key 0, Uint64 key 8) in
  let kr :=
    if zlen key =? 24 then (Uint64 key 16, Z.lxor (Uint64 key 16) (Z.ones 64))
    else if zlen key =? 32 then (Uint64 key 16, Uint64 key 24)
    else (0, 0) in
  let d1 := Z.lxor kl.1 kr.1 in
  let d2 := Z.lxor kl.2 kr.2 in
  let d2 := Z.lxor d2 (f d1 sigma1) in
  let d1 := Z.lxor d1 (f d2 sigma2) in
  let d1 := Z.lxor d1 kl.1 in
  let d2 := Z.lxor d2 kl.2 in
  let d2 := Z.lxor d2 (f d1 sigma3) in
  let d1 := Z.lxor d1 (f d2 sigma4) in
  let ka := (d1, d2) in
  let d1 := Z.lxor ka.1 kr.1 in
  let d2 := Z.lxor ka.2 kr.2 in
  let d2 := Z.lxor d2 (f d1 sigma5) in
  let d1 := Z.lxor d1 (f d2 sigma6) in
  let kb := (d1, d2) in
  (kl, kr, ka, kb).

Definition New (key : bytes) : res camelliaCipher :=
  if negb ((zlen key =? 16) || (zlen key =? 24) || (zlen key =? 32)) then
    Err "camellia: invalid key size"
  else
    let '(kl, kr, ka, kb) := key_words key in
    let pair p := [p.1; p.2] in
    if zlen key =? 16 then
      Ok (mkCamellia
        ([0] ++ pair (rotl128 kl 0) ++ pair (rotl128 ka 111))
        ([0] ++ pair (rotl128 ka 0) ++ pair (rotl128 kl 15) ++ pair (rotl128 ka 15) ++
         pair (rotl128 kl 45) ++ [(rotl128 ka 45).1; (rotl128 kl 60).2] ++ pair (rotl128 ka 60) ++
         pair (rotl128 kl 94) ++ pair (rotl128 ka 94) ++ pair (rotl128 kl 111) ++
         replicate 6 0)
        ([0] ++ pair (rotl128 ka 30) ++ pair (rotl128 kl 77) ++ [0; 0])
        (zlen key))
    else
      Ok (mkCamellia
        ([0] ++ pair (rotl128 kl 0) ++ pair (rotl128 kb 111))
        ([0] ++ pair (rotl128 kb 0) ++ pair (rotl128 kr 15) ++ pair (rotl128 ka 15) ++
         pair (rotl128 kb 30) ++ pair (rotl128 kl 45) ++ pair (rotl128 ka 45) ++
         pair (rotl128 kr 60) ++ pair (rotl128 kb 60) ++ pair (rotl128 kl 77) ++
         pair (rotl128 kr 94) ++ pair (rotl128 ka 94) ++ pair (rotl128 kl 111))
        ([0] ++ pair (rotl128 kr 30) ++ pair (rotl128 kl 60) ++ pair (rotl128 ka 77))
        (zlen key)).

(** ** Encryption and decryption *)

(** The six rounds with the keys [k[i]] to [k[i+5]], and the same backwards. *)
Definition rounds (c : camelliaCipher) (i : nat) (d : Z * Z) : Z * Z :=
  let '(d1, d2) := d in
  let d2 := Z.lxor d2 (f d1 (word (k c) i)) in
  let d1 := Z.lxor d1 (f d2 (word (k c) (i + 1))) in
  let d2 := Z.lxor d2 (f d1 (word (k c) (i + 2))) in
  let d1 := Z.lxor d1 (f d2 (word (k c) (i + 3))) in
  let d2 := Z.lxor d2 (f d1 (word (k c) (i + 4))) in
  let d1 := Z.lxor d1 (f d2 (word (k c) (i + 5))) in
  (d1, d2).

Definition unrounds (c : camelliaCipher) (i : nat) (d : Z * Z) : Z * Z :=
  let '(d1, d2) := d in
  let d1 := Z.lxor d1 (f d2 (word (k c) (i + 5))) in
  let d2 := Z.lxor d2 (f d1 (word (k c) (i + 4))) in
  let d1 := Z.lxor d1 (f d2 (word (k c) (i + 3))) in
  let d2 := Z.lxor d2 (f d1 (word (k c) (i + 2))) in
  let d1 := Z.lxor d1 (f d2 (word (k c) (i + 1))) in
  let d2 := Z.lxor d2 (f d1 (word (k c) i)) in
  (d1, d2).

Definition fl_layer (c : camelliaCipher) (i : nat) (d : Z * Z) : Z * Z :=
  (fl d.1 (word (ke c) i), flinv d.2 (word (ke c) (i + 1))).
Definition unfl_layer (c : camelliaCipher) (i : nat) (d : Z * Z) : Z * Z :=
  (flinv d.1 (word (ke c) i), fl d.2 (word (ke c) (i + 1))).

Definition camellia_Encrypt (c : camelliaCipher) (src : bytes) : bytes :=
  let d := (Z.lxor (Uint64 src 0) (word (kw c) 1), Z.lxor (Uint64 src 8) (word (kw c) 2)) in
  let d := rounds c 1 d in
  let d := fl_layer c 1 d in
  let d := rounds c 7 d in
  let d := fl_layer c 3 d in
  let d := rounds c 13 d in
  let d := if 16 <? klen c then rounds c 19 (fl_layer c 5 d) else d in
  be_bytes 8 (Z.lxor d.2 (word (kw c) 3)) ++ be_bytes 8 (Z.lxor d.1 (word (kw c) 4)).

Definition camellia_Decrypt (c : camelliaCipher) (src : bytes) : bytes :=
  let d := (Z.lxor (Uint64 src 8) (word (kw c) 4), Z.lxor (Uint64 src 0) (word (kw c) 3)) in
  let d := if 16 <? klen c then unfl_layer c 5 (unrounds c 19 d) else d in
  let d := unrounds c 13 d in
  let d := unfl_layer c 3 d in
  let d := unrounds c 7 d in
  let d := unfl_layer c 1 d in
  let d := unrounds c 1 d in
  be_bytes 8 (Z.lxor d.1 (word (kw c) 1)) ++ be_bytes 8 (Z.lxor d.2 (word (kw c) 2)).

#[export] Instance camellia_block : BlockCipher camelliaCipher := {|
  BlockSize := 16;
  block_Encrypt := camellia_Encrypt;
  block_Decrypt := camellia_Decrypt;
|}.

(** ** The vectors of RFC 3713 *)

Definition rfc_plain : bytes := be_bytes 16 0x0123456789abcdeffedcba9876543210.
Definition encrypt_with (key pt : bytes) : res Z :=
  res_bind (New key) (λ c, Ok (be_value (camellia_Encrypt c pt))).

Example rfc3713_128 :
  encrypt_with (be_bytes 16 0x0123456789abcdeffedcba9876543210) rfc_plain =
  Ok 0x67673138549669730857065648eabe43.
Proof. vm_compute. reflexivity. Qed.
Example rfc3713_192 :
  encrypt_with (be_bytes 24 0x0123456789abcdeffedcba98765432100011223344556677) rfc_plain =
  Ok 0xb4993401b3e996f84ee5cee7d79b09b9.
Proof. vm_compute. reflexivity. Qed.
Example rfc3713_256 :
  encrypt_with (be_bytes 32 0x0123456789abcdeffedcba987654321000112233445566778899aabbccddeeff) rfc_plain =
  Ok 0x9acc237dff16d76c20ef7c919e3a7509.
Proof. vm_compute. reflexivity. Qed.

(** ** Lemmas *)

Notation u64_range x := (0 <= x < 2 ^ 64).

Lemma word_range a i : u64_range (word a i).
Proof. apply Z.mod_pos_bound. lia. Qed.

Lemma sbox_range s x : 0 <= sbox s x < 2 ^ 8.
Proof. apply Z.mod_pos_bound. lia. Qed.

Lemma foldl_lxor_range n l a :
  0 <= n → 0 <= a < 2 ^ n → Forall (λ x, 0 <= x < 2 ^ n) l → 0 <= foldl Z.lxor a l < 2 ^ n.
Proof.
  intros Hn Ha Hl. revert a Ha. induction Hl as [|x l Hx Hl IH]; intros a Ha; [done|].
  cbn. apply IH. by apply lxor_range.
Qed.

Lemma foldl_lor_range n l a :
  0 <= n → 0 <= a < 2 ^ n → Forall (λ x, 0 <= x < 2 ^ n) l → 0 <= foldl Z.lor a l < 2 ^ n.
Proof.
  intros Hn Ha Hl. revert a Ha. induction Hl as [|x l Hx Hl IH]; intros a Ha; [done|].
  cbn. apply IH. by apply lor_range.
Qed.

Lemma shiftl_range x m n k : 0 <= m → 0 <= n → n + m = k → 0 <= x < 2 ^ n → 0 <= Z.shiftl x m < 2 ^ k.
Proof.
  intros Hm Hn <- Hx. rewrite Z.shiftl_mul_pow2, Z.pow_add_r by done.
  assert (0 < 2 ^ m) by (by apply Z.pow_pos_nonneg). nia.
Qed.

Lemma range_le x m n : m <= n → 0 <= x < 2 ^ m → 0 <= x < 2 ^ n.
Proof.
  intros Hmn Hx. assert (2 ^ m <= 2 ^ n) by (by apply Z.pow_le_mono_r). lia.
Qed.

Lemma f_range x y : u64_range (f x y).
Proof.
  unfold f. apply foldl_lor_range; [done|done|].
  repeat apply Forall_cons_2; try apply Forall_nil_2.
  all: try (eapply (range_le _ (8 + _)); [|eapply shiftl_range; [| |reflexivity|]]; [done..|]).
  all: try (eapply (range_le _ 8); [done|]).
  all: apply foldl_lxor_range; [done|done|]; repeat apply Forall_cons_2; try apply Forall_nil_2; apply sbox_range.
Qed.

(** A 64-bit word from its halves. *)
Definition join (h l : Z) : Z := Z.lor (u64 (Z.shiftl h 32)) l.
Notation u32_range x := (0 <= x < 2 ^ 32).

Lemma join_value h l : u32_range h → u32_range l → join h l = h * 2 ^ 32 + l.
Proof.
  intros Hh Hl. unfold join, u64.
  rewrite Z.mod_small by (apply (shiftl_range h 32 32); done).
  by apply lor_shiftl.
Qed.

Lemma hi_join h l : u32_range h → u32_range l → u32 (Z.shiftr (join h l) 32) = h.
Proof.
  intros Hh Hl. rewrite join_value by done. rewrite Z.shiftr_div_pow2 by done.
  rewrite Z.div_add_l, (Z.div_small l), Z.add_0_r by lia. by apply Z.mod_small.
Qed.
Lemma lo_join h l : u32_range h → u32_range l → u32 (Z.land (join h l) 0xffffffff) = l.
Proof.
  intros Hh Hl. rewrite join_value by done. change 0xffffffff with (Z.ones 32).
  rewrite Z.land_ones by done. unfold u32. rewrite Z.mod_mod, Z.add_comm, Z.mod_add by lia.
  by apply Z.mod_small.
Qed.
Lemma join_halves x :
  u64_range x → join (u32 (Z.shiftr x 32)) (u32 (Z.land x 0xffffffff)) = x.
Proof.
  intros Hx. change 0xffffffff with (Z.ones 32). rewrite Z.land_ones, Z.shiftr_div_pow2 by done.
  rewrite join_value; [|apply Z.mod_pos_bound; lia..]. unfold u32. rewrite Z.mod_mod by lia.
  rewrite (Z.mod_small (x / 2 ^ 32)).
  - rewrite (Z.div_mod x (2 ^ 32)) at 3 by lia. lia.
  - split; [apply Z.div_pos; lia|apply Z.div_lt_upper_bound; lia].
Qed.
Lemma join_range h l : u32_range h → u32_range l → u64_range (join h l).
Proof. intros. rewrite join_value by done. lia. Qed.

Lemma u32_is x : u32_range (u32 x).
Proof. apply Z.mod_pos_bound. lia. Qed.

Lemma rotl32_range x : u32_range x → u32_range (RotateLeft32 x 1).
Proof.
  intros Hx. apply (lor_range 32); [done|apply u32_is|]. rewrite Z.shiftr_div_pow2 by done.
  split; [apply Z.div_pos; lia|]. apply Z.div_lt_upper_bound; lia.
Qed.

Section fl.
Context (kw : Z).
Let k1 := u32 (Z.shiftr kw 32).
Let k2 := u32 (Z.land kw 0xffffffff).

Definition fl_lo (x1 x2 : Z) : Z := Z.lxor x2 (RotateLeft32 (Z.land x1 k1) 1).
Definition fl_hi (x1 x2 : Z) : Z := Z.lxor x1 (Z.lor x2 k2).

Lemma fl_lo_range x1 x2 : u32_range x1 → u32_range x2 → u32_range (fl_lo x1 x2).
Proof.
  intros H1 H2. apply (lxor_range 32); [done|done|]. apply rotl32_range, (land_range 32);
    [done|lia|apply u32_is].
Qed.
Lemma fl_hi_range x1 x2 : u32_range x1 → u32_range x2 → u32_range (fl_hi x1 x2).
Proof. intros H1 H2. apply (lxor_range 32); [done|done|]. apply (lor_range 32); [done|done|apply u32_is]. Qed.

Lemma fl_join x1 x2 : u32_range x1 → u32_range x2 →
  fl (join x1 x2) kw = join (fl_hi x1 (fl_lo x1 x2)) (fl_lo x1 x2).
Proof. intros H1 H2. unfold fl. by rewrite hi_join, lo_join by done. Qed.
Lemma flinv_join y1 y2 : u32_range y1 → u32_range y2 →
  flinv (join y1 y2) kw = join (fl_hi y1 y2) (fl_lo (fl_hi y1 y2) y2).
Proof. intros H1 H2. unfold flinv. by rewrite hi_join, lo_join by done. Qed.

Lemma fl_hi_hi x1 x2 : fl_hi (fl_hi x1 x2) x2 = x1.
Proof. apply lxor_cancel. Qed.
Lemma fl_lo_lo x1 x2 : fl_lo x1 (fl_lo x1 x2) = x2.
Proof. apply lxor_cancel. Qed.

Lemma flinv_fl x : u64_range x → flinv (fl x kw) kw = x.
Proof.
  intros Hx. rewrite <- (join_halves x Hx) at 1.
  pose proof (u32_is (Z.shiftr x 32)). pose proof (u32_is (Z.land x 0xffffffff)).
  rewrite fl_join, flinv_join by auto using fl_lo_range, fl_hi_range.
  rewrite fl_hi_hi, fl_lo_lo. by apply join_halves.
Qed.
Lemma fl_flinv x : u64_range x → fl (flinv x kw) kw = x.
Proof.
  intros Hx. rewrite <- (join_halves x Hx) at 1.
  pose proof (u32_is (Z.shiftr x 32)). pose proof (u32_is (Z.land x 0xffffffff)).
  rewrite flinv_join, fl_join by auto using fl_lo_range, fl_hi_range.
  rewrite fl_lo_lo, fl_hi_hi. by apply join_halves.
Qed.

Lemma fl_range x : u64_range x → u64_range (fl x kw) ∧ u64_range (flinv x kw).
Proof.
  intros Hx. rewrite <- (join_halves x Hx) at 1 2 3 4.
  pose proof (u32_is (Z.shiftr x 32)). pose proof (u32_is (Z.land x 0xffffffff)).
  rewrite flinv_join, fl_join by done. split; apply join_range; auto using fl_lo_range, fl_hi_range.
Qed.
End fl.

#[local] Opaque f fl flinv word be_bytes.

Definition in64 (d : Z * Z) : Prop := u64_range d.1 ∧ u64_range d.2.

Lemma lxor_f_range x y z : u64_range x → u64_range (Z.lxor x (f y z)).
Proof. intros Hx. apply (lxor_range 64); [done|done|apply f_range]. Qed.

Section cipher.
Context (c : camelliaCipher).

Lemma rounds_range i d : in64 d → in64 (rounds c i d).
Proof. destruct d as [d1 d2]. intros [H1 H2]. unfold rounds. split; cbn; by repeat apply lxor_f_range. Qed.
Lemma unrounds_range i d : in64 d → in64 (unrounds c i d).
Proof. destruct d as [d1 d2]. intros [H1 H2]. unfold unrounds. split; cbn; by repeat apply lxor_f_range. Qed.

Lemma unrounds_rounds i d : unrounds c i (rounds c i d) = d.
Proof. destruct d as [d1 d2]. unfold unrounds, rounds. by rewrite !lxor_cancel. Qed.
Lemma rounds_unrounds i d : rounds c i (unrounds c i d) = d.
Proof. destruct d as [d1 d2]. unfold unrounds, rounds. by rewrite !lxor_cancel. Qed.

Lemma fl_layer_range i d : in64 d → in64 (fl_layer c i d) ∧ in64 (unfl_layer c i d).
Proof. intros [H1 H2]. split; split; cbn [fst snd fl_layer unfl_layer]; by apply fl_range. Qed.
Lemma unfl_fl_layer i d : in64 d → unfl_layer c i (fl_layer c i d) = d.
Proof. destruct d as [d1 d2]. intros [H1 H2]. unfold unfl_layer, fl_layer. cbn [fst snd] in *. by rewrite flinv_fl, fl_flinv. Qed.
Lemma fl_unfl_layer i d : in64 d → fl_layer c i (unfl_layer c i d) = d.
Proof. destruct d as [d1 d2]. intros [H1 H2]. unfold unfl_layer, fl_layer. cbn [fst snd] in *. by rewrite flinv_fl, fl_flinv. Qed.

(** The cipher between the whitening steps, and its inverse. *)
Definition forward (d : Z * Z) : Z * Z :=
  let d := rounds c 13 (fl_layer c 3 (rounds c 7 (fl_layer c 1 (rounds c 1 d)))) in
  if 16 <? klen c then rounds c 19 (fl_layer c 5 d) else d.
Definition backward (d : Z * Z) : Z * Z :=
  let d := if 16 <? klen c then unfl_layer c 5 (unrounds c 19 d) else d in
  unrounds c 1 (unfl_layer c 1 (unrounds c 7 (unfl_layer c 3 (unrounds c 13 d)))).

Local Hint Resolve rounds_range unrounds_range : core.
Local Hint Extern 1 (in64 (fl_layer _ _ _)) => apply fl_layer_range : core.
Local Hint Extern 1 (in64 (unfl_layer _ _ _)) => apply fl_layer_range : core.

Lemma forward_range d : in64 d → in64 (forward d).
Proof. intros Hd. unfold forward. destruct (16 <? klen c); eauto 10. Qed.
Lemma backward_range d : in64 d → in64 (backward d).
Proof. intros Hd. unfold backward. destruct (16 <? klen c); eauto 12. Qed.

Lemma backward_forward d : in64 d → backward (forward d) = d.
Proof.
  intros Hd. unfold backward, forward. destruct (16 <? klen c);
    rewrite ?unrounds_rounds, ?unfl_fl_layer; rewrite ?unrounds_rounds, ?unfl_fl_layer;
    rewrite ?unrounds_rounds, ?unfl_fl_layer; rewrite ?unrounds_rounds; eauto 10.
Qed.
Lemma forward_backward d : in64 d → forward (backward d) = d.
Proof.
  intros Hd. unfold backward, forward. destruct (16 <? klen c);
    repeat (rewrite rounds_unrounds || (rewrite fl_unfl_layer by eauto 10)); done.
Qed.

Lemma Uint64_range b off : length (take 8 (drop off b)) = 8%nat → u64_range (Uint64 b off).
Proof.
  intros Hl. pose proof (be_value_range (take 8 (drop off b))) as Hr. unfold zlen in Hr.
  rewrite Hl in Hr. exact Hr.
Qed.

Lemma Uint64_hi x y : u64_range x → Uint64 (be_bytes 8 x ++ y) 0 = x.
Proof.
  intros Hx. unfold Uint64. rewrite drop_0, take_app_length' by (by rewrite length_be_bytes).
  rewrite be_value_bytes. by apply Z.mod_small.
Qed.
Lemma Uint64_lo x y : u64_range y → Uint64 (be_bytes 8 x ++ be_bytes 8 y) 8 = y.
Proof.
  intros Hy. unfold Uint64. rewrite drop_app_length' by (by rewrite length_be_bytes).
  rewrite take_ge by (by rewrite length_be_bytes). rewrite be_value_bytes. by apply Z.mod_small.
Qed.
Lemma be_bytes_of l n : length l = n → be_bytes n (be_value l) = l.
Proof. intros <-. apply be_bytes_value. Qed.
Lemma bytes_of_words b : length b = 16%nat → be_bytes 8 (Uint64 b 0) ++ be_bytes 8 (Uint64 b 8) = b.
Proof.
  intros Hb. unfold Uint64. rewrite drop_0.
  assert (H1 : length (take 8 b) = 8%nat) by (rewrite length_take; lia).
  assert (H2 : length (drop 8 b) = 8%nat) by (rewrite length_drop; lia).
  rewrite (take_ge (drop 8 b)) by lia.
  rewrite (be_bytes_of (take 8 b)), (be_bytes_of (drop 8 b)) by done. apply take_drop.
Qed.

Lemma block_words_range b : length b = 16%nat → u64_range (Uint64 b 0) ∧ u64_range (Uint64 b 8).
Proof. intros Hb. split; apply Uint64_range; rewrite length_take, length_drop; lia. Qed.

Lemma lxor_word_range x a i : u64_range x → u64_range (Z.lxor x (word a i)).
Proof. intros Hx. apply (lxor_range 64); [done|done|apply word_range]. Qed.

Lemma Encrypt_forward b :
  camellia_Encrypt c b =
  let d := forward (Z.lxor (Uint64 b 0) (word (kw c) 1), Z.lxor (Uint64 b 8) (word (kw c) 2)) in
  be_bytes 8 (Z.lxor d.2 (word (kw c) 3)) ++ be_bytes 8 (Z.lxor d.1 (word (kw c) 4)).
Proof. done. Qed.
Lemma Decrypt_backward b :
  camellia_Decrypt c b =
  let d := backward (Z.lxor (Uint64 b 8) (word (kw c) 4), Z.lxor (Uint64 b 0) (word (kw c) 3)) in
  be_bytes 8 (Z.lxor d.1 (word (kw c) 1)) ++ be_bytes 8 (Z.lxor d.2 (word (kw c) 2)).
Proof. done. Qed.

Lemma camellia_Decrypt_Encrypt b : length b = 16%nat → camellia_Decrypt c (camellia_Encrypt c b) = b.
Proof.
  intros Hb. destruct (block_words_range b Hb) as [H0 H8]. rewrite Encrypt_forward. cbv zeta.
  set (d0 := (Z.lxor (Uint64 b 0) (word (kw c) 1), Z.lxor (Uint64 b 8) (word (kw c) 2))).
  assert (Hd0 : in64 d0) by (by split; apply lxor_word_range).
  destruct (forward_range d0 Hd0) as [Hf1 Hf2]. rewrite Decrypt_backward. cbv zeta.
  rewrite Uint64_hi, Uint64_lo, !lxor_cancel by (by apply lxor_word_range).
  rewrite <- surjective_pairing, backward_forward by done. cbn [fst snd d0].
  rewrite !lxor_cancel. by apply bytes_of_words.
Qed.
Lemma camellia_Encrypt_Decrypt b : length b = 16%nat → camellia_Encrypt c (camellia_Decrypt c b) = b.
Proof.
  intros Hb. destruct (block_words_range b Hb) as [H0 H8]. rewrite Decrypt_backward. cbv zeta.
  set (d0 := (Z.lxor (Uint64 b 8) (word (kw c) 4), Z.lxor (Uint64 b 0) (word (kw c) 3))).
  assert (Hd0 : in64 d0) by (by split; apply lxor_word_range).
  destruct (backward_range d0 Hd0) as [Hf1 Hf2]. rewrite Encrypt_forward. cbv zeta.
  rewrite Uint64_hi, Uint64_lo, !lxor_cancel by (by apply lxor_word_range).
  rewrite <- surjective_pairing, forward_backward by done. cbn [fst snd d0].
  rewrite !lxor_cancel. by apply bytes_of_words.
Qed.
End cipher.

#[export] Instance camellia_laws : BlockCipherLaws camelliaCipher.
Proof.
  split; cbn [BlockSize block_Encrypt block_Decrypt camellia_block].
  - lia.
  - intros c b _. rewrite Encrypt_forward. cbv zeta. by rewrite length_app, !length_be_bytes.
  - intros c b _. rewrite Decrypt_backward. cbv zeta. by rewrite length_app, !length_be_bytes.
  - apply camellia_Decrypt_Encrypt.
  - apply camellia_Encrypt_Decrypt.
Qed.

Lemma New_cases key :
  if (zlen key =? 16) || (zlen key =? 24) || (zlen key =? 32)
  then ∃ c, New key = Ok c ∧ klen c = zlen key
  else ∃ e, New key = Err e.
Proof.
  unfold New. destruct ((zlen key =? 16) || (zlen key =? 24) || (zlen key =? 32)); cbn [negb]; [|eauto].
  destruct (key_words key) as [[[kl kr] ka] kb]. destruct (zlen key =? 16); eauto.
Qed.

(** C18: Camellia is a permutation of blocks under every key: a key of 16, 24
    or 32 bytes gives a cipher, every other length an error; decryption undoes
    encryption and encryption undoes decryption on every 16-byte block. *)
Theorem camellia_permutation key :
  if (zlen key =? 16) || (zlen key =? 24) || (zlen key =? 32)
  then ∃ c, New key = Ok c ∧ ∀ b, length b = 16%nat →
    camellia_Decrypt c (camellia_Encrypt c b) = b ∧ camellia_Encrypt c (camellia_Decrypt c b) = b
  else ∃ e, New key = Err e.
Proof.
  pose proof (New_cases key) as Hn.
  destruct ((zlen key =? 16) || (zlen key =? 24) || (zlen key =? 32)); [|done].
  destruct Hn as (c & Hc & _). exists c. split; [done|]. intros b Hb.
  split; [by apply camellia_Decrypt_Encrypt | by apply camellia_Encrypt_Decrypt].
Qed.

(** *** The rotation of 128-bit keys *)

Lemma shift_split a s :
  u64_range a → 0 <= s <= 64 →
  a * 2 ^ s = Z.shiftr a (64 - s) * 2 ^ 64 + u64 (Z.shiftl a s) ∧
  0 <= Z.shiftr a (64 - s) < 2 ^ s ∧ u64_range (u64 (Z.shiftl a s)) ∧
  ∃ q, u64 (Z.shiftl a s) = Z.shiftl q s.
Proof.
  intros Ha Hs. rewrite Z.shiftr_div_pow2, Z.shiftl_mul_pow2 by lia. unfold u64.
  assert (Hp : 2 ^ 64 = 2 ^ (64 - s) * 2 ^ s) by (rewrite <- Z.pow_add_r by lia; f_equal; lia).
  assert (H1 : 0 < 2 ^ s) by (apply Z.pow_pos_nonneg; lia).
  assert (H2 : 0 < 2 ^ (64 - s)) by (apply Z.pow_pos_nonneg; lia).
  assert (Hmod : (a * 2 ^ s) mod 2 ^ 64 = (a mod 2 ^ (64 - s)) * 2 ^ s).
  { rewrite Hp. by rewrite Z.mul_mod_distr_r by lia. }
  split_and!.
  - rewrite Hmod. rewrite (Z.div_mod a (2 ^ (64 - s))) at 1 by lia. rewrite Hp. lia.
  - apply Z.div_pos; lia.
  - apply Z.div_lt_upper_bound; lia.
  - apply Z.mod_pos_bound. lia.
  - apply Z.mod_pos_bound. lia.
  - exists (a mod 2 ^ (64 - s)). by rewrite Hmod, Z.shiftl_mul_pow2 by lia.
Qed.

(** Left rotation by at most 64 of the two halves, digit by digit. *)
Lemma rotl_digits a b s :
  u64_range a → u64_range b → 0 <= s <= 64 →
  Z.lor (u64 (Z.shiftl a s)) (Z.shiftr b (64 - s)) =
  u64 (Z.shiftl a s) + Z.shiftr b (64 - s) ∧
  u64_range (u64 (Z.shiftl a s) + Z.shiftr b (64 - s)).
Proof.
  intros Ha Hb Hs. destruct (shift_split a s Ha Hs) as (_ & _ & Hr & q & Hq).
  destruct (shift_split b s Hb Hs) as (_ & Hb' & _).
  assert (Heq : Z.lor (u64 (Z.shiftl a s)) (Z.shiftr b (64 - s)) =
                u64 (Z.shiftl a s) + Z.shiftr b (64 - s)).
  { rewrite Hq, lor_shiftl, Z.shiftl_mul_pow2 by lia. done. }
  split; [done|]. rewrite <- Heq. apply (lor_range 64); [done|done|].
  apply (range_le _ s); [lia|done].
Qed.

(** The key rotation: for 64-bit words and a rotation of at most 128 bits,
    [rotl128] is the left rotation of the 128-bit number, also across the
    exchange of the halves. *)
Theorem rotl128_spec a b rot :
  u64_range a → u64_range b → 0 <= rot <= 128 →
  let v := a * 2 ^ 64 + b in
  let '(hi, lo) := rotl128 (a, b) rot in
  u64_range hi ∧ u64_range lo ∧
  hi * 2 ^ 64 + lo = (v * 2 ^ rot) mod 2 ^ 128 + v / 2 ^ (128 - rot).
Proof.
  intros Ha Hb Hrot v. unfold rotl128.
  assert (Hdiv : ∀ q r, 0 <= r < 2 ^ 128 → (q * 2 ^ 128 + r) mod 2 ^ 128 = r ∧ (q * 2 ^ 128 + r) / 2 ^ 128 = q).
  { intros q r Hr. rewrite Z.add_comm, Z.mod_add, Z.div_add, Z.mod_small, Z.div_small by lia. lia. }
  assert (Hback : v / 2 ^ (128 - rot) = (v * 2 ^ rot) / 2 ^ 128).
  { replace (2 ^ 128) with (2 ^ (128 - rot) * 2 ^ rot) by (rewrite <- Z.pow_add_r by lia; f_equal; lia).
    rewrite Z.div_mul_cancel_r; [done| |]; assert (0 < 2 ^ rot) by (apply Z.pow_pos_nonneg; lia);
      assert (0 < 2 ^ (128 - rot)) by (apply Z.pow_pos_nonneg; lia); lia. }
  rewrite Hback. destruct (Z.ltb_spec 64 rot) as [H64|H64]; cbn [fst snd].
  - set (s := rot - 64). assert (Hs : 0 <= s <= 64) by (unfold s; lia).
    destruct (shift_split a s Ha Hs) as (Ea & Ra & _). destruct (shift_split b s Hb Hs) as (Eb & Rb & Rb' & _).
    destruct (rotl_digits b a s Hb Ha Hs) as [-> Hhi]. destruct (rotl_digits a b s Ha Hb Hs) as [-> Hlo].
    split_and!; try lia.
    assert (Hv : v * 2 ^ rot = (a * 2 ^ s + Z.shiftr b (64 - s)) * 2 ^ 128 + u64 (Z.shiftl b s) * 2 ^ 64).
    { replace rot with (s + 64) by (unfold s; lia). rewrite Z.pow_add_r by lia. unfold v. lia. }
    rewrite Hv. destruct (Hdiv (a * 2 ^ s + Z.shiftr b (64 - s)) (u64 (Z.shiftl b s) * 2 ^ 64)) as [-> ->]; lia.
  - assert (Hs : 0 <= rot <= 64) by lia.
    destruct (shift_split a rot Ha Hs) as (Ea & Ra & _). destruct (shift_split b rot Hb Hs) as (Eb & Rb & Rb' & _).
    destruct (rotl_digits a b rot Ha Hb Hs) as [-> Hhi]. destruct (rotl_digits b a rot Hb Ha Hs) as [-> Hlo].
    split_and!; try lia.
    assert (Hv : v * 2 ^ rot = Z.shiftr a (64 - rot) * 2 ^ 128 +
      ((u64 (Z.shiftl a rot) + Z.shiftr b (64 - rot)) * 2 ^ 64 + u64 (Z.shiftl b rot))) by (unfold v; lia).
    rewrite Hv. destruct (Hdiv (Z.shiftr a (64 - rot))
      ((u64 (Z.shiftl a rot) + Z.shiftr b (64 - rot)) * 2 ^ 64 + u64 (Z.shiftl b rot))) as [-> ->]; lia.
Qed.
