(* ===== verification/NFold.v ===== *)
(** * n-fold (src/krb5/crypto/crypto.go: nFold, addOneComplement, gcd, lcm)

    The model follows the loops over bits and bytes; the theorem compares them
    with the arithmetic meaning of RFC 3961: the repetitions of the input, each
    rotated 13 bits further, form one long number, and its residue modulo
    2^n - 1 is the result. *)

From S2P Require Import Prelude.
Local Open Scope nat_scope.

(** ** Greatest common divisor *)

Fixpoint gcd_loop (fuel a b : nat) : option nat :=
  if b =? 0 then Some a
  else match fuel with O => None | S fuel => gcd_loop fuel b (a mod b) end.
(** [b] decreases at every round. *)
Definition gcd (a b : nat) : option nat := gcd_loop b a b.
Definition lcm (a b : nat) : option nat := g ← gcd a b; Some (a / g * b).

(** ** Addition with end-around carry *)

(** The first loop: from the last byte to the first. *)
Fixpoint add_bytes (dst src : bytes) : bytes * Z :=
  match dst, src with
  | d :: dst, s :: src =>
      let '(out, carry) := add_bytes dst src in
      let sum := u16 (b2z d + b2z s + carry) in
      (z2b sum :: out, u8 (Z.shiftr sum 8))
  | _, _ => (dst, 0%Z)
  end.

(** The inner loop of the second one: the carry goes through all bytes. *)
Fixpoint add_carry (dst : bytes) (carry : Z) : bytes * Z :=
  match dst with
  | [] => ([], carry)
  | d :: dst =>
      let '(out, carry) := add_carry dst carry in
      let sum := u16 (b2z d + carry) in
      (z2b sum :: out, u8 (Z.shiftr sum 8))
  end.

Fixpoint carry_loop (fuel : nat) (dst : bytes) (carry : Z) : option bytes :=
  if (carry =? 0)%Z then Some dst
  else match fuel with
       | O => None
       | S fuel => let '(dst, carry) := add_carry dst carry in carry_loop fuel dst carry
       end.

Definition addOneComplement (dst src : bytes) : option bytes :=
  let '(dst, carry) := add_bytes dst src in carry_loop 1 dst carry.

(** ** n-fold *)

(** The bit of the input that stands at a position of the repeated, rotated
    input. *)
Definition source_bit (input : bytes) (position : nat) : bool :=
  let inputBits := Z.of_nat (length input * 8) in
  let repetition := (Z.of_nat position / inputBits)%Z in
  let offset := (Z.of_nat position mod inputBits)%Z in
  let source := Z.rem (offset - 13 * repetition) inputBits in
  let source := if (source <? 0)%Z then (source + inputBits)%Z else source in
  let s := Z.to_nat source in
  negb (Z.land (b2z (nth (s / 8) input Byte.x00)) (Z.shiftl 1 (Z.of_nat (7 - s mod 8))) =? 0)%Z.

Definition set_bit (term : bytes) (bit : nat) : bytes :=
  alter (λ b, z2b (Z.lor (b2z b) (Z.shiftl 1 (Z.of_nat (7 - bit mod 8))))) (bit / 8) term.

Definition nfold_term (input : bytes) (outputBits len chunk : nat) : bytes :=
  foldl (λ term bit,
           if source_bit input (chunk * outputBits + bit) then set_bit term bit else term)
        (replicate len Byte.x00) (seq 0 outputBits).

Fixpoint nfold_loop (input : bytes) (outputBits : nat) (chunks : list nat) (result : bytes)
    : option bytes :=
  match chunks with
  | [] => Some result
  | chunk :: chunks =>
      result ← addOneComplement result (nfold_term input outputBits (length result) chunk);
      nfold_loop input outputBits chunks result
  end.

Definition nFold (input : bytes) (outputBits : nat) : option bytes :=
  if (length input =? 0) || (outputBits =? 0) then Some []
  else
    lcmBits ← lcm (length input * 8) outputBits;
    nfold_loop input outputBits (seq 0 (lcmBits / outputBits))
      (replicate ((outputBits + 7) / 8) Byte.x00).

(** The vectors of RFC 3961, appendix A.1. *)
Example nfold_vectors :
  be_value <$> nFold (str "012345") 64 = Some 0xbe072631276b1955%Z ∧
  be_value <$> nFold (str "password") 56 = Some 0x78a07b6caf85fa%Z ∧
  be_value <$> nFold (str "Rough Consensus, and Running Code") 64 = Some 0xbb6ed30870b7f0e0%Z ∧
  be_value <$> nFold (str "password") 168 = Some 0x59e4a8ca7c0385c3c37b3f6d2000247cb6e6bd5b3e%Z ∧
  be_value <$> nFold (str "kerberos") 128 = Some 0x6b65726265726f737b9b5b2b93132b93%Z.
Proof. vm_compute. repeat split. Qed.

(** ** Bits of byte strings *)

Definition byte_bits (b : byte) : list bool :=
  map (λ j, Z.testbit (b2z b) (Z.of_nat (7 - j))) (seq 0 8).
Definition bits_of (l : bytes) : list bool := concat (byte_bits <$> l).

(** The number a list of bits denotes, the first one most significant. *)
Definition bits_value (l : list bool) : Z := foldl (λ v (b : bool), 2 * v + (if b then 1 else 0))%Z 0%Z l.

Lemma gcd_loop_ok fuel a b : b ≤ fuel → gcd_loop fuel a b = Some (Nat.gcd a b).
Proof.
  revert a b. induction fuel as [|fuel IH]; intros a b Hb; cbn [gcd_loop].
  - assert (b = 0) as -> by lia. cbn. by rewrite Nat.gcd_0_r.
  - destruct (Nat.eqb_spec b 0) as [->|Hne]; [by rewrite Nat.gcd_0_r|].
    pose proof (Nat.mod_upper_bound a b Hne). rewrite IH by lia.
    by rewrite (Nat.gcd_comm b), Nat.Lcm0.gcd_mod, Nat.gcd_comm.
Qed.

Lemma lcm_ok a b : lcm a b = Some (Nat.lcm a b).
Proof.
  unfold lcm, gcd. rewrite gcd_loop_ok by lia. cbn. f_equal. unfold Nat.lcm.
  destruct (Nat.eq_dec (Nat.gcd a b) 0) as [E|E].
  - apply Nat.gcd_eq_0 in E as [-> ->]. done.
  - destruct (Nat.gcd_divide_l a b) as [a' Ha]. destruct (Nat.gcd_divide_r a b) as [b' Hb].
    set (g := Nat.gcd a b) in *. rewrite Ha, Hb, !Nat.div_mul by done. lia.
Qed.

Local Open Scope Z_scope.

Lemma bits_value_acc v l :
  foldl (λ v (b : bool), 2 * v + (if b then 1 else 0)) v l = v * 2 ^ zlen l + bits_value l.
Proof.
  unfold bits_value. revert v. induction l as [|b l IH]; intros v; cbn [foldl].
  - rewrite zlen_nil. lia.
  - rewrite (IH (2 * v + _)), (IH (2 * 0 + _)), zlen_cons, Z.pow_add_r by (pose proof (zlen_nonneg l); lia). lia.
Qed.

Lemma bits_value_app l1 l2 : bits_value (l1 ++ l2) = bits_value l1 * 2 ^ zlen l2 + bits_value l2.
Proof. unfold bits_value at 1. rewrite foldl_app. apply bits_value_acc. Qed.

Lemma bits_value_range l : 0 <= bits_value l < 2 ^ zlen l.
Proof.
  induction l as [|b l IH]; [done|]. change (b :: l) with ([b] ++ l).
  rewrite bits_value_app, zlen_app. change (zlen [b]) with 1.
  pose proof (zlen_nonneg l). rewrite Z.pow_add_r by lia. destruct b; cbn [bits_value foldl]; lia.
Qed.

Lemma byte_bits_value b : bits_value (byte_bits b) = b2z b.
Proof. by destruct b. Qed.

Lemma be_value_bits l : be_value l = bits_value (bits_of l).
Proof.
  induction l as [|b l IH]; [done|]. unfold bits_of. rewrite fmap_cons. cbn [concat].
  rewrite bits_value_app, byte_bits_value. fold (bits_of l). rewrite <- IH. cbn [be_value]. do 2 f_equal.
  assert (Hl : zlen (bits_of l) = 8 * Z.of_nat (length l)).
  { clear. induction l as [|b l IH]; [done|]. unfold bits_of. rewrite fmap_cons. cbn [concat].
    rewrite zlen_app. fold (bits_of l). rewrite IH. change (zlen (byte_bits b)) with 8. cbn [length]. lia. }
  rewrite Hl, Z.pow_mul_r by lia. done.
Qed.

Lemma length_byte_bits b : length (byte_bits b) = 8%nat.
Proof. done. Qed.
Lemma length_bits_of l : length (bits_of l) = (8 * length l)%nat.
Proof.
  induction l as [|b l IH]; [done|]. unfold bits_of. rewrite fmap_cons. cbn [concat].
  rewrite length_app, length_byte_bits. fold (bits_of l). rewrite IH. cbn [length]. lia.
Qed.
Lemma bits_of_cons b l : bits_of (b :: l) = byte_bits b ++ bits_of l.
Proof. done. Qed.

Lemma bits_of_zeros n : bits_of (replicate n Byte.x00) = replicate (8 * n) false.
Proof.
  induction n as [|n IH]; [done|]. cbn [replicate]. rewrite bits_of_cons, IH.
  replace (8 * S n)%nat with (8 + 8 * n)%nat by lia. by rewrite replicate_add.
Qed.

Lemma byte_bits_set b j :
  (j < 8)%nat →
  byte_bits (z2b (Z.lor (b2z b) (Z.shiftl 1 (Z.of_nat (7 - j))))) = <[j := true]> (byte_bits b).
Proof.
  intros Hj. apply list_eq_same_length with 8%nat; [by rewrite length_insert|done|].
  intros i x y Hi Hx Hy. unfold byte_bits in *.
  assert (Hs : seq 0 8 !! i = Some i) by (by apply lookup_seq_lt).
  rewrite list_lookup_fmap, Hs in Hx. cbn in Hx. injection Hx as <-.
  assert (Hr : 0 <= Z.lor (b2z b) (Z.shiftl 1 (Z.of_nat (7 - j))) < 2 ^ 8).
  { apply lor_range; [done|apply b2z_range|]. rewrite Z.shiftl_1_l.
    split; [lia|]. apply Z.pow_lt_mono_r; lia. }
  rewrite b2z_z2b, Z.mod_small by exact Hr. rewrite Z.lor_spec, Z.shiftl_1_l, Z.pow2_bits_eqb by lia.
  destruct (decide (i = j)) as [->|Hne].
  - rewrite list_lookup_insert_eq in Hy by done. injection Hy as <-. by rewrite Z.eqb_refl, orb_true_r.
  - rewrite list_lookup_insert_ne, list_lookup_fmap, Hs in Hy by done. injection Hy as <-.
    rewrite (proj2 (Z.eqb_neq _ _)) by lia. by rewrite orb_false_r.
Qed.

Lemma bits_of_set_bit term bit :
  (bit < 8 * length term)%nat → bits_of (set_bit term bit) = <[bit := true]> (bits_of term).
Proof.
  unfold set_bit. revert bit. induction term as [|b term IH]; intros bit Hb; cbn [length] in Hb; [lia|].
  destruct (Nat.lt_ge_cases bit 8) as [Hlt|Hge].
  - rewrite (Nat.div_small bit 8), (Nat.mod_small bit 8) by done. cbn [alter list_alter].
    rewrite !bits_of_cons, byte_bits_set, insert_app_l by done. done.
  - destruct (Nat.le_exists_sub 8 bit Hge) as (k & -> & _).
    replace ((k + 8) / 8)%nat with (S (k / 8)) by (change (k + 8)%nat with (k + 1 * 8)%nat; rewrite Nat.div_add by lia; lia).
    replace ((k + 8) mod 8)%nat with (k mod 8)%nat by (change (k + 8)%nat with (k + 1 * 8)%nat; by rewrite Nat.Div0.mod_add).
    cbn [alter list_alter]. rewrite !bits_of_cons. specialize (IH k ltac:(lia)).
    rewrite IH. rewrite insert_app_r_alt by (rewrite length_byte_bits; lia).
    rewrite length_byte_bits. do 2 f_equal. lia.
Qed.

(** The inner loop writes the bits of its chunk. *)
Lemma nfold_term_bits input len chunk :
  bits_of (nfold_term input (8 * len) len chunk) =
  map (source_bit input) (seq (chunk * (8 * len)) (8 * len)).
Proof.
  set (n := (8 * len)%nat). unfold nfold_term.
  set (src := λ bit, source_bit input (chunk * n + bit)).
  set (step := λ term bit, if src bit then set_bit term bit else term).
  assert (Hk : ∀ k, (k <= n)%nat →
    length (foldl step (replicate len Byte.x00) (seq 0 k)) = len ∧
    bits_of (foldl step (replicate len Byte.x00) (seq 0 k)) = map src (seq 0 k) ++ replicate (n - k) false).
  { intros k. induction k as [|k IH]; intros Hk.
    - cbn [seq foldl map app]. rewrite length_replicate, bits_of_zeros. by rewrite Nat.sub_0_r.
    - destruct (IH ltac:(lia)) as [Hl Hb]. rewrite seq_S, foldl_app, map_app. cbn [foldl map Nat.add].
      set (t := foldl step _ _) in *. unfold step at 1 2. split.
      + destruct (src k); [|done]. unfold set_bit. by rewrite length_alter.
      + replace (n - k)%nat with (S (n - S k)) in Hb by lia. cbn [replicate] in Hb.
        assert (Hm : length (map src (seq 0 k)) = k) by (by rewrite length_map, length_seq).
        rewrite <- app_assoc. cbn [app]. destruct (src k); [|done].
        rewrite bits_of_set_bit, Hb by (rewrite Hl; unfold n in *; lia).
        rewrite insert_app_r_alt by lia. by rewrite Hm, Nat.sub_diag. }
  change (bits_of (foldl step (replicate len Byte.x00) (seq 0 n)) =
          map (source_bit input) (seq (chunk * n) n)).
  destruct (Hk n ltac:(lia)) as [_ ->]. rewrite Nat.sub_diag, app_nil_r.
  replace (seq (chunk * n) n) with (map (λ i, (chunk * n + i)%nat) (seq 0 n)).
  - rewrite map_map. done.
  - change (map ?g ?l) with (g <$> l). rewrite fmap_add_seq. by rewrite Nat.add_0_r.
Qed.

(** ** One's complement addition *)

Lemma byte_sum s : 0 <= s < 512 → b2z (z2b (u16 s)) + 256 * u8 (Z.shiftr (u16 s) 8) = s ∧ 0 <= u8 (Z.shiftr (u16 s) 8) <= 1.
Proof.
  intros Hs. unfold u16, u8. rewrite (Z.mod_small s (2 ^ 16)) by lia.
  rewrite b2z_z2b, Z.shiftr_div_pow2 by done. change (2 ^ 8) with 256.
  pose proof (Z.div_mod s 256 ltac:(lia)).
  assert (0 <= s / 256 < 2) by (split; [apply Z.div_pos; lia|apply Z.div_lt_upper_bound; lia]).
  rewrite (Z.mod_small (s / 256)) by lia. lia.
Qed.

Lemma add_bytes_spec dst src :
  length dst = length src →
  let '(out, carry) := add_bytes dst src in
  length out = length dst ∧ 0 <= carry <= 1 ∧
  be_value out + carry * 256 ^ zlen dst = be_value dst + be_value src.
Proof.
  revert src. induction dst as [|d dst IH]; intros [|s src] Hl; try done. cbn [add_bytes].
  injection Hl as Hl. specialize (IH src Hl). destruct (add_bytes dst src) as [out carry].
  destruct IH as (Ho & Hc & Hv). pose proof (b2z_range d). pose proof (b2z_range s).
  destruct (byte_sum (b2z d + b2z s + carry) ltac:(lia)) as [Hs Hc']. cbn [length be_value].
  split_and!; [congruence|lia|lia|]. rewrite zlen_cons, Z.pow_add_r by (pose proof (zlen_nonneg dst); lia).
  unfold zlen in *. rewrite Ho, <- Hl. nia.
Qed.

Lemma add_carry_spec dst carry :
  0 <= carry <= 1 →
  let '(out, carry') := add_carry dst carry in
  length out = length dst ∧ 0 <= carry' <= 1 ∧
  be_value out + carry' * 256 ^ zlen dst = be_value dst + carry.
Proof.
  intros Hc. induction dst as [|d dst IH]; cbn [add_carry].
  { split_and!; [done|lia|lia|]. change (256 ^ zlen (@nil byte)) with 1. lia. }
  destruct (add_carry dst carry) as [out carry'].
  destruct IH as (Ho & Hc' & Hv). pose proof (b2z_range d).
  destruct (byte_sum (b2z d + carry') ltac:(lia)) as [Hs Hc'']. cbn [length be_value].
  split_and!; [congruence|lia|lia|]. rewrite zlen_cons, Z.pow_add_r by (pose proof (zlen_nonneg dst); lia).
  unfold zlen in *. rewrite Ho. nia.
Qed.

(** One round of the carry loop is enough. *)
Lemma addOneComplement_spec dst src :
  dst ≠ [] → length dst = length src →
  ∃ out, addOneComplement dst src = Some out ∧ length out = length dst ∧
    be_value out = (let s := be_value dst + be_value src in
                    if s <? 256 ^ zlen dst then s else s - 256 ^ zlen dst + 1).
Proof.
  intros Hne Hl. unfold addOneComplement. pose proof (add_bytes_spec dst src Hl) as Ha.
  destruct (add_bytes dst src) as [out carry]. destruct Ha as (Ho & Hc & Hv).
  pose proof (be_value_range out) as Hr. unfold zlen in Hr. rewrite Ho in Hr. fold (zlen dst) in Hr.
  pose proof (be_value_range dst) as Hd. pose proof (be_value_range src) as Hs.
  unfold zlen in Hs. rewrite <- Hl in Hs. fold (zlen dst) in Hs. cbn [carry_loop].
  destruct (Z.eqb_spec carry 0) as [->|Hne0].
  - exists out. split_and!; [done|done|]. cbv zeta. rewrite (proj2 (Z.ltb_lt _ _)) by lia. lia.
  - assert (carry = 1) as -> by lia. pose proof (add_carry_spec out 1 ltac:(lia)) as Hac.
    destruct (add_carry out 1) as [out' carry']. destruct Hac as (Ho' & Hc' & Hv').
    unfold zlen in Hv'. rewrite Ho in Hv'. fold (zlen dst) in Hv'.
    pose proof (be_value_range out') as Hr'. unfold zlen in Hr'. rewrite Ho', Ho in Hr'. fold (zlen dst) in Hr'.
    assert (carry' = 0) as -> by nia. exists out'. split_and!; [done|congruence|].
    cbv zeta. rewrite (proj2 (Z.ltb_ge _ _)) by lia. lia.
Qed.

(** ** The arithmetic meaning *)

Definition rotate_right (k : nat) (l : list bool) : list bool :=
  let r := (k mod length l)%nat in drop (length l - r) l ++ take (length l - r) l.

(** The repetitions of the input, each rotated 13 bits further. *)
Definition repeated (input : bytes) (count : nat) : list bool :=
  concat (map (λ i, rotate_right (13 * i) (bits_of input)) (seq 0 count)).

Lemma testbit_mask b n : 0 <= n → Z.testbit b n = negb (Z.land b (2 ^ n) =? 0).
Proof.
  intros Hn. destruct (Z.testbit b n) eqn:E; symmetry.
  - rewrite negb_true_iff, Z.eqb_neq. intros H0. apply (f_equal (λ z, Z.testbit z n)) in H0.
    rewrite Z.land_spec, E, Z.pow2_bits_true, Z.bits_0 in H0 by lia. done.
  - rewrite negb_false_iff. apply Z.eqb_eq, Z.bits_inj'. intros i Hi.
    rewrite Z.land_spec, Z.pow2_bits_eqb, Z.bits_0 by lia.
    destruct (Z.eqb_spec n i) as [<-|]; [by rewrite E|by rewrite andb_false_r].
Qed.

(** The remainder of Go, corrected for negative numbers, is the modulus. *)
Lemma rem_fixed z n : 0 < n → (if Z.rem z n <? 0 then Z.rem z n + n else Z.rem z n) = z mod n.
Proof.
  intros Hn. pose proof (Z.rem_bound_abs z n ltac:(lia)) as Hb. pose proof (Z.quot_rem' z n) as Hq.
  destruct (Z.ltb_spec (Z.rem z n) 0).
  - apply (Z.mod_unique_pos z n (Z.quot z n - 1)); lia.
  - apply (Z.mod_unique_pos z n (Z.quot z n)); lia.
Qed.

Lemma lookup_bits_of l s :
  (s < 8 * length l)%nat →
  bits_of l !! s = Some (negb (Z.land (b2z (nth (s / 8) l Byte.x00)) (Z.shiftl 1 (Z.of_nat (7 - s mod 8))) =? 0)).
Proof.
  revert s. induction l as [|b l IH]; intros s Hs; cbn [length] in Hs; [lia|]. rewrite bits_of_cons.
  destruct (Nat.lt_ge_cases s 8) as [Hlt|Hge].
  - rewrite lookup_app_l by (rewrite length_byte_bits; lia).
    rewrite (Nat.div_small s 8), (Nat.mod_small s 8) by done. unfold byte_bits.
    rewrite list_lookup_fmap, lookup_seq_lt by done. cbn [fmap option_fmap option_map nth]. f_equal.
    rewrite Z.shiftl_1_l. change (0 + s)%nat with s. apply testbit_mask. lia.
  - destruct (Nat.le_exists_sub 8 s Hge) as (k & -> & _).
    rewrite lookup_app_r by (rewrite length_byte_bits; lia). rewrite length_byte_bits.
    replace (k + 8 - 8)%nat with k by lia. rewrite IH by lia.
    replace ((k + 8) / 8)%nat with (S (k / 8)) by (change (k + 8)%nat with (k + 1 * 8)%nat; rewrite Nat.div_add by lia; lia).
    replace ((k + 8) mod 8)%nat with (k mod 8)%nat by (change (k + 8)%nat with (k + 1 * 8)%nat; by rewrite Nat.Div0.mod_add).
    done.
Qed.

Lemma source_bit_rotate input i j :
  (j < 8 * length input)%nat →
  rotate_right (13 * i) (bits_of input) !! j = Some (source_bit input (i * (8 * length input) + j)).
Proof.
  intros Hj. unfold source_bit. set (L := (8 * length input)%nat) in *.
  replace (length input * 8)%nat with L by (unfold L; lia).
  replace (Z.of_nat (i * L + j)) with (Z.of_nat j + Z.of_nat i * Z.of_nat L) by lia.
  rewrite Z.div_add, Z.mod_add, Z.div_small, Z.mod_small, Z.add_0_l by lia.
  set (s := Z.rem _ _).
  set (r := ((13 * i) mod L)%nat).
  assert (Hr : (r < L)%nat) by (apply Nat.mod_upper_bound; lia).
  assert (Hs : Z.to_nat (if s <? 0 then s + Z.of_nat L else s) =
               if (j <? r)%nat then (L - r + j)%nat else (j - r)%nat).
  { unfold s. rewrite rem_fixed by lia. pose proof (Nat.div_mod_eq (13 * i) L) as Hd. fold r in Hd.
    replace (Z.of_nat j - 13 * Z.of_nat i)
      with (Z.of_nat j - Z.of_nat r + - Z.of_nat (13 * i / L) * Z.of_nat L) by lia.
    rewrite Z.mod_add by lia. destruct (Nat.ltb_spec j r).
    - rewrite <- (Z.mod_add _ 1), Z.mod_small by lia. lia.
    - rewrite Z.mod_small by lia. lia. }
  rewrite Hs. unfold rotate_right. rewrite length_bits_of. fold L. fold r.
  assert (Hld : length (drop (L - r) (bits_of input)) = r) by (rewrite length_drop, length_bits_of; fold L; lia).
  destruct (Nat.ltb_spec j r) as [Hlt|Hge].
  - rewrite lookup_app_l by lia. rewrite lookup_drop. apply lookup_bits_of. fold L. lia.
  - rewrite lookup_app_r by lia. rewrite Hld, lookup_take_lt by lia. apply lookup_bits_of. fold L. lia.
Qed.

Lemma repeated_bits input count :
  map (source_bit input) (seq 0 (count * (8 * length input))) = repeated input count.
Proof.
  unfold repeated. induction count as [|i IH]; [done|].
  rewrite seq_S, map_app, concat_app, <- IH. cbn [map concat Nat.add]. rewrite app_nil_r.
  replace (S i * (8 * length input))%nat with (i * (8 * length input) + 8 * length input)%nat by lia.
  rewrite seq_app, map_app. f_equal. cbn [Nat.add].
  assert (Hl : length (rotate_right (13 * i) (bits_of input)) = (8 * length input)%nat).
  { unfold rotate_right. rewrite length_app, length_drop, length_take, length_bits_of. lia. }
  apply list_eq_same_length with (8 * length input)%nat; [done|by rewrite length_map, length_seq|].
  intros j x y Hj Hx Hy. rewrite source_bit_rotate in Hy by done.
  change (map ?g ?l) with (g <$> l) in Hx. rewrite list_lookup_fmap, lookup_seq_lt in Hx by done.
  change (Some (source_bit input (i * (8 * length input) + j)) = Some x) in Hx. congruence.
Qed.

(** Modulo 2^n - 1 the chunks of n bits can be added. *)
Lemma chunks_mod (g : nat → bool) n count :
  (bits_value (map g (seq 0 (count * n)))) mod (2 ^ Z.of_nat n - 1) =
  (foldr Z.add 0 (map (λ c, bits_value (map g (seq (c * n) n))) (seq 0 count))) mod (2 ^ Z.of_nat n - 1).
Proof.
  induction count as [|c IH]; [done|].
  replace (S c * n)%nat with (c * n + n)%nat by lia. rewrite seq_app, map_app, bits_value_app. cbn [Nat.add].
  unfold zlen. rewrite length_map, length_seq. rewrite seq_S, map_app, foldr_app. cbn [map foldr Nat.add].
  set (M := 2 ^ Z.of_nat n - 1) in *. set (x := bits_value (map g (seq (c * n) n))).
  replace (foldr Z.add (x + 0) _) with
    (foldr Z.add 0 (map (λ c, bits_value (map g (seq (c * n) n))) (seq 0 c)) + x).
  - replace (2 ^ Z.of_nat n) with (M + 1) by (unfold M; lia).
    rewrite Z.mul_add_distr_l, Z.mul_1_r.
    replace (bits_value (map g (seq 0 (c * n))) * M + bits_value (map g (seq 0 (c * n))) + x)
      with (bits_value (map g (seq 0 (c * n))) + x + bits_value (map g (seq 0 (c * n))) * M) by lia.
    rewrite Z_mod_plus_full. by rewrite Zplus_mod, IH, <- Zplus_mod.
  - generalize (map (λ c, bits_value (map g (seq (c * n) n))) (seq 0 c)). intros l.
    induction l as [|y l IHl]; cbn [foldr]; lia.
Qed.

Lemma addOneComplement_mod dst src :
  dst ≠ [] → length dst = length src →
  ∃ out, addOneComplement dst src = Some out ∧ length out = length dst ∧
    be_value out mod (256 ^ zlen dst - 1) = (be_value dst + be_value src) mod (256 ^ zlen dst - 1).
Proof.
  intros Hne Hl. destruct (addOneComplement_spec dst src Hne Hl) as (out & -> & Ho & Hv).
  exists out. split_and!; [done|done|]. rewrite Hv. cbv zeta. destruct (_ <? _); [done|].
  replace (be_value dst + be_value src - 256 ^ zlen dst + 1) with
    (be_value dst + be_value src + -1 * (256 ^ zlen dst - 1)) by lia.
  by rewrite Z_mod_plus_full.
Qed.

Lemma length_nfold_term input n len chunk : length (nfold_term input n len chunk) = len.
Proof.
  unfold nfold_term. rewrite <- (length_replicate len Byte.x00) at 2.
  generalize (replicate len Byte.x00) as t. generalize (seq 0 n) as l.
  induction l as [|b l IH]; intros t; cbn [foldl]; [done|].
  rewrite IH. destruct (source_bit _ _); [|done]. unfold set_bit. by rewrite length_alter.
Qed.

Lemma nfold_loop_spec input len chunks result :
  (0 < len)%nat → length result = len →
  ∃ out, nfold_loop input (8 * len) chunks result = Some out ∧ length out = len ∧
    be_value out mod (256 ^ Z.of_nat len - 1) =
    (be_value result +
     foldr Z.add 0 (map (λ c, bits_value (map (source_bit input) (seq (c * (8 * len)) (8 * len)))) chunks))
      mod (256 ^ Z.of_nat len - 1).
Proof.
  intros Hlen. revert result. induction chunks as [|c chunks IH]; intros result Hr; cbn [nfold_loop map foldr].
  - exists result. by rewrite Z.add_0_r.
  - destruct (addOneComplement_mod result (nfold_term input (8 * len) (length result) c)) as (out & -> & Ho & Hv).
    + by destruct result; [cbn in Hr; lia|].
    + by rewrite length_nfold_term.
    + cbn [mbind option_bind]. destruct (IH out ltac:(lia)) as (out' & -> & Ho' & Hv'). exists out'.
      split_and!; [done|done|]. rewrite Hv'. unfold zlen in Hv. rewrite Hr in Hv.
      rewrite Zplus_mod, Hv, <- Zplus_mod, (be_value_bits (nfold_term _ _ _ _)), nfold_term_bits.
      f_equal. lia.
Qed.

Lemma nFold_correct (input : bytes) (len : nat) :
  input ≠ [] → (0 < len)%nat →
  ∃ out, nFold input (8 * len) = Some out ∧ length out = len ∧
    be_value out mod (2 ^ Z.of_nat (8 * len) - 1) =
    bits_value (repeated input (Nat.lcm (length input * 8) (8 * len) / (length input * 8)))
      mod (2 ^ Z.of_nat (8 * len) - 1).
Proof.
  intros Hin Hlen. unfold nFold.
  assert (Hi : length input ≠ 0%nat) by (by destruct input).
  rewrite (proj2 (Nat.eqb_neq (length input) 0)), (proj2 (Nat.eqb_neq (8 * len) 0)) by lia. cbn [orb].
  rewrite lcm_ok. cbn [mbind option_bind].
  replace ((8 * len + 7) / 8)%nat with len by (apply Nat.div_unique with 7%nat; lia).
  destruct (Nat.divide_lcm_r (length input * 8) (8 * len)) as [c Hc].
  destruct (Nat.divide_lcm_l (length input * 8) (8 * len)) as [r Hr].
  replace (Nat.lcm (length input * 8) (8 * len) / (8 * len))%nat with c by (rewrite Hc, Nat.div_mul by lia; done).
  replace (Nat.lcm (length input * 8) (8 * len) / (length input * 8))%nat with r by (rewrite Hr, Nat.div_mul by lia; done).
  destruct (nfold_loop_spec input len (seq 0 c) (replicate len Byte.x00) Hlen) as (out & -> & Ho & Hv);
    [apply length_replicate|].
  exists out. split_and!; [done|done|].
  assert (H256 : 256 ^ Z.of_nat len = 2 ^ Z.of_nat (8 * len)).
  { rewrite Nat2Z.inj_mul, Z.pow_mul_r by lia. done. }
  rewrite H256 in Hv. rewrite Hv, be_value_bits, bits_of_zeros.
  assert (H0 : bits_value (replicate (8 * len) false) = 0).
  { clear. induction (8 * len)%nat as [|n IH]; [done|]. cbn [replicate].
    change (false :: ?l) with ([false] ++ l). rewrite bits_value_app, IH. done. }
  rewrite H0, Z.add_0_l, <- chunks_mod, <- repeated_bits. do 4 f_equal. lia.
Qed.

(** C17: n-fold: for every non-empty input and every output of whole bytes the
    loops terminate with an output of that length, whose number is, modulo
    2^n - 1, the number written by the repetitions of the input, each rotated
    13 bits further to the right, up to the least common multiple of the two
    lengths (RFC 3961, section 5.1). *)
Theorem nFold_spec (input : bytes) (len : nat) :
  input ≠ [] → (0 < len)%nat →
  ∃ out, nFold input (8 * len) = Some out ∧ length out = len ∧
    be_value out mod (2 ^ Z.of_nat (8 * len) - 1) =
    bits_value (repeated input (Nat.lcm (length input * 8) (8 * len) / (length input * 8)))
      mod (2 ^ Z.of_nat (8 * len) - 1).
Proof. apply nFold_correct. Qed.

Lemma nFold_spec_witness :
  ∃ out, nFold (str "kerberos") (8 * 16) = Some out ∧ length out = 16%nat ∧
    be_value out mod (2 ^ Z.of_nat (8 * 16) - 1) =
    bits_value (repeated (str "kerberos") (Nat.lcm (length (str "kerberos") * 8) (8 * 16) / (length (str "kerberos") * 8)))
      mod (2 ^ Z.of_nat (8 * 16) - 1).
Proof. apply (nFold_spec (str "kerberos") 16); [discriminate|lia]. Defined.
