(* ===== verification/Crypto.v ===== *)
(** * Kerberos encryption types (src/krb5/crypto/crypto.go)

    The six encryption types: AES with HMAC-SHA1, AES with HMAC-SHA2, and
    Camellia with CMAC; key derivation, checksums, the pseudo-random function,
    string-to-key and KRB-FX-CF2.  Ciphertext stealing, CMAC and Camellia are
    the ones of this development; AES, HMAC and SHA-1 of Go's library are the
    class [GoCrypto], with what the code relies on in [GoCryptoLaws].  The
    random confounder is an argument.  Loops that run until enough bytes are
    collected take fuel; running out of it is the value [Panic], which the
    theorems exclude.  Error texts leave out the numbers formatted into them. *)

From S2P Require Import Prelude Cts Camellia NFold.
Local Open Scope nat_scope.

Definition EnctypeAES128SHA1 : Z := 17.
Definition EnctypeAES256SHA1 : Z := 18.
Definition EnctypeAES128SHA256 : Z := 19.
Definition EnctypeAES256SHA384 : Z := 20.
Definition EnctypeCamellia128 : Z := 25.
Definition EnctypeCamellia256 : Z := 26.

Definition ErrIntegrity : string := "integrity check failed".
Definition ErrUnsupportedEType : string := "unsupported encryption type".

Inductive hash := SHA1 | SHA256 | SHA384.
Definition hash_Size (h : hash) : nat := match h with SHA1 => 20 | SHA256 => 32 | SHA384 => 48 end.

(** What the code uses of crypto/aes, crypto/hmac and crypto/sha1. *)
Class GoCrypto := {
  AES : Type;
  AES_block :: BlockCipher AES;
  aes_NewCipher : bytes → res AES;
  hmac_sum : hash → bytes → bytes → bytes;
  sha1_Sum : bytes → bytes;
}.

Class GoCryptoLaws `{GoCrypto} : Prop := {
  AES_laws :: BlockCipherLaws AES;
  AES_BlockSize : BlockSize (C := AES) = 16;
  aes_NewCipher_ok key :
    length key = 16 ∨ length key = 24 ∨ length key = 32 → ∃ b, aes_NewCipher key = Ok b;
  length_hmac h key data : length (hmac_sum h key data) = hash_Size h;
  length_sha1 data : length (sha1_Sum data) = 20;
}.

Record aesEType := mkAes {
  ae_id : Z;
  ae_keySize : nat;
  ae_checksumSize : nat;
  ae_sha2 : bool;
  ae_hash : hash;
  ae_name : string;
  ae_defaultRounds : Z;
}.

Record camelliaEType := mkCam {
  ce_id : Z;
  ce_keySize : nat;
  ce_name : string;
}.

(** The implementations of the interface [EType]. *)
Inductive EType := EAes (e : aesEType) | ECamellia (e : camelliaEType).

Definition etype_ID (e : EType) : Z := match e with EAes e => ae_id e | ECamellia e => ce_id e end.
Definition etype_KeySize (e : EType) : nat :=
  match e with EAes e => ae_keySize e | ECamellia e => ce_keySize e end.

Definition enctypeNames (id : Z) : string :=
  if (id =? EnctypeAES128SHA1)%Z then "aes128-cts-hmac-sha1-96"
  else if (id =? EnctypeAES256SHA1)%Z then "aes256-cts-hmac-sha1-96"
  else if (id =? EnctypeAES128SHA256)%Z then "aes128-cts-hmac-sha256-128"
  else if (id =? EnctypeAES256SHA384)%Z then "aes256-cts-hmac-sha384-192"
  else if (id =? EnctypeCamellia128)%Z then "camellia128-cts-cmac"
  else if (id =? EnctypeCamellia256)%Z then "camellia256-cts-cmac"
  else EmptyString.

(** [Registry.Get]; [fips] is the FIPS setting of the process. *)
Definition Registry_Get (fips : bool) (id : Z) : res EType :=
  if (id =? EnctypeAES128SHA1)%Z then Ok (EAes (mkAes id 16 12 false SHA1 EmptyString 4096))
  else if (id =? EnctypeAES256SHA1)%Z then Ok (EAes (mkAes id 32 12 false SHA1 EmptyString 4096))
  else if (id =? EnctypeAES128SHA256)%Z then Ok (EAes (mkAes id 16 16 true SHA256 (enctypeNames id) 32768))
  else if (id =? EnctypeAES256SHA384)%Z then Ok (EAes (mkAes id 32 24 true SHA384 (enctypeNames id) 32768))
  else if (id =? EnctypeCamellia128)%Z then
    if fips then Err ("Camellia enctype disabled in FIPS mode: " +:+ ErrUnsupportedEType)
    else Ok (ECamellia (mkCam id 16 (enctypeNames id)))
  else if (id =? EnctypeCamellia256)%Z then
    if fips then Err ("Camellia enctype disabled in FIPS mode: " +:+ ErrUnsupportedEType)
    else Ok (ECamellia (mkCam id 32 (enctypeNames id)))
  else Err ErrUnsupportedEType.

Definition validateKey (key : bytes) (size : nat) : res unit :=
  if length key =? size then Ok tt else Err "invalid key length".

Definition maxPBKDF2Iterations : Z := 0x1000000.

Definition parseIterations (params : bytes) (defaultValue : Z) : res Z :=
  if length params =? 0 then Ok defaultValue
  else if negb (length params =? 4) then Err "invalid string-to-key parameters length"
  else
    let n := be_value params in
    if ((n =? 0) || (n <? defaultValue))%Z then Err "invalid string-to-key iteration count"
    else if (maxPBKDF2Iterations <=? n)%Z then Err "string-to-key iteration count exceeds maximum"
    else Ok n.

(** A prefix of a slice: out of range panics. *)
Definition prefix (l : bytes) (n : nat) : res bytes :=
  if n <=? length l then Ok (take n l) else Panic.

Definition zeros (n : nat) : bytes := replicate n Byte.x00.

(** The label of a derived key: the usage number and the kind of key. *)
Definition usage_label (usage : Z) (suffix : byte) : bytes := be_bytes 4 usage ++ [suffix].

(** ** Camellia *)

Definition camelliaCMACKey (key data : bytes) : res bytes :=
  res_bind (New key) (λ block, Ok (cmac_Sum block data)).

(** The loop of [camelliaDerive]. *)
Fixpoint camellia_derive_loop (fuel : nat) (block : camelliaCipher) (label : bytes) (size : nat)
    (counter : Z) (previous out : bytes) : res bytes :=
  if size <=? length out then prefix out size
  else match fuel with
  | O => Panic
  | S fuel =>
      let input := previous ++ be_bytes 4 counter ++ label ++ [Byte.x00] ++
                   be_bytes 4 (u32 (Z.of_nat (size * 8))) in
      let previous := cmac_Sum block input in
      camellia_derive_loop fuel block label size (u32 (counter + 1)) previous (out ++ previous)
  end.

Definition camelliaDerive (key label : bytes) (size : nat) : res bytes :=
  res_bind (New key) (λ block,
    camellia_derive_loop size block label size 1 (zeros 16) []).

Definition camelliaDerivedUsage (key : bytes) (usage : Z) (suffix : byte) : res bytes :=
  camelliaDerive key (usage_label usage suffix) (length key).

Definition camelliaCTS (key iv input : bytes) (decrypt : bool) : res (bytes * bytes) :=
  res_bind (New key) (λ block,
    if negb (length iv =? BlockSize (C := camelliaCipher)) || (length input <? BlockSize (C := camelliaCipher))
    then Err "Camellia CTS: invalid input"
    else if decrypt then cts_Decrypt block iv input else cts_Encrypt block iv input).

Definition camellia_encrypt (e : camelliaEType) (confounder : res bytes)
    (key : bytes) (usage : Z) (plaintext iv associated : bytes) : res (bytes * bytes) :=
  res_bind (wrap_err "etype encrypt: " (validateKey key (ce_keySize e))) (λ _,
  if negb (length iv =? 16) then Err "etype encrypt: invalid IV length" else
  res_bind (wrap_err "etype encrypt confounder: " confounder) (λ confounder,
  let plain := confounder ++ plaintext in
  res_bind (camelliaDerivedUsage key usage Byte.xaa) (λ ke,
  res_bind (camelliaDerivedUsage key usage Byte.x55) (λ ki,
  res_bind (camelliaCTS ke iv plain false) (λ r,
  let '(encrypted, nextIV) := r in
  res_bind (camelliaCMACKey ki (plain ++ associated)) (λ mac,
  Ok (encrypted ++ mac, nextIV))))))).

(** Every failure that depends on the ciphertext is the same integrity error. *)
Definition integrity_error {A} : res A := Err ("etype decrypt: " +:+ ErrIntegrity).
Definition or_integrity {A} (c : res A) : res A :=
  match c with Err _ => integrity_error | c => c end.

Definition camellia_decrypt (e : camelliaEType)
    (key : bytes) (usage : Z) (ciphertext iv associated : bytes) : res (bytes * bytes) :=
  res_bind (wrap_err "etype decrypt: " (validateKey key (ce_keySize e))) (λ _,
  if negb (length iv =? 16) || (length ciphertext <? 16 + 16) then integrity_error else
  let encrypted := take (length ciphertext - 16) ciphertext in
  let supplied := drop (length ciphertext - 16) ciphertext in
  res_bind (camelliaDerivedUsage key usage Byte.xaa) (λ ke,
  res_bind (camelliaDerivedUsage key usage Byte.x55) (λ ki,
  res_bind (or_integrity (camelliaCTS ke iv encrypted true)) (λ r,
  let '(plain, nextIV) := r in
  if length plain <? 16 then integrity_error else
  res_bind (or_integrity (camelliaCMACKey ki (plain ++ associated))) (λ expected,
  if negb (bytes_eqb expected supplied) then integrity_error
  else Ok (drop 16 plain, nextIV)))))).

Definition camellia_Checksum (e : camelliaEType) (key : bytes) (usage : Z) (data : bytes) : res bytes :=
  res_bind (wrap_err "etype checksum: " (validateKey key (ce_keySize e))) (λ _,
  res_bind (camelliaDerivedUsage key usage Byte.x99) (λ kc, camelliaCMACKey kc data)).

(** ** AES *)

Section aes.
Context `{GoCrypto}.

Definition aes_cts_encrypt := EncryptWithState aes_NewCipher.
Definition aes_cts_decrypt := DecryptWithState aes_NewCipher.

Definition hmacDigest (h : hash) (key data : bytes) : bytes := hmac_sum h key data.

Fixpoint dk_loop (fuel : nat) (key : bytes) (size : nat) (input out : bytes) : res bytes :=
  if size <=? length out then prefix out size
  else match fuel with
  | O => Panic
  | S fuel =>
      res_bind (aescts_Encrypt aes_NewCipher key (zeros 16) input) (λ block,
        dk_loop fuel key size block (out ++ block))
  end.

(** [nFold] returns for every input (see [NFold]); its result is a slice. *)
Definition nFold_bytes (input : bytes) (bits : nat) : res bytes :=
  match nFold input bits with Some folded => Ok folded | None => Panic end.

Definition dkAES (key constant : bytes) (size : nat) : res bytes :=
  res_bind (nFold_bytes constant 128) (λ folded, dk_loop size key size folded []).

Definition kdfSHA2 (h : hash) (key label context : bytes) (bits : Z) : res bytes :=
  if ((bits <=? 0) || negb (Z.rem bits 8 =? 0))%Z then Err "invalid KDF output size"
  else
    let input := be_bytes 4 1 ++ label ++ [Byte.x00] ++ context ++ be_bytes 4 (u32 bits) in
    prefix (hmacDigest h key input) (Z.to_nat (bits / 8)).

Definition deriveKeys (e : aesEType) (key : bytes) (usage : Z) : res (bytes * bytes * bytes) :=
  let label := usage_label usage in
  if ae_sha2 e then
    res_bind (kdfSHA2 (ae_hash e) key (label Byte.x99) [] (Z.of_nat (ae_checksumSize e) * 8)) (λ kc,
    res_bind (kdfSHA2 (ae_hash e) key (label Byte.xaa) [] (Z.of_nat (ae_keySize e) * 8)) (λ ke,
    res_bind (kdfSHA2 (ae_hash e) key (label Byte.x55) [] (Z.of_nat (ae_checksumSize e) * 8)) (λ ki,
    Ok (kc, ke, ki))))
  else
    res_bind (dkAES key (label Byte.x99) (ae_keySize e)) (λ kc,
    res_bind (dkAES key (label Byte.xaa) (ae_keySize e)) (λ ke,
    res_bind (dkAES key (label Byte.x55) (ae_keySize e)) (λ ki,
    Ok (kc, ke, ki)))).

Definition deriveEncryptionKeys (e : aesEType) (key : bytes) (usage : Z) : res (bytes * bytes) :=
  res_bind (deriveKeys e key usage) (λ r, let '(_, ke, ki) := r in Ok (ke, ki)).
Definition deriveChecksumKey (e : aesEType) (key : bytes) (usage : Z) : res (bytes * bytes) :=
  res_bind (deriveKeys e key usage) (λ r, let '(kc, ke, _) := r in Ok (kc, ke)).

Definition aes_encrypt (e : aesEType) (confounder : res bytes)
    (key : bytes) (usage : Z) (plaintext iv associated : bytes) : res (bytes * bytes) :=
  res_bind (wrap_err "etype encrypt: " (validateKey key (ae_keySize e))) (λ _,
  if negb (length iv =? 16) then Err "etype encrypt: invalid IV length" else
  res_bind (wrap_err "etype encrypt confounder: " confounder) (λ confounder,
  let plain := confounder ++ plaintext in
  res_bind (wrap_err "etype encrypt: " (deriveEncryptionKeys e key usage)) (λ keys,
  let '(ke, ki) := keys in
  res_bind (wrap_err "etype encrypt: " (aes_cts_encrypt ke iv plain)) (λ r,
  let '(encrypted, nextIV) := r in
  let macInput := if ae_sha2 e then iv ++ encrypted ++ associated else plain ++ associated in
  res_bind (prefix (hmacDigest (ae_hash e) ki macInput) (ae_checksumSize e)) (λ mac,
  Ok (encrypted ++ mac, nextIV)))))).

Definition aes_decrypt (e : aesEType)
    (key : bytes) (usage : Z) (ciphertext iv associated : bytes) : res (bytes * bytes) :=
  res_bind (wrap_err "etype decrypt: " (validateKey key (ae_keySize e))) (λ _,
  if negb (length iv =? 16) then Err "etype decrypt: invalid IV length" else
  if length ciphertext <? 16 + ae_checksumSize e then integrity_error else
  let encrypted := take (length ciphertext - ae_checksumSize e) ciphertext in
  let suppliedMAC := drop (length ciphertext - ae_checksumSize e) ciphertext in
  res_bind (wrap_err "etype decrypt: " (deriveEncryptionKeys e key usage)) (λ keys,
  let '(ke, ki) := keys in
  (* the plaintext before the check, decrypted first without SHA-2 only *)
  res_bind (if ae_sha2 e then Ok None
            else res_bind (or_integrity (aes_cts_decrypt ke iv encrypted)) (λ r, Ok (Some r))) (λ early,
  let macInput :=
    match early with
    | None => iv ++ encrypted ++ associated
    | Some (plain, _) => plain ++ associated
    end in
  res_bind (prefix (hmacDigest (ae_hash e) ki macInput) (ae_checksumSize e)) (λ expectedMAC,
  if negb (bytes_eqb expectedMAC suppliedMAC) then integrity_error else
  res_bind (match early with
            | None => or_integrity (aes_cts_decrypt ke iv encrypted)
            | Some r => Ok r
            end) (λ r,
  let '(plain, nextIV) := r in
  if length plain <? 16 then integrity_error
  else Ok (drop 16 plain, nextIV)))))).

Definition aes_Checksum (e : aesEType) (key : bytes) (usage : Z) (data : bytes) : res bytes :=
  res_bind (wrap_err "etype checksum: " (validateKey key (ae_keySize e))) (λ _,
  res_bind (wrap_err "etype checksum: " (deriveChecksumKey e key usage)) (λ keys,
  prefix (hmacDigest (ae_hash e) keys.1 data) (ae_checksumSize e))).

(** ** The interface *)

Definition EncryptWithIV (e : EType) (confounder : res bytes) (key : bytes) (usage : Z)
    (plaintext iv : bytes) : res (bytes * bytes) :=
  match e with
  | EAes e => aes_encrypt e confounder key usage plaintext iv []
  | ECamellia e => camellia_encrypt e confounder key usage plaintext iv []
  end.
Definition DecryptWithIV (e : EType) (key : bytes) (usage : Z) (ciphertext iv : bytes)
    : res (bytes * bytes) :=
  match e with
  | EAes e => aes_decrypt e key usage ciphertext iv []
  | ECamellia e => camellia_decrypt e key usage ciphertext iv []
  end.
Definition EncryptWithAssociatedData (e : EType) (confounder : res bytes) (key : bytes) (usage : Z)
    (plaintext associated : bytes) : res bytes :=
  res_bind (match e with
            | EAes e => aes_encrypt e confounder key usage plaintext (zeros 16) associated
            | ECamellia e => camellia_encrypt e confounder key usage plaintext (zeros 16) associated
            end) (λ r, Ok r.1).
Definition DecryptWithAssociatedData (e : EType) (key : bytes) (usage : Z)
    (ciphertext associated : bytes) : res bytes :=
  res_bind (match e with
            | EAes e => aes_decrypt e key usage ciphertext (zeros 16) associated
            | ECamellia e => camellia_decrypt e key usage ciphertext (zeros 16) associated
            end) (λ r, Ok r.1).
Definition etype_Encrypt (e : EType) (confounder : res bytes) (key : bytes) (usage : Z)
    (plaintext : bytes) : res bytes :=
  res_bind (EncryptWithIV e confounder key usage plaintext (zeros 16)) (λ r, Ok r.1).
Definition etype_Decrypt (e : EType) (key : bytes) (usage : Z) (ciphertext : bytes) : res bytes :=
  res_bind (DecryptWithIV e key usage ciphertext (zeros 16)) (λ r, Ok r.1).

Definition ChecksumSize (e : EType) : nat :=
  match e with EAes e => ae_checksumSize e | ECamellia _ => 16 end.
Definition Checksum (e : EType) (key : bytes) (usage : Z) (data : bytes) : res bytes :=
  match e with
  | EAes e => aes_Checksum e key usage data
  | ECamellia e => camellia_Checksum e key usage data
  end.
Definition VerifyChecksum (e : EType) (key : bytes) (usage : Z) (data checksum : bytes) : res unit :=
  res_bind (Checksum e key usage data) (λ expected,
    if negb (bytes_eqb expected checksum) then Err ("etype verify checksum: " +:+ ErrIntegrity)
    else Ok tt).

(** ** The pseudo-random function and KRB-FX-CF2 *)

(** A nil interface is [None]. *)
Definition PRF (e : option EType) (key input : bytes) : res bytes :=
  match e with
  | None => Err "PRF: nil enctype"
  | Some (ECamellia cam) =>
      res_bind (validateKey key (ce_keySize cam)) (λ _,
      res_bind (camelliaDerive key (str "prf") (ce_keySize cam)) (λ dkey,
      camelliaCMACKey dkey input))
  | Some (EAes aes) =>
      res_bind (validateKey key (ae_keySize aes)) (λ _,
      if ae_sha2 aes then
        kdfSHA2 (ae_hash aes) key (str "prf") input (Z.of_nat (hash_Size (ae_hash aes)) * 8)
      else
        res_bind (dkAES key (str "prf") (ae_keySize aes)) (λ dkey,
        res_bind (prefix (sha1_Sum input) 16) (λ block,
        aescts_Encrypt aes_NewCipher dkey (zeros 16) block)))
  end.

Definition PRFOutputSize (e : EType) : nat :=
  match e with
  | EAes e => if ae_sha2 e then hash_Size (ae_hash e) else 16
  | ECamellia _ => 16
  end.

(** The loop of [prfPlus]: the counter is a byte, and the loop gives up when it
    wraps to zero; [n] is the number of counters left. *)
Fixpoint prf_plus_loop (n : nat) (e : option EType) (key sharedInfo : bytes) (size : nat)
    (counter : Z) (out : bytes) : res bytes :=
  if size <=? length out then prefix out size
  else if (counter =? 0)%Z then Err "CF2: shared info too long"
  else match n with
  | O => Panic
  | S n =>
      res_bind (PRF e key (z2b counter :: sharedInfo)) (λ part,
        prf_plus_loop n e key sharedInfo size (u8 (counter + 1)) (out ++ part))
  end.
Definition prfPlus (e : option EType) (key sharedInfo : bytes) (size : nat) : res bytes :=
  prf_plus_loop 255 e key sharedInfo size 1 [].

Definition CF2WithKeyEType (e1 : option EType) (key1 : bytes) (e2 : option EType) (key2 pepper1 pepper2 : bytes)
    : res bytes :=
  match e1, e2 with
  | Some t1, Some t2 =>
      if negb (length key1 =? etype_KeySize t1) || negb (length key2 =? etype_KeySize t2)
      then Err "CF2: invalid key length"
      else
        res_bind (prfPlus e1 key1 pepper1 (etype_KeySize t1)) (λ first,
        res_bind (prfPlus e2 key2 pepper2 (etype_KeySize t1)) (λ second,
        if negb (length first =? length second) || negb (length first =? etype_KeySize t1)
        then Err "CF2: invalid PRF output length"
        else Ok (xor first second)))
  | _, _ => Err "CF2: nil enctype"
  end.
Definition CF2 (e : option EType) (key1 key2 pepper1 pepper2 : bytes) : res bytes :=
  CF2WithKeyEType e key1 e key2 pepper1 pepper2.

(** ** String to key *)

(** One block of PBKDF2: the rounds after the first. *)
Fixpoint pbkdf2_rounds (n : nat) (h : hash) (password u t : bytes) : bytes :=
  match n with
  | O => t
  | S n =>
      let u := hmac_sum h password u in
      pbkdf2_rounds n h password u (xor t u)
  end.

Fixpoint pbkdf2_blocks (count : nat) (i : Z) (h : hash) (password salt : bytes) (iterations : Z)
    (out : bytes) : bytes :=
  match count with
  | O => out
  | S count =>
      let u := hmac_sum h password (salt ++ be_bytes 4 (u32 i)) in
      let t := pbkdf2_rounds (Z.to_nat (iterations - 1)) h password u u in
      pbkdf2_blocks count (i + 1) h password salt iterations (out ++ t)
  end.

Definition pbkdf2Key (h : hash) (password salt : bytes) (iterations : Z) (size : Z) : res bytes :=
  if ((iterations <=? 0) || (maxPBKDF2Iterations <=? u64 iterations) || (size <? 0))%Z
  then Err "invalid PBKDF2 parameters"
  else
    let blocks := ((size + Z.of_nat (hash_Size h) - 1) / Z.of_nat (hash_Size h))%Z in
    if (2 ^ 32 - 1 <? u64 blocks)%Z then Err "PBKDF2 output too long"
    else prefix (pbkdf2_blocks (Z.to_nat blocks) 1 h password salt iterations []) (Z.to_nat size).

Definition StringToKey (e : EType) (password salt params : bytes) : res bytes :=
  match e with
  | ECamellia e =>
      res_bind (wrap_err "etype string-to-key: " (parseIterations params 32768)) (λ iterations,
      let saltInput := str (ce_name e) ++ [Byte.x00] ++ salt in
      res_bind (wrap_err "etype string-to-key: "
        (pbkdf2Key SHA1 password saltInput iterations (Z.of_nat (ce_keySize e)))) (λ tkey,
      camelliaDerive tkey (str "kerberos") (ce_keySize e)))
  | EAes e =>
      res_bind (wrap_err "etype string-to-key: " (parseIterations params (ae_defaultRounds e))) (λ iterations,
      let saltInput := if ae_sha2 e then str (ae_name e) ++ [Byte.x00] ++ salt else salt in
      res_bind (wrap_err "etype string-to-key: "
        (pbkdf2Key (ae_hash e) password saltInput iterations (Z.of_nat (ae_keySize e)))) (λ tkey,
      if ae_sha2 e then kdfSHA2 (ae_hash e) tkey (str "kerberos") [] (Z.of_nat (ae_keySize e) * 8)
      else dkAES tkey (str "kerberos") (ae_keySize e)))
  end.
End aes.

(** ** Lemmas: CMAC and Camellia keys *)

(** The encryption types the registry hands out. *)
Definition registered (e : EType) : Prop := ∃ fips id, Registry_Get fips id = Ok e.

Lemma registered_cases e :
  registered e →
  match e with
  | EAes a => (ae_keySize a = 16 ∨ ae_keySize a = 32) ∧ ae_checksumSize a ≤ hash_Size (ae_hash a) ∧
      0 < ae_checksumSize a ∧
      (ae_sha2 a = true → ae_keySize a ≤ hash_Size (ae_hash a))
  | ECamellia c => ce_keySize c = 16 ∨ ce_keySize c = 32
  end.
Proof.
  intros (fips & id & Hg). unfold Registry_Get in Hg.
  repeat case_match; simplify_eq; cbn; lia.
Qed.

Lemma prefix_ok l n : n ≤ length l → prefix l n = Ok (take n l).
Proof. intros Hn. unfold prefix. by rewrite (proj2 (Nat.leb_le _ _)). Qed.

Lemma New_ok key : length key = 16 ∨ length key = 32 → ∃ c, New key = Ok c.
Proof.
  intros Hk. pose proof (New_cases key) as Hn.
  assert (Hz : (zlen key =? 16)%Z || (zlen key =? 24)%Z || (zlen key =? 32)%Z = true).
  { unfold zlen. destruct Hk as [-> | ->]; done. }
  rewrite Hz in Hn. destruct Hn as (c & Hc & _). eauto.
Qed.

(** Each round adds a block, so as many rounds as bytes are enough. *)
Lemma camellia_derive_loop_ok fuel block label size counter previous out :
  size ≤ length out + fuel →
  ∃ key, camellia_derive_loop fuel block label size counter previous out = Ok key ∧ length key = size.
Proof.
  revert counter previous out. induction fuel as [|fuel IH]; intros counter previous out Hf;
    cbn [camellia_derive_loop]; destruct (Nat.leb_spec size (length out)) as [Hs|Hs].
  1,3: rewrite prefix_ok by done; eexists; split; [done|]; rewrite length_take; lia.
  - lia.
  - apply IH. rewrite length_app, length_cmac_Sum. cbn. lia.
Qed.

Lemma camelliaDerive_ok key label size :
  length key = 16 ∨ length key = 32 → ∃ out, camelliaDerive key label size = Ok out ∧ length out = size.
Proof.
  intros Hk. unfold camelliaDerive. destruct (New_ok key Hk) as [c ->]. cbn [res_bind].
  apply camellia_derive_loop_ok. cbn. lia.
Qed.

Lemma camelliaCMACKey_ok key data :
  length key = 16 ∨ length key = 32 → ∃ mac, camelliaCMACKey key data = Ok mac ∧ length mac = 16.
Proof.
  intros Hk. unfold camelliaCMACKey. destruct (New_ok key Hk) as [c ->]. cbn [res_bind].
  eexists. split; [done|]. exact (length_cmac_Sum (C := camelliaCipher) c data).
Qed.

Lemma camelliaCTS_ok key iv p :
  length key = 16 ∨ length key = 32 → length iv = 16 → 16 ≤ length p →
  ∃ ct st, camelliaCTS key iv p false = Ok (ct, st) ∧ length ct = length p ∧
    camelliaCTS key iv ct true = Ok (p, st).
Proof.
  intros Hk Hiv Hp. unfold camelliaCTS. destruct (New_ok key Hk) as [c ->]. cbn [res_bind].
  destruct (@cts_ok _ camellia_block _ c iv p Hiv Hp) as (ct & st & He & Hl & _ & Hd).
  exists ct, st. rewrite Hl. change (BlockSize (C := camelliaCipher)) with 16.
  rewrite Hiv, Nat.eqb_refl, (proj2 (Nat.ltb_ge _ _)) by done. done.
Qed.

(** ** Lemmas: AES keys *)

Section aes_proofs.
Context `{GoCryptoLaws}.

Lemma aes_cts_ok key iv p :
  length key = 16 ∨ length key = 32 → length iv = 16 → 16 ≤ length p →
  ∃ ct st, aes_cts_encrypt key iv p = Ok (ct, st) ∧ length ct = length p ∧
    aes_cts_decrypt key iv ct = Ok (p, st).
Proof.
  intros Hk Hiv Hp. unfold aes_cts_encrypt, aes_cts_decrypt, EncryptWithState, DecryptWithState, newBlock.
  destruct (aes_NewCipher_ok key) as [b ->]; [lia|]. rewrite AES_BlockSize, Hiv. cbn [Nat.eqb negb res_bind].
  destruct (cts_ok b iv p) as (ct & st & He & Hl & _ & Hd); [by rewrite AES_BlockSize|by rewrite AES_BlockSize|].
  exists ct, st. unfold aes_BlockSize. rewrite Hl, (proj2 (Nat.ltb_ge _ _)) by done. by rewrite He, Hd.
Qed.

Lemma dk_loop_ok fuel key size input out :
  length key = 16 ∨ length key = 32 → length input = 16 → size ≤ length out + fuel →
  ∃ dk, dk_loop fuel key size input out = Ok dk ∧ length dk = size.
Proof.
  intros Hk. revert input out. induction fuel as [|fuel IH]; intros input out Hi Hf;
    cbn [dk_loop]; destruct (Nat.leb_spec size (length out)) as [Hs|Hs].
  1,3: rewrite prefix_ok by done; eexists; split; [done|]; rewrite length_take; lia.
  - lia.
  - destruct (aes_cts_ok key (zeros 16) input Hk ltac:(done) ltac:(lia)) as (ct & st & He & Hl & _).
    unfold aescts_Encrypt. unfold aes_cts_encrypt in He. rewrite He. cbn [res_bind fst].
    apply IH; [lia|]. rewrite length_app. lia.
Qed.

Lemma dkAES_ok key constant size :
  length key = 16 ∨ length key = 32 → constant ≠ [] →
  ∃ dk, dkAES key constant size = Ok dk ∧ length dk = size.
Proof.
  intros Hk Hc. unfold dkAES, nFold_bytes.
  destruct (nFold_correct constant 16 Hc ltac:(lia)) as (f & Hf & Hl & _).
  change (8 * 16) with 128 in Hf. rewrite Hf. cbn [res_bind]. apply dk_loop_ok; [done|done|cbn; lia].
Qed.

Lemma kdfSHA2_ok h key label context n :
  0 < n ≤ hash_Size h →
  ∃ out, kdfSHA2 h key label context (Z.of_nat n * 8) = Ok out ∧ length out = n.
Proof.
  intros Hn. unfold kdfSHA2. rewrite Z.rem_mul by lia. rewrite (proj2 (Z.leb_gt _ _)) by lia. cbn [orb negb Z.eqb].
  rewrite Z.div_mul, Nat2Z.id by lia. unfold hmacDigest.
  rewrite prefix_ok by (rewrite length_hmac; lia). eexists. split; [done|].
  rewrite length_take, length_hmac. lia.
Qed.

Lemma usage_label_nonempty usage b : usage_label usage b ≠ [].
Proof. unfold usage_label. intros E. apply app_eq_nil in E as [_ E]. done. Qed.

Lemma deriveKeys_ok e key usage :
  registered (EAes e) → length key = ae_keySize e →
  ∃ kc ke ki, deriveKeys e key usage = Ok (kc, ke, ki) ∧ length ke = ae_keySize e.
Proof.
  intros (Hks & Hcs & Hc0 & Hh)%registered_cases Hk. unfold deriveKeys.
  assert (Hk' : length key = 16 ∨ length key = 32) by lia. destruct (ae_sha2 e).
  - specialize (Hh eq_refl).
    edestruct (kdfSHA2_ok (ae_hash e) key) as (kc & -> & _); [|cbn [res_bind]]; [lia|].
    edestruct (kdfSHA2_ok (ae_hash e) key) as (ke & -> & Hke); [|cbn [res_bind]]; [lia|].
    edestruct (kdfSHA2_ok (ae_hash e) key) as (ki & -> & _); [|cbn [res_bind]]; [lia|]. eauto 6.
  - edestruct (dkAES_ok key) as (kc & -> & _); [done|apply usage_label_nonempty|cbn [res_bind]].
    edestruct (dkAES_ok key) as (ke & -> & Hke); [done|apply usage_label_nonempty|cbn [res_bind]].
    edestruct (dkAES_ok key) as (ki & -> & _); [done|apply usage_label_nonempty|cbn [res_bind]]. eauto 6.
Qed.

Lemma take_drop_mac (body mac : bytes) n :
  length mac = n →
  take (length (body ++ mac) - n) (body ++ mac) = body ∧ drop (length (body ++ mac) - n) (body ++ mac) = mac.
Proof.
  intros Hm. rewrite length_app, Hm, Nat.add_sub. by rewrite take_app_length, drop_app_length.
Qed.

Lemma bytes_eqb_refl b : bytes_eqb b b = true.
Proof. unfold bytes_eqb. by apply bool_decide_eq_true_2. Qed.

Lemma aes_roundtrip e conf key usage p iv ad :
  registered (EAes e) → length key = ae_keySize e → length conf = 16 → length iv = 16 →
  ∃ ct next, aes_encrypt e (Ok conf) key usage p iv ad = Ok (ct, next) ∧
    length ct = 16 + length p + ae_checksumSize e ∧
    aes_decrypt e key usage ct iv ad = Ok (p, next).
Proof.
  intros Hreg Hk Hconf Hiv. unfold aes_encrypt, aes_decrypt, validateKey.
  rewrite Hk, Hiv, Nat.eqb_refl. cbn [wrap_err res_bind negb Nat.eqb].
  unfold deriveEncryptionKeys. destruct (deriveKeys_ok e key usage Hreg Hk) as (kc & ke & ki & -> & Hke).
  cbn [wrap_err res_bind]. destruct (registered_cases _ Hreg) as (Hks & Hcs & Hc0 & _).
  destruct (aes_cts_ok ke iv (conf ++ p)) as (ct & st & -> & Hl & Hd); [lia|done|rewrite length_app; lia|].
  cbn [wrap_err res_bind]. unfold hmacDigest.
  set (macInput := if ae_sha2 e then _ else _).
  set (mac := take (ae_checksumSize e) (hmac_sum (ae_hash e) ki macInput)).
  assert (Hmac : length mac = ae_checksumSize e).
  { unfold mac. rewrite length_take, length_hmac. lia. }
  rewrite prefix_ok by (rewrite length_hmac; lia). fold mac. cbn [res_bind].
  eexists _, _. split; [done|]. rewrite length_app in Hl. split; [rewrite length_app; lia|].
  rewrite (proj2 (Nat.ltb_ge _ _)) by (rewrite length_app; lia).
  destruct (take_drop_mac ct mac _ Hmac) as [-> ->]. unfold macInput in mac.
  assert (Hlt : length (conf ++ p) <? 16 = false) by (apply Nat.ltb_ge; rewrite length_app; lia).
  assert (Hdrop : drop 16 (conf ++ p) = p) by (by apply drop_app_length').
  destruct (ae_sha2 e); cbn [res_bind]; rewrite ?Hd; cbn [or_integrity res_bind];
    rewrite prefix_ok by (rewrite length_hmac; lia); cbn [res_bind]; fold mac; rewrite bytes_eqb_refl;
    cbn [negb]; rewrite ?Hd; cbn [or_integrity res_bind]; by rewrite Hlt, Hdrop.
Qed.
End aes_proofs.

Lemma camellia_keys_ok e key usage suffix :
  registered (ECamellia e) → length key = ce_keySize e →
  ∃ dk, camelliaDerivedUsage key usage suffix = Ok dk ∧ (length dk = 16 ∨ length dk = 32).
Proof.
  intros Hks%registered_cases Hk. unfold camelliaDerivedUsage.
  destruct (camelliaDerive_ok key (usage_label usage suffix) (length key)) as (dk & -> & Hl); [lia|].
  exists dk. split; [done|lia].
Qed.

Lemma camellia_roundtrip e conf key usage p iv ad :
  registered (ECamellia e) → length key = ce_keySize e → length conf = 16 → length iv = 16 →
  ∃ ct next, camellia_encrypt e (Ok conf) key usage p iv ad = Ok (ct, next) ∧
    length ct = 16 + length p + 16 ∧
    camellia_decrypt e key usage ct iv ad = Ok (p, next).
Proof.
  intros Hreg Hk Hconf Hiv. unfold camellia_encrypt, camellia_decrypt, validateKey.
  rewrite Hk, Hiv, Nat.eqb_refl. cbn [wrap_err res_bind negb Nat.eqb orb].
  destruct (camellia_keys_ok e key usage Byte.xaa Hreg Hk) as (ke & -> & Hke).
  destruct (camellia_keys_ok e key usage Byte.x55 Hreg Hk) as (ki & -> & Hki). cbn [res_bind].
  destruct (camelliaCTS_ok ke iv (conf ++ p)) as (ct & st & -> & Hl & Hd); [done|done|rewrite length_app; lia|].
  cbn [res_bind]. destruct (camelliaCMACKey_ok ki ((conf ++ p) ++ ad) Hki) as (mac & Hm & Hmac).
  rewrite Hm. cbn [res_bind]. eexists _, _. split; [done|].
  rewrite length_app in Hl. split; [rewrite length_app; lia|].
  rewrite (proj2 (Nat.ltb_ge _ _)) by (rewrite length_app; lia).
  destruct (take_drop_mac ct mac _ Hmac) as [-> ->]. rewrite Hd. cbn [or_integrity res_bind].
  rewrite (proj2 (Nat.ltb_ge _ _)) by (rewrite length_app; lia).
  rewrite Hm. cbn [or_integrity res_bind]. rewrite bytes_eqb_refl. cbn [negb].
  by rewrite (drop_app_length' conf).
Qed.

(** *** What decryption accepts *)

Section accepts.
Context `{GoCryptoLaws}.

Lemma aes_cts_onto key iv ct :
  length key = 16 ∨ length key = 32 → length iv = 16 → 16 ≤ length ct →
  ∃ p st, aes_cts_decrypt key iv ct = Ok (p, st) ∧ length p = length ct ∧
    aes_cts_encrypt key iv p = Ok (ct, st).
Proof.
  intros Hk Hiv Hp. unfold aes_cts_encrypt, aes_cts_decrypt, EncryptWithState, DecryptWithState, newBlock.
  destruct (aes_NewCipher_ok key) as [b ->]; [lia|]. rewrite AES_BlockSize, Hiv. cbn [Nat.eqb negb res_bind].
  destruct (cts_onto b iv ct) as (p & st & Hd & Hl & He); [by rewrite AES_BlockSize|by rewrite AES_BlockSize|].
  exists p, st. unfold aes_BlockSize. rewrite Hl, (proj2 (Nat.ltb_ge _ _)) by done. by rewrite He, Hd.
Qed.

Lemma camelliaCTS_onto key iv ct :
  length key = 16 ∨ length key = 32 → length iv = 16 → 16 ≤ length ct →
  ∃ p st, camelliaCTS key iv ct true = Ok (p, st) ∧ length p = length ct ∧
    camelliaCTS key iv p false = Ok (ct, st).
Proof.
  intros Hk Hiv Hp. unfold camelliaCTS. destruct (New_ok key Hk) as [c ->]. cbn [res_bind].
  destruct (@cts_onto _ camellia_block _ c iv ct Hiv Hp) as (p & st & Hd & Hl & He).
  exists p, st. rewrite Hl. change (BlockSize (C := camelliaCipher)) with 16.
  rewrite Hiv, Nat.eqb_refl, (proj2 (Nat.ltb_ge _ _)) by done. done.
Qed.

Lemma split_mac (ct : bytes) n :
  n ≤ length ct →
  ct = take (length ct - n) ct ++ drop (length ct - n) ct ∧ length (take (length ct - n) ct) = length ct - n.
Proof. intros Hn. split; [by rewrite take_drop|]. rewrite length_take. lia. Qed.

Lemma bytes_eqb_true a b : bytes_eqb a b = true → a = b.
Proof. unfold bytes_eqb. by intros ?%bool_decide_eq_true. Qed.

Lemma plain_split (plain : bytes) :
  16 ≤ length plain → ∃ conf p, plain = conf ++ p ∧ length conf = 16 ∧ drop 16 plain = p.
Proof.
  intros Hl. exists (take 16 plain), (drop 16 plain). split_and!; [by rewrite take_drop| |done].
  rewrite length_take. lia.
Qed.

Lemma aes_decrypt_cases e key usage ct iv ad :
  registered (EAes e) → length key = ae_keySize e → length iv = 16 →
  aes_decrypt e key usage ct iv ad = integrity_error ∨
  ∃ conf p next, aes_decrypt e key usage ct iv ad = Ok (p, next) ∧ length conf = 16 ∧
    aes_encrypt e (Ok conf) key usage p iv ad = Ok (ct, next).
Proof.
  intros Hreg Hk Hiv. unfold aes_encrypt, aes_decrypt, validateKey.
  rewrite Hk, Hiv, Nat.eqb_refl. cbn [wrap_err res_bind negb Nat.eqb].
  destruct (Nat.ltb_spec (length ct) (16 + ae_checksumSize e)) as [|Hlen]; [by left|].
  destruct (split_mac ct (ae_checksumSize e) ltac:(lia)) as [Hct Hbody].
  set (body := take _ ct) in *. set (mac := drop _ ct) in *.
  unfold deriveEncryptionKeys. destruct (deriveKeys_ok e key usage Hreg Hk) as (kc & ke & ki & -> & Hke).
  cbn [wrap_err res_bind]. destruct (registered_cases _ Hreg) as (Hks & Hcs & Hc0 & _).
  destruct (aes_cts_onto ke iv body) as (plain & st & Hd & Hl & He); [lia|done|lia|].
  destruct (plain_split plain ltac:(lia)) as (conf & p & -> & Hconf & Hdrop).
  assert (Hlt : length (conf ++ p) <? 16 = false) by (apply Nat.ltb_ge; lia).
  unfold hmacDigest. destruct (ae_sha2 e) eqn:Hsha; cbn [res_bind]; rewrite ?Hd; cbn [or_integrity res_bind];
    rewrite prefix_ok by (rewrite length_hmac; lia); cbn [res_bind];
    (destruct (bytes_eqb _ mac) eqn:Heq; cbn [negb]; [|by left]); apply bytes_eqb_true in Heq;
    rewrite ?Hd; cbn [or_integrity res_bind]; rewrite Hlt, Hdrop; right; exists conf, p, st;
    (split_and!; [done|done|]); cbn [wrap_err res_bind]; rewrite He; cbn [wrap_err res_bind];
    rewrite prefix_ok by (rewrite length_hmac; lia); cbn [res_bind]; rewrite Heq; by rewrite <- Hct.
Qed.

Lemma camellia_decrypt_cases e key usage ct iv ad :
  registered (ECamellia e) → length key = ce_keySize e → length iv = 16 →
  camellia_decrypt e key usage ct iv ad = integrity_error ∨
  ∃ conf p next, camellia_decrypt e key usage ct iv ad = Ok (p, next) ∧ length conf = 16 ∧
    camellia_encrypt e (Ok conf) key usage p iv ad = Ok (ct, next).
Proof.
  intros Hreg Hk Hiv. unfold camellia_encrypt, camellia_decrypt, validateKey.
  rewrite Hk, Hiv, Nat.eqb_refl. cbn [wrap_err res_bind negb Nat.eqb orb].
  destruct (Nat.ltb_spec (length ct) (16 + 16)) as [|Hlen]; [by left|].
  destruct (split_mac ct 16 ltac:(lia)) as [Hct Hbody].
  set (body := take _ ct) in *. set (mac := drop _ ct) in *.
  destruct (camellia_keys_ok e key usage Byte.xaa Hreg Hk) as (ke & -> & Hke).
  destruct (camellia_keys_ok e key usage Byte.x55 Hreg Hk) as (ki & -> & Hki). cbn [res_bind].
  destruct (camelliaCTS_onto ke iv body) as (plain & st & -> & Hl & He); [done|done|lia|].
  destruct (plain_split plain ltac:(lia)) as (conf & p & -> & Hconf & Hdrop). cbn [or_integrity res_bind].
  rewrite (proj2 (Nat.ltb_ge _ _)) by lia.
  destruct (camelliaCMACKey_ok ki ((conf ++ p) ++ ad) Hki) as (mac' & Hm & _). rewrite Hm.
  cbn [or_integrity res_bind]. destruct (bytes_eqb mac' mac) eqn:Heq; cbn [negb]; [|by left].
  apply bytes_eqb_true in Heq. right. exists conf, p, st. rewrite Hdrop. split_and!; [done|done|].
  cbn [wrap_err res_bind]. rewrite He. cbn [res_bind]. rewrite Hm. cbn [res_bind]. by rewrite Heq, <- Hct.
Qed.
End accepts.

(** *** Keys derived from keys and passwords *)

Section derived.
Context `{GoCryptoLaws}.

Lemma PRF_ok e key input :
  registered e → length key = etype_KeySize e →
  ∃ out, PRF (Some e) key input = Ok out ∧ length out = PRFOutputSize e.
Proof.
  intros Hreg Hk. pose proof (registered_cases e Hreg) as Hc. unfold PRF, validateKey.
  destruct e as [e|e]; cbn [etype_KeySize PRFOutputSize] in *; rewrite Hk, Nat.eqb_refl; cbn [res_bind].
  - destruct Hc as (Hks & Hcs & Hc0 & Hh). destruct (ae_sha2 e).
    + apply kdfSHA2_ok. destruct (ae_hash e); cbn; lia.
    + destruct (dkAES_ok key (str "prf") (ae_keySize e)) as (dk & -> & Hl); [lia|done|]. cbn [res_bind].
      rewrite prefix_ok by (rewrite length_sha1; lia). cbn [res_bind]. unfold aescts_Encrypt.
      assert (Hb : length (take 16 (sha1_Sum input)) = 16) by (rewrite length_take, length_sha1; lia).
      destruct (aes_cts_ok dk (zeros 16) (take 16 (sha1_Sum input))) as (ct & st & He & Hlc & _); [lia|done|lia|].
      unfold aes_cts_encrypt in He. rewrite He. cbn [res_bind fst]. exists ct. split; [done|lia].
  - destruct (camelliaDerive_ok key (str "prf") (ce_keySize e)) as (dk & -> & Hl); [lia|]. cbn [res_bind].
    apply camelliaCMACKey_ok. lia.
Qed.

Lemma prf_plus_loop_ok n e key info size counter out :
  registered e → length key = etype_KeySize e → (counter = 256 - Z.of_nat n)%Z → n < 256 →
  size ≤ length out + n * PRFOutputSize e →
  ∃ r, prf_plus_loop n (Some e) key info size counter out = Ok r ∧ length r = size.
Proof.
  intros Hreg Hk. revert counter out. induction n as [|n IH]; intros counter out Hc Hn Hs;
    cbn [prf_plus_loop]; destruct (Nat.leb_spec size (length out)) as [Hle|Hgt].
  1,3: rewrite prefix_ok by done; eexists; split; [done|]; rewrite length_take; lia.
  - lia.
  - rewrite (proj2 (Z.eqb_neq _ _)) by lia.
    destruct (PRF_ok e key (z2b counter :: info) Hreg Hk) as (part & -> & Hl). cbn [res_bind].
    destruct n as [|n].
    + cbn [prf_plus_loop]. rewrite (proj2 (Nat.leb_le _ _)) by (rewrite length_app; lia).
      rewrite prefix_ok by (rewrite length_app; lia). eexists. split; [done|].
      rewrite length_take, length_app. lia.
    + apply IH; [|lia|rewrite length_app; lia]. unfold u8. rewrite Z.mod_small by lia. lia.
Qed.

Lemma PRFOutputSize_ge e : registered e → 16 ≤ PRFOutputSize e.
Proof. destruct e as [e|e]; cbn; [|lia]. destruct (ae_sha2 e), (ae_hash e); cbn; lia. Qed.

Lemma KeySize_le e : registered e → etype_KeySize e ≤ 32.
Proof. intros Hr%registered_cases. destruct e; cbn; lia. Qed.

Lemma prfPlus_ok e key info size :
  registered e → length key = etype_KeySize e → size ≤ 32 →
  ∃ r, prfPlus (Some e) key info size = Ok r ∧ length r = size.
Proof.
  intros Hreg Hk Hs. apply prf_plus_loop_ok; [done|done|done|lia|].
  pose proof (PRFOutputSize_ge e Hreg). cbn [length]. lia.
Qed.

Lemma CF2_ok e1 key1 e2 key2 pepper1 pepper2 :
  registered e1 → registered e2 → length key1 = etype_KeySize e1 → length key2 = etype_KeySize e2 →
  ∃ r1 r2, prfPlus (Some e1) key1 pepper1 (etype_KeySize e1) = Ok r1 ∧
    prfPlus (Some e2) key2 pepper2 (etype_KeySize e1) = Ok r2 ∧
    length r1 = etype_KeySize e1 ∧ length r2 = etype_KeySize e1 ∧
    CF2WithKeyEType (Some e1) key1 (Some e2) key2 pepper1 pepper2 = Ok (xor r1 r2).
Proof.
  intros H1 H2 Hk1 Hk2. pose proof (KeySize_le e1 H1) as Hle.
  destruct (prfPlus_ok e1 key1 pepper1 (etype_KeySize e1) H1 Hk1 Hle) as (r1 & Hr1 & Hl1).
  destruct (prfPlus_ok e2 key2 pepper2 (etype_KeySize e1) H2 Hk2 Hle) as (r2 & Hr2 & Hl2).
  exists r1, r2. split_and!; [done..|]. unfold CF2WithKeyEType.
  rewrite Hk1, Hk2, !Nat.eqb_refl. cbn [negb orb]. rewrite Hr1. cbn [res_bind]. rewrite Hr2. cbn [res_bind].
  rewrite Hl1, Hl2, Nat.eqb_refl. done.
Qed.

Lemma length_pbkdf2_rounds n h password u t :
  length t = hash_Size h → length (pbkdf2_rounds n h password u t) = hash_Size h.
Proof.
  revert u t. induction n as [|n IH]; intros u t Ht; cbn [pbkdf2_rounds]; [done|].
  apply IH, length_xor_block; [done|apply length_hmac].
Qed.

Lemma length_pbkdf2_blocks count i h password salt iterations out :
  length (pbkdf2_blocks count i h password salt iterations out) = length out + count * hash_Size h.
Proof.
  revert i out. induction count as [|count IH]; intros i out; cbn [pbkdf2_blocks]; [lia|].
  rewrite IH, length_app, length_pbkdf2_rounds by apply length_hmac. lia.
Qed.

Lemma pbkdf2Key_ok h password salt iterations size :
  (0 < iterations < maxPBKDF2Iterations)%Z → size ≤ 32 →
  ∃ key, pbkdf2Key h password salt iterations (Z.of_nat size) = Ok key ∧ length key = size.
Proof.
  intros Hi Hs. unfold pbkdf2Key, maxPBKDF2Iterations, u64 in *. rewrite (Z.mod_small iterations) by lia.
  rewrite (proj2 (Z.leb_gt iterations 0)), (proj2 (Z.leb_gt 0x1000000 iterations)),
    (proj2 (Z.ltb_ge (Z.of_nat size) 0)) by lia. cbn [orb].
  set (hs := Z.of_nat (hash_Size h)). assert (Hhs : (0 < hs)%Z) by (unfold hs; destruct h; done).
  set (b := ((Z.of_nat size + hs - 1) / hs)%Z).
  assert (Hb : (0 <= b)%Z) by (apply Z.div_pos; lia).
  assert (Hb2 : (b <= 64)%Z) by (apply Z.div_le_upper_bound; lia).
  assert (Hb3 : (Z.of_nat size <= b * hs)%Z).
  { pose proof (Z.div_mod (Z.of_nat size + hs - 1) hs ltac:(lia)) as Hd.
    pose proof (Z.mod_pos_bound (Z.of_nat size + hs - 1) hs Hhs). fold b in Hd. lia. }
  rewrite (Z.mod_small b), (proj2 (Z.ltb_ge _ _)), Nat2Z.id by lia.
  rewrite prefix_ok by (rewrite length_pbkdf2_blocks; cbn [length]; unfold hs in *; lia).
  eexists. split; [done|]. rewrite length_take, length_pbkdf2_blocks. cbn [length]. unfold hs in *. lia.
Qed.

Lemma parseIterations_bounds params d n :
  (0 < d < maxPBKDF2Iterations)%Z → parseIterations params d = Ok n → (d <= n < maxPBKDF2Iterations)%Z.
Proof.
  intros Hd. unfold parseIterations. destruct (length params =? 0); [intros [= <-]; lia|].
  destruct (negb _); [done|]. cbv zeta.
  destruct (Z.eqb_spec (be_value params) 0); [done|].
  destruct (Z.ltb_spec (be_value params) d); [done|]. cbn [orb].
  destruct (Z.leb_spec maxPBKDF2Iterations (be_value params)); [done|]. intros [= <-]. lia.
Qed.

Lemma parseIterations_no_panic params d : parseIterations params d ≠ Panic.
Proof. unfold parseIterations. repeat case_match; done. Qed.
End derived.

(** ** Theorems *)

Section theorems.
Context `{GoCryptoLaws}.

(** Encryption and decryption with all their arguments. *)
Definition encrypt_full (e : EType) conf key usage p iv ad : res (bytes * bytes) :=
  match e with
  | EAes e => aes_encrypt e conf key usage p iv ad
  | ECamellia e => camellia_encrypt e conf key usage p iv ad
  end.
Definition decrypt_full (e : EType) key usage ct iv ad : res (bytes * bytes) :=
  match e with
  | EAes e => aes_decrypt e key usage ct iv ad
  | ECamellia e => camellia_decrypt e key usage ct iv ad
  end.

Lemma full_roundtrip e conf key usage p iv ad :
  registered e → length key = etype_KeySize e → length conf = 16 → length iv = 16 →
  ∃ ct next, encrypt_full e (Ok conf) key usage p iv ad = Ok (ct, next) ∧
    length ct = 16 + length p + ChecksumSize e ∧
    decrypt_full e key usage ct iv ad = Ok (p, next).
Proof.
  destruct e as [e|e]; cbn [encrypt_full decrypt_full etype_KeySize ChecksumSize]; intros Hr Hk Hc Hiv.
  - by apply aes_roundtrip.
  - by apply camellia_roundtrip.
Qed.

(** C1: Every registered encryption type decrypts what it encrypts: with a key
    of its size, for every usage number, confounder, initial vector, associated
    data and plaintext (the empty one included), encryption succeeds, the
    ciphertext is longer by the confounder and the checksum, decryption gives
    back the plaintext, and both sides get the same next cipher state. *)
Theorem etype_roundtrip e conf key usage p iv ad :
  registered e → length key = etype_KeySize e → length conf = 16 → length iv = 16 →
  (∃ ct next, EncryptWithIV e (Ok conf) key usage p iv = Ok (ct, next) ∧
     length ct = 16 + length p + ChecksumSize e ∧
     DecryptWithIV e key usage ct iv = Ok (p, next)) ∧
  (∃ ct, EncryptWithAssociatedData e (Ok conf) key usage p ad = Ok ct ∧
     DecryptWithAssociatedData e key usage ct ad = Ok p).
Proof.
  intros Hr Hk Hc Hiv. split.
  - destruct (full_roundtrip e conf key usage p iv [] Hr Hk Hc Hiv) as (ct & next & He & Hl & Hd).
    exists ct, next. by destruct e.
  - destruct (full_roundtrip e conf key usage p (zeros 16) ad Hr Hk Hc ltac:(done)) as (ct & next & He & _ & Hd).
    exists ct. destruct e; cbn [encrypt_full decrypt_full] in *;
      unfold EncryptWithAssociatedData, DecryptWithAssociatedData; by rewrite He, Hd.
Qed.

(** C2: Decryption accepts only encryptions: with a key of the right size, for
    every string of bytes offered as ciphertext, decryption either reports the
    one integrity error (never another error, never a panic), or returns a
    plaintext that, encrypted under some confounder with the same key, usage
    and vector, gives exactly the bytes offered and the same next state. *)
Theorem decrypt_accepts_encryptions e key usage ct iv :
  registered e → length key = etype_KeySize e → length iv = 16 →
  DecryptWithIV e key usage ct iv = integrity_error ∨
  ∃ conf p next, DecryptWithIV e key usage ct iv = Ok (p, next) ∧ length conf = 16 ∧
    EncryptWithIV e (Ok conf) key usage p iv = Ok (ct, next).
Proof.
  destruct e as [e|e]; cbn [DecryptWithIV EncryptWithIV etype_KeySize]; intros Hr Hk Hiv.
  - by apply aes_decrypt_cases.
  - by apply camellia_decrypt_cases.
Qed.

(** A successful decryption has a key of the right size and offers an encryption. *)
Lemma decrypted_is_encryption e key usage ct p :
  registered e → etype_Decrypt e key usage ct = Ok p →
  length key = etype_KeySize e ∧
  ∃ conf, length conf = 16 ∧ etype_Encrypt e (Ok conf) key usage p = Ok ct.
Proof.
  unfold etype_Decrypt, etype_Encrypt. intros Hreg Hd. inv_res. subst.
  match goal with Hx : DecryptWithIV _ _ _ _ _ = Ok ?x |- _ => destruct x as [p next]; rename Hx into Hd end.
  assert (Hk : length key = etype_KeySize e).
  { destruct e as [e|e]; cbn [DecryptWithIV etype_KeySize] in *; unfold aes_decrypt, camellia_decrypt, validateKey in Hd;
      (destruct (length key =? _) eqn:E; [by apply Nat.eqb_eq|done]). }
  split; [done|]. assert (Hcases : DecryptWithIV e key usage ct (zeros 16) = integrity_error ∨
    ∃ conf p next, DecryptWithIV e key usage ct (zeros 16) = Ok (p, next) ∧ length conf = 16 ∧
      EncryptWithIV e (Ok conf) key usage p (zeros 16) = Ok (ct, next)).
  { destruct e as [e|e]; cbn [DecryptWithIV EncryptWithIV etype_KeySize] in *;
      [by apply aes_decrypt_cases|by apply camellia_decrypt_cases]. }
  destruct Hcases as [Hc|(conf & p' & next' & Hd' & Hl & He)]; [by rewrite Hd in Hc|].
  rewrite Hd in Hd'. simplify_eq. exists conf. split; [done|]. cbn [fst]. by rewrite He.
Qed.

Lemma Checksum_ok e key usage data :
  registered e → length key = etype_KeySize e →
  ∃ sum, Checksum e key usage data = Ok sum ∧ length sum = ChecksumSize e.
Proof.
  intros Hreg Hk. pose proof (registered_cases e Hreg) as Hc.
  destruct e as [e|e]; cbn [Checksum ChecksumSize etype_KeySize] in *;
    unfold aes_Checksum, camellia_Checksum, validateKey; rewrite Hk, Nat.eqb_refl; cbn [wrap_err res_bind].
  - unfold deriveChecksumKey. destruct (deriveKeys_ok e key usage Hreg Hk) as (kc & ke & ki & -> & _).
    cbn [wrap_err res_bind fst]. unfold hmacDigest. rewrite prefix_ok by (rewrite length_hmac; lia).
    eexists. split; [done|]. rewrite length_take, length_hmac. lia.
  - destruct (camellia_keys_ok e key usage Byte.x99 Hreg Hk) as (kc & -> & Hkc). cbn [res_bind].
    by apply camelliaCMACKey_ok.
Qed.

(** Checksums: with a key of its size every registered type computes a
    checksum of its fixed length, and verification accepts exactly that
    checksum; everything else is the integrity error. *)
Theorem checksum_verifies e key usage data sum :
  registered e → length key = etype_KeySize e →
  ∃ expected, Checksum e key usage data = Ok expected ∧ length expected = ChecksumSize e ∧
    VerifyChecksum e key usage data sum =
      if bytes_eqb expected sum then Ok tt else Err ("etype verify checksum: " +:+ ErrIntegrity).
Proof.
  intros Hreg Hk. destruct (Checksum_ok e key usage data Hreg Hk) as (x & Hx & Hl). exists x.
  unfold VerifyChecksum. rewrite Hx. cbn [res_bind]. split_and!; [done|done|]. by destruct (bytes_eqb x sum).
Qed.

(** KRB-FX-CF2: for keys of two registered types the combination succeeds
    (the counter of the PRF+ loop never wraps) and is a key for the first type,
    and with one type it does not depend on the order of the two contributions. *)
Theorem cf2_total e1 key1 e2 key2 pepper1 pepper2 :
  registered e1 → registered e2 → length key1 = etype_KeySize e1 → length key2 = etype_KeySize e2 →
  (∃ key, CF2WithKeyEType (Some e1) key1 (Some e2) key2 pepper1 pepper2 = Ok key ∧
     length key = etype_KeySize e1) ∧
  (e1 = e2 → CF2 (Some e1) key1 key2 pepper1 pepper2 = CF2 (Some e1) key2 key1 pepper2 pepper1).
Proof.
  intros H1 H2 Hk1 Hk2.
  destruct (CF2_ok e1 key1 e2 key2 pepper1 pepper2 H1 H2 Hk1 Hk2) as (r1 & r2 & Hr1 & Hr2 & Hl1 & Hl2 & Hcf).
  split.
  - exists (xor r1 r2). split; [done|]. by apply length_xor_block.
  - intros <-. unfold CF2. rewrite Hcf.
    destruct (CF2_ok e1 key2 e1 key1 pepper2 pepper1 H1 H1 Hk2 Hk1) as (s1 & s2 & Hs1 & Hs2 & _ & _ & ->).
    rewrite Hr2 in Hs1. rewrite Hr1 in Hs2. simplify_eq. f_equal. apply xor_comm.
Qed.

(** String-to-key is total: for a registered type, every password and
    salt, valid parameters (absent, or a 32-bit count from the default up to
    the limit of 2^24) give a key of the type's size, and all other parameters
    give an error; nothing panics. *)
Theorem string_to_key_total e password salt params :
  registered e →
  let default := match e with EAes a => ae_defaultRounds a | ECamellia _ => 32768%Z end in
  match parseIterations params default with
  | Ok n => (default <= n < maxPBKDF2Iterations)%Z ∧
      ∃ key, StringToKey e password salt params = Ok key ∧ length key = etype_KeySize e
  | _ => ∃ err, StringToKey e password salt params = Err err
  end.
Proof.
  intros Hreg default. pose proof (registered_cases e Hreg) as Hc.
  assert (Hd : (0 < default < maxPBKDF2Iterations)%Z).
  { destruct Hreg as (fips & id & Hg). unfold Registry_Get in Hg. unfold default.
    repeat case_match; simplify_eq; done. }
  destruct (parseIterations params default) as [n|m|] eqn:Hp.
  - pose proof (parseIterations_bounds params default n Hd Hp) as Hn. split; [done|].
    destruct e as [e|e]; cbn [StringToKey etype_KeySize] in *; unfold default in Hp; rewrite Hp; cbn [wrap_err res_bind].
    + destruct Hc as (Hks & Hcs & Hc0 & Hh).
      edestruct (pbkdf2Key_ok (ae_hash e) password) as (tkey & -> & Hl); [|shelve|cbn [wrap_err res_bind]]; [lia|].
      destruct (ae_sha2 e).
      * apply kdfSHA2_ok. specialize (Hh eq_refl). lia.
      * apply dkAES_ok; [lia|done].
      Unshelve. lia.
    + edestruct (pbkdf2Key_ok SHA1 password) as (tkey & -> & Hl); [|shelve|cbn [wrap_err res_bind]]; [lia|].
      apply camelliaDerive_ok. lia.
      Unshelve. lia.
  - destruct e as [e|e]; cbn [StringToKey] in *; unfold default in Hp; rewrite Hp; cbn; eauto.
  - by apply parseIterations_no_panic in Hp.
Qed.
(** What is sealed with a key is opened with it. *)
Lemma seal_ok etype conf key usage plain :
  registered etype → length key = etype_KeySize etype → length conf = 16%nat →
  ∃ cipher, etype_Encrypt etype (Ok conf) key usage plain = Ok cipher ∧ etype_Decrypt etype key usage cipher = Ok plain ∧
            (zlen cipher <= zlen plain + 40)%Z.
Proof.
  intros Hr Hk Hc. destruct (full_roundtrip etype conf key usage plain (zeros 16) [] Hr Hk Hc eq_refl) as (ct & next & He & Hl & Hd).
  assert (Hs : (ChecksumSize etype ≤ 24)%nat).
  { destruct Hr as (f & i & Hg). unfold Registry_Get in Hg. repeat case_match; simplify_eq; cbn; lia. }
  exists ct. unfold etype_Encrypt, etype_Decrypt, zlen.
  destruct etype; cbn [EncryptWithIV DecryptWithIV encrypt_full decrypt_full] in *; rewrite He, Hd; (split_and!; [done..|lia]).
Qed.
End theorems.

(** The sizes and the numbers of the registered types. *)
Lemma key_size_pos fips id etype : Registry_Get fips id = Ok etype → 0 < etype_KeySize etype.
Proof. intros He. unfold Registry_Get in He. repeat case_match; simplify_eq; cbn; lia. Qed.
Lemma key_size_le fips id etype : Registry_Get fips id = Ok etype → etype_KeySize etype ≤ 32.
Proof. intros He. unfold Registry_Get in He. repeat case_match; simplify_eq; cbn; lia. Qed.
Lemma enctype_range fips id etype : Registry_Get fips id = Ok etype → (- 2 ^ 31 <= id < 2 ^ 31)%Z.
Proof.
  intros He. unfold Registry_Get in He.
  repeat (case_match; [match goal with Hx : (id =? _)%Z = true |- _ => apply Z.eqb_eq in Hx as ->; done end|]). done.
Qed.

(** ** A concrete library

    The laws can hold: the small cipher of [Cts] in the place of AES, and a
    message digest of the right sizes in the place of HMAC and SHA-1. *)

#[local] Instance toy_crypto : GoCrypto := {|
  AES := xor_cipher;
  AES_block := xor_cipher_block;
  aes_NewCipher key := Ok key;
  hmac_sum h key data := pad_to (hash_Size h) (xor (pad_to 48 key) (pad_to 48 data));
  sha1_Sum data := pad_to 20 data;
|}.
#[local] Instance toy_crypto_laws : GoCryptoLaws.
Proof.
  split.
  - apply xor_cipher_laws.
  - done.
  - eauto.
  - intros. apply length_pad_to.
  - intros. apply length_pad_to.
Qed.

Definition aes256_sha1 : EType := EAes (mkAes EnctypeAES256SHA1 32 12 false SHA1 EmptyString 4096).
Definition camellia128 : EType := ECamellia (mkCam EnctypeCamellia128 16 "camellia128-cts-cmac").

Lemma aes256_sha1_registered : registered aes256_sha1.
Proof. exists true, EnctypeAES256SHA1. reflexivity. Qed.
Lemma camellia128_registered : registered camellia128.
Proof. exists false, EnctypeCamellia128. reflexivity. Qed.

Lemma etype_roundtrip_witness :
  (∃ ct next, EncryptWithIV camellia128 (Ok (zeros 16)) (zeros 16) 3 (str "hello") (zeros 16) = Ok (ct, next) ∧
     length ct = 16 + length (str "hello") + ChecksumSize camellia128 ∧
     DecryptWithIV camellia128 (zeros 16) 3 ct (zeros 16) = Ok (str "hello", next)) ∧
  (∃ ct, EncryptWithAssociatedData camellia128 (Ok (zeros 16)) (zeros 16) 3 (str "hello") (str "header") = Ok ct ∧
     DecryptWithAssociatedData camellia128 (zeros 16) 3 ct (str "header") = Ok (str "hello")).
Proof.
  apply (etype_roundtrip camellia128 (zeros 16) (zeros 16) 3 (str "hello") (zeros 16) (str "header"));
    [apply camellia128_registered | reflexivity..].
Defined.

Lemma decrypt_accepts_encryptions_witness :
  DecryptWithIV aes256_sha1 (zeros 32) 3 (zeros 50) (zeros 16) = integrity_error ∨
  ∃ conf p next, DecryptWithIV aes256_sha1 (zeros 32) 3 (zeros 50) (zeros 16) = Ok (p, next) ∧
    length conf = 16 ∧
    EncryptWithIV aes256_sha1 (Ok conf) (zeros 32) 3 p (zeros 16) = Ok (zeros 50, next).
Proof.
  apply (decrypt_accepts_encryptions aes256_sha1 (zeros 32) 3 (zeros 50) (zeros 16));
    [apply aes256_sha1_registered | reflexivity..].
Defined.

Lemma checksum_verifies_witness :
  ∃ expected, Checksum camellia128 (zeros 16) 6 (str "data") = Ok expected ∧
    length expected = ChecksumSize camellia128 ∧
    VerifyChecksum camellia128 (zeros 16) 6 (str "data") (zeros 16) =
      if bytes_eqb expected (zeros 16) then Ok tt else Err ("etype verify checksum: " +:+ ErrIntegrity).
Proof.
  apply (checksum_verifies camellia128 (zeros 16) 6 (str "data") (zeros 16));
    [apply camellia128_registered | reflexivity].
Defined.

Lemma cf2_total_witness :
  (∃ key, CF2WithKeyEType (Some aes256_sha1) (zeros 32) (Some camellia128) (zeros 16) (str "p1") (str "p2") = Ok key ∧
     length key = etype_KeySize aes256_sha1) ∧
  (aes256_sha1 = camellia128 →
   CF2 (Some aes256_sha1) (zeros 32) (zeros 16) (str "p1") (str "p2") =
   CF2 (Some aes256_sha1) (zeros 16) (zeros 32) (str "p2") (str "p1")).
Proof.
  apply (cf2_total aes256_sha1 (zeros 32) camellia128 (zeros 16) (str "p1") (str "p2"));
    [apply aes256_sha1_registered | apply camellia128_registered | reflexivity..].
Defined.

Lemma string_to_key_total_witness :
  match parseIterations [] 4096 with
  | Ok n => (4096 <= n < maxPBKDF2Iterations)%Z ∧
      ∃ key, StringToKey aes256_sha1 (str "password") (str "EXAMPLE.COMuser") [] = Ok key ∧
        length key = etype_KeySize aes256_sha1
  | _ => ∃ err, StringToKey aes256_sha1 (str "password") (str "EXAMPLE.COMuser") [] = Err err
  end.
Proof.
  exact (string_to_key_total aes256_sha1 (str "password") (str "EXAMPLE.COMuser") [] aes256_sha1_registered).
Defined.
