(* ===== verification/Ulog.v ===== *)
(** * The update log of the principal database (src/krb5/kdb/ulog.go)

    The bounded log of changes that replicas follow, with its cursors of serial
    number and time.  Entries are copied when they are stored and when they are
    handed out, so they are values here.  A log entry's record is a type
    parameter.  Times are nanoseconds; [zero_time] is Go's zero time. *)

From S2P Require Import Prelude Principal.
Local Open Scope Z_scope.

Definition zero_time : Z := -62135596800 * 1000000000.
Definition IsZero (t : Z) : bool := t =? zero_time.
Definition microsecond : Z := 1000.
(** [Truncate] rounds down since the zero time, which is a whole microsecond. *)
Definition truncate_us (t : Z) : Z := t - (t - zero_time) mod microsecond.

Section ulog.
Context {R : Type}.

Record UpdateLogEntry := mkLogEntry {
  e_Serial : Z;
  e_Time : Z;
  e_Name : Principal;
  e_Record : R;
  e_Deleted : bool;
  e_Commit : bool;
}.

Record UpdateLog := mkUlog {
  l_capacity : Z;
  l_entries : list UpdateLogEntry;
  l_last : Z;
  l_lastTime : Z;
  l_reset : bool;
}.

Definition NewUpdateLog (capacity : Z) : UpdateLog :=
  mkUlog (if capacity <? 0 then 0 else capacity) [] 0 zero_time false.

(** The last [n] entries. *)
Definition last_entries (n : Z) (l : list UpdateLogEntry) : list UpdateLogEntry :=
  drop (Z.to_nat (zlen l - n)) l.

Definition SetCapacity (l : UpdateLog) (capacity : Z) : UpdateLog :=
  let capacity := if capacity <? 0 then 0 else capacity in
  mkUlog capacity
    (if capacity =? 0 then []
     else if capacity <? zlen (l_entries l) then last_entries capacity (l_entries l)
     else l_entries l)
    (l_last l) (l_lastTime l) (l_reset l).

Definition Reset (l : UpdateLog) : UpdateLog :=
  mkUlog (l_capacity l) [] (l_last l) (l_lastTime l) true.

Definition Last (l : UpdateLog) : Z * Z := (l_last l, l_lastTime l).

(** The entries after the one with the serial, when its time is the one given. *)
Fixpoint find_cursor (serial stamp : Z) (es : list UpdateLogEntry) : option (list UpdateLogEntry) :=
  match es with
  | [] => None
  | e :: es =>
      if e_Serial e =? serial then
        if e_Time e =? stamp then Some es else None
      else find_cursor serial stamp es
  end.

(** The status: 0 is success, 2 a full resynchronization, 4 nothing new. *)
Definition Entries (l : UpdateLog) (serial stamp : Z) : Z * list UpdateLogEntry :=
  if negb (l_reset l) && (serial =? l_last l) && (stamp =? l_lastTime l) then (4, [])
  else match l_entries l with
  | [] => (2, [])
  | first :: _ =>
      if (serial =? 0) && IsZero stamp && (e_Serial first =? 1) then (0, l_entries l)
      else if l_last l <? serial then (2, [])
      else if serial <? e_Serial first then (2, [])
      else match find_cursor serial stamp (l_entries l) with
           | None => (2, [])
           | Some [] => (4, [])
           | Some out => (0, out)
           end
  end.

Definition ulog_append (l : UpdateLog) (entry : UpdateLogEntry) : UpdateLog :=
  let '(entries, last) :=
    if l_last l =? 2 ^ 32 - 1 then ([], 0) else (l_entries l, l_last l) in
  let last := last + 1 in
  let entry := mkLogEntry last (truncate_us (e_Time entry)) (e_Name entry) (e_Record entry)
    (e_Deleted entry) (e_Commit entry) in
  let entries :=
    if 0 <? l_capacity l then
      let entries := entries ++ [entry] in
      if l_capacity l <? zlen entries then last_entries (l_capacity l) entries else entries
    else [] in
  mkUlog (l_capacity l) entries last (e_Time entry) false.

(** ** The log as a window of the history of changes *)

(** [log_of h l]: the log of all the changes [h], numbered from one; it holds
    as many of the last ones as its capacity. *)
Definition log_of (h : list UpdateLogEntry) (l : UpdateLog) : Prop :=
  l_entries l = last_entries (l_capacity l) h ∧
  (∀ i e, h !! i = Some e → e_Serial e = Z.of_nat i + 1) ∧
  l_last l = zlen h ∧ l_lastTime l = match last h with Some e => e_Time e | None => zero_time end ∧
  l_reset l = false ∧ 0 <= l_capacity l.

Lemma log_of_new capacity : log_of [] (NewUpdateLog capacity).
Proof.
  unfold log_of, last_entries. cbn. rewrite drop_nil. split_and!; try done.
  destruct (Z.ltb_spec capacity 0); lia.
Qed.

(** The change that appending records. *)
Definition logged (h : list UpdateLogEntry) (e : UpdateLogEntry) : UpdateLogEntry :=
  mkLogEntry (zlen h + 1) (truncate_us (e_Time e)) (e_Name e) (e_Record e) (e_Deleted e) (e_Commit e).

Lemma last_entries_snoc c (h : list UpdateLogEntry) x :
  0 < c → let es := last_entries c h ++ [x] in
  (if c <? zlen es then last_entries c es else es) = last_entries c (h ++ [x]).
Proof.
  intros Hc. cbv zeta. unfold last_entries, zlen.
  rewrite !length_app, length_drop. cbn [length].
  destruct (Z.ltb_spec c (Z.of_nat (length h - Z.to_nat (Z.of_nat (length h) - c) + 1))) as [Hlt|Hge].
  - rewrite <- drop_app_le by lia. rewrite drop_drop. f_equal. lia.
  - rewrite <- drop_app_le by lia. f_equal. lia.
Qed.

Lemma log_of_append h l e :
  log_of h l → zlen h < 2 ^ 32 - 1 → log_of (h ++ [logged h e]) (ulog_append l e).
Proof.
  intros (He & Hs & Hl & Ht & Hr & Hc) Hlt. unfold ulog_append.
  rewrite (proj2 (Z.eqb_neq _ _)) by lia. rewrite Hl. fold (logged h e). unfold log_of.
  assert (Hser : ∀ i x, (h ++ [logged h e]) !! i = Some x → e_Serial x = Z.of_nat i + 1).
  { intros i x [Hi|[Hi Hx]]%lookup_app_Some; [by apply Hs|].
    destruct (i - length h)%nat eqn:E; cbn in Hx; simplify_eq. cbn. unfold zlen. lia. }
  cbn [l_entries l_last l_lastTime l_reset l_capacity]. rewrite last_snoc.
  split_and!; try done; [|by rewrite zlen_app].
  destruct (Z.ltb_spec 0 (l_capacity l)) as [Hcap|Hcap].
  - rewrite He. by apply last_entries_snoc.
  - unfold last_entries. symmetry. apply drop_ge. unfold zlen. lia.
Qed.

(** The position of a cursor in the history. *)
Lemma find_cursor_spec h k serial stamp out :
  (∀ i e, h !! i = Some e → e_Serial e = Z.of_nat i + 1) →
  find_cursor serial stamp (drop k h) = Some out →
  0 < serial <= zlen h ∧ out = drop (Z.to_nat serial) h.
Proof.
  intros Hs. remember (drop k h) as es eqn:Hes. revert k Hes.
  induction es as [|e es IH]; intros k Hes Hf; cbn in Hf; [done|].
  assert (He : h !! k = Some e).
  { replace k with (k + 0)%nat by lia. rewrite <- lookup_drop, <- Hes. done. }
  assert (Hlt : (k < length h)%nat) by (by eapply lookup_lt_Some).
  assert (Hes' : es = drop (S k) h).
  { replace (S k) with (k + 1)%nat by lia. rewrite <- drop_drop, <- Hes. done. }
  destruct (Z.eqb_spec (e_Serial e) serial) as [Heq|Hne].
  - destruct (e_Time e =? stamp); [|done]. injection Hf as <-. subst serial.
    rewrite (Hs _ _ He). unfold zlen. split; [lia|]. rewrite Hes'. f_equal. lia.
  - by apply (IH (S k)).
Qed.

(** A status of success comes with exactly the changes after the cursor, and
    the status of nothing new is given only at the end of the history. *)
Lemma Entries_spec h l serial stamp :
  log_of h l →
  match Entries l serial stamp with
  | (0, out) => 0 <= serial <= zlen h ∧ out = drop (Z.to_nat serial) h
  | (4, out) => serial = zlen h ∧ out = []
  | (status, out) => status = 2 ∧ out = []
  end.
Proof.
  intros (He & Hs & Hl & Ht & Hr & Hc). unfold Entries. rewrite Hr. cbn [negb andb].
  unfold last_entries in He. set (k := Z.to_nat (zlen h - l_capacity l)) in He. clearbody k.
  destruct (Z.eqb_spec serial (l_last l)) as [->|Hne]; cbn [andb].
  all: try (destruct (Z.eqb_spec stamp (l_lastTime l)); [done|]).
  all: destruct (l_entries l) as [|first rest] eqn:Hes; [done|].
  all: assert (Hk : h !! k = Some first)
    by (replace k with (k + 0)%nat by lia; by rewrite <- lookup_drop, <- He).
  all: destruct (_ && IsZero stamp && (e_Serial first =? 1)) eqn:Hz.
  1, 3: apply andb_true_iff in Hz as [[Hz0 _]%andb_true_iff Hz1]; apply Z.eqb_eq in Hz0, Hz1;
    rewrite (Hs _ _ Hk) in Hz1; assert (k = 0%nat) as -> by lia; rewrite drop_0 in He;
    rewrite Hz0 in *; unfold zlen; split; [lia|]; by rewrite He.
  all: destruct (_ <? _); [done|]; destruct (_ <? _); [done|].
  all: destruct (find_cursor _ _ _) as [out|] eqn:Hf; [|done].
  all: rewrite He in Hf; apply (find_cursor_spec h k) in Hf as [Hser ->]; [|done].
  all: destruct (drop (Z.to_nat _) h) as [|e es] eqn:Hd; cbv beta iota; [|split; [lia|done]].
  all: split; [|done]; apply (f_equal length) in Hd; rewrite length_drop in Hd; cbn in Hd;
    unfold zlen in *; lia.
Qed.

Lemma find_cursor_found es i e :
  (∀ i j a b, es !! i = Some a → es !! j = Some b → e_Serial a = e_Serial b → i = j) →
  es !! i = Some e → find_cursor (e_Serial e) (e_Time e) es = Some (drop (S i) es).
Proof.
  revert i. induction es as [|a es IH]; intros i Hinj Hi; [done|]. cbn [find_cursor].
  destruct (Z.eqb_spec (e_Serial a) (e_Serial e)) as [E|E].
  - assert (i = 0)%nat as -> by (symmetry; by apply (Hinj 0%nat i a e)). simplify_eq/=. by rewrite Z.eqb_refl, drop_0.
  - destruct i as [|i]; [simplify_eq/=; done|]. cbn in Hi. rewrite (IH i); [done| |done].
    intros i' j' a' b' Ha Hb Hab. specialize (Hinj (S i') (S j') a' b' Ha Hb Hab). lia.
Qed.

(** A cursor that is less than the capacity behind is served from the log. *)
Lemma Entries_served h1 h2 l :
  log_of (h1 ++ h2) l → zlen h2 < l_capacity l →
  (Entries l (zlen h1) match last h1 with Some e => e_Time e | None => zero_time end).1 ≠ 2.
Proof.
  intros (He & Hs & Hl & Ht & Hr & Hc) Hlt. unfold Entries. rewrite Hr, Hl. cbn [negb andb].
  destruct (_ && (_ =? l_lastTime l)) eqn:E4; [done|].
  destruct h1 as [|e1 h1' _] using rev_ind.
  - destruct h2 as [|first h2]; [by rewrite Ht in E4|].
    assert (He' : l_entries l = first :: h2) by
      (rewrite He; unfold last_entries; cbn [app]; replace (Z.to_nat _) with 0%nat by lia; done).
    rewrite He'. cbn [last zlen length IsZero]. by rewrite (Hs 0%nat first).
  - rewrite last_snoc, zlen_app in *. change (zlen [e1]) with 1 in *.
    set (k := Z.to_nat (zlen ((h1' ++ [e1]) ++ h2) - l_capacity l)).
    assert (Hk : (k <= length h1')%nat) by (unfold k; rewrite !zlen_app; change (zlen [e1]) with 1; unfold zlen in *; lia).
    assert (Hh : (h1' ++ [e1]) ++ h2 = h1' ++ e1 :: h2) by by rewrite <- app_assoc.
    assert (Hat : l_entries l !! (length h1' - k)%nat = Some e1).
    { rewrite He. unfold last_entries. fold k. rewrite lookup_drop, Hh.
      replace (k + (length h1' - k))%nat with (length h1') by lia. by apply list_lookup_middle. }
    assert (Hse : ∀ i e, l_entries l !! i = Some e → e_Serial e = Z.of_nat (k + i) + 1).
    { intros i e Hi. rewrite He in Hi. unfold last_entries in Hi. rewrite lookup_drop in Hi. by apply Hs. }
    pose proof (Hse _ _ Hat) as Hs1.
    destruct (l_entries l) as [|first rest] eqn:Hes; [done|].
    pose proof (Hse 0%nat first eq_refl) as Hsf.
    destruct (_ && _ && _); [done|].
    rewrite (proj2 (Z.ltb_ge _ _)) by (rewrite !zlen_app; unfold zlen; cbn; lia).
    rewrite (proj2 (Z.ltb_ge _ _)) by (rewrite Hsf; unfold zlen; lia).
    replace (zlen h1' + 1) with (e_Serial e1) by (unfold zlen; lia).
    rewrite (find_cursor_found _ (length h1' - k) e1); [by destruct (drop _ _)| |done].
    intros i j a b Ha Hb Hab. rewrite (Hse _ _ Ha), (Hse _ _ Hb) in Hab. lia.
Qed.
End ulog.

Arguments UpdateLogEntry : clear implicits.
Arguments UpdateLog : clear implicits.
