(* ===== verification/Kdb.v ===== *)
(** * The principal database (src/krb5/kdb/kdb.go)

    The in-memory database of the KDC and the administration server, with its
    aliases, policies and update log.  Every operation runs under the
    database's lock and is one step of the state.  Records handed in and out
    are copied, so they are values.  The clock and the random keys are
    arguments.  The receiver is not nil.  The order in which Go visits a map
    only decides which of several errors is reported. *)

From S2P Require Import Prelude Principal Cts Camellia NFold Crypto Ulog.
Local Open Scope Z_scope.

Record Key := mkKey { Key_Enctype : Z; Key_KVNO : Z; Key_Key : bytes; Key_Salt : bytes }.
#[export] Instance Key_eq_dec : EqDecision Key.
Proof. solve_decision. Defined.

Record KeySaltTuple := mkTuple { t_Enctype : Z; t_SaltType : Z }.
Definition SaltTypeNormal : Z := 0.
Definition SaltTypeNoRealm : Z := 2.
Definition SaltTypeOnlyRealm : Z := 3.

Record TLData := mkTL { TL_Type : Z; TL_Data : bytes }.
(** [KADMDataType] of kadmdata.go. *)
Definition KADMDataType : Z := 3.

Abbreviation keyset := (gmap Z Key).

Record PrincipalRecord := mkRec {
  p_Name : Principal;
  p_Keys : keyset;
  p_KeyData : list Key;
  p_PasswordHistory : list keyset;
  p_KADMAuxAttributes : Z;
  p_AdminHistoryNext : Z;
  p_AdminHistoryKVNO : Z;
  p_LastPasswordChange : Z;
  p_Strings : gmap bytes bytes;
  p_KVNO : Z;
  p_Flags : Z;
  p_Policy : bytes;
  p_MaxLife : Z;
  p_MaxRenew : Z;
  p_Expiration : Z;
  p_PasswordExpiration : Z;
  p_LastSuccess : Z;
  p_LastFailed : Z;
  p_FailAuthCount : Z;
  p_TLData : list TLData;
}.

Definition DisallowPostdated : Z := 0x1.
Definition DisallowForwardable : Z := 0x2.
Definition DisallowTGTBased : Z := 0x4.
Definition DisallowRenewable : Z := 0x8.
Definition DisallowProxiable : Z := 0x10.
Definition DisallowDupSkey : Z := 0x20.
Definition DisallowAllTickets : Z := 0x40.
Definition RequiresPreAuth : Z := 0x80.
Definition RequiresHWAuth : Z := 0x100.
Definition RequiresPWChange : Z := 0x200.
Definition DisallowServer : Z := 0x1000.
Definition PWChangeService : Z := 0x2000.

Record PolicyRecord := mkPolicy {
  pol_Name : bytes;
  pol_MinLife : Z;
  pol_MaxLife : Z;
  pol_MinLength : Z;
  pol_MinClasses : Z;
  pol_HistoryNum : Z;
  pol_MaxFailure : Z;
  pol_FailureCountInterval : Z;
  pol_LockoutDuration : Z;
  pol_Attributes : Z;
  pol_MaxTicketLife : Z;
  pol_MaxRenewableLife : Z;
  pol_AllowedKeySalts : bytes;
}.

Definition ErrPrincipalExists : string := "principal already exists".
Definition ErrPrincipalNotFound : string := "principal not found".
Definition ErrPolicyExists : string := "policy already exists".
Definition ErrPolicyNotFound : string := "policy not found".
Definition ErrPolicyInUse : string := "policy is in use".
Definition ErrPasswordTooShort : string := "password is too short".
Definition ErrPasswordClasses : string := "password does not contain enough character classes".
Definition ErrPasswordTooSoon : string := "password minimum life has not expired".
Definition ErrPasswordReuse : string := "password reuse".
Definition ErrBadKeySalts : string := "invalid key/salt tuples".

Record Database := mkDB {
  db_Realm : bytes;
  db_principals : gmap bytes PrincipalRecord;
  db_aliases : gmap bytes Principal;
  db_policies : gmap bytes PolicyRecord;
  db_UpdateLog : option (UpdateLog PrincipalRecord);
}.

Definition second : Z := 1000000000.
(** [time.Duration(n) * time.Second] of a 32-bit number. *)
Definition seconds (n : Z) : Z := i64 (n * second).

Definition NewDatabase (realm : bytes) : Database :=
  mkDB realm ∅ ∅ ∅ (Some (NewUpdateLog 1024)).
Definition ConfigureUpdateLog (db : Database) (capacity : Z) : Database :=
  mkDB (db_Realm db) (db_principals db) (db_aliases db) (db_policies db) (Some (NewUpdateLog capacity)).

(** ** Names *)

Definition nul : byte := Byte.x00.
Definition canonical (name : Principal) : bytes :=
  Realm name ++ [nul] ++ strings_join [nul] (Components name).

Definition parseName (name realm : bytes) : res Principal :=
  let name := if existsb (Byte.eqb at_sign) name then name else name ++ [at_sign] ++ realm in
  res_bind (Parse name) (λ parsed,
    if negb (bytes_eqb (Realm parsed) realm) &&
       (negb (zlen (Components parsed) =? 2) ||
        negb (bytes_eqb (nth 0 (Components parsed) []) (str "krbtgt")))
    then Err "principal realm does not match database realm"
    else if zlen (Components parsed) =? 0 then Err "empty principal components"
    else Ok (if 1 <? zlen (Components parsed)
             then mkPrincipal (Realm parsed) NTSrvInstance (Components parsed)
             else parsed)).

(** ** The update log *)

Definition set_TLData (r : PrincipalRecord) (tl : list TLData) : PrincipalRecord :=
  mkRec (p_Name r) (p_Keys r) (p_KeyData r) (p_PasswordHistory r) (p_KADMAuxAttributes r)
    (p_AdminHistoryNext r) (p_AdminHistoryKVNO r) (p_LastPasswordChange r) (p_Strings r)
    (p_KVNO r) (p_Flags r) (p_Policy r) (p_MaxLife r) (p_MaxRenew r) (p_Expiration r)
    (p_PasswordExpiration r) (p_LastSuccess r) (p_LastFailed r) (p_FailAuthCount r) tl.

Definition hasTLData (values : list TLData) (typ : Z) : bool :=
  existsb (λ v, TL_Type v =? typ) values.

(** The record a log entry holds: a live one names its modifier. *)
Definition logged_record (record : PrincipalRecord) (deleted : bool) (now : Z) : PrincipalRecord :=
  if negb deleted && negb (hasTLData (p_TLData record) 2) then
    let modifier := le_bytes 4 (u32 (now / second)) ++ principal_String (p_Name record) ++ [nul] in
    set_TLData record (p_TLData record ++ [mkTL 2 modifier])
  else record.

Definition recordUpdateLocked (db : Database) (record : PrincipalRecord) (deleted : bool) (now : Z)
    : Database :=
  match db_UpdateLog db with
  | None => db
  | Some log =>
      let record := logged_record record deleted now in
      mkDB (db_Realm db) (db_principals db) (db_aliases db) (db_policies db)
        (Some (ulog_append log (mkLogEntry 0 now (p_Name record) record deleted true)))
  end.

Definition put_principal (db : Database) (key : bytes) (record : PrincipalRecord) : Database :=
  mkDB (db_Realm db) (<[key := record]> (db_principals db)) (db_aliases db) (db_policies db) (db_UpdateLog db).
Definition drop_principal (db : Database) (key : bytes) : Database :=
  mkDB (db_Realm db) (delete key (db_principals db)) (db_aliases db) (db_policies db) (db_UpdateLog db).

(** The common end of the operations on one principal. *)
Definition store_record (db : Database) (key : bytes) (record : PrincipalRecord) (now : Z) : Database :=
  recordUpdateLocked (put_principal db key record) record false now.

(** ** Keys *)

Section keys.
Context `{GoCrypto} (fips : bool).

Definition default_enctypes : list Z :=
  [EnctypeAES128SHA1; EnctypeAES256SHA1; EnctypeAES128SHA256; EnctypeAES256SHA384;
   EnctypeCamellia128; EnctypeCamellia256].

Fixpoint normalize_loop (seen : gmap Z KeySaltTuple) (tuples normalized : list KeySaltTuple)
    : res (list KeySaltTuple) :=
  match tuples with
  | [] => Ok normalized
  | tuple :: tuples =>
      match seen !! t_Enctype tuple with
      | Some previous =>
          if negb (t_SaltType previous =? t_SaltType tuple) then Err ("enctype: " +:+ ErrBadKeySalts)
          else normalize_loop seen tuples normalized
      | None =>
          normalize_loop (<[t_Enctype tuple := tuple]> seen) tuples (normalized ++ [tuple])
      end
  end.
Definition normalizeKeySaltTuples (tuples : list KeySaltTuple) : res (list KeySaltTuple) :=
  if zlen tuples <? 2 then Ok tuples else normalize_loop ∅ tuples [].

Definition normal_salt (name : Principal) : bytes := Realm name ++ concat (Components name).

Definition saltForPrincipal (name : Principal) (saltType : Z) : res bytes :=
  if saltType =? SaltTypeNormal then Ok (normal_salt name)
  else if saltType =? SaltTypeNoRealm then Ok (concat (Components name))
  else if saltType =? SaltTypeOnlyRealm then Ok (Realm name)
  else Err "unsupported key salt type".

Definition empty_record (name : Principal) (keys : keyset) (kvno now : Z) : PrincipalRecord :=
  mkRec name keys [] [] 0 0 0 now ∅ kvno 0 [] 0 0
    zero_time zero_time zero_time zero_time 0 [].

Fixpoint derive_tuples (name : Principal) (password : bytes) (kvno : Z) (tuples : list KeySaltTuple)
    (keys : keyset) : res keyset :=
  match tuples with
  | [] => Ok keys
  | tuple :: tuples =>
      res_bind (wrap_err "principal enctype: " (Registry_Get fips (t_Enctype tuple))) (λ etype,
      res_bind (saltForPrincipal name (t_SaltType tuple)) (λ salt,
      res_bind (wrap_err "principal enctype: " (StringToKey etype password salt [])) (λ derived,
      derive_tuples name password kvno tuples
        (<[t_Enctype tuple := mkKey (t_Enctype tuple) kvno derived salt]> keys))))
  end.

Definition deriveRecordWithTuplesAt (name : Principal) (password : bytes) (kvno : Z)
    (tuples : list KeySaltTuple) (now : Z) : res PrincipalRecord :=
  res_bind (normalizeKeySaltTuples tuples) (λ tuples,
    let tuples := match tuples with
                  | [] => (λ enctype, mkTuple enctype SaltTypeNormal) <$> default_enctypes
                  | _ => tuples
                  end in
    res_bind (derive_tuples name password kvno tuples ∅) (λ keys,
      Ok (empty_record name keys kvno now))).

(** The loop of [deriveKeys] over the current keys. *)
Fixpoint derive_current (name : Principal) (password : bytes) (kvno : Z)
    (current : list (Z * Key)) (keys : keyset) : res keyset :=
  match current with
  | [] => Ok keys
  | (enctype, old) :: current =>
      res_bind (Registry_Get fips enctype) (λ etype,
      let salt := if zlen (Key_Salt old) =? 0 then normal_salt name else Key_Salt old in
      res_bind (StringToKey etype password salt []) (λ derived,
      derive_current name password kvno current
        (<[enctype := mkKey enctype kvno derived (Key_Salt old)]> keys)))
  end.
Definition deriveKeys (name : Principal) (password : bytes) (current : keyset) (kvno : Z) : res keyset :=
  derive_current name password kvno (map_to_list current) ∅.

(** The keys a new password gives a principal with the current record. *)
Definition next_keys (current : PrincipalRecord) (password : bytes) (tuples : list KeySaltTuple) (now : Z)
    : res keyset :=
  let kvno := u32 (p_KVNO current + 1) in
  res_bind (deriveRecordWithTuplesAt (p_Name current) password kvno tuples now) (λ next,
    if (zlen tuples =? 0) && (0 <? Z.of_nat (size (p_Keys current))) &&
       negb (Z.of_nat (size (p_Keys current)) =? Z.of_nat (size (p_Keys next)))
    then deriveKeys (p_Name current) password (p_Keys current) kvno
    else Ok (p_Keys next)).

Definition key_matches (stored : keyset) (p : Z * Key) : bool :=
  match stored !! p.1 with
  | None => false
  | Some other => bytes_eqb (Key_Salt p.2) (Key_Salt other) && bytes_eqb (Key_Key p.2) (Key_Key other)
  end.
Definition passwordMatchesKeys (candidate stored : keyset) : bool :=
  if (Z.of_nat (size candidate) =? 0) || negb (Z.of_nat (size candidate) =? Z.of_nat (size stored)) then false
  else forallb (key_matches stored) (map_to_list candidate).

(** The classes of characters in a password. *)
Definition char_class (c : byte) : nat :=
  let c := b2z c in
  if (97 <=? c) && (c <=? 122) then 0
  else if (65 <=? c) && (c <=? 90) then 1
  else if (48 <=? c) && (c <=? 57) then 2
  else if ((33 <=? c) && (c <=? 47)) || ((58 <=? c) && (c <=? 64)) ||
          ((91 <=? c) && (c <=? 96)) || ((123 <=? c) && (c <=? 126)) then 3
  else 4.
Definition passwordClasses (password : bytes) : Z :=
  foldr (λ k n, n + (if existsb (λ c, Nat.eqb (char_class c) k) password then 1 else 0)) 0 [0; 1; 2; 3; 4]%nat.

(** The usable key of a record for encrypting password history. *)
Definition usable_key (k : Key) : bool :=
  match Registry_Get fips (Key_Enctype k) with
  | Ok etype => zlen (Key_Key k) =? Z.of_nat (etype_KeySize etype)
  | _ => false
  end.
Definition historyKeyLocked (db : Database) : option Key :=
  match db_principals db !! (db_Realm db ++ [nul] ++ str "kadmin" ++ [nul] ++ str "history") with
  | None => None
  | Some record =>
      match p_Keys record !! EnctypeAES256SHA1 with
      | Some k => if usable_key k then Some k
                  else head (filter (λ k, usable_key k = true)
                         (omap (λ e, p_Keys record !! e) (merge_sort Z.le (map_to_list (p_Keys record)).*1)))
      | None => head (filter (λ k, usable_key k = true)
                  (omap (λ e, p_Keys record !! e) (merge_sort Z.le (map_to_list (p_Keys record)).*1)))
      end
  end.
End keys.

(** ** Updates of single fields *)

Definition set_keys (r : PrincipalRecord) (keys : keyset) (kvno : Z) : PrincipalRecord :=
  mkRec (p_Name r) keys (p_KeyData r) (p_PasswordHistory r) (p_KADMAuxAttributes r)
    (p_AdminHistoryNext r) (p_AdminHistoryKVNO r) (p_LastPasswordChange r) (p_Strings r)
    kvno (p_Flags r) (p_Policy r) (p_MaxLife r) (p_MaxRenew r) (p_Expiration r)
    (p_PasswordExpiration r) (p_LastSuccess r) (p_LastFailed r) (p_FailAuthCount r) (p_TLData r).
Definition set_policy (r : PrincipalRecord) (policy : bytes) (maxLife maxRenew pwexp : Z) : PrincipalRecord :=
  mkRec (p_Name r) (p_Keys r) (p_KeyData r) (p_PasswordHistory r) (p_KADMAuxAttributes r)
    (p_AdminHistoryNext r) (p_AdminHistoryKVNO r) (p_LastPasswordChange r) (p_Strings r)
    (p_KVNO r) (p_Flags r) policy maxLife maxRenew (p_Expiration r)
    pwexp (p_LastSuccess r) (p_LastFailed r) (p_FailAuthCount r) (p_TLData r).
Definition set_lockout (r : PrincipalRecord) (failCount lastFailed lastSuccess : Z) : PrincipalRecord :=
  mkRec (p_Name r) (p_Keys r) (p_KeyData r) (p_PasswordHistory r) (p_KADMAuxAttributes r)
    (p_AdminHistoryNext r) (p_AdminHistoryKVNO r) (p_LastPasswordChange r) (p_Strings r)
    (p_KVNO r) (p_Flags r) (p_Policy r) (p_MaxLife r) (p_MaxRenew r) (p_Expiration r)
    (p_PasswordExpiration r) lastSuccess lastFailed failCount (p_TLData r).
Definition set_history (r : PrincipalRecord) (history : list keyset) (next kvno : Z) (tl : list TLData)
    : PrincipalRecord :=
  mkRec (p_Name r) (p_Keys r) (p_KeyData r) history (p_KADMAuxAttributes r)
    next kvno (p_LastPasswordChange r) (p_Strings r)
    (p_KVNO r) (p_Flags r) (p_Policy r) (p_MaxLife r) (p_MaxRenew r) (p_Expiration r)
    (p_PasswordExpiration r) (p_LastSuccess r) (p_LastFailed r) (p_FailAuthCount r) tl.
Definition set_password_times (r : PrincipalRecord) (changed pwexp : Z) : PrincipalRecord :=
  mkRec (p_Name r) (p_Keys r) (p_KeyData r) (p_PasswordHistory r) (p_KADMAuxAttributes r)
    (p_AdminHistoryNext r) (p_AdminHistoryKVNO r) changed (p_Strings r)
    (p_KVNO r) (p_Flags r) (p_Policy r) (p_MaxLife r) (p_MaxRenew r) (p_Expiration r)
    pwexp (p_LastSuccess r) (p_LastFailed r) (p_FailAuthCount r) (p_TLData r).
Definition set_name (r : PrincipalRecord) (name : Principal) : PrincipalRecord :=
  mkRec name (p_Keys r) (p_KeyData r) (p_PasswordHistory r) (p_KADMAuxAttributes r)
    (p_AdminHistoryNext r) (p_AdminHistoryKVNO r) (p_LastPasswordChange r) (p_Strings r)
    (p_KVNO r) (p_Flags r) (p_Policy r) (p_MaxLife r) (p_MaxRenew r) (p_Expiration r)
    (p_PasswordExpiration r) (p_LastSuccess r) (p_LastFailed r) (p_FailAuthCount r) (p_TLData r).
Definition set_strings (r : PrincipalRecord) (strings : gmap bytes bytes) : PrincipalRecord :=
  mkRec (p_Name r) (p_Keys r) (p_KeyData r) (p_PasswordHistory r) (p_KADMAuxAttributes r)
    (p_AdminHistoryNext r) (p_AdminHistoryKVNO r) (p_LastPasswordChange r) strings
    (p_KVNO r) (p_Flags r) (p_Policy r) (p_MaxLife r) (p_MaxRenew r) (p_Expiration r)
    (p_PasswordExpiration r) (p_LastSuccess r) (p_LastFailed r) (p_FailAuthCount r) (p_TLData r).

(** The fields of MIT's KADM_DATA that a password change writes. *)
Record KADMData := mkKADM {
  kd_Policy : bytes;
  kd_AuxAttributes : Z;
  kd_OldKeyNext : Z;
  kd_AdminHistoryKVNO : Z;
  kd_NormalSalt : bytes;
  kd_OldKeys : list keyset;
}.

(** ** Operations *)

Section operations.
Context `{GoCrypto} (fips : bool).
(** [EncodeKADMData] of kadmdata.go, the codec of the stored history. *)
Context (EncodeKADMData : KADMData → Key → res bytes).

(** Apply [f] to the record of a name. *)
Definition with_record {A} (db : Database) (name : Principal) (f : bytes → PrincipalRecord → res A) : res A :=
  match db_principals db !! canonical name with
  | None => Err ErrPrincipalNotFound
  | Some record => f (canonical name) record
  end.

Definition AddPrincipal (db : Database) (name password : bytes) (kvnos : list Z) (now : Z) : res Database :=
  if zlen (db_Realm db) =? 0 then Err "add principal: empty database realm" else
  let kvnos := match kvnos with [] => [1] | _ => kvnos end in
  res_bind (wrap_err "add principal: " (parseName name (db_Realm db))) (λ parsedName,
  if existsb (λ kvno, kvno =? 0) kvnos then Err "add principal: KVNO must be nonzero" else
  let latest := foldl Z.max 0 kvnos in
  res_bind (wrap_err "add " (derive_tuples fips parsedName password latest
              ((λ enctype, mkTuple enctype SaltTypeNormal) <$> default_enctypes) ∅)) (λ keys,
  let record := empty_record parsedName keys latest now in
  Ok (store_record db (canonical parsedName) record now))).

Definition ImportPrincipal (db : Database) (record : PrincipalRecord) : res Database :=
  match db_principals db !! canonical (p_Name record) with
  | Some _ => Err ErrPrincipalExists
  | None => Ok (put_principal db (canonical (p_Name record)) record)
  end.

Definition createPrincipalWithTuples (db : Database) (name password : bytes)
    (tuples : list KeySaltTuple) (policy : option PolicyRecord) (now : Z) : res Database :=
  res_bind (wrap_err "create principal: " (parseName name (db_Realm db))) (λ parsedName,
  res_bind (deriveRecordWithTuplesAt fips parsedName password 1 tuples now) (λ record,
  let key := canonical parsedName in
  match db_principals db !! key with
  | Some _ => Err ErrPrincipalExists
  | None =>
      match policy with
      | None => Ok (store_record db key record now)
      | Some policy =>
          match db_policies db !! pol_Name policy with
          | None => Err ErrPolicyNotFound
          | Some policy =>
              let created := p_LastPasswordChange record in
              let record := set_policy record (pol_Name policy) (seconds (pol_MaxLife policy))
                (seconds (pol_MaxRenewableLife policy))
                (if 0 <? pol_MaxLife policy then created + seconds (pol_MaxLife policy)
                 else p_PasswordExpiration record) in
              Ok (store_record db key record now)
          end
      end
  end)).

Definition SetPrincipalPolicy (db : Database) (name : Principal) (policy : bytes) (now : Z) : res Database :=
  with_record db name (λ key record,
    Ok (store_record db key
      (set_policy record policy (p_MaxLife record) (p_MaxRenew record) (p_PasswordExpiration record)) now)).

Definition DeletePrincipal (db : Database) (name : Principal) (now : Z) : res Database :=
  with_record db name (λ key record,
    Ok (recordUpdateLocked (drop_principal db key) record true now)).

(** [UpdatePrincipal]; the three booleans say which maps of the argument are nil. *)
Definition UpdatePrincipal (db : Database) (record : PrincipalRecord)
    (nilKeys nilStrings nilHistory : bool) (now : Z) : res Database :=
  with_record db (p_Name record) (λ key current,
    let record := if nilKeys then set_keys record (p_Keys current) (p_KVNO record) else record in
    let record := if nilStrings then set_strings record (p_Strings current) else record in
    let record := if nilHistory
      then set_history record (p_PasswordHistory current) (p_AdminHistoryNext record)
             (p_AdminHistoryKVNO record) (p_TLData record) else record in
    let record := if IsZero (p_LastPasswordChange record)
      then set_password_times record (p_LastPasswordChange current) (p_PasswordExpiration record) else record in
    Ok (store_record db key record now)).

Definition UpdateLockout (db : Database) (name : Principal) (failCount lastFailed lastSuccess now : Z)
    : res Database :=
  with_record db name (λ key record,
    Ok (store_record db key (set_lockout record failCount lastFailed lastSuccess) now)).

(** The new count of failed authentications. *)
Definition next_fail_count (record : PrincipalRecord) (now failureCountInterval : Z) : Z :=
  let count :=
    if (0 <? failureCountInterval) && negb (IsZero (p_LastFailed record)) &&
       (p_LastFailed record + failureCountInterval <=? now)
    then 0 else p_FailAuthCount record in
  u32 (count + 1).
Definition RecordAuthFailure (db : Database) (name : Principal) (now failureCountInterval clock : Z)
    : res (Z * Database) :=
  with_record db name (λ key record,
    let count := next_fail_count record now failureCountInterval in
    Ok (count, store_record db key (set_lockout record count now (p_LastSuccess record)) clock)).

Definition ResetAuthFailures (db : Database) (name : Principal) (expectedLastFailed clock : Z) : res Database :=
  with_record db name (λ key record,
    if negb (p_LastFailed record =? expectedLastFailed) then Ok db
    else Ok (store_record db key (set_lockout record 0 (p_LastFailed record) (p_LastSuccess record)) clock)).

Definition RecordAuthSuccess (db : Database) (name : Principal) (now clock : Z) : res Database :=
  with_record db name (λ key record,
    Ok (store_record db key (set_lockout record 0 (p_LastFailed record) now) clock)).

(** *** Password changes *)

(** The checks on the password alone and on its age. *)
Definition password_checks (current : PrincipalRecord) (password : bytes) (now : Z)
    (policy : PolicyRecord) (bypassMinLife : bool) : res unit :=
  if (0 <? pol_MinLength policy) && (i32 (zlen password) <? pol_MinLength policy) then Err ErrPasswordTooShort
  else if (0 <? pol_MinClasses policy) && (passwordClasses password <? pol_MinClasses policy)
  then Err ErrPasswordClasses
  else if negb bypassMinLife && (0 <? pol_MinLife policy) && negb (IsZero (p_LastPasswordChange current)) &&
          (now <? p_LastPasswordChange current + seconds (pol_MinLife policy))
  then Err ErrPasswordTooSoon
  else Ok tt.

(** The history that counts: one kept under another history key is dropped. *)
Definition effective_history (historyKey : option Key) (current : PrincipalRecord) : list keyset :=
  match historyKey with
  | Some k => if negb (p_AdminHistoryKVNO current =? 0) && negb (p_AdminHistoryKVNO current =? Key_KVNO k)
              then [] else p_PasswordHistory current
  | None => p_PasswordHistory current
  end.

(** The history checks and the new history of a password change. *)
Definition change_history (db : Database) (current : PrincipalRecord) (next : keyset)
    (policy : PolicyRecord) (keepOld : bool) : res PrincipalRecord :=
  if negb (0 <? pol_HistoryNum policy) then Ok current else
  let historyKey := historyKeyLocked fips db in
  let old := effective_history historyKey current in
  let historyLimit := pol_HistoryNum policy - 1 in
  let historyLimit := if keepOld && (historyLimit <? 1) then 1 else historyLimit in
  if passwordMatchesKeys next (p_Keys current) then Err ErrPasswordReuse else
  let limit := Z.min historyLimit (zlen old) in
  if existsb (passwordMatchesKeys next) (take (Z.to_nat limit) old) then Err ErrPasswordReuse else
  let history := take (Z.to_nat historyLimit) (p_Keys current :: old) in
  let historyNext := if zlen history <? historyLimit then u32 (zlen history) else 0 in
  match historyKey with
  | None => Ok (set_history current history historyNext (p_AdminHistoryKVNO current) (p_TLData current))
  | Some k =>
      let policyName := if zlen (p_Policy current) =? 0 then pol_Name policy else p_Policy current in
      res_bind (EncodeKADMData (mkKADM policyName (p_KADMAuxAttributes current) historyNext (Key_KVNO k)
                  (normal_salt (p_Name current)) history) k) (λ data,
      Ok (set_history current history historyNext (Key_KVNO k)
            (filter (λ item, TL_Type item ≠ KADMDataType) (p_TLData current) ++ [mkTL KADMDataType data])))
  end.

Definition changePasswordWithTuples (db : Database) (name : Principal) (password : bytes) (now : Z)
    (policy : option PolicyRecord) (bypassMinLife keepOld : bool) (tuples : list KeySaltTuple) (clock : Z)
    : res Database :=
  with_record db name (λ key current,
  res_bind (next_keys fips current password tuples now) (λ keys,
  res_bind
    (match policy with
     | None =>
         Ok (if keepOld
             then set_history current (p_Keys current :: p_PasswordHistory current) (p_AdminHistoryNext current)
                    (p_AdminHistoryKVNO current) (p_TLData current)
             else current)
     | Some policy =>
         res_bind (password_checks current password now policy bypassMinLife) (λ _,
         res_bind (change_history db current keys policy keepOld) (λ current,
         Ok (set_password_times current (p_LastPasswordChange current)
               (if 0 <? pol_MaxLife policy then now + seconds (pol_MaxLife policy) else zero_time))))
     end) (λ current,
  let current := set_keys current keys (u32 (p_KVNO current + 1)) in
  let current := set_password_times current now (p_PasswordExpiration current) in
  Ok (store_record db key current clock)))).

Definition CheckPasswordPolicy (db : Database) (name : Principal) (password : bytes) (now : Z)
    (policy : option PolicyRecord) (bypassMinLife : bool) (clock : Z) : res unit :=
  with_record db name (λ key current,
  match policy with
  | None => Ok tt
  | Some policy =>
      res_bind (password_checks current password now policy bypassMinLife) (λ _,
      if negb (0 <? pol_HistoryNum policy) then Ok tt else
      res_bind (next_keys fips current password [] clock) (λ keys,
      if passwordMatchesKeys keys (p_Keys current) then Err ErrPasswordReuse else
      let limit := Z.min (pol_HistoryNum policy - 1) (zlen (p_PasswordHistory current)) in
      if existsb (passwordMatchesKeys keys) (take (Z.to_nat limit) (p_PasswordHistory current))
      then Err ErrPasswordReuse else Ok tt))
  end).

(** *** Keys *)

(** The loops of [RandomizeKeysWithKeySalts]; [rnd] gives the random key of an
    encryption type. *)
Fixpoint randomize_loop (rnd : Z → res bytes) (kvno : Z) (salts : list (Z * res bytes)) (generated keys : keyset)
    : res (keyset * keyset) :=
  match salts with
  | [] => Ok (generated, keys)
  | (enctype, salt) :: salts =>
      res_bind (Registry_Get fips enctype) (λ _,
      res_bind (rnd enctype) (λ value,
      res_bind salt (λ salt,
      let k := mkKey enctype kvno value salt in
      randomize_loop rnd kvno salts (<[enctype := k]> generated) (<[enctype := k]> keys))))
  end.

Definition RandomizeKeysWithKeySalts (db : Database) (rnd : Z → res bytes) (name : Principal) (keepOld : bool)
    (tuples : list KeySaltTuple) (clock : Z) : res (list Key * Database) :=
  res_bind (normalizeKeySaltTuples tuples) (λ normalized,
  with_record db name (λ key current,
    let nextKVNO := u32 (p_KVNO current + 1) in
    let salts := match normalized with
                 | [] => (λ p : Z * Key, (p.1, Ok (Key_Salt p.2))) <$> map_to_list (p_Keys current)
                 | _ => (λ t, (t_Enctype t, saltForPrincipal (p_Name current) (t_SaltType t))) <$> normalized
                 end in
    res_bind (randomize_loop rnd nextKVNO salts ∅ (if keepOld then p_Keys current else ∅)) (λ r,
    let '(generated, keys) := r in
    Ok ((map_to_list generated).*2, store_record db key (set_keys current keys nextKVNO) clock)))).

Definition PurgeKeys (db : Database) (name : Principal) (keepKVNO : Z) (clock : Z) : res Database :=
  with_record db name (λ key current,
    let keepKVNO :=
      if keepKVNO <=? 0
      then foldr (λ k m, if m <? i32 (Key_KVNO k) then i32 (Key_KVNO k) else m) 0 (map_to_list (p_Keys current)).*2
      else keepKVNO in
    let next := filter (λ p : Z * Key, keepKVNO <= i32 (Key_KVNO p.2)) (p_Keys current) in
    if Z.of_nat (size next) =? 0 then Err "purge keys: KVNO not found"
    else Ok (store_record db key (set_keys current next (p_KVNO current)) clock)).

Fixpoint set_keys_loop (default kvno : Z) (keys : list Key) (next : keyset) : keyset * Z :=
  match keys with
  | [] => (next, kvno)
  | value :: keys =>
      let v := if Key_KVNO value =? 0 then default else Key_KVNO value in
      set_keys_loop default (Z.max kvno v) keys
        (<[Key_Enctype value := mkKey (Key_Enctype value) v (Key_Key value) (Key_Salt value)]> next)
  end.
Definition SetKeys (db : Database) (name : Principal) (keys : list Key) (keepOld : bool) (clock : Z) : res Database :=
  with_record db name (λ key current,
    let '(next, kvno) := set_keys_loop (u32 (p_KVNO current + 1)) (p_KVNO current) keys
                           (if keepOld then p_Keys current else ∅) in
    Ok (store_record db key (set_keys current next kvno) clock)).

(** *** Names, strings, replication, policies, aliases *)

Definition RenamePrincipal (db : Database) (src dest : Principal) (clock : Z) : res Database :=
  with_record db src (λ sourceKey record,
    match db_principals db !! canonical dest with
    | Some _ => Err ErrPrincipalExists
    | None =>
        let renamed := set_name record dest in
        let db := drop_principal (put_principal db (canonical dest) renamed) sourceKey in
        Ok (recordUpdateLocked (recordUpdateLocked db record true clock) renamed false clock)
    end).

Definition GetStrings (db : Database) (name : Principal) : res (gmap bytes bytes) :=
  with_record db name (λ _ record, Ok (p_Strings record)).

Definition SetString (db : Database) (name : Principal) (key : bytes) (value : option bytes) (clock : Z)
    : res Database :=
  with_record db name (λ k record,
    let strings := match value with
                   | None => delete key (p_Strings record)
                   | Some v => <[key := v]> (p_Strings record)
                   end in
    Ok (store_record db k (set_strings record strings) clock)).

Definition ApplyPrincipal (db : Database) (record : PrincipalRecord) (deleted : bool) : Database :=
  if deleted then drop_principal db (canonical (p_Name record))
  else put_principal db (canonical (p_Name record)) record.

Definition with_policies (db : Database) (policies : gmap bytes PolicyRecord) : Database :=
  mkDB (db_Realm db) (db_principals db) (db_aliases db) policies (db_UpdateLog db).

Definition CreatePolicy (db : Database) (policy : PolicyRecord) : res Database :=
  match db_policies db !! pol_Name policy with
  | Some _ => Err ErrPolicyExists
  | None => Ok (with_policies db (<[pol_Name policy := policy]> (db_policies db)))
  end.
Definition GetPolicy (db : Database) (name : bytes) : res PolicyRecord :=
  match db_policies db !! name with Some p => Ok p | None => Err ErrPolicyNotFound end.
Definition UpdatePolicy (db : Database) (policy : PolicyRecord) : res Database :=
  match db_policies db !! pol_Name policy with
  | None => Err ErrPolicyNotFound
  | Some _ => Ok (with_policies db (<[pol_Name policy := policy]> (db_policies db)))
  end.
Definition DeletePolicy (db : Database) (name : bytes) : res Database :=
  match db_policies db !! name with
  | None => Err ErrPolicyNotFound
  | Some _ =>
      if existsb (λ p : bytes * PrincipalRecord, bytes_eqb (p_Policy p.2) name) (map_to_list (db_principals db))
      then Err ErrPolicyInUse
      else Ok (with_policies db (delete name (db_policies db)))
  end.

Definition AddAlias (db : Database) (alias target : bytes) : res Database :=
  if zlen (db_Realm db) =? 0 then Err "add alias: empty database realm" else
  res_bind (wrap_err "add alias: alias: " (parseName alias (db_Realm db))) (λ parsedAlias,
  res_bind (wrap_err "add alias: target: " (parseName target (db_Realm db))) (λ parsedTarget,
  match db_principals db !! canonical parsedTarget with
  | None => Err "add alias: target principal does not exist"
  | Some _ =>
      if bytes_eqb (canonical parsedAlias) (canonical parsedTarget) then Err ErrPrincipalExists
      else match db_principals db !! canonical parsedAlias, db_aliases db !! canonical parsedAlias with
      | None, None =>
          Ok (mkDB (db_Realm db) (db_principals db)
                (<[canonical parsedAlias := parsedTarget]> (db_aliases db)) (db_policies db) (db_UpdateLog db))
      | _, _ => Err ErrPrincipalExists
      end
  end)).

Definition Lookup (db : Database) (name : Principal) : option PrincipalRecord :=
  db_principals db !! canonical name.
Definition ResolveAlias (db : Database) (name : Principal) : option Principal :=
  db_aliases db !! canonical name.
End operations.

(** ** Runs of the database *)

Inductive db_op :=
  | OpAdd (name password : bytes) (kvnos : list Z)
  | OpImport (record : PrincipalRecord)
  | OpCreate (name password : bytes) (tuples : list KeySaltTuple) (policy : option PolicyRecord)
  | OpSetPolicy (name : Principal) (policy : bytes)
  | OpDelete (name : Principal)
  | OpUpdate (record : PrincipalRecord) (nilKeys nilStrings nilHistory : bool)
  | OpLockout (name : Principal) (failCount lastFailed lastSuccess : Z)
  | OpFailure (name : Principal) (now interval : Z)
  | OpReset (name : Principal) (expected : Z)
  | OpSuccess (name : Principal) (now : Z)
  | OpChange (name : Principal) (password : bytes) (now : Z) (policy : option PolicyRecord)
      (bypass keepOld : bool) (tuples : list KeySaltTuple)
  | OpRandomize (rnd : Z → res bytes) (name : Principal) (keepOld : bool) (tuples : list KeySaltTuple)
  | OpPurge (name : Principal) (keepKVNO : Z)
  | OpSetKeys (name : Principal) (keys : list Key) (keepOld : bool)
  | OpRename (src dest : Principal)
  | OpSetString (name : Principal) (key : bytes) (value : option bytes)
  | OpCreatePolicy (policy : PolicyRecord)
  | OpUpdatePolicy (policy : PolicyRecord)
  | OpDeletePolicy (name : bytes)
  | OpAlias (alias target : bytes).

Section runs.
Context `{GoCrypto} (fips : bool) (EncodeKADMData : KADMData → Key → res bytes).

Definition op_result (db : Database) (clock : Z) (o : db_op) : res Database :=
  match o with
  | OpAdd name password kvnos => AddPrincipal fips db name password kvnos clock
  | OpImport record => ImportPrincipal db record
  | OpCreate name password tuples policy => createPrincipalWithTuples fips db name password tuples policy clock
  | OpSetPolicy name policy => SetPrincipalPolicy db name policy clock
  | OpDelete name => DeletePrincipal db name clock
  | OpUpdate record k s h => UpdatePrincipal db record k s h clock
  | OpLockout name n f s => UpdateLockout db name n f s clock
  | OpFailure name now interval => res_bind (RecordAuthFailure db name now interval clock) (λ r, Ok r.2)
  | OpReset name expected => ResetAuthFailures db name expected clock
  | OpSuccess name now => RecordAuthSuccess db name now clock
  | OpChange name password now policy bypass keepOld tuples =>
      changePasswordWithTuples fips EncodeKADMData db name password now policy bypass keepOld tuples clock
  | OpRandomize rnd name keepOld tuples =>
      res_bind (RandomizeKeysWithKeySalts fips db rnd name keepOld tuples clock) (λ r, Ok r.2)
  | OpPurge name keepKVNO => PurgeKeys db name keepKVNO clock
  | OpSetKeys name keys keepOld => SetKeys db name keys keepOld clock
  | OpRename src dest => RenamePrincipal db src dest clock
  | OpSetString name key value => SetString db name key value clock
  | OpCreatePolicy policy => CreatePolicy db policy
  | OpUpdatePolicy policy => UpdatePolicy db policy
  | OpDeletePolicy name => DeletePolicy db name
  | OpAlias alias target => AddAlias db alias target
  end.

(** A failed operation leaves the database as it is. *)
Definition db_step (db : Database) (o : Z * db_op) : Database :=
  match op_result db o.1 o.2 with Ok db' => db' | _ => db end.
Definition db_run (db : Database) (ops : list (Z * db_op)) : Database := foldl db_step db ops.
End runs.

(** ** Invariants *)

(** Every record stands under the canonical form of its own name. *)
Definition db_ok (db : Database) : Prop :=
  ∀ key r, db_principals db !! key = Some r → canonical (p_Name r) = key.

Lemma db_ok_new realm : db_ok (NewDatabase realm).
Proof. intros key r Hr. cbn in Hr. by rewrite lookup_empty in Hr. Qed.

(** What an operation can do to the principals and the log; [imports] says
    whether records may be installed without a log entry. *)
Inductive db_change (db : Database) (imports : bool) : Database → Prop :=
  | Change_none db' :
      db_principals db' = db_principals db → db_UpdateLog db' = db_UpdateLog db → db_change db imports db'
  | Change_put r clock : db_change db imports (store_record db (canonical (p_Name r)) r clock)
  | Change_import r :
      imports = true → db_change db imports (put_principal db (canonical (p_Name r)) r)
  | Change_delete r clock :
      db_change db imports (recordUpdateLocked (drop_principal db (canonical (p_Name r))) r true clock)
  | Change_rename r dest clock :
      canonical dest ≠ canonical (p_Name r) →
      db_change db imports (recordUpdateLocked (recordUpdateLocked
        (drop_principal (put_principal db (canonical dest) (set_name r dest)) (canonical (p_Name r)))
        r true clock) (set_name r dest) false clock).

Definition is_import (o : db_op) : bool := match o with OpImport _ => true | _ => false end.

Lemma put_change db b key r clock :
  key = canonical (p_Name r) → db_change db b (store_record db key r clock).
Proof. intros ->. apply Change_put. Qed.

Lemma with_record_Ok {A} db name (f : bytes → PrincipalRecord → res A) a :
  db_ok db → with_record db name f = Ok a →
  ∃ r, db_principals db !! canonical name = Some r ∧ canonical (p_Name r) = canonical name ∧
    f (canonical name) r = Ok a.
Proof.
  unfold with_record. intros Hdb. destruct (db_principals db !! canonical name) as [r|] eqn:Hr; [|done].
  intros Hf. exists r. split_and!; [done|by apply Hdb|done].
Qed.

Lemma deriveRecord_name `{GoCrypto} fips name password kvno tuples now r :
  deriveRecordWithTuplesAt fips name password kvno tuples now = Ok r → p_Name r = name.
Proof. unfold deriveRecordWithTuplesAt. intros Hr. inv_res. by subst. Qed.

Lemma change_history_name `{GoCrypto} fips enc db r keys policy keepOld r' :
  change_history fips enc db r keys policy keepOld = Ok r' → p_Name r' = p_Name r.
Proof.
  unfold change_history. intros Hr. repeat case_match; inv_res; by subst.
Qed.

Ltac kdb_open :=
  match goal with
  | Hdb : db_ok ?db, H : with_record ?db _ _ = Ok _ |- _ =>
      apply (with_record_Ok _ _ _ _ Hdb) in H as (? & ? & ? & H)
  end.

Section change.
Context `{GoCrypto} (fips : bool) (enc : KADMData → Key → res bytes).

Lemma changePassword_change db name password now policy bypass keepOld tuples clock db' :
  db_ok db →
  changePasswordWithTuples fips enc db name password now policy bypass keepOld tuples clock = Ok db' →
  db_change db false db'.
Proof.
  intros Hdb Hc. unfold changePasswordWithTuples in Hc. kdb_open. cbv beta in Hc. inv_res. subst.
  apply put_change. cbn. destruct policy as [policy|]; inv_res; subst; cbn.
  - match goal with Hh : change_history _ _ _ _ _ _ _ = Ok _ |- _ => by rewrite (change_history_name _ _ _ _ _ _ _ _ Hh) end.
  - by destruct keepOld.
Qed.

(** Every operation that succeeds is one of the changes. *)
Lemma op_change db clock o db' : db_ok db → op_result fips enc db clock o = Ok db' → db_change db (is_import o) db'.
Proof.
  intros Hdb Ho. destruct o; cbn [op_result] in Ho.
  - unfold AddPrincipal in Ho. inv_res. subst. by apply put_change.
  - unfold ImportPrincipal in Ho. case_match; [done|]. inv_res. subst. by apply Change_import.
  - unfold createPrincipalWithTuples in Ho. inv_res.
    match goal with Hd : deriveRecordWithTuplesAt _ _ _ _ _ _ = Ok _ |- _ =>
      pose proof (deriveRecord_name _ _ _ _ _ _ _ Hd) as Hname end.
    repeat case_match; inv_res; subst; apply put_change; done.
  - unfold SetPrincipalPolicy in Ho. kdb_open. inv_res. subst. by apply put_change.
  - unfold DeletePrincipal in Ho. kdb_open. inv_res. subst.
    match goal with Hn : canonical _ = canonical name |- _ => rewrite <- Hn end. apply Change_delete.
  - unfold UpdatePrincipal in Ho. kdb_open. cbv beta zeta in Ho. inv_res. subst. apply put_change.
    by repeat case_match.
  - unfold UpdateLockout in Ho. kdb_open. inv_res. subst. by apply put_change.
  - unfold RecordAuthFailure in Ho. inv_res. kdb_open. inv_res. subst. by apply put_change.
  - unfold ResetAuthFailures in Ho. kdb_open. case_match; inv_res; subst; [by apply Change_none|by apply put_change].
  - unfold RecordAuthSuccess in Ho. kdb_open. inv_res. subst. by apply put_change.
  - by apply changePassword_change in Ho.
  - unfold RandomizeKeysWithKeySalts in Ho. inv_res. kdb_open. cbv beta zeta in *. inv_res.
    case_match. inv_res. subst. by apply put_change.
  - unfold PurgeKeys in Ho. kdb_open. cbv beta zeta in Ho. inv_res. subst. by apply put_change.
  - unfold SetKeys in Ho. kdb_open. case_match. inv_res. subst. by apply put_change.
  - unfold RenamePrincipal in Ho. kdb_open. case_match; [done|]. inv_res. subst.
    match goal with Hn : canonical _ = canonical src |- _ => rewrite <- Hn end. apply Change_rename.
    intros E. congruence.
  - unfold SetString in Ho. kdb_open. inv_res. subst. by apply put_change.
  - unfold CreatePolicy in Ho. case_match; [done|]. inv_res. subst. by apply Change_none.
  - unfold UpdatePolicy in Ho. case_match; [|done]. inv_res. subst. by apply Change_none.
  - unfold DeletePolicy in Ho. case_match; [|done]. inv_res. subst. by apply Change_none.
  - unfold AddAlias in Ho. inv_res. repeat case_match; inv_res; subst; by apply Change_none.
Qed.

Lemma recordUpdate_principals db r deleted clock :
  db_principals (recordUpdateLocked db r deleted clock) = db_principals db.
Proof. unfold recordUpdateLocked. by destruct (db_UpdateLog db). Qed.

Lemma change_ok db b db' : db_ok db → db_change db b db' → db_ok db'.
Proof.
  intros Hdb Hc key r Hr. destruct Hc as [db' Hp _|x clock|x _|x clock|x dest clock Hne];
    unfold store_record in Hr; rewrite ?recordUpdate_principals in Hr; cbn in Hr.
  - apply Hdb. congruence.
  - apply lookup_insert_Some in Hr as [[<- <-]|[_ Hr]]; [done|by apply Hdb].
  - apply lookup_insert_Some in Hr as [[<- <-]|[_ Hr]]; [done|by apply Hdb].
  - apply lookup_delete_Some in Hr as [_ Hr]. by apply Hdb.
  - apply lookup_delete_Some in Hr as [_ Hr].
    apply lookup_insert_Some in Hr as [[<- <-]|[_ Hr]]; [done|by apply Hdb].
Qed.

Lemma db_step_change db o : db_ok db → db_change db (is_import o.2) (db_step fips enc db o).
Proof.
  intros Hdb. unfold db_step. destruct (op_result fips enc db o.1 o.2) eqn:Ho.
  - by apply op_change in Ho.
  - by apply Change_none.
  - by apply Change_none.
Qed.

Lemma db_run_ok db ops : db_ok db → db_ok (db_run fips enc db ops).
Proof.
  revert db. induction ops as [|o ops IH]; intros db Hdb; [done|].
  cbn [db_run foldl]. apply IH. eapply change_ok; [done|by apply db_step_change].
Qed.
End change.

(** ** Replication *)

(** A replica applies the entries it receives. *)
Definition replay (db : Database) (es : list (UpdateLogEntry PrincipalRecord)) : Database :=
  foldl (λ db e, ApplyPrincipal db (e_Record e) (e_Deleted e)) db es.

(** Records up to their tagged data, where the log adds the modifier. *)
Definition strip (r : PrincipalRecord) : PrincipalRecord := set_TLData r [].
Definition same_principals (db db' : Database) : Prop :=
  strip <$> db_principals db = strip <$> db_principals db'.

#[export] Instance same_principals_equiv : Equivalence same_principals.
Proof. split; red; unfold same_principals; congruence. Qed.

Lemma strip_logged r deleted now : strip (logged_record r deleted now) = strip r.
Proof. unfold logged_record. by destruct (_ && _). Qed.
Lemma logged_name r deleted now : p_Name (logged_record r deleted now) = p_Name r.
Proof. unfold logged_record. by destruct (_ && _). Qed.

#[export] Instance ApplyPrincipal_proper :
  Proper (same_principals ==> eq ==> eq ==> same_principals) ApplyPrincipal.
Proof.
  intros db db' Hdb r _ <- d _ <-. unfold same_principals, ApplyPrincipal in *.
  destruct d; cbn; [by rewrite !fmap_delete, Hdb|by rewrite !fmap_insert, Hdb].
Qed.
#[export] Instance replay_proper : Proper (same_principals ==> eq ==> same_principals) replay.
Proof.
  intros db db' Hdb es _ <-. unfold replay. revert db db' Hdb.
  induction es as [|e es IH]; intros db db' Hdb; cbn; [done|]. apply IH. by rewrite Hdb.
Qed.

(** Logging one change is applying it on the replica. *)
Lemma recordUpdate_log db r deleted clock l h :
  db_UpdateLog db = Some l → log_of h l → zlen h < 2 ^ 32 - 1 →
  ∃ e l', db_UpdateLog (recordUpdateLocked db r deleted clock) = Some l' ∧ log_of (h ++ [e]) l' ∧
    ∀ db0, same_principals (replay db0 [e]) (ApplyPrincipal db0 r deleted).
Proof.
  intros Hl Hh Hlt. unfold recordUpdateLocked. rewrite Hl. eexists _, _. cbn [db_UpdateLog].
  split; [done|]. split; [by apply log_of_append|]. intros db0. cbn. unfold same_principals, ApplyPrincipal.
  rewrite logged_name. destruct deleted; [done|]. cbn. by rewrite !fmap_insert, strip_logged.
Qed.

Lemma change_replay db db' l h :
  db_change db false db' → db_UpdateLog db = Some l → log_of h l → zlen h + 2 < 2 ^ 32 - 1 →
  ∃ h' l', db_UpdateLog db' = Some l' ∧ log_of (h ++ h') l' ∧ zlen h' <= 2 ∧
    same_principals db' (replay db h').
Proof.
  intros Hc Hl Hh Hlt. destruct Hc as [db' Hp Hu|r clock|r Hi|r clock|r dest clock Hne].
  - exists [], l. rewrite app_nil_r, Hu. split_and!; [done|done|done|].
    unfold same_principals. cbn. by rewrite Hp.
  - destruct (recordUpdate_log (put_principal db (canonical (p_Name r)) r) r false clock l h) as (e & l' & Hl' & Hh' & Ha); [done|done|lia|].
    exists [e], l'. split_and!; [done|done|done|]. rewrite Ha. unfold same_principals, store_record.
    by rewrite recordUpdate_principals.
  - done.
  - destruct (recordUpdate_log (drop_principal db (canonical (p_Name r))) r true clock l h) as (e & l' & Hl' & Hh' & Ha); [done|done|lia|].
    exists [e], l'. split_and!; [done|done|done|]. rewrite Ha. unfold same_principals.
    by rewrite recordUpdate_principals.
  - set (db1 := drop_principal _ _).
    destruct (recordUpdate_log db1 r true clock l h) as (e1 & l1 & Hl1 & Hh1 & Ha1); [done|done|lia|].
    destruct (recordUpdate_log (recordUpdateLocked db1 r true clock) (set_name r dest) false clock l1 (h ++ [e1]))
      as (e2 & l2 & Hl2 & Hh2 & Ha2); [done|done|rewrite zlen_app; change (zlen [e1]) with 1; lia|].
    exists [e1; e2], l2. split_and!; [done|by rewrite <- app_assoc in Hh2|done|].
    assert (Hr : same_principals (replay db [e1; e2]) (ApplyPrincipal (ApplyPrincipal db r true) (set_name r dest) false)).
    { change (replay db [e1; e2]) with (replay (replay db [e1]) [e2]). by rewrite Ha2, Ha1. }
    rewrite Hr. unfold same_principals. rewrite !recordUpdate_principals. unfold db1. cbn.
    by rewrite delete_insert_ne by done.
Qed.

Section replication.
Context `{GoCrypto} (fips : bool) (enc : KADMData → Key → res bytes).

Lemma run_replay ops db l h :
  db_ok db → Forall (λ o, is_import o.2 = false) ops →
  db_UpdateLog db = Some l → log_of h l → zlen h + 2 * zlen ops < 2 ^ 32 - 1 →
  ∃ h' l', db_UpdateLog (db_run fips enc db ops) = Some l' ∧ log_of (h ++ h') l' ∧
    zlen h' <= 2 * zlen ops ∧ same_principals (db_run fips enc db ops) (replay db h').
Proof.
  intros Hdb Hops. revert db l h Hdb. induction Hops as [|o ops Ho Hops IH]; intros db l h Hdb Hl Hh Hlt.
  - exists [], l. by rewrite app_nil_r.
  - rewrite zlen_cons in Hlt. pose proof (zlen_nonneg ops).
    pose proof (db_step_change fips enc db o Hdb) as Hc. rewrite Ho in Hc.
    destruct (change_replay _ _ _ _ Hc Hl Hh) as (h1 & l1 & Hl1 & Hh1 & Hn1 & Hs1); [lia|].
    destruct (IH _ _ _ (change_ok _ _ _ Hdb Hc) Hl1 Hh1) as (h2 & l2 & Hl2 & Hh2 & Hn2 & Hs2);
      [rewrite zlen_app; lia|].
    exists (h1 ++ h2), l2. cbn [db_run foldl]. fold (db_run fips enc (db_step fips enc db o) ops).
    rewrite app_assoc, zlen_app, zlen_cons. split_and!; [done|done|lia|].
    rewrite Hs2, Hs1. unfold replay. by rewrite foldl_app.
Qed.

(** The capacity of the log never changes in a run. *)
Definition ulog_capacity (db : Database) : option Z := l_capacity <$> db_UpdateLog db.
Lemma recordUpdate_capacity db r deleted clock :
  ulog_capacity (recordUpdateLocked db r deleted clock) = ulog_capacity db.
Proof.
  unfold recordUpdateLocked, ulog_capacity. destruct (db_UpdateLog db) as [l|] eqn:E; [|by rewrite E].
  cbn. unfold ulog_append. by destruct (_ =? _).
Qed.
Lemma run_capacity ops db : db_ok db → ulog_capacity (db_run fips enc db ops) = ulog_capacity db.
Proof.
  revert db. induction ops as [|o ops IH]; intros db Hdb; [done|]. cbn [db_run foldl].
  pose proof (db_step_change fips enc db o Hdb) as Hc.
  fold (db_run fips enc (db_step fips enc db o) ops). rewrite IH by (by eapply change_ok).
  destruct Hc as [db' _ Hu|r clock|r _|r clock|r dest clock _]; unfold store_record;
    rewrite ?recordUpdate_capacity; try done. unfold ulog_capacity. by rewrite Hu.
Qed.

End replication.

(** ** Password history *)

Section history.
Context `{GoCrypto} (fips : bool) (enc : KADMData → Key → res bytes).

Definition history_name (db : Database) : bytes :=
  db_Realm db ++ [nul] ++ str "kadmin" ++ [nul] ++ str "history".

Lemma recordUpdate_Realm db r deleted clock : db_Realm (recordUpdateLocked db r deleted clock) = db_Realm db.
Proof. unfold recordUpdateLocked. by destruct (db_UpdateLog db). Qed.
Lemma historyKey_store db key r clock :
  key ≠ history_name db → historyKeyLocked fips (store_record db key r clock) = historyKeyLocked fips db.
Proof.
  intros Hne. unfold historyKeyLocked, store_record. rewrite recordUpdate_principals, recordUpdate_Realm.
  cbn [put_principal db_principals db_Realm]. fold (history_name db). by rewrite lookup_insert_ne.
Qed.

(** A successful change under a policy with history: the new keys match neither
    the current ones nor the history, and the current ones enter the history. *)
Lemma change_step db name password now policy bypass tuples clock db' r :
  0 < pol_HistoryNum policy → db_principals db !! canonical name = Some r →
  changePasswordWithTuples fips enc db name password now (Some policy) bypass false tuples clock = Ok db' →
  let old := effective_history (historyKeyLocked fips db) r in
  let n := Z.to_nat (pol_HistoryNum policy - 1) in
  ∃ r', db' = store_record db (canonical name) r' clock ∧
    p_PasswordHistory r' = take n (p_Keys r :: old) ∧
    effective_history (historyKeyLocked fips db) r' = p_PasswordHistory r' ∧
    Forall (λ k, passwordMatchesKeys (p_Keys r') k = false) (p_Keys r :: take n old) ∧
    p_KVNO r' = u32 (p_KVNO r + 1).
Proof.
  intros Hn Hr Hc. cbv zeta. unfold changePasswordWithTuples, with_record in Hc. rewrite Hr in Hc. inv_res. subst.
  match goal with Hh : change_history _ _ _ _ _ _ _ = Ok _ |- _ => rename Hh into Hhist end.
  unfold change_history in Hhist. rewrite (proj2 (Z.ltb_lt _ _) Hn) in Hhist. cbn [negb andb] in Hhist.
  set (old := effective_history _ _) in *.
  destruct (passwordMatchesKeys _ _) eqn:Hcur; [done|].
  destruct (existsb _ _) eqn:Hold; [done|].
  assert (Hall : Forall (λ k, passwordMatchesKeys x k = false)
                   (take (Z.to_nat (pol_HistoryNum policy - 1)) old)).
  { apply Forall_forall. intros k Hk. apply not_true_is_false. intros Hm.
    apply not_true_iff_false in Hold. apply Hold, existsb_exists. exists k. split; [|done].
    apply list_elem_of_In. rewrite Z2Nat.inj_min. unfold zlen. rewrite Nat2Z.id.
    destruct (Nat.min_spec (Z.to_nat (pol_HistoryNum policy - 1)) (length old)) as [[? ->]|[? ->]]; [done|].
    rewrite take_ge by lia. by rewrite take_ge in Hk by lia. }
  eexists. split; [reflexivity|].
  destruct (historyKeyLocked fips db) as [k|]; inv_res; subst; cbn; rewrite ?Z.eqb_refl, ?andb_false_r;
    split_and!; try done; by constructor.
Qed.

(** A series of password changes of one principal, each with its password, its
    time and its key/salt tuples; [past] collects the keys they replace,
    newest first. *)
Fixpoint change_all (db : Database) (name : Principal) (policy : PolicyRecord) (bypass : bool)
    (changes : list (bytes * Z * list KeySaltTuple)) (past : list keyset) : res (Database * list keyset) :=
  match changes with
  | [] => Ok (db, past)
  | (password, now, tuples) :: changes =>
      res_bind (changePasswordWithTuples fips enc db name password now (Some policy) bypass false tuples now)
        (λ db', change_all db' name policy bypass changes
                  (match db_principals db !! canonical name with Some r => [p_Keys r] | None => [] end ++ past))
  end.

(** No keys match one of the [n] that came before them. *)
Fixpoint distinct_window (n : nat) (ks : list keyset) : Prop :=
  match ks with
  | [] => True
  | k :: ks => Forall (λ k', passwordMatchesKeys k k' = false) (take n ks) ∧ distinct_window n ks
  end.

Lemma change_all_window n db name policy bypass changes past db' past' r :
  n = Z.to_nat (pol_HistoryNum policy - 1) → 0 < pol_HistoryNum policy →
  canonical name ≠ history_name db →
  db_principals db !! canonical name = Some r →
  take n past = take n (effective_history (historyKeyLocked fips db) r) →
  distinct_window (S n) (p_Keys r :: past) →
  change_all db name policy bypass changes past = Ok (db', past') →
  ∃ r', db_principals db' !! canonical name = Some r' ∧ distinct_window (S n) (p_Keys r' :: past') ∧
    length past' = (length past + length changes)%nat.
Proof.
  intros Hn Hpos. revert db past r. induction changes as [|[[password now] tuples] changes IH];
    intros db past r Hname Hr Hpast Hw Hc.
  - injection Hc as <- <-. exists r. split_and!; [done|done|cbn; lia].
  - cbn [change_all] in Hc. inv_res. rewrite Hr in *. cbn [app] in *.
    match goal with H1 : changePasswordWithTuples _ _ _ _ _ _ _ _ _ _ _ = Ok ?d, H2 : change_all _ _ _ _ _ _ = _ |- _ =>
      rename H2 into Hc; destruct (change_step _ _ _ _ _ _ _ _ _ _ Hpos Hr H1) as (r1 & -> & Hh & He & Hf & _) end.
    rewrite <- Hn in *. assert (Hr1 : db_principals (store_record db (canonical name) r1 now) !! canonical name = Some r1)
      by (unfold store_record; rewrite recordUpdate_principals; apply lookup_insert_eq).
    eapply IH in Hc as (r' & Hr' & Hw' & Hl'); [|by unfold history_name, store_record; rewrite recordUpdate_Realm|exact Hr1| |].
    + exists r'. split_and!; [done|done|]. rewrite Hl'. cbn. lia.
    + rewrite historyKey_store, He, Hh by done. rewrite take_take, Nat.min_id. destruct n; [done|].
      cbn. f_equal. apply (f_equal (take n)) in Hpast. rewrite !take_take in Hpast.
      by rewrite !Nat.min_l in Hpast by lia.
    + split; [|done]. cbn [take]. rewrite Hpast. exact Hf.
Qed.

(** C19: under a policy that keeps [n] passwords, over any series of successful
    password changes of a principal the keys never match any of the [n] sets
    of keys before them. The principal may be any but the history principal
    itself, and starts with no stored history. *)
Theorem password_history_window db name policy bypass changes db' past r :
  0 < pol_HistoryNum policy → canonical name ≠ history_name db →
  db_principals db !! canonical name = Some r → p_PasswordHistory r = [] →
  change_all db name policy bypass changes [] = Ok (db', past) →
  ∃ r', db_principals db' !! canonical name = Some r' ∧ length past = length changes ∧
    distinct_window (Z.to_nat (pol_HistoryNum policy)) (p_Keys r' :: past).
Proof.
  intros Hpos Hname Hr Hold Hc.
  assert (He : effective_history (historyKeyLocked fips db) r = [])
    by (unfold effective_history; rewrite Hold; by repeat case_match).
  eapply (change_all_window (Z.to_nat (pol_HistoryNum policy - 1))) in Hc as (r' & Hr' & Hw & Hl);
    [|done|done|done|exact Hr|by rewrite He|by split].
  exists r'. split_and!; [done|done|].
  replace (Z.to_nat (pol_HistoryNum policy)) with (S (Z.to_nat (pol_HistoryNum policy - 1))) by lia. done.
Qed.

Lemma next_keys_clock r password tuples t t' :
  next_keys fips r password tuples t = next_keys fips r password tuples t'.
Proof.
  unfold next_keys, deriveRecordWithTuplesAt.
  destruct (normalizeKeySaltTuples tuples); cbn; [|done..]. by destruct (derive_tuples _ _ _ _ _ _).
Qed.

(** [CheckPasswordPolicy] is the password change without the change. When
    the stored history is not kept under an outdated history key and the history
    can be encoded, the change with the default key types succeeds exactly when
    the check does and the keys can be derived. *)
Theorem check_agrees_with_change db name password now policy bypass clock r :
  db_principals db !! canonical name = Some r →
  effective_history (historyKeyLocked fips db) r = p_PasswordHistory r →
  (∀ data k, ∃ b, enc data k = Ok b) →
  (∃ db', changePasswordWithTuples fips enc db name password now (Some policy) bypass false [] clock = Ok db') ↔
  CheckPasswordPolicy fips db name password now (Some policy) bypass clock = Ok tt ∧
  ∃ keys, next_keys fips r password [] now = Ok keys.
Proof.
  intros Hr He Henc. unfold changePasswordWithTuples, CheckPasswordPolicy, with_record. rewrite Hr.
  rewrite (next_keys_clock r password [] clock now).
  destruct (next_keys fips r password [] now) as [keys|e|]; cbn [res_bind].
  2-3: split; [by intros [? ?]|by intros [_ [? ?]]].
  destruct (password_checks r password now policy bypass) as [[]|e|]; cbn [res_bind].
  2-3: split; [by intros [? ?]|by intros [? _]].
  unfold change_history. rewrite He. destruct (0 <? pol_HistoryNum policy); cbn [negb andb res_bind];
    [|split; [by eauto|by intros _; eexists]].
  destruct (passwordMatchesKeys keys (p_Keys r)); [split; [by intros [? ?]|by intros [? _]]|].
  destruct (existsb _ _); [split; [by intros [? ?]|by intros [? _]]|].
  split; [by eauto|intros _]. destruct (historyKeyLocked fips db) as [k|]; [|by eexists].
  match goal with |- context [enc ?d k] => destruct (Henc d k) as [b ->] end. by eexists.
Qed.
End history.

(** ** Names *)

Definition nul_free (name : Principal) : Prop :=
  Components name ≠ [] ∧ nul ∉ Realm name ∧ Forall (λ c, nul ∉ c) (Components name).

Lemma split_nul (a b x y : bytes) :
  nul ∉ a → nul ∉ b → a ++ nul :: x = b ++ nul :: y → a = b ∧ x = y.
Proof.
  revert b. induction a as [|c a IH]; intros [|d b] Ha Hb E; cbn in E.
  - by injection E.
  - injection E as <- _. exfalso. apply Hb. constructor.
  - injection E as -> _. exfalso. apply Ha. constructor.
  - injection E as <- E. apply not_elem_of_cons in Ha as [_ Ha], Hb as [_ Hb].
    destruct (IH b Ha Hb E) as [-> ->]. done.
Qed.

Lemma join_nul_inj a b (ca cb : list bytes) :
  Forall (λ c, nul ∉ c) (a :: ca) → Forall (λ c, nul ∉ c) (b :: cb) →
  strings_join [nul] (a :: ca) = strings_join [nul] (b :: cb) → a :: ca = b :: cb.
Proof.
  revert a b cb. induction ca as [|a' ca IH]; intros a b [|b' cb] [Ha Hca]%Forall_cons [Hb Hcb]%Forall_cons E.
  - cbn in E. congruence.
  - cbn in E. exfalso. apply Ha. rewrite E. set_solver.
  - cbn in E. exfalso. apply Hb. rewrite <- E. set_solver.
  - change (a ++ nul :: strings_join [nul] (a' :: ca) = b ++ nul :: strings_join [nul] (b' :: cb)) in E.
    apply split_nul in E as [-> E]; [|done..]. f_equal. by apply IH.
Qed.

Lemma canonical_inj n1 n2 :
  nul_free n1 → nul_free n2 → canonical n1 = canonical n2 →
  Realm n1 = Realm n2 ∧ Components n1 = Components n2.
Proof.
  intros (Hc1 & Hr1 & Hf1) (Hc2 & Hr2 & Hf2) E. apply split_nul in E as [-> E]; [|done..].
  destruct (Components n1) as [|a ca], (Components n2) as [|b cb]; [done..|].
  split; [done|by apply join_nul_inj].
Qed.


(** A provider for evaluating runs: a digest is the key, and of a digest is zeros. *)
#[local] Instance echo_crypto : GoCrypto := {|
  AES := xor_cipher;
  AES_block := xor_cipher_block;
  aes_NewCipher key := Ok key;
  hmac_sum h key data := if Nat.eqb (length data) (hash_Size h) then zeros (hash_Size h) else pad_to (hash_Size h) key;
  sha1_Sum data := zeros 20;
|}.
Definition no_kadm : KADMData → Key → res bytes := λ _ _, Ok [].
Definition the_log (db : Database) : UpdateLog PrincipalRecord :=
  default (NewUpdateLog 0) (db_UpdateLog db).
Definition name_a : Principal := mkPrincipal (str "R") NTPrincipal [str "a"].
Definition name_b : Principal := mkPrincipal (str "R") NTPrincipal [str "b"].
Definition create_a : Z * db_op :=
  (5, OpCreate (str "a") (str "pw") [mkTuple EnctypeAES128SHA1 SaltTypeNormal] None).
Definition rename_ab : Z * db_op := (7, OpRename name_a name_b).


Definition history_policy : PolicyRecord := mkPolicy (str "p") 0 0 0 0 2 0 0 0 0 0 0 [].
Definition change_to (password : string) : bytes * Z * list KeySaltTuple :=
  (str password, 9, [mkTuple EnctypeAES128SHA1 SaltTypeNormal]).

Lemma password_history_window_witness :
  let db := db_run false no_kadm (NewDatabase (str "R")) [create_a] in
  ∃ db' past r', change_all false no_kadm db name_a history_policy false
                   [change_to "x"; change_to "y"] [] = Ok (db', past) ∧
    db_principals db' !! canonical name_a = Some r' ∧ length past = 2%nat ∧
    distinct_window 2 (p_Keys r' :: past).
Proof.
  intros db. pose (r := default (empty_record name_a ∅ 0 0) (db_principals db !! canonical name_a)).
  assert (Hr : db_principals db !! canonical name_a = Some r) by (vm_compute; reflexivity).
  assert (Hh : p_PasswordHistory r = []) by (vm_compute; reflexivity).
  assert (Hn : canonical name_a ≠ history_name db) by (vm_compute; discriminate).
  assert (Hok : match change_all false no_kadm db name_a history_policy false
                        [change_to "x"; change_to "y"] [] with Ok _ => true | _ => false end = true)
    by (vm_compute; reflexivity).
  destruct (change_all false no_kadm db name_a history_policy false
              [change_to "x"; change_to "y"] []) as [[db' past]| |] eqn:Hc;
    [|discriminate Hok..].
  destruct (password_history_window false no_kadm db name_a history_policy false
              _ db' past r eq_refl Hn Hr Hh Hc) as (r' & Hr' & Hl & Hw).
  exists db', past, r'. exact (conj eq_refl (conj Hr' (conj Hl Hw))).
Defined.


Lemma check_agrees_with_change_witness :
  let r := empty_record name_a ∅ 1 0 in
  let db := put_principal (NewDatabase (str "R")) (canonical name_a) r in
  (∃ db', changePasswordWithTuples false no_kadm db name_a (str "x") 9 (Some history_policy) false false [] 9 = Ok db') ↔
  CheckPasswordPolicy false db name_a (str "x") 9 (Some history_policy) false 9 = Ok tt ∧
  ∃ keys, next_keys false r (str "x") [] 9 = Ok keys.
Proof.
  intros r db. apply (check_agrees_with_change false no_kadm db name_a (str "x") 9 history_policy false 9 r).
  - apply lookup_insert_eq.
  - vm_compute; reflexivity.
  - intros data k. by exists [].
Defined.

(** *** Divergences *)


