(* ===== verification/GoStrings.v ===== *)
(** * Go strings as runes

    What the sources use of Go's UTF-8 strings: ranging over the runes of a
    string (an ill-formed byte is the replacement rune), writing a rune,
    [strings.TrimSpace], and [strings.EqualFold] with an ASCII constant. *)

From S2P Require Import Prelude.
Local Open Scope Z_scope.

Definition RuneError : Z := 0xfffd.

Definition in_range (lo hi : Z) (b : byte) : bool := (lo <=? b2z b) && (b2z b <=? hi).
Definition low6 (b : byte) : Z := Z.land (b2z b) 0x3f.

(** [utf8.DecodeRune]: the rune and its width. *)
Definition decode_rune (b0 : byte) (t : bytes) : Z * nat :=
  let x0 := b2z b0 in
  let bad := (RuneError, 1%nat) in
  let three lo hi :=
    match t with
    | b1 :: b2 :: _ =>
        if in_range lo hi b1 && in_range 0x80 0xbf b2
        then (Z.land x0 0xf * 4096 + low6 b1 * 64 + low6 b2, 3%nat) else bad
    | _ => bad
    end in
  let four lo hi :=
    match t with
    | b1 :: b2 :: b3 :: _ =>
        if in_range lo hi b1 && in_range 0x80 0xbf b2 && in_range 0x80 0xbf b3
        then (Z.land x0 7 * 262144 + low6 b1 * 4096 + low6 b2 * 64 + low6 b3, 4%nat) else bad
    | _ => bad
    end in
  if x0 <? 0x80 then (x0, 1%nat)
  else if x0 <? 0xc2 then bad
  else if x0 <? 0xe0 then
    match t with
    | b1 :: _ => if in_range 0x80 0xbf b1 then (Z.land x0 0x1f * 64 + low6 b1, 2%nat) else bad
    | [] => bad
    end
  else if x0 =? 0xe0 then three 0xa0 0xbf
  else if x0 =? 0xed then three 0x80 0x9f
  else if x0 <? 0xf0 then three 0x80 0xbf
  else if x0 =? 0xf0 then four 0x90 0xbf
  else if x0 <? 0xf4 then four 0x80 0xbf
  else if x0 =? 0xf4 then four 0x80 0x8f
  else bad.

(** The runes of a string with the bytes of each; a rune has at least a byte,
    so the length is enough fuel. *)
Fixpoint runes_loop (fuel : nat) (s : bytes) : list (Z * bytes) :=
  match fuel, s with
  | S fuel, b :: t =>
      let '(r, w) := decode_rune b t in
      (r, take w s) :: runes_loop fuel (drop w s)
  | _, _ => []
  end.
Definition runes (s : bytes) : list (Z * bytes) := runes_loop (length s) s.

(** [WriteRune] of a rune that [decode_rune] gives. *)
Definition write_rune (r : Z) : bytes :=
  if r <? 0x80 then [z2b r]
  else if r <? 0x800 then [z2b (0xc0 + Z.shiftr r 6); z2b (0x80 + Z.land r 0x3f)]
  else if r <? 0x10000 then
    [z2b (0xe0 + Z.shiftr r 12); z2b (0x80 + Z.land (Z.shiftr r 6) 0x3f); z2b (0x80 + Z.land r 0x3f)]
  else
    [z2b (0xf0 + Z.shiftr r 18); z2b (0x80 + Z.land (Z.shiftr r 12) 0x3f);
     z2b (0x80 + Z.land (Z.shiftr r 6) 0x3f); z2b (0x80 + Z.land r 0x3f)].

(** [[]rune(s)] and [string(rs)] of such runes. *)
Definition to_runes (s : bytes) : list Z := (runes s).*1.
Definition of_runes (rs : list Z) : bytes := concat (write_rune <$> rs).

(** [utf16.Encode] and [utf16.Decode]. *)
Definition utf16_units (r : Z) : list Z :=
  if (0 <=? r) && (r <? 0xd800) || (0xe000 <=? r) && (r <? 0x10000) then [r]
  else if (0x10000 <=? r) && (r <=? 0x10ffff) then
    let r := r - 0x10000 in [0xd800 + Z.land (Z.shiftr r 10) 0x3ff; 0xdc00 + Z.land r 0x3ff]
  else [RuneError].
Definition utf16_Encode (rs : list Z) : list Z := concat (utf16_units <$> rs).
Fixpoint utf16_Decode (units : list Z) : list Z :=
  match units with
  | [] => []
  | r :: rest =>
      if (r <? 0xd800) || (0xe000 <=? r) then r :: utf16_Decode rest
      else match rest with
           | r2 :: rest' =>
               if (r <? 0xdc00) && (0xdc00 <=? r2) && (r2 <? 0xe000)
               then (Z.shiftl (r - 0xd800) 10 + (r2 - 0xdc00) + 0x10000) :: utf16_Decode rest'
               else RuneError :: utf16_Decode rest
           | [] => [RuneError]
           end
  end.

(** [unicode.IsSpace]. *)
Definition is_space (r : Z) : bool :=
  ((9 <=? r) && (r <=? 13)) || (r =? 32) || (r =? 0x85) || (r =? 0xa0) || (r =? 0x1680) ||
  ((0x2000 <=? r) && (r <=? 0x200a)) || (r =? 0x2028) || (r =? 0x2029) || (r =? 0x202f) ||
  (r =? 0x205f) || (r =? 0x3000).
Fixpoint drop_spaces (l : list (Z * bytes)) : list (Z * bytes) :=
  match l with
  | (r, b) :: l' => if is_space r then drop_spaces l' else l
  | [] => []
  end.
Definition TrimSpace (s : bytes) : bytes :=
  concat (rev (drop_spaces (rev (drop_spaces (runes s))))).*2.

(** [strings.EqualFold] with a constant in ASCII: besides the case of letters,
    the Kelvin sign folds to k and the long s to s. *)
Definition fold_rune (r : Z) : Z :=
  if (65 <=? r) && (r <=? 90) then r + 32
  else if r =? 0x212a then 107
  else if r =? 0x17f then 115
  else r.
Definition EqualFold_ascii (s t : bytes) : bool :=
  bool_decide (fold_rune <$> (runes s).*1 = fold_rune <$> (runes t).*1).

(** ** ASCII strings *)

Definition ascii (s : bytes) : Prop := Forall (λ b, b2z b < 128) s.

Lemma ascii_app s t : ascii (s ++ t) ↔ ascii s ∧ ascii t.
Proof. apply Forall_app. Qed.

Lemma runes_ascii s : ascii s → runes s = (λ b, (b2z b, [b])) <$> s.
Proof.
  unfold runes. induction 1 as [|b s Hb Hs IH]; [done|]. cbn [length runes_loop].
  unfold decode_rune at 1. cbv zeta. rewrite (proj2 (Z.ltb_lt _ 0x80)) by lia.
  change (drop 1 (b :: s)) with s. by rewrite IH, fmap_cons.
Qed.

Lemma write_rune_ascii b : b2z b < 128 → write_rune (b2z b) = [b].
Proof. intros Hb. unfold write_rune. rewrite (proj2 (Z.ltb_lt _ 0x80)) by lia. by rewrite z2b_b2z. Qed.

(** ** UTF-16 *)

Definition scalar (r : Z) : Prop := 0 <= r < 0xd800 ∨ 0xe000 <= r <= 0x10ffff.
Lemma decode_rune_scalar b t : scalar (decode_rune b t).1.
Proof.
  assert (Hl : ∀ x n, 0 <= n → Z.land x (Z.ones n) = x mod 2 ^ n) by (intros; by apply Z.land_ones).
  assert (H6 : ∀ b, low6 b = b2z b mod 64) by (intros c; unfold low6; apply (Hl _ 6); lia).
  unfold decode_rune. cbv zeta. pose proof (b2z_range b).
  change 0xf with (Z.ones 4). change 0x1f with (Z.ones 5). change 7 with (Z.ones 3). rewrite !Hl by lia.
  assert (Hbad : scalar RuneError) by (right; done).
  unfold scalar, in_range.
  destruct t as [|b1 [|b2 [|b3 t]]]; rewrite ?H6; repeat case_match; cbn [fst]; try done;
    repeat match goal with Hx : _ && _ = true |- _ => apply andb_prop in Hx as [? ?] end;
    Z.to_euclidean_division_equations; lia.
Qed.
Lemma to_runes_scalar s : Forall scalar (to_runes s).
Proof.
  unfold to_runes, runes. generalize (length s). intros n. revert s. induction n as [|n IH]; intros [|b t]; cbn [runes_loop]; try done.
  destruct (decode_rune b t) as [r w] eqn:Hd. cbn. constructor; [|apply IH]. change r with (r, w).1. rewrite <- Hd. apply decode_rune_scalar.
Qed.
Lemma utf16_unit_range r : Forall (λ u, 0 <= u < 2 ^ 16) (utf16_units r).
Proof.
  unfold utf16_units. change 0x3ff with (Z.ones 10). rewrite !Z.land_ones, Z.shiftr_div_pow2 by lia.
  repeat case_match; repeat constructor; try done; try lia; Z.to_euclidean_division_equations; lia.
Qed.
Lemma utf16_Encode_range rs : Forall (λ u, 0 <= u < 2 ^ 16) (utf16_Encode rs).
Proof. unfold utf16_Encode. induction rs; cbn; [done|]. apply Forall_app. split; [apply utf16_unit_range|done]. Qed.
Lemma utf16_roundtrip rs : Forall scalar rs → utf16_Decode (utf16_Encode rs) = rs.
Proof.
  unfold utf16_Encode. induction 1 as [|r rs Hr Hrs IH]; [done|]. cbn [fmap list_fmap concat]. unfold scalar in Hr. unfold utf16_units at 1.
  destruct ((0 <=? r) && (r <? 0xd800) || (0xe000 <=? r) && (r <? 0x10000)) eqn:E1; cbn [app utf16_Decode].
  - replace ((r <? 0xd800) || (0xe000 <=? r)) with true by lia. by rewrite IH.
  - replace ((0x10000 <=? r) && (r <=? 0x10ffff)) with true by lia. cbn [app utf16_Decode].
    change 0x3ff with (Z.ones 10). rewrite !Z.land_ones, Z.shiftr_div_pow2 by lia. change (2 ^ 10) with 1024.
    assert (0 <= (r - 0x10000) / 1024 < 1024) by (Z.to_euclidean_division_equations; lia). rewrite (Z.mod_small (_ / _)) by done.
    pose proof (Z.mod_pos_bound (r - 0x10000) 1024 ltac:(done)).
    replace ((_ <? 0xd800) || (0xe000 <=? _)) with false by lia.
    replace ((_ <? 0xdc00) && (0xdc00 <=? _) && (_ <? 0xe000)) with true by lia. rewrite IH. f_equal.
    rewrite Z.shiftl_mul_pow2 by done. change (2 ^ 10) with 1024. Z.to_euclidean_division_equations. lia.
Qed.

(** A rune that is written is read back. *)
Lemma b2z_of_small z : 0 <= z < 256 → b2z (z2b z) = z.
Proof. intros Hz. rewrite b2z_z2b. by apply Z.mod_small. Qed.
Lemma low6_byte z : 0 <= z < 64 → low6 (z2b (0x80 + z)) = z ∧ b2z (z2b (0x80 + z)) = 0x80 + z.
Proof.
  intros Hz. unfold low6. rewrite b2z_of_small by lia. change 0x3f with (Z.ones 6). rewrite Z.land_ones by lia. split; [|done].
  change (2 ^ 6) with 64. Z.to_euclidean_division_equations. lia.
Qed.
Lemma if_true {A} (b : bool) (x y : A) : b = true → (if b then x else y) = x.
Proof. by intros ->. Qed.
Lemma if_false {A} (b : bool) (x y : A) : b = false → (if b then x else y) = y.
Proof. by intros ->. Qed.
Lemma decode_write_rune r rest : scalar r →
  ∃ b t, write_rune r = b :: t ∧ decode_rune b (t ++ rest) = (r, length (b :: t)).
Proof.
  intros Hr. unfold scalar in Hr. unfold write_rune. change 0x3f with (Z.ones 6). rewrite !Z.land_ones, !Z.shiftr_div_pow2 by lia.
  change (2 ^ 6) with 64. change (2 ^ 12) with 4096. change (2 ^ 18) with 262144.
  destruct (low6_byte _ (Z.mod_pos_bound r 64 ltac:(done))) as [L0 V0].
  destruct (low6_byte _ (Z.mod_pos_bound (r / 64) 64 ltac:(done))) as [L1 V1].
  destruct (low6_byte _ (Z.mod_pos_bound (r / 4096) 64 ltac:(done))) as [L2 V2].
  destruct (Z.ltb_spec r 0x80); [|destruct (Z.ltb_spec r 0x800); [|destruct (Z.ltb_spec r 0x10000)]];
    do 2 eexists; (split; [reflexivity|]); unfold decode_rune, in_range; cbn [app length]; cbv zeta;
    rewrite ?L0, ?L1, ?L2, ?V0, ?V1, ?V2, b2z_of_small by (Z.to_euclidean_division_equations; lia).
  - by rewrite if_true by lia.
  - rewrite !if_false, !if_true by (Z.to_euclidean_division_equations; lia). change 0x1f with (Z.ones 5). rewrite Z.land_ones by lia.
    change (2 ^ 5) with 32. f_equal. Z.to_euclidean_division_equations. lia.
  - assert (Hv : Z.land (224 + r / 4096) 15 * 4096 + r / 64 mod 64 * 64 + r mod 64 = r).
    { change 15 with (Z.ones 4). rewrite Z.land_ones by lia. change (2 ^ 4) with 16. Z.to_euclidean_division_equations. lia. }
    rewrite Hv. do 3 rewrite if_false by (Z.to_euclidean_division_equations; lia).
    destruct (Z.eqb_spec (224 + r / 4096) 224); [|destruct (Z.eqb_spec (224 + r / 4096) 237); [|rewrite if_true by (Z.to_euclidean_division_equations; lia)]];
      by rewrite if_true by (Z.to_euclidean_division_equations; lia).
  - assert (Hv : Z.land (240 + r / 262144) 7 * 262144 + r / 4096 mod 64 * 4096 + r / 64 mod 64 * 64 + r mod 64 = r).
    { change 7 with (Z.ones 3). rewrite Z.land_ones by lia. change (2 ^ 3) with 8. Z.to_euclidean_division_equations. lia. }
    rewrite Hv. do 6 rewrite if_false by (Z.to_euclidean_division_equations; lia).
    destruct (Z.eqb_spec (240 + r / 262144) 240); [|destruct (Z.ltb_spec (240 + r / 262144) 244); [|rewrite if_true by (Z.to_euclidean_division_equations; lia)]];
      by rewrite if_true by (Z.to_euclidean_division_equations; lia).
Qed.
Lemma to_of_runes rs : Forall scalar rs → to_runes (of_runes rs) = rs.
Proof.
  intros Hrs. unfold to_runes, runes, of_runes. enough (∀ n, (length (concat (write_rune <$> rs)) <= n)%nat →
    (runes_loop n (concat (write_rune <$> rs))).*1 = rs) as Hn by (by apply Hn).
  induction Hrs as [|r rs Hr Hrs IH]; intros n Hl; [by destruct n|]. cbn [fmap list_fmap concat] in *.
  destruct (decode_write_rune r (concat (write_rune <$> rs)) Hr) as (b & t & Hw & Hd). rewrite Hw in *. rewrite length_app in Hl. cbn [length] in Hl.
  destruct n as [|n]; [lia|]. cbn [app runes_loop]. rewrite Hd. cbn [fmap list_fmap fst]. f_equal.
  change (drop _ (b :: t ++ _)) with (drop (length t) (t ++ concat (write_rune <$> rs))). rewrite drop_app_length. apply IH. lia.
Qed.
