(* ===== verification/Transited.v ===== *)
(** * Transited realms (src/krb5/kdc/transited.go)

    The list of realms a ticket has passed through, its compressed encoding,
    and the check of a path against the configured paths or the hierarchy of
    the realms. *)

From S2P Require Import Prelude GoStrings.
Local Open Scope Z_scope.

Definition backslash : byte := Byte.x5c.
Definition comma : byte := Byte.x2c.
Definition slash : byte := Byte.x2f.
Definition dot : byte := Byte.x2e.
Definition space : byte := Byte.x20.

Definition escapeTransited (value : bytes) : bytes :=
  let value := concat ((λ b, if Byte.eqb b backslash then [backslash; backslash] else [b]) <$> value) in
  concat ((λ b, if Byte.eqb b comma then [backslash; comma] else [b]) <$> value).

Fixpoint unescape_loop (escaped : bool) (rs : list Z) : bytes :=
  match rs with
  | [] => []
  | char :: rs =>
      if escaped then write_rune char ++ unescape_loop false rs
      else if char =? b2z backslash then unescape_loop true rs
      else write_rune char ++ unescape_loop false rs
  end.
Definition unescapeTransited (value : bytes) : bytes := unescape_loop false (runes value).*1.

(** The field of an escaped realm after the escaped realm before it. *)
Definition compress_field (previous realm : bytes) : bytes :=
  if zlen previous =? 0 then realm
  else if has_prefix realm previous && has_prefix (drop (length previous) realm) [slash]
  then drop (length previous) realm
  else if (zlen previous <? zlen realm) && has_suffix realm previous &&
          Byte.eqb (nth (length realm - length previous - 1) realm Byte.x00) dot
  then let field := take (length realm - length previous) realm in
       if negb (has_suffix field [dot]) then field ++ [dot] else field
  else realm.

Fixpoint encode_loop (previous : bytes) (realms : list bytes) : res (list bytes) :=
  match realms with
  | [] => Ok []
  | realm :: realms =>
      if (zlen realm =? 0) || existsb (Byte.eqb Byte.x00) realm then Err "invalid transited realm" else
      let realm := escapeTransited realm in
      res_bind (encode_loop realm realms) (λ fields, Ok (compress_field previous realm :: fields))
  end.
Definition encodeTransited (realms : list bytes) : res bytes :=
  match realms with
  | [] => Ok []
  | _ => res_bind (encode_loop [] realms) (λ fields, Ok (strings_join [comma] fields))
  end.

(** [flush]: the end of a field. *)
Definition expand_field (fields : list bytes) (value : bytes) : bytes :=
  if has_prefix value [space] then drop 1 value
  else match last fields with
       | None => value
       | Some prev =>
           if has_prefix value [slash] && has_prefix prev [slash] then prev ++ value
           else if has_suffix value [dot] then value ++ prev
           else value
       end.
Definition flush (fields : list bytes) (value : bytes) : res (list bytes) :=
  if zlen value =? 0 then Ok fields else
  let value := unescapeTransited (expand_field fields value) in
  if zlen value =? 0 then Err "empty transited realm" else Ok (fields ++ [value]).

Fixpoint decode_loop (contents field : bytes) (escaped : bool) (fields : list bytes) : res (list bytes) :=
  match contents with
  | [] => if escaped then Err "transited field ends with escape" else flush fields field
  | char :: contents =>
      if escaped then decode_loop contents (field ++ [char]) false fields
      else if Byte.eqb char backslash then decode_loop contents (field ++ [char]) true fields
      else if Byte.eqb char comma then
        res_bind (flush fields field) (λ fields, decode_loop contents [] false fields)
      else decode_loop contents (field ++ [char]) false fields
  end.
Definition decodeTransited (contents : bytes) : res (list bytes) :=
  if zlen contents =? 0 then Ok [] else decode_loop contents [] false [].

Definition appendTransited (contents realm : bytes) : res bytes :=
  res_bind (decodeTransited contents) (λ realms, encodeTransited (realms ++ [realm])).

(** [strings.Split] of the labels and the count of the common ones. *)
Fixpoint common_prefix (a b : list bytes) : nat :=
  match a, b with
  | x :: a, y :: b => if bytes_eqb x y then S (common_prefix a b) else 0
  | _, _ => 0
  end%nat.
Definition hierarchyRealms (clientRealm serverRealm : bytes) : list bytes :=
  if (zlen clientRealm =? 0) || (zlen serverRealm =? 0) ||
     has_prefix clientRealm [slash] || has_prefix serverRealm [slash] then [] else
  let clientParts := split_byte dot clientRealm in
  let serverParts := split_byte dot serverRealm in
  let common := common_prefix (rev clientParts) (rev serverParts) in
  if Nat.eqb common 0 then [] else
  ((λ i, strings_join [dot] (drop i clientParts)) <$> seq 1 (length clientParts - common)) ++
  ((λ i, strings_join [dot] (drop i serverParts)) <$> seq 1 (length serverParts - common - 1)).

Abbreviation capaths := (gmap bytes (gmap bytes (list bytes))).
Definition transitedCapath (clientRealm serverRealm : bytes) (paths : capaths) : option (list bytes) :=
  targets ← paths !! clientRealm; targets !! serverRealm.

(** The configured path as the set of further realms, or nothing if it is ill-formed. *)
Fixpoint capath_realms (values : list bytes) : option (list bytes) :=
  match values with
  | [] => Some []
  | realm :: values =>
      let realm := TrimSpace realm in
      if (zlen realm =? 0) || bytes_eqb realm [dot] then None
      else cons realm <$> capath_realms values
  end.
Definition anonymous_realm : bytes := str "WELLKNOWN:ANONYMOUS".

Definition transitedPermitted (contents clientRealm serverRealm : bytes) (paths : capaths) : bool :=
  let contents := if has_suffix contents [Byte.x00] then take (length contents - 1) contents else contents in
  match decodeTransited contents with
  | Ok realms =>
      let check allowed := forallb (λ realm, bool_decide (realm ∈ clientRealm :: serverRealm :: allowed)) realms in
      if EqualFold_ascii clientRealm anonymous_realm then true
      else match transitedCapath clientRealm serverRealm paths with
      | Some values =>
          match values with
          | [] => false
          | [value] =>
              if bytes_eqb (TrimSpace value) [dot] then zlen realms =? 0
              else match capath_realms values with Some allowed => check allowed | None => false end
          | _ => match capath_realms values with Some allowed => check allowed | None => false end
          end
      | None => check (hierarchyRealms clientRealm serverRealm)
      end
  | _ => false
  end.

(** ** The encoding and its decoding *)

(** A realm as RFC 4120 writes it: ASCII, without NUL and backslash. *)
Definition plain (realm : bytes) : Prop :=
  realm ≠ [] ∧ ascii realm ∧ Byte.x00 ∉ realm ∧ backslash ∉ realm ∧ has_prefix realm [space] = false.
(** A realm that can follow another: the forms that decoding reads as
    abbreviations (a final dot, a slash after an X.500 name) are used for them
    only, and a slash extends X.500 names only. *)
Definition follows (prev : option bytes) (realm : bytes) : Prop :=
  match prev with
  | None => True
  | Some prev =>
      has_suffix realm [dot] = false ∧
      (has_prefix realm (prev ++ [slash]) = true → has_prefix prev [slash] = true) ∧
      (has_prefix realm [slash] = true → has_prefix prev [slash] = true →
       has_prefix realm (prev ++ [slash]) = true)
  end.
Fixpoint path_ok (prev : option bytes) (realms : list bytes) : Prop :=
  match realms with
  | [] => True
  | realm :: realms => plain realm ∧ follows prev realm ∧ path_ok (Some realm) realms
  end.

(** The escapes of a realm without backslashes. *)
Definition esc1 (b : byte) : bytes := if Byte.eqb b comma then [backslash; comma] else [b].
Definition esc (s : bytes) : bytes := concat (esc1 <$> s).

Lemma esc_app s t : esc (s ++ t) = esc s ++ esc t.
Proof. unfold esc. by rewrite fmap_app, concat_app. Qed.
Lemma esc_cons b s : esc (b :: s) = esc1 b ++ esc s.
Proof. done. Qed.
Lemma esc1_other b : b ≠ comma → esc1 b = [b].
Proof. intros Hb. unfold esc1. by rewrite byte_eqb_ne. Qed.

Lemma escape_plain s : backslash ∉ s → escapeTransited s = esc s.
Proof.
  intros Hs. unfold escapeTransited. cbv zeta. fold (esc (concat ((λ b, if Byte.eqb b backslash then [backslash; backslash] else [b]) <$> s))).
  f_equal. induction s as [|b s IH]; [done|]. apply not_elem_of_cons in Hs as [Hb Hs].
  cbn. rewrite byte_eqb_ne by done. cbn. f_equal. by apply IH.
Qed.

Lemma esc_ascii s : ascii s → ascii (esc s).
Proof.
  induction 1 as [|b s Hb Hs IH]; [constructor|]. rewrite esc_cons. apply ascii_app. split; [|done].
  unfold esc1. destruct (Byte.eqb b comma); repeat constructor; done.
Qed.
Lemma esc_nil_inv s : esc s = [] → s = [].
Proof. destruct s as [|b s]; [done|]. rewrite esc_cons. unfold esc1. by destruct (Byte.eqb b comma). Qed.

(** Bytewise removal of the escapes. *)
Fixpoint unesc (escaped : bool) (s : bytes) : bytes :=
  match s with
  | [] => []
  | b :: s =>
      if escaped then b :: unesc false s
      else if Byte.eqb b backslash then unesc true s else b :: unesc false s
  end.
Lemma unescape_ascii s : ascii s → unescapeTransited s = unesc false s.
Proof.
  intros Hs. unfold unescapeTransited. rewrite runes_ascii by done. generalize false.
  induction Hs as [|b s Hb Hs IH]; intros e; [done|]. cbn [fmap list_fmap unescape_loop unesc fst].
  assert (E : (b2z b =? b2z backslash) = Byte.eqb b backslash).
  { destruct (Byte.eqb b backslash) eqn:E; [apply Byte.byte_dec_bl in E as ->; done|].
    apply Z.eqb_neq. intros Hz%b2z_inj. subst. by rewrite byte_eqb_refl in E. }
  rewrite E. destruct e; [by rewrite write_rune_ascii, IH|].
  destruct (Byte.eqb b backslash); [by apply IH|by rewrite write_rune_ascii, IH].
Qed.
Lemma unesc_plain s t : backslash ∉ s → unesc false (s ++ t) = s ++ unesc false t.
Proof.
  induction s as [|b s IH]; intros Hs; [done|]. apply not_elem_of_cons in Hs as [Hb Hs].
  cbn. rewrite byte_eqb_ne by done. by rewrite IH.
Qed.
Lemma unesc_esc s t : backslash ∉ s → unesc false (esc s ++ t) = s ++ unesc false t.
Proof.
  induction s as [|b s IH]; intros Hs; [done|]. apply not_elem_of_cons in Hs as [Hb Hs].
  rewrite esc_cons, <- app_assoc. unfold esc1. destruct (Byte.eqb b comma) eqn:E; cbn.
  - apply Byte.byte_dec_bl in E as ->. by rewrite IH.
  - rewrite byte_eqb_ne by done. by rewrite IH.
Qed.

(** A prefix or a suffix of an escaped realm is one of the realm. *)
Lemma esc_prefix p r k :
  backslash ∉ r → backslash ∉ p → esc r = esc p ++ k → ∃ k', r = p ++ k' ∧ k = esc k'.
Proof.
  revert r. induction p as [|c p IH]; intros r Hr Hp E; [by exists r|].
  apply not_elem_of_cons in Hp as [Hc Hp]. rewrite esc_cons, <- app_assoc in E.
  destruct r as [|d r]; [unfold esc1 in E; by destruct (Byte.eqb c comma)|].
  apply not_elem_of_cons in Hr as [Hd Hr]. rewrite esc_cons in E. unfold esc1 in E.
  assert (d = c ∧ esc r = esc p ++ k) as [-> E'].
  { destruct (Byte.eqb d comma) eqn:Ed, (Byte.eqb c comma) eqn:Ec; cbn in E; injection E as; simplify_eq; try done.
    apply Byte.byte_dec_bl in Ed, Ec. by subst. }
  destruct (IH r Hr Hp E') as (k' & -> & ->). by exists k'.
Qed.
Lemma esc_suffix r x p :
  backslash ∉ r → backslash ∉ p → esc r = x ++ dot :: esc p → ∃ y, r = y ++ dot :: p ∧ x = esc y.
Proof.
  revert x. induction r as [r IH] using (induction_ltof1 _ (@length byte)); unfold ltof in IH.
  intros x Hr Hp E. destruct r as [|d r]; [by destruct x|].
  apply not_elem_of_cons in Hr as [Hd Hr]. rewrite esc_cons in E. unfold esc1 in E.
  destruct x as [|c x].
  - destruct (Byte.eqb d comma); [done|]. injection E as -> E.
    exists []. split; [|done]. f_equal. destruct (esc_prefix p r [] Hr Hp) as (k' & -> & Hk); [by rewrite app_nil_r|].
    symmetry in Hk. apply esc_nil_inv in Hk as ->. by rewrite app_nil_r.
  - assert (∃ y, r = y ++ dot :: p ∧ c :: x = esc1 d ++ esc y) as (y & -> & ->).
    { unfold esc1. destruct (Byte.eqb d comma).
      - injection E as <- E. destruct x as [|c' x]; [done|]. injection E as <- E.
        destruct (IH r) with (x := x) as (y & -> & ->); [cbn; lia|done|done|done|]. by exists y.
      - injection E as <- E. destruct (IH r) with (x := x) as (y & -> & ->); [cbn; lia|done|done|done|]. by exists y. }
    by exists (d :: y).
Qed.

Lemma has_prefix_app_r s p q : has_prefix s (p ++ q) = has_prefix s p && has_prefix (drop (length p) s) q.
Proof.
  revert s. induction p as [|b p IH]; intros s; cbn; [done|].
  destruct s as [|c s]; [done|]. cbn. by rewrite IH, andb_assoc.
Qed.
Lemma esc_slash_prefix prev r :
  backslash ∉ r → backslash ∉ prev →
  has_prefix (esc r) (esc prev) && has_prefix (drop (length (esc prev)) (esc r)) [slash] =
  has_prefix r (prev ++ [slash]).
Proof.
  intros Hr Hp. rewrite <- has_prefix_app_r. change [slash] with (esc [slash]) at 1. rewrite <- esc_app.
  apply eq_true_iff_eq. rewrite !has_prefix_spec. split; intros [k Hk].
  - apply esc_prefix in Hk as (k' & -> & _); [by exists k'|done|].
    apply not_elem_of_app. split; [done|]. by intros ?%list_elem_of_singleton.
  - exists (esc k). by rewrite Hk, esc_app.
Qed.

(** The three forms of a field. *)
Lemma compress_cases prev r :
  backslash ∉ r → backslash ∉ prev → prev ≠ [] →
  let v := compress_field (esc prev) (esc r) in
  (∃ k, r = prev ++ slash :: k ∧ v = esc (slash :: k)) ∨
  has_prefix r (prev ++ [slash]) = false ∧ (∃ y, r = y ++ dot :: prev ∧ v = esc (y ++ [dot])) ∨
  has_prefix r (prev ++ [slash]) = false ∧ v = esc r.
Proof.
  intros Hr Hp Hne. unfold compress_field. rewrite esc_slash_prefix by done.
  destruct (Z.eqb_spec (zlen (esc prev)) 0) as [E|_].
  { exfalso. apply Hne, esc_nil_inv. apply nil_length_inv. unfold zlen in E. lia. }
  destruct (has_prefix r (prev ++ [slash])) eqn:Hpre.
  { left. apply has_prefix_spec in Hpre as [k ->]. rewrite <- app_assoc. exists k. split; [done|].
    by rewrite esc_app, drop_app_length. }
  right. destruct (_ && _ && _) eqn:Hsuf; [left; split; [done|]|by right].
  apply andb_true_iff in Hsuf as [[Hlt Hs]%andb_true_iff Hd]. apply has_suffix_spec in Hs as [x Hx].
  rewrite Hx in Hlt, Hd |- *. apply Z.ltb_lt in Hlt. rewrite zlen_app in Hlt. rewrite length_app in Hd |- *.
  replace (length x + length (esc prev) - length (esc prev))%nat with (length x) in Hd |- * by lia.
  destruct x as [|c x _] using rev_ind; [unfold zlen in Hlt; cbn in Hlt; lia|].
  rewrite length_app, Nat.add_sub, <- app_assoc in Hd. cbn [app] in Hd. rewrite nth_middle in Hd. apply Byte.byte_dec_bl in Hd as ->.
  rewrite <- app_assoc in Hx. apply esc_suffix in Hx as (y & -> & ->); [|done..].
  exists y. split; [done|]. rewrite take_app_length, esc_app.
  by rewrite (proj2 (has_suffix_spec _ _)) by (by eexists).
Qed.

Lemma esc_head c r : c ≠ comma → c ≠ backslash → has_prefix (esc r) [c] = has_prefix r [c].
Proof.
  intros Hc Hb. destruct r as [|b r]; [done|]. rewrite esc_cons. unfold esc1.
  destruct (Byte.eqb b comma) eqn:E; [|done]. apply Byte.byte_dec_bl in E as ->. cbn.
  by rewrite !byte_eqb_ne.
Qed.
Lemma esc_dot r : has_suffix (esc r) [dot] = has_suffix r [dot].
Proof.
  destruct r as [|b r _] using rev_ind; [done|]. unfold has_suffix. rewrite esc_app, !rev_app_distr, esc_cons.
  unfold esc1. destruct (Byte.eqb b comma) eqn:E; [|done]. by apply Byte.byte_dec_bl in E as ->.
Qed.

(** The field of a realm and what decoding makes of it. *)
Definition field_of (prev : option bytes) (r : bytes) : bytes :=
  compress_field (match prev with Some p => esc p | None => [] end) (esc r).
Lemma field_of_esc prev r :
  plain r → from_option plain True prev → ∃ y, field_of prev r = esc y ∧ backslash ∉ y ∧ y ≠ [].
Proof.
  intros (Hne & _ & _ & Hb & _) Hp. destruct prev as [p|]; [|by exists r].
  destruct Hp as (Hpne & _ & _ & Hpb & _). unfold field_of.
  destruct (compress_cases p r Hb Hpb Hpne) as [(k & -> & ->)|[(_ & y & -> & ->)|[_ ->]]].
  - exists (slash :: k). split; [done|]. by apply not_elem_of_app in Hb as [_ ?].
  - exists (y ++ [dot]). split_and!; [done| |by destruct y].
    apply not_elem_of_app in Hb as [? Hb]. apply not_elem_of_app. split; [done|]. by intros ?%list_elem_of_singleton.
  - by exists r.
Qed.
Lemma expand_field_of fields r :
  plain r → from_option plain True (last fields) → follows (last fields) r →
  unescapeTransited (expand_field fields (field_of (last fields) r)) = r.
Proof.
  intros Hr Hp Hf. pose proof Hr as (Hne & Ha & _ & Hb & Hs). unfold expand_field.
  assert (Hesc : ∀ t, ascii t → backslash ∉ t → unescapeTransited (esc t) = t).
  { intros t Ht Htb. rewrite unescape_ascii by by apply esc_ascii. rewrite <- (app_nil_r (esc t)), unesc_esc by done.
    by rewrite app_nil_r. }
  destruct (last fields) as [p|] eqn:El; [|change (field_of None r) with (esc r); by rewrite esc_head, Hs; auto].
  destruct Hp as (Hpne & Hpa & _ & Hpb & _), Hf as (Hdot & Hsl & Hsl'). unfold field_of.
  destruct (compress_cases p r Hb Hpb Hpne) as [(k & -> & ->)|[(Hn & y & -> & ->)|[Hn ->]]]; rewrite !esc_head by done.
  - apply not_elem_of_app in Hb as [_ Hk]. apply ascii_app in Ha as [_ Hka].
    rewrite Hsl by (apply has_prefix_spec; exists k; by rewrite <- app_assoc).
    assert (has_prefix (slash :: k) [space] = false) as -> by done.
    assert (has_prefix (slash :: k) [slash] = true) as -> by done. cbn [andb].
    rewrite unescape_ascii by (apply ascii_app; split; [done|by apply esc_ascii]).
    rewrite unesc_plain, <- (app_nil_r (esc _)), unesc_esc, app_nil_r by done. done.
  - assert (Hhead : ∀ c, has_prefix (y ++ [dot]) [c] = has_prefix (y ++ dot :: p) [c]) by by destruct y.
    rewrite !Hhead, Hs, esc_dot, (proj2 (has_suffix_spec (y ++ [dot]) _)) by (by eexists).
    replace (has_prefix (y ++ dot :: p) [slash] && has_prefix p [slash]) with false.
    2: { symmetry. apply not_true_is_false. intros [H1 H2]%andb_true_iff. by rewrite Hsl' in Hn. }
    replace (y ++ dot :: p) with ((y ++ [dot]) ++ p) in * by by rewrite <- app_assoc.
    apply ascii_app in Ha as [Hya _]. apply not_elem_of_app in Hb as [Hyb _].
    rewrite unescape_ascii by (apply ascii_app; split; [by apply esc_ascii|done]).
    rewrite unesc_esc by done. f_equal. rewrite <- (app_nil_r p) at 1. rewrite unesc_plain by done. apply app_nil_r.
  - rewrite esc_dot, Hdot, Hs.
    destruct (has_prefix r [slash]) eqn:E1; [|by apply Hesc].
    destruct (has_prefix p [slash]) eqn:E2; [|by apply Hesc]. by rewrite Hsl' in Hn.
Qed.

Lemma decode_esc y t acc fields :
  backslash ∉ y → decode_loop (esc y ++ t) acc false fields = decode_loop t (acc ++ esc y) false fields.
Proof.
  revert acc. induction y as [|b y IH]; intros acc Hy; [by rewrite app_nil_r|].
  apply not_elem_of_cons in Hy as [Hb Hy]. rewrite esc_cons, <- app_assoc. unfold esc1.
  destruct (Byte.eqb b comma) eqn:E; cbn [app decode_loop].
  - change (Byte.eqb backslash backslash) with true. cbv iota. rewrite IH by done. by rewrite <- !app_assoc.
  - rewrite byte_eqb_ne, E, IH by done. by rewrite <- app_assoc.
Qed.
Lemma flush_field fields r :
  plain r → from_option plain True (last fields) → follows (last fields) r →
  flush fields (field_of (last fields) r) = Ok (fields ++ [r]).
Proof.
  intros Hr Hp Hf. unfold flush. destruct (field_of_esc _ _ Hr Hp) as (y & Hy & _ & Hne).
  destruct (Z.eqb_spec (zlen (field_of (last fields) r)) 0) as [E|_].
  { rewrite Hy in E. exfalso. apply Hne, esc_nil_inv, nil_length_inv. unfold zlen in E. lia. }
  rewrite expand_field_of by done. destruct Hr as (Hrne & _).
  destruct (Z.eqb_spec (zlen r) 0) as [E|_]; [|done]. exfalso. apply Hrne, nil_length_inv. unfold zlen in E. lia.
Qed.

Lemma plain_encodes r : plain r → (zlen r =? 0) || existsb (Byte.eqb Byte.x00) r = false.
Proof.
  intros (Hne & _ & Hz & _). apply orb_false_iff. split.
  - apply Z.eqb_neq. intros E. apply Hne, nil_length_inv. unfold zlen in E. lia.
  - apply not_true_is_false. intros (b & Hb & E)%existsb_exists. apply Byte.byte_dec_bl in E as <-.
    by apply Hz, list_elem_of_In.
Qed.

Lemma encode_plain r : plain r → ∀ prev realms,
  encode_loop prev (r :: realms) =
  res_bind (encode_loop (esc r) realms) (λ fields, Ok (compress_field prev (esc r) :: fields)).
Proof. intros Hr prev realms. cbn [encode_loop]. rewrite (plain_encodes r Hr), escape_plain; [done|apply Hr]. Qed.

Lemma encode_decode r realms fields :
  path_ok (last fields) (r :: realms) → from_option plain True (last fields) →
  ∃ v vs, encode_loop (match last fields with Some p => esc p | None => [] end) (r :: realms) = Ok (v :: vs) ∧
    v ≠ [] ∧ decode_loop (strings_join [comma] (v :: vs)) [] false fields = Ok (fields ++ r :: realms).
Proof.
  revert r fields. induction realms as [|r' realms IH]; intros r fields (Hr & Hf & Hpath) Hp;
    pose proof (field_of_esc _ _ Hr Hp) as (y & Hy & Hyb & Hyne);
    assert (Hvne : field_of (last fields) r ≠ []) by (rewrite Hy; by intros ?%esc_nil_inv);
    rewrite (encode_plain r Hr).
  - exists (field_of (last fields) r), []. split_and!; [done|done|]. cbn [strings_join].
    rewrite Hy, <- (app_nil_r (esc y)), decode_esc by done. cbn [decode_loop app].
    rewrite <- Hy. by apply flush_field.
  - destruct (IH r' (fields ++ [r])) as (v' & vs' & He & _ & Hd); [by rewrite last_snoc|by rewrite last_snoc|].
    rewrite last_snoc in He. change (encode_loop (esc r) (r' :: realms)) with
      (encode_loop (match Some r with Some p => esc p | None => [] end) (r' :: realms)).
    exists (field_of (last fields) r), (v' :: vs'). rewrite He. split_and!; [done|done|].
    change (strings_join [comma] (field_of (last fields) r :: v' :: vs')) with
      (field_of (last fields) r ++ comma :: strings_join [comma] (v' :: vs')).
    rewrite Hy, decode_esc by done. cbn [app]. rewrite <- Hy.
    cbn [decode_loop]. change (Byte.eqb comma backslash) with false. change (Byte.eqb comma comma) with true.
    cbv iota. rewrite flush_field by done. cbn [res_bind]. rewrite Hd. by rewrite <- app_assoc.
Qed.

(** A path of realms that follows the naming rules of RFC 4120 is encoded,
    with the abbreviations of sub-realms and of X.500 sub-names, and decoding the
    result gives the same path. *)
Theorem transited_roundtrip realms :
  path_ok None realms → ∃ contents, encodeTransited realms = Ok contents ∧ decodeTransited contents = Ok realms.
Proof.
  destruct realms as [|r realms]; intros Hpath; [by exists []|].
  destruct (encode_decode r realms [] Hpath I) as (v & vs & He & Hv & Hd).
  unfold encodeTransited. cbn [last] in He. rewrite He. cbn [res_bind].
  eexists. split; [done|]. unfold decodeTransited. destruct (Z.eqb_spec (zlen (strings_join [comma] (v :: vs))) 0) as [E|_]; [|done].
  exfalso. apply Hv. destruct v; [done|]. destruct vs; done.
Qed.

#[export] Instance plain_dec realm : Decision (plain realm).
Proof. unfold plain, ascii. apply _. Defined.
#[export] Instance follows_dec prev realm : Decision (follows prev realm).
Proof. destruct prev; unfold follows; apply _. Defined.
#[export] Instance path_ok_dec prev realms : Decision (path_ok prev realms).
Proof. revert prev. induction realms; cbn; intros prev; apply _. Defined.

Lemma transited_roundtrip_witness :
  ∃ contents, encodeTransited [str "EDU"; str "MIT.EDU"; str "ATHENA.MIT.EDU"; str "/COM"; str "/COM/HP"] = Ok contents ∧
    decodeTransited contents = Ok [str "EDU"; str "MIT.EDU"; str "ATHENA.MIT.EDU"; str "/COM"; str "/COM/HP"].
Proof. apply transited_roundtrip. apply (bool_decide_unpack _). vm_compute. exact I. Defined.
Example transited_abbreviates :
  encodeTransited [str "EDU"; str "MIT.EDU"; str "ATHENA.MIT.EDU"; str "/COM"; str "/COM/HP"] =
  Ok (str "EDU,MIT.,ATHENA.,/COM,/HP").
Proof. vm_compute. done. Qed.


(** ** The check of a path *)

(** [ancestor r x]: the realm [x] lies below [r] in the hierarchy of names. *)
Definition ancestor (r x : bytes) : Prop := ∃ p, x = p ++ dot :: r.

Lemma join_take_drop i (l : list bytes) :
  (0 < i < length l)%nat →
  strings_join [dot] l = strings_join [dot] (take i l) ++ dot :: strings_join [dot] (drop i l).
Proof.
  revert l. induction i as [|i IH]; intros [|x [|y l]] Hi; cbn in Hi; try lia.
  destruct i as [|i]; [done|].
  change (strings_join [dot] (x :: y :: l)) with (x ++ dot :: strings_join [dot] (y :: l)).
  rewrite (IH (y :: l)) by (cbn; lia).
  change (take (S (S i)) (x :: y :: l)) with (x :: y :: take i l).
  change (strings_join [dot] (x :: y :: take i l)) with (x ++ dot :: strings_join [dot] (take (S i) (y :: l))).
  change (drop (S (S i)) (x :: y :: l)) with (drop (S i) (y :: l)). by rewrite <- app_assoc.
Qed.
Lemma split_nonempty sep s : split_byte sep s ≠ [].
Proof. destruct s as [|b s]; cbn; [done|]. by repeat case_match. Qed.
Lemma join_split s : strings_join [dot] (split_byte dot s) = s.
Proof.
  induction s as [|b s IH]; [done|]. cbn. destruct (Byte.eqb b dot) eqn:E.
  - apply Byte.byte_dec_bl in E as ->. pose proof (split_nonempty dot s).
    destruct (split_byte dot s); [done|]. change (dot :: strings_join [dot] (l :: l0) = dot :: s). by rewrite IH.
  - destruct (split_byte dot s) as [|f [|g fs]]; cbn in IH |- *; by subst.
Qed.
Lemma ancestor_drop i j (l : list bytes) :
  (i < j < length l)%nat → ancestor (strings_join [dot] (drop j l)) (strings_join [dot] (drop i l)).
Proof.
  intros Hij. rewrite (join_take_drop (j - i) (drop i l)) by (rewrite length_drop; lia).
  rewrite drop_drop. replace (i + (j - i))%nat with j by lia. by eexists.
Qed.
Lemma common_prefix_spec a b :
  take (common_prefix a b) a = take (common_prefix a b) b ∧
  (common_prefix a b <= length a)%nat ∧ (common_prefix a b <= length b)%nat.
Proof.
  revert b. induction a as [|x a IH]; intros [|y b]; cbn; try (split; [done|lia]).
  unfold bytes_eqb. case_bool_decide as E; cbn; [|split; [done|lia]]. subst.
  destruct (IH b) as (Ht & Ha & Hb). rewrite Ht. split; [done|lia].
Qed.
Lemma take_rev_drop {A} n (l : list A) : (n <= length l)%nat → rev (take n (rev l)) = drop (length l - n) l.
Proof.
  intros Hn. rewrite <- (rev_involutive l) at 3. rewrite skipn_rev, length_rev.
  by replace (length l - (length l - n))%nat with n by lia.
Qed.

(** Every realm of the hierarchical path lies above the client's or the
    server's realm, and not above the nearest realm above both. *)
Lemma hierarchy_between client server r :
  r ∈ hierarchyRealms client server →
  ∃ top, (top = client ∨ ancestor top client) ∧ (top = server ∨ ancestor top server) ∧
    (r = top ∨ ancestor top r) ∧ (ancestor r client ∨ ancestor r server).
Proof.
  unfold hierarchyRealms. destruct (_ || _); [by intros ?%elem_of_nil|].
  set (cp := split_byte dot client). set (sp := split_byte dot server).
  destruct (common_prefix_spec (rev cp) (rev sp)) as (Heq & Hc & Hs). rewrite length_rev in Hc, Hs.
  set (n := common_prefix (rev cp) (rev sp)) in *. destruct (Nat.eqb_spec n 0) as [|Hn]; [by intros ?%elem_of_nil|].
  apply (f_equal (@rev bytes)) in Heq. rewrite !take_rev_drop in Heq by done.
  assert (Htop : ∀ l m, (m <= length l)%nat → (0 < m)%nat →
            strings_join [dot] (drop (length l - m) l) = strings_join [dot] (drop 0 l) ∨
            ancestor (strings_join [dot] (drop (length l - m) l)) (strings_join [dot] (drop 0 l))).
  { intros l m Hm Hm0. destruct (decide (length l = m)) as [<-|Hne]; [left; by rewrite Nat.sub_diag|].
    right. apply ancestor_drop. lia. }
  assert (Hcp : strings_join [dot] (drop 0 cp) = client) by apply join_split.
  assert (Hsp : strings_join [dot] (drop 0 sp) = server) by apply join_split.
  pose proof (Htop cp n Hc ltac:(lia)) as Htc. pose proof (Htop sp n Hs ltac:(lia)) as Hts.
  rewrite Hcp in Htc. rewrite Hsp, <- Heq in Hts.
  intros [Hr|Hr]%elem_of_app; exists (strings_join [dot] (drop (length cp - n) cp)); split_and!; try done.
  all: apply list_elem_of_fmap in Hr as (i & -> & [Hi1 Hi2]%list_elem_of_In%in_seq).
  - destruct (decide (i = length cp - n)%nat) as [->|Hne]; [by left|right]. apply ancestor_drop. lia.
  - left. rewrite <- Hcp. apply ancestor_drop. lia.
  - right. rewrite Heq. apply ancestor_drop. lia.
  - right. rewrite <- Hsp. apply ancestor_drop. lia.
Qed.


