(* ===== verification/Protocol.v ===== *)
(** * Protocol structures (src/krb5/protocol/protocol.go, src/krb5/types/types.go)

    The messages the KDC reads and writes, with the constructors of the source,
    the flag words, and the DER codec as an interface: [Der T] stands for
    [asn1.Marshal] and [asn1.Unmarshal] at the type [T].  Times are nanoseconds;
    a nil pointer is [None]. *)

From S2P Require Import Prelude Principal.
Local Open Scope Z_scope.

(** ** Times and flags *)

Record KerberosTime := mkKTime { Time : Z; Microseconds : Z; Present : bool }.
Definition at_time (t : Z) : KerberosTime := mkKTime t 0 true.

Definition KDCForwardable : Z := 2 ^ 1.
Definition KDCForwarded : Z := 2 ^ 2.
Definition KDCProxiable : Z := 2 ^ 3.
Definition KDCProxy : Z := 2 ^ 4.
Definition KDCAllowPostdate : Z := 2 ^ 5.
Definition KDCPostdated : Z := 2 ^ 6.
Definition KDCRenewable : Z := 2 ^ 8.
Definition KDCCNameInAddlTkt : Z := 2 ^ 14.
Definition KDCCanonicalize : Z := 2 ^ 15.
Definition KDCRequestAnonymous : Z := 2 ^ 16.
Definition KDCDisableTransitedCheck : Z := 2 ^ 26.
Definition KDCRenewableOK : Z := 2 ^ 27.
Definition KDCEncTktInSkey : Z := 2 ^ 28.
Definition KDCRenew : Z := 2 ^ 30.
Definition KDCValidate : Z := 2 ^ 31.

Definition TicketForwardable : Z := 2 ^ 1.
Definition TicketForwarded : Z := 2 ^ 2.
Definition TicketProxiable : Z := 2 ^ 3.
Definition TicketProxy : Z := 2 ^ 4.
Definition TicketMayPostdate : Z := 2 ^ 5.
Definition TicketPostdated : Z := 2 ^ 6.
Definition TicketInvalid : Z := 2 ^ 7.
Definition TicketRenewable : Z := 2 ^ 8.
Definition TicketInitial : Z := 2 ^ 9.
Definition TicketPreAuthent : Z := 2 ^ 10.
Definition TicketHWAuthent : Z := 2 ^ 11.
Definition TicketTransited : Z := 2 ^ 12.
Definition TicketOKAsDelegate : Z := 2 ^ 13.
Definition TicketAnonymous : Z := 2 ^ 16.

(** [flags & mask != 0], [flags |= mask] and [flags &^= mask]. *)
Definition has (flags mask : Z) : bool := negb (Z.land flags mask =? 0).
Definition with_flags (flags mask : Z) : Z := Z.lor flags mask.
Definition without (flags mask : Z) : Z := Z.ldiff flags mask.

(** [flagsToBytes] and [bytesToFlags]: bit [i] of the word is bit [31 - i] of
    the encoded number. *)
Definition reverse_bits (flags : Z) : Z :=
  foldl (λ encoded bit, if Z.testbit flags bit then Z.lor encoded (Z.shiftl 1 (31 - bit)) else encoded)
    0 (Z.of_nat <$> seq 0 32).
Definition flagsToBytes (flags : Z) : Z := reverse_bits flags.
Definition bytesToFlags (encoded : bytes) : Z :=
  let value := be_value (take 4 encoded) in
  foldl (λ flags bit, if Z.testbit value (31 - bit) then Z.lor flags (Z.shiftl 1 bit) else flags)
    0 (Z.of_nat <$> seq 0 32).
Definition EncodeFlags (flags : Z) : bytes :=
  [Byte.x03; Byte.x05; Byte.x00] ++ be_bytes 4 (flagsToBytes flags).
Definition DecodeFlags (der : bytes) : res Z :=
  match der with
  | a :: b :: c :: rest =>
      if negb (Nat.eqb (length rest) 4) || negb (Byte.eqb a Byte.x03) || negb (Byte.eqb b Byte.x05) ||
         negb (Byte.eqb c Byte.x00)
      then Err "decode KerberosFlags: invalid DER BIT STRING" else Ok (bytesToFlags rest)
  | _ => Err "decode KerberosFlags: invalid DER BIT STRING"
  end.

(** ** Names, keys, data *)

Record PrincipalName := mkPName { NameType_ : Z; NameString : list bytes }.
Record HostAddress := mkAddr { AddrType : Z; Address : bytes }.
Abbreviation HostAddresses := (list HostAddress).
Record AuthorizationDataEntry := mkAD { ADType : Z; ADData : bytes }.
Abbreviation AuthorizationData := (list AuthorizationDataEntry).
Record PAData := mkPA { PADataType : Z; PADataValue : bytes }.
Abbreviation MethodData := (list PAData).
Record EncryptedData := mkEnc { ed_EType : Z; ed_KVNO : option Z; ed_Cipher : bytes }.
Record EncryptionKey := mkEKey { KeyType : Z; KeyValue : bytes }.
Record ChecksumValue := mkCksum { ChecksumType : Z; cksum : bytes }.
Record TransitedEncoding := mkTransited { TrType : Z; Contents : bytes }.

Record VerifierMAC := mkVerifier {
  v_Princ : option PrincipalName; v_KVNO : option Z; v_Enctype : option Z; v_Checksum : ChecksumValue }.
Record CAMMAC := mkCAMMAC {
  c_Elements : AuthorizationData;
  c_KDCVerifier : option VerifierMAC;
  c_SVCVerifier : option VerifierMAC;
  c_OtherVerifiers : list VerifierMAC }.

(** ** Tickets and requests *)

Record Ticket := mkTicket {
  t_TktVNO : Z; t_Realm : bytes; t_SName : PrincipalName; t_EncPart : EncryptedData }.

Record EncTicketPart := mkTicketPart {
  tp_Flags : Z;
  tp_Key : EncryptionKey;
  tp_CRealm : bytes;
  tp_CName : PrincipalName;
  tp_Transited : TransitedEncoding;
  tp_AuthTime : KerberosTime;
  tp_StartTime : option KerberosTime;
  tp_EndTime : KerberosTime;
  tp_RenewTill : option KerberosTime;
  tp_CAddr : HostAddresses;
  tp_AuthorizationData : AuthorizationData }.

Record Authenticator := mkAuthenticator {
  a_VNO : Z;
  a_CRealm : bytes;
  a_CName : PrincipalName;
  a_Checksum : option ChecksumValue;
  a_Cusec : Z;
  a_Ctime : KerberosTime;
  a_SubKey : option EncryptionKey;
  a_SeqNumber : option Z;
  a_AuthorizationData : AuthorizationData }.

Record KDCReqBody := mkBody {
  b_KDCOptions : Z;
  b_CName : option PrincipalName;
  b_Realm : bytes;
  b_SName : option PrincipalName;
  b_From : option KerberosTime;
  b_Till : KerberosTime;
  b_RTime : option KerberosTime;
  b_Nonce : Z;
  b_EType : list Z;
  b_Addresses : HostAddresses;
  b_EncAuthorizationData : option EncryptedData;
  b_AdditionalTickets : list Ticket }.

(** [ASReq] and [TGSReq] have the fields of [KDCReq], and the replies those of [KDCRep]. *)
Record KDCReq := mkReq { r_PVNO : Z; r_MsgType : Z; r_PAData : MethodData; r_ReqBody : KDCReqBody }.
Record KDCRep := mkRep {
  rep_PVNO : Z; rep_MsgType : Z; rep_PAData : MethodData; rep_CRealm : bytes; rep_CName : PrincipalName;
  rep_Ticket : Ticket; rep_EncPart : EncryptedData }.

(** [EncASRepPart] and [EncTGSRepPart] have the same fields. *)
Record LastReqEntry := mkLastReq { LRType : Z; LRValue : KerberosTime }.
Record EncKDCRepPart := mkRepPart {
  ep_Key : EncryptionKey;
  ep_LastReq : list LastReqEntry;
  ep_Nonce : Z;
  ep_KeyExpiration : option KerberosTime;
  ep_Flags : Z;
  ep_AuthTime : KerberosTime;
  ep_StartTime : option KerberosTime;
  ep_EndTime : KerberosTime;
  ep_RenewTill : option KerberosTime;
  ep_SRealm : bytes;
  ep_SName : PrincipalName;
  ep_CAddr : HostAddresses }.

Record APReq := mkAPReq {
  ap_PVNO : Z; ap_MsgType : Z; ap_Options : Z; ap_Ticket : Ticket; ap_Authenticator : EncryptedData }.

Record S4UUserID := mkS4U {
  u_Nonce : Z; u_CName : option PrincipalName; u_CRealm : bytes; u_SubjectCert : bytes; u_Options : option Z }.
Record PAS4UX509User := mkX509 { x_UserID : S4UUserID; x_Checksum : ChecksumValue }.
Record PAForUser := mkForUser {
  f_UserName : PrincipalName; f_UserRealm : bytes; f_Checksum : ChecksumValue; f_AuthPackage : bytes }.

Record KrbFastArmor := mkFArmor { fa_Type : Z; fa_Value : bytes }.
Record KrbFastArmoredReq := mkArmored {
  ar_Armor : option KrbFastArmor; ar_ReqChecksum : ChecksumValue; ar_EncFastReq : EncryptedData }.
Record PAFXFastRequest := mkFXRequest { ArmoredData : KrbFastArmoredReq }.
Record KrbFastFinished := mkFinished {
  ff_Timestamp : KerberosTime; ff_Usec : Z; ff_CRealm : bytes; ff_CName : PrincipalName; ff_TicketChecksum : ChecksumValue }.
Record KrbFastResponse := mkFastResponse {
  fs_PAData : MethodData; fs_StrengthenKey : option EncryptionKey; fs_Finished : option KrbFastFinished; fs_Nonce : Z }.
Record KrbFastArmoredRep := mkArmoredRep { ar_EncFastRep : EncryptedData }.
Record PAFXFastReply := mkFXReply { ArmoredRep : KrbFastArmoredRep }.
Record ETypeInfo2Entry := mkEInfo2 { ei_EType : Z; ei_Salt : option bytes; ei_S2KParams : bytes }.
Record KRBError := mkKrbError {
  err_PVNO : Z;
  err_MsgType : Z;
  err_CTime : option KerberosTime;
  err_Cusec : option Z;
  err_STime : KerberosTime;
  err_Susec : Z;
  err_ErrorCode : Z;
  err_CRealm : option bytes;
  err_CName : option PrincipalName;
  err_Realm : bytes;
  err_SName : PrincipalName;
  err_EText : option bytes;
  err_EData : bytes }.
Record KrbFastReq := mkFastReq { fr_Options : Z; fr_PAData : MethodData; fr_ReqBody : KDCReqBody }.

(** [EncTimestamp] of preauth.go. *)
Record EncTimestamp := mkEncTS { ts_PATimestamp : KerberosTime; ts_PAUSec : option Z }.

Definition PADataForUser : Z := 129.
Definition PADataS4UX509User : Z := 130.
Definition ADIfRelevant : Z := 1.
Definition ADMandatoryForKDC : Z := 8.
Definition ADCAMMAC : Z := 96.
Definition ADAuthIndicator : Z := 97.

Definition set_AuthorizationData (t : EncTicketPart) (data : AuthorizationData) : EncTicketPart :=
  mkTicketPart (tp_Flags t) (tp_Key t) (tp_CRealm t) (tp_CName t) (tp_Transited t) (tp_AuthTime t)
    (tp_StartTime t) (tp_EndTime t) (tp_RenewTill t) (tp_CAddr t) data.
Definition set_Flags (t : EncTicketPart) (flags : Z) : EncTicketPart :=
  mkTicketPart flags (tp_Key t) (tp_CRealm t) (tp_CName t) (tp_Transited t) (tp_AuthTime t)
    (tp_StartTime t) (tp_EndTime t) (tp_RenewTill t) (tp_CAddr t) (tp_AuthorizationData t).
Definition set_Transited (t : EncTicketPart) (tr : TransitedEncoding) : EncTicketPart :=
  mkTicketPart (tp_Flags t) (tp_Key t) (tp_CRealm t) (tp_CName t) tr (tp_AuthTime t)
    (tp_StartTime t) (tp_EndTime t) (tp_RenewTill t) (tp_CAddr t) (tp_AuthorizationData t).

(** ** The codec *)

Class Der (T : Type) := { Marshal : T → res bytes; Unmarshal : bytes → res T }.

(** [marshalDER] of kdc.go drops the error. *)
Definition marshalDER {T} `{Der T} (value : T) : bytes :=
  match Marshal value with Ok data => data | _ => [] end.

(** ** Flag words *)

Lemma has_with flags mask m : has (with_flags flags mask) m = has flags m || has mask m.
Proof.
  unfold has, with_flags. rewrite Z.land_comm, Z.land_lor_distr_r, (Z.land_comm m flags), (Z.land_comm m mask).
  destruct (Z.eqb_spec (Z.land flags m) 0) as [->|Hf]; cbn [negb orb]; [done|].
  apply negb_true_iff, Z.eqb_neq. by intros [? _]%Z.lor_eq_0_iff.
Qed.
Lemma has_mask flags m1 m2 : has flags (with_flags m1 m2) = has flags m1 || has flags m2.
Proof. assert (Hc : ∀ f m, has f m = has m f) by (intros; unfold has; by rewrite Z.land_comm). rewrite Hc, has_with. by f_equal. Qed.

(** One bit of the words. *)
Lemma has_bit flags i : 0 <= i → has flags (2 ^ i) = Z.testbit flags i.
Proof.
  intros Hi. unfold has. rewrite <- Z.shiftl_1_l by done. destruct (Z.testbit flags i) eqn:E.
  - apply negb_true_iff, Z.eqb_neq. intros H. apply (f_equal (λ z, Z.testbit z i)) in H.
    rewrite Z.land_spec, E, Z.shiftl_spec, Z.sub_diag, Z.bits_0 in H by done. done.
  - apply negb_false_iff, Z.eqb_eq. apply Z.bits_inj'. intros j Hj. rewrite Z.land_spec, Z.bits_0.
    destruct (Z.eq_dec i j) as [<-|Hne]; [by rewrite E|]. rewrite Z.shiftl_spec by done.
    change 1 with (2 ^ 0). rewrite Z.pow2_bits_false by lia. apply andb_false_r.
Qed.
Lemma has_without_bit flags mask i :
  0 <= i → has (without flags mask) (2 ^ i) = has flags (2 ^ i) && negb (has mask (2 ^ i)).
Proof. intros Hi. unfold without. by rewrite !has_bit, Z.ldiff_spec by done. Qed.
Lemma has_with_bit flags mask i :
  0 <= i → has (with_flags flags mask) (2 ^ i) = has flags (2 ^ i) || has mask (2 ^ i).
Proof. intros _. apply has_with. Qed.

(** The bits of a word built bit by bit. *)
Lemma set_bits_spec (P : Z → bool) (g : Z → Z) l acc j :
  0 <= j → Forall (λ b, 0 <= g b) l →
  Z.testbit (foldl (λ e b, if P b then Z.lor e (Z.shiftl 1 (g b)) else e) acc l) j =
  Z.testbit acc j || existsb (λ b, P b && (g b =? j)) l.
Proof.
  intros Hj Hl. revert acc. induction Hl as [|b l Hb Hl IH]; intros acc; cbn; [by rewrite orb_false_r|].
  rewrite IH. destruct (P b); cbn; [|done]. rewrite Z.lor_spec, Z.shiftl_1_l, Z.pow2_bits_eqb by done.
  by rewrite orb_assoc.
Qed.
Lemma existsb_reversed (P : Z → bool) j :
  existsb (λ b, P b && (31 - b =? j)) (Z.of_nat <$> seq 0 32) = (0 <=? j) && (j <? 32) && P (31 - j).
Proof.
  apply eq_true_iff_eq. rewrite existsb_exists, !andb_true_iff, Z.leb_le, Z.ltb_lt. split.
  - intros (b & Hb & [HP Hj%Z.eqb_eq]%andb_true_iff). apply list_elem_of_In, list_elem_of_fmap in Hb as (n & -> & Hn).
    apply list_elem_of_In, in_seq in Hn. subst j. replace (31 - (31 - Z.of_nat n)) with (Z.of_nat n) by lia.
    split; [lia|done].
  - intros [Hj HP]. exists (31 - j). rewrite HP. split; [|cbn; apply Z.eqb_eq; lia].
    apply list_elem_of_In, list_elem_of_fmap. exists (Z.to_nat (31 - j)). split; [lia|].
    apply list_elem_of_In, in_seq. lia.
Qed.
Lemma existsb_at (P : Z → bool) j :
  existsb (λ b, P b && (b =? j)) (Z.of_nat <$> seq 0 32) = (0 <=? j) && (j <? 32) && P j.
Proof.
  apply eq_true_iff_eq. rewrite existsb_exists, !andb_true_iff, Z.leb_le, Z.ltb_lt. split.
  - intros (b & Hb & [HP Hj%Z.eqb_eq]%andb_true_iff). apply list_elem_of_In, list_elem_of_fmap in Hb as (n & -> & Hn).
    apply list_elem_of_In, in_seq in Hn. rewrite <- Hj. split; [lia|done].
  - intros [Hj HP]. exists j. rewrite HP. split; [|cbn; apply Z.eqb_refl].
    apply list_elem_of_In, list_elem_of_fmap. exists (Z.to_nat j). split; [lia|].
    apply list_elem_of_In, in_seq. lia.
Qed.
Lemma reversed_range :
  Forall (λ b, 0 <= 31 - b) (Z.of_nat <$> seq 0 32) ∧ Forall (λ b, 0 <= b) (Z.of_nat <$> seq 0 32).
Proof. vm_compute. split; repeat constructor; discriminate. Qed.

Lemma bytesToFlags_range encoded : 0 <= bytesToFlags encoded < 2 ^ 32.
Proof.
  apply range_bits; [done|]. unfold bytesToFlags. cbv zeta. set (value := be_value _).
  assert (Hb : ∀ j, 32 <= j → Z.testbit (foldl (λ flags bit, if Z.testbit value (31 - bit) then Z.lor flags (Z.shiftl 1 bit) else flags)
    0 (Z.of_nat <$> seq 0 32)) j = false).
  { intros j Hj. rewrite set_bits_spec by (try apply reversed_range; lia).
    rewrite (existsb_at (λ b, Z.testbit value (31 - b))), Z.bits_0, (proj2 (Z.ltb_ge j 32)) by lia. by rewrite andb_false_r. }
  split; [|exact Hb]. apply Z.bits_iff_nonneg_ex. exists 31. intros j Hj. apply Hb. lia.
Qed.

(** The bit string of a flag word decodes to the same word. *)
Lemma flags_roundtrip flags : 0 <= flags < 2 ^ 32 → DecodeFlags (EncodeFlags flags) = Ok flags.
Proof.
  intros Hf. unfold EncodeFlags, DecodeFlags. cbn [app]. rewrite length_be_bytes. cbn [Nat.eqb negb orb].
  rewrite !byte_eqb_refl. cbn [negb orb]. f_equal. unfold bytesToFlags. cbv zeta.
  rewrite take_ge by (by rewrite length_be_bytes). rewrite be_value_bytes.
  assert (Hr : 0 <= flagsToBytes flags < 256 ^ Z.of_nat 4).
  { change (256 ^ Z.of_nat 4) with (2 ^ 32). apply range_bits; [done|]. unfold flagsToBytes, reverse_bits. split.
    - apply Z.bits_iff_nonneg_ex. exists 31. intros m Hm.
      rewrite set_bits_spec, existsb_reversed by (try apply reversed_range; lia).
      rewrite (proj2 (Z.ltb_ge m 32)), Z.bits_0 by lia. by rewrite andb_false_r.
    - intros i Hi. rewrite set_bits_spec, existsb_reversed by (try apply reversed_range; lia).
      rewrite (proj2 (Z.ltb_ge i 32)), Z.bits_0 by lia. by rewrite andb_false_r. }
  rewrite Z.mod_small by done. apply Z.bits_inj'. intros j Hj.
  rewrite set_bits_spec by (try apply reversed_range; lia). rewrite Z.bits_0. cbn [orb].
  rewrite (existsb_at (λ b, Z.testbit (flagsToBytes flags) (31 - b))). unfold flagsToBytes, reverse_bits.
  rewrite (proj2 (Z.leb_le 0 j)) by lia. cbn [andb]. destruct (Z.ltb_spec j 32) as [Hlt|Hge]; cbn [andb].
  - rewrite set_bits_spec, existsb_reversed, Z.bits_0 by (try apply reversed_range; lia).
    rewrite (proj2 (Z.leb_le 0 (31 - j))), (proj2 (Z.ltb_lt (31 - j) 32)) by lia. cbn [andb orb]. f_equal. lia.
  - symmetry. apply range_bits in Hf as [_ Hf]; [by apply Hf|done].
Qed.
