(* ===== verification/GoTime.v ===== *)
(** * Calendar time of the Go library (package time)

    What the sources use of [time.Time]: the calendar date and the clock of an
    instant in UTC, and the layout [20060102150405Z] read and written.  An
    instant is a number of nanoseconds since the epoch. *)

From S2P Require Import Prelude Ulog.
Local Open Scope Z_scope.

(** ** Dates

    Days are counted from the epoch; the computation is in eras of 400 years
    that start on the first of March. *)

Definition era_days : Z := 146097.
Definition epoch_shift : Z := 719468.

(** The days of an era before its year [y], and the year of a day. *)
Definition year_start (y : Z) : Z := 365 * y + y / 4 - y / 100.
Fixpoint find_year (n : nat) (doe : Z) : Z :=
  match n with
  | O => 0
  | S n' => if year_start (Z.of_nat n) <=? doe then Z.of_nat n else find_year n' doe
  end.
(** The days of a year before its month [mp], counted from March. *)
Definition month_start (mp : Z) : Z := (153 * mp + 2) / 5.

Definition date_of_doe (doe : Z) : Z * Z * Z :=
  let yoe := find_year 399 doe in
  let doy := doe - year_start yoe in
  let mp := (5 * doy + 2) / 153 in
  let d := doy - month_start mp + 1 in
  let m := if mp <? 10 then mp + 3 else mp - 9 in
  (if m <=? 2 then yoe + 1 else yoe, m, d).
Definition doe_of_date (yoe m d : Z) : Z :=
  year_start yoe + month_start (if 2 <? m then m - 3 else m + 9) + d - 1.

(** [Date] and the day of [time.Date]. *)
Definition date_of_days (days : Z) : Z * Z * Z :=
  let z := days + epoch_shift in
  let '(y, m, d) := date_of_doe (z mod era_days) in
  (y + z / era_days * 400, m, d).
Definition days_of_date (y m d : Z) : Z :=
  let y := if m <=? 2 then y - 1 else y in
  y / 400 * era_days + doe_of_date (y mod 400) m d - epoch_shift.

Definition is_leap (y : Z) : bool := (y mod 4 =? 0) && (negb (y mod 100 =? 0) || (y mod 400 =? 0)).
(** [daysIn]. *)
Definition daysIn (m y : Z) : Z :=
  if m =? 2 then if is_leap y then 29 else 28
  else if (m =? 4) || (m =? 6) || (m =? 9) || (m =? 11) then 30 else 31.

Fixpoint all_from (n : nat) (z : Z) (P : Z → bool) : bool :=
  match n with O => true | S n => P z && all_from n (z + 1) P end.
Lemma all_from_spec n a P z : all_from n a P = true → a <= z < a + Z.of_nat n → P z = true.
Proof.
  revert a. induction n as [|n IH]; intros a; cbn [all_from]; [lia|]. intros [HP Hall]%andb_prop Hz.
  destruct (decide (z = a)) as [->|]; [done|]. apply (IH (a + 1)); [done|lia].
Qed.

Lemma find_year_spec n doe :
  0 <= doe → doe < year_start (Z.of_nat n + 1) ∨ n = 399%nat →
  let y := find_year n doe in
  0 <= y <= Z.of_nat n ∧ year_start y <= doe ∧ (doe < year_start (y + 1) ∨ y = 399).
Proof.
  intros Hd. induction n as [|n IH]; intros Hlt; cbn [find_year].
  - split_and!; [lia|lia|exact Hd|]. destruct Hlt; [by left|lia].
  - destruct (Z.leb_spec (year_start (Z.of_nat (S n))) doe) as [Hle|Hgt].
    + split_and!; [lia|lia|done|]. destruct Hlt; [by left|right; lia].
    + destruct IH as (? & ? & ?); [left; by replace (Z.of_nat n + 1) with (Z.of_nat (S n)) by lia|].
      split_and!; [lia|lia|done|done].
Qed.

(** The months of a year. *)
Definition month_ok (doy : Z) : bool :=
  let mp := (5 * doy + 2) / 153 in
  let d := doy - month_start mp + 1 in
  let m := if mp <? 10 then mp + 3 else mp - 9 in
  (1 <=? m) && (m <=? 12) && (1 <=? d) &&
  (if m =? 2 then (d <=? 28) || ((d =? 29) && (doy =? 365)) else d <=? daysIn m 0) &&
  ((if 2 <? m then m - 3 else m + 9) =? mp).
Lemma year_ok : all_from 366 0 month_ok = true.
Proof. vm_compute. reflexivity. Qed.

Lemma is_leap_400 : is_leap 400 = true. Proof. done. Qed.
Lemma long_year y : 0 <= y < 399 → year_start (y + 1) - year_start y = 366 → is_leap (y + 1) = true.
Proof.
  unfold year_start, is_leap. intros Hy Hs.
  assert ((y + 1) mod 4 = 0 ∧ (y + 1) mod 100 ≠ 0) as [-> H100].
  { Z.to_euclidean_division_equations. lia. }
  cbn. apply orb_true_iff. left. apply negb_true_iff. lia.
Qed.
Lemma date_of_doe_ok doe y m d :
  0 <= doe < era_days → date_of_doe doe = (y, m, d) →
  let y' := if m <=? 2 then y - 1 else y in
  0 <= y' < 400 ∧ 1 <= m <= 12 ∧ 1 <= d <= daysIn m y ∧ doe_of_date y' m d = doe.
Proof.
  intros Hdoe. unfold date_of_doe.
  destruct (find_year_spec 399 doe) as (Hy & Hs & He); [lia|by right|].
  set (yoe := find_year 399 doe) in *. set (doy := doe - year_start yoe).
  assert (Hdoy : 0 <= doy < 366).
  { unfold doy. split; [lia|]. destruct He as [He|He].
    - enough (year_start (yoe + 1) <= year_start yoe + 366) by lia. unfold year_start. Z.to_euclidean_division_equations. lia.
    - rewrite He. unfold era_days in *. change (year_start 399) with 145731. lia. }
  pose proof (all_from_spec _ _ _ doy year_ok ltac:(lia)) as Hm. unfold month_ok in Hm.
  set (mp := (5 * doy + 2) / 153) in *. set (m0 := if mp <? 10 then mp + 3 else mp - 9) in *.
  repeat match goal with H : _ && _ = true |- _ => apply andb_prop in H as [H ?] end.
  intros [= <- <- <-]. rewrite !Z.leb_le, !Z.eqb_eq in *.
  assert (Hyear : (if m0 <=? 2 then (if m0 <=? 2 then yoe + 1 else yoe) - 1 else if m0 <=? 2 then yoe + 1 else yoe) = yoe)
    by (destruct (m0 <=? 2); lia).
  rewrite Hyear. split_and!; [lia|lia|done|done|done| |].
  2: { unfold doe_of_date. match goal with H : _ = mp |- _ => rewrite H end. unfold doy. lia. }
  destruct (Z.eqb_spec m0 2) as [->|Hne].
  - unfold daysIn. cbn [Z.eqb Pos.eqb]. change (2 <=? 2) with true. cbn iota.
    destruct (Z.leb_spec (doy - month_start mp + 1) 28) as [|Hgt]; [destruct (is_leap _); lia|].
    cbn [orb] in *. match goal with H : _ && _ = true |- _ => apply andb_prop in H as [H29%Z.eqb_eq H365%Z.eqb_eq] end.
    assert (is_leap (yoe + 1) = true) as ->; [|lia]. destruct He as [He|He]; [|by rewrite He].
    destruct (decide (yoe = 399)) as [->|]; [done|].
    apply long_year; [lia|]. assert (year_start (yoe + 1) <= year_start yoe + 366); [|unfold doy in *; lia].
    unfold year_start. Z.to_euclidean_division_equations. lia.
  - unfold daysIn in *. rewrite (proj2 (Z.eqb_neq m0 2) Hne) in *. lia.
Qed.

Lemma mod_add_mul a b n k : 0 < n → b = k * n → (a + b) mod n = a mod n.
Proof. intros Hn ->. apply Z.mod_add. lia. Qed.
Lemma is_leap_era y k : is_leap (y + k * 400) = is_leap y.
Proof.
  unfold is_leap. rewrite (mod_add_mul y _ 4 (k * 100)), (mod_add_mul y _ 100 (k * 4)), (mod_add_mul y _ 400 k) by lia. done.
Qed.

Lemma date_of_days_ok days y m d :
  date_of_days days = (y, m, d) → 1 <= m <= 12 ∧ 1 <= d <= daysIn m y ∧ days_of_date y m d = days.
Proof.
  unfold date_of_days, days_of_date. set (z := days + epoch_shift).
  pose proof (Z.mod_pos_bound z era_days ltac:(done)) as Hz.
  destruct (date_of_doe (z mod era_days)) as [[y0 m0] d0] eqn:Hdate. intros [= <- <- <-].
  destruct (date_of_doe_ok _ _ _ _ Hz Hdate) as (Hy & Hm & Hd & He). split_and!; try lia.
  - unfold daysIn in *. rewrite is_leap_era. lia.
  - replace (if m0 <=? 2 then y0 + z / era_days * 400 - 1 else y0 + z / era_days * 400)
      with ((if m0 <=? 2 then y0 - 1 else y0) + z / era_days * 400) by (destruct (m0 <=? 2); lia).
    set (y' := if m0 <=? 2 then y0 - 1 else y0) in *.
    rewrite (mod_add_mul y' _ 400 (z / era_days)), (Z.mod_small y') by lia.
    rewrite Z.div_add, (Z.div_small y') by lia. pose proof (Z.div_mod z era_days ltac:(done)). unfold z in *. lia.
Qed.

(** ** Digits *)

Definition digit (n : Z) : byte := z2b (48 + n).
Fixpoint digits_loop (fuel : nat) (n : Z) (acc : bytes) : bytes :=
  match fuel with
  | O => acc
  | S fuel => if n <? 10 then digit n :: acc else digits_loop fuel (n / 10) (digit (n mod 10) :: acc)
  end.
(** [appendInt]: at least [width] digits, a sign before a negative number; an
    int64 has 19 digits. *)
Definition appendInt (x : Z) (width : nat) : bytes :=
  let u := Z.abs x in
  let ds := digits_loop 20 u [] in
  (if x <? 0 then [z2b 45] else []) ++ replicate (width - length ds) (digit 0) ++ ds.
Definition is_digit (b : byte) : bool := (48 <=? b2z b) && (b2z b <=? 57).
Definition atoi (l : bytes) : Z := foldl (λ acc b, 10 * acc + (b2z b - 48)) 0 l.

Definition digits_ok (width : nat) (n : Z) : bool :=
  let ds := appendInt n width in (length ds =? width)%nat && forallb is_digit ds && (atoi ds =? n).
Lemma digits_ok_2 : all_from 100 0 (digits_ok 2) = true.
Proof. vm_compute. reflexivity. Qed.
Lemma digits_ok_4 : all_from (Z.to_nat 10000) 0 (digits_ok 4) = true.
Proof. vm_compute. reflexivity. Qed.
Lemma appendInt_ok n width :
  (width = 2%nat ∧ 0 <= n < 100) ∨ (width = 4%nat ∧ 0 <= n < 10000) →
  length (appendInt n width) = width ∧ forallb is_digit (appendInt n width) = true ∧ atoi (appendInt n width) = n.
Proof.
  intros H. assert (Hok : digits_ok width n = true).
  { destruct H as [[-> H]|[-> H]]; [apply (all_from_spec _ _ _ _ digits_ok_2); lia|].
    apply (all_from_spec _ _ _ _ digits_ok_4); rewrite Z2Nat.id; lia. }
  unfold digits_ok in Hok. apply andb_prop in Hok as [[Hl%Nat.eqb_eq Hd]%andb_prop Ha%Z.eqb_eq]. done.
Qed.

(** ** Layout 20060102150405Z *)

Definition nanos : Z := 1000000000.
Definition day_secs : Z := 86400.

(** [t.UTC().Truncate(time.Second).Format]. *)
Definition format_time (t : Z) : bytes :=
  let secs := t / nanos in
  let '(y, m, d) := date_of_days (secs / day_secs) in
  let clock := secs mod day_secs in
  appendInt y 4 ++ appendInt m 2 ++ appendInt d 2 ++ appendInt (clock / 3600) 2 ++
  appendInt (clock / 60 mod 60) 2 ++ appendInt (clock mod 60) 2 ++ str "Z".

(** [time.ParseInLocation] on fourteen digits and a Z. *)
Definition parse_time (value : bytes) : res Z :=
  let field i n := atoi (take n (drop i value)) in
  let y := field 0%nat 4%nat in
  let m := field 4%nat 2%nat in
  let d := field 6%nat 2%nat in
  let hh := field 8%nat 2%nat in
  let mm := field 10%nat 2%nat in
  let ss := field 12%nat 2%nat in
  if (m <=? 0) || (12 <? m) then Err "month out of range"
  else if 24 <=? hh then Err "hour out of range"
  else if 60 <=? mm then Err "minute out of range"
  else if 60 <=? ss then Err "second out of range"
  else if (d <? 1) || (daysIn m y <? d) then Err "day out of range"
  else Ok ((days_of_date y m d * day_secs + hh * 3600 + mm * 60 + ss) * nanos).

(** Years of four digits. *)
Definition year_of (t : Z) : Z := (date_of_days (t / nanos / day_secs)).1.1.
Lemma daysIn_le m y : daysIn m y <= 31.
Proof. unfold daysIn. repeat case_match; lia. Qed.

Lemma format_time_digits t : 0 <= year_of t < 10000 →
  ∃ ds, format_time t = ds ++ str "Z" ∧ length ds = 14%nat ∧ forallb is_digit ds = true ∧
        parse_time (format_time t) = Ok (t - t mod nanos).
Proof.
  unfold format_time, year_of. set (secs := t / nanos). destruct (date_of_days (secs / day_secs)) as [[y m] d] eqn:Hdate.
  cbn [fst]. intros Hy. destruct (date_of_days_ok _ _ _ _ Hdate) as (Hm & Hd & Hdays).
  pose proof (daysIn_le m y). pose proof (Z.mod_pos_bound secs day_secs ltac:(done)) as Hc. set (clock := secs mod day_secs) in *.
  assert (Hhh : 0 <= clock / 3600 < 24) by (unfold day_secs in *; Z.to_euclidean_division_equations; lia).
  pose proof (Z.mod_pos_bound (clock / 60) 60 ltac:(done)) as Hmm. pose proof (Z.mod_pos_bound clock 60 ltac:(done)) as Hss.
  destruct (appendInt_ok y 4) as (Ly & Dy & Ay); [right; lia|].
  destruct (appendInt_ok m 2) as (Lm & Dm & Am); [left; lia|].
  destruct (appendInt_ok d 2) as (Ld & Dd & Ad); [left; lia|].
  destruct (appendInt_ok (clock / 3600) 2) as (Lh & Dh & Ah); [left; lia|].
  destruct (appendInt_ok (clock / 60 mod 60) 2) as (Lmi & Dmi & Ami); [left; lia|].
  destruct (appendInt_ok (clock mod 60) 2) as (Ls & Ds & As); [left; lia|].
  exists (appendInt y 4 ++ appendInt m 2 ++ appendInt d 2 ++ appendInt (clock / 3600) 2 ++
          appendInt (clock / 60 mod 60) 2 ++ appendInt (clock mod 60) 2).
  split_and!; [by rewrite <- !app_assoc|rewrite !length_app; lia|by rewrite !forallb_app, Dy, Dm, Dd, Dh, Dmi, Ds|].
  unfold parse_time. cbv beta zeta. revert Ay Am Ad Ah Ami As.
  repeat match goal with Hl : length ?l = _ |- _ =>
    let k := fresh "k" in set (k := l) in *; clearbody k; destruct k as [|? [|? [|? [|? [|? ?]]]]]; try discriminate Hl; clear Hl
  end.
  cbn [app take drop]. intros Ay Am Ad Ah Ami As. rewrite Ay, Am, Ad, Ah, Ami.
  change (take 0 (str "Z")) with (@nil byte). rewrite As.
  rewrite (proj2 (Z.leb_gt m 0)), (proj2 (Z.ltb_ge 12 m)), (proj2 (Z.leb_gt 24 _)), !(proj2 (Z.leb_gt 60 _)),
    (proj2 (Z.ltb_ge d 1)), (proj2 (Z.ltb_ge (daysIn m y) d)) by lia.
  cbn [orb]. f_equal. rewrite Hdays. unfold clock, secs, nanos, day_secs in *. Z.to_euclidean_division_equations. lia.
Qed.
