(* ===== verification/Asn1.v ===== *)
(** * The ASN.1 codec (src/krb5/asn1/asn1.go)

    The codec works on Go values through reflection.  [gtype] is what it sees of
    a type (the kinds it tells apart, the tags of struct fields, the application
    tag of a type) and [gval] a value of such a type: a nil pointer or slice is
    [None].  [Unmarshal] decodes into a zero value, as its callers do.  The
    nesting depth of the source, at most [maxDepth], is counted down. *)

From S2P Require Import Prelude Ulog GoTime Principal Protocol.
Local Open Scope Z_scope.
Local Set Warnings "-register-all".

(** ** Types and values *)

Record fieldTag := mkFieldTag {
  ft_number : Z; ft_optional : bool; ft_choice : bool; ft_implicit : bool; ft_signed : bool; ft_bare : bool }.

(** [TTime] is [types.KerberosTime] and [TGoTime] [time.Time]; a struct has its
    application tag, and the name, the krb5 tag and the type of its fields. *)
Inductive gtype :=
| TTime | TGoTime | TFlags | TUTF8 | TOID | TRaw | TBool
| TInt (bits : Z) | TUint (bits : Z)
| TString | TBytes
| TSlice (elem : gtype)
| TStruct (application : option Z) (fields : list (string * option bytes * gtype))
| TPtr (elem : gtype).
Abbreviation gfield := (string * option bytes * gtype)%type.

Inductive gval :=
| VTime (t : KerberosTime)
| VNum (z : Z)
| VBool (b : bool)
| VStr (s : bytes)
| VBytes (s : option bytes)
| VSlice (l : option (list gval))
| VStruct (l : list gval)
| VPtr (p : option gval).

Fixpoint zero (t : gtype) : gval :=
  match t with
  | TTime | TGoTime => VTime (mkKTime zero_time 0 false)
  | TFlags | TInt _ | TUint _ => VNum 0
  | TUTF8 | TString => VStr []
  | TOID | TRaw | TBytes => VBytes None
  | TBool => VBool false
  | TSlice _ => VSlice None
  | TStruct _ fields => VStruct (map (λ f : gfield, zero f.2) fields)
  | TPtr _ => VPtr None
  end.

Definition maxDepth : nat := 32.
Definition tagBoolean : Z := 0x01.
Definition tagInteger : Z := 0x02.
Definition tagBitString : Z := 0x03.
Definition tagOctetString : Z := 0x04.
Definition tagObjectIdentifier : Z := 0x06.
Definition tagUTF8String : Z := 0x0c.
Definition tagSequence : Z := 0x30.
Definition tagGeneralizedTime : Z := 0x18.
Definition tagGeneralString : Z := 0x1b.
(** [byte(0x60 | n)], [byte(0xa0 | n)] and [byte(0x80 | n)]. *)
Definition app_tag (n : Z) : Z := u8 (Z.lor 0x60 n).
Definition ctx_tag (n : Z) : Z := u8 (Z.lor 0xa0 n).
Definition prim_tag (n : Z) : Z := u8 (Z.lor 0x80 n).

(** ** Times (types.go) *)

Definition ParseKerberosTime (value : bytes) : res KerberosTime :=
  if zlen value =? 0 then Ok (mkKTime zero_time 0 false)
  else if negb (zlen value =? 15) || negb (has_suffix value (str "Z"))
  then Err "parse GeneralizedTime: want YYYYMMDDHHMMSSZ"
  else if negb (forallb is_digit (removelast value)) then Err "parse GeneralizedTime: non-digit"
  else res_bind (wrap_err "parse GeneralizedTime: " (parse_time value)) (λ parsed, Ok (mkKTime parsed 0 true)).
Definition EncodeGeneralizedTime (t : KerberosTime) : bytes :=
  if negb (Present t) then [] else format_time (Time t).

(** ** Tag, length and value *)

(** The bytes of a length, written from the end of a buffer of four. *)
Fixpoint length_bytes (room : nat) (length : Z) (acc : bytes) : res bytes :=
  if length =? 0 then Ok acc
  else match room with
       | O => Panic
       | S room => length_bytes room (Z.shiftr length 8) (z2b length :: acc)
       end.
Definition encodeLength (length : Z) : res bytes :=
  if length <? 128 then Ok [z2b length]
  else res_bind (length_bytes 4 length []) (λ out, Ok (z2b (Z.lor 0x80 (zlen out)) :: out)).
Definition encodeTLV (tag : Z) (content : bytes) : res bytes :=
  res_bind (encodeLength (zlen content)) (λ length, Ok (z2b tag :: length ++ content)).

Definition readLength (data : bytes) : res (Z * Z) :=
  match data with
  | [] => Err "truncated length"
  | first :: rest =>
      if Z.land (b2z first) 0x80 =? 0 then Ok (b2z first, 1) else
      let count := Z.land (b2z first) 0x7f in
      if count =? 0 then Err "indefinite length is forbidden"
      else if (4 <? count) || (zlen data <? count + 1) ||
              match rest with b :: _ => b2z b =? 0 | [] => false end
      then Err "invalid DER length"
      else let length := be_value (take (Z.to_nat count) rest) in
           if length <? 128 then Err "non-minimal DER length" else Ok (length, count + 1)
  end.
Definition readTLV (data : bytes) : res (Z * bytes * Z) :=
  if zlen data <? 2 then Err "truncated TLV" else
  match data with
  | [] => Err "truncated TLV"
  | tag :: data =>
      res_bind (readLength data) (λ '(length, header),
      if zlen data - header <? length then Err "length exceeds remaining input"
      else Ok (b2z tag, take (Z.to_nat length) (drop (Z.to_nat header) data), 1 + header + length))
  end.

(** ** Integers *)

Fixpoint strip_signed (l : bytes) : bytes :=
  match l with
  | a :: (b :: _) as t =>
      if ((b2z a =? 0) && (b2z b <? 128)) || ((b2z a =? 0xff) && (128 <=? b2z b)) then strip_signed t else l
  | _ => l
  end.
Definition encodeInteger (value : Z) : bytes := strip_signed (be_bytes 8 (u64 value)).
Fixpoint strip_zeros (l : bytes) : bytes :=
  match l with
  | a :: (_ :: _) as t => if b2z a =? 0 then strip_zeros t else l
  | _ => l
  end.
(** A value with the top bit of its eight bytes set has no room for a zero. *)
Definition encodeUnsignedInteger (value : Z) : res bytes :=
  let l := strip_zeros (be_bytes 8 value) in
  match l with
  | a :: _ => if 128 <=? b2z a then if (length l =? 8)%nat then Panic else Ok (z2b 0 :: l) else Ok l
  | [] => Ok l
  end.

Definition non_minimal (data : bytes) : bool :=
  match data with
  | a :: b :: _ => ((b2z a =? 0) && (b2z b <? 128)) || ((b2z a =? 0xff) && (128 <=? b2z b))
  | _ => false
  end.
Definition decodeInteger (data : bytes) : res Z :=
  if (zlen data =? 0) || (8 <? zlen data) then Err "invalid INTEGER length"
  else if non_minimal data then Err "non-minimal INTEGER"
  else let value := i64 (be_value data) in
       Ok (match data with
           | a :: _ => if (128 <=? b2z a) && (zlen data <? 8) then value - 256 ^ zlen data else value
           | [] => value
           end).
Definition decodeUnsignedInteger (data : bytes) : res Z :=
  match data with
  | [] => Err "invalid unsigned INTEGER length"
  | a :: rest =>
      if 9 <? zlen data then Err "invalid unsigned INTEGER length"
      else if match rest with b :: _ => (b2z a =? 0) && (b2z b <? 128) | [] => false end then Err "non-minimal INTEGER"
      else if 128 <=? b2z a then Err "negative unsigned INTEGER"
      else if (5 <? zlen data) || ((zlen data =? 5) && negb (b2z a =? 0)) then Err "unsigned INTEGER overflow"
      else Ok (be_value data)
  end.

(** ** Field tags *)

Definition decimal (l : bytes) : res Z :=
  if forallb is_digit l then Ok (atoi l) else Err "invalid field tag".
Definition parse_part (t : fieldTag) (part : bytes) : res fieldTag :=
  if (4 <? zlen part) && has_prefix part (str "tag:") then
    res_bind (decimal (drop 4 part)) (λ number,
    if 30 <? number then Err "field tag out of range"
    else Ok (mkFieldTag number (ft_optional t) (ft_choice t) (ft_implicit t) (ft_signed t) (ft_bare t)))
  else if bytes_eqb part (str "optional") then
    Ok (mkFieldTag (ft_number t) true (ft_choice t) (ft_implicit t) (ft_signed t) (ft_bare t))
  else if bytes_eqb part (str "choice") then
    Ok (mkFieldTag (ft_number t) (ft_optional t) true (ft_implicit t) (ft_signed t) (ft_bare t))
  else if bytes_eqb part (str "implicit") then
    Ok (mkFieldTag (ft_number t) (ft_optional t) (ft_choice t) true (ft_signed t) (ft_bare t))
  else if bytes_eqb part (str "signed") then
    Ok (mkFieldTag (ft_number t) (ft_optional t) (ft_choice t) (ft_implicit t) true (ft_bare t))
  else if bytes_eqb part (str "bare") then
    Ok (mkFieldTag (ft_number t) (ft_optional t) (ft_choice t) (ft_implicit t) (ft_signed t) true)
  else Err "unknown krb5 field option".
Fixpoint parse_parts (t : fieldTag) (parts : list bytes) : res fieldTag :=
  match parts with
  | [] => Ok t
  | part :: parts => res_bind (parse_part t part) (λ t, parse_parts t parts)
  end.
(** A comma at the end, or no text at all, ends the loop. *)
Definition tag_parts (raw : bytes) : list bytes :=
  let parts := split_byte (z2b 44) raw in
  match last parts with Some [] => removelast parts | _ => parts end.
Definition parseFieldTag (raw : option bytes) : res (option fieldTag) :=
  match raw with
  | None => Ok None
  | Some raw => res_bind (parse_parts (mkFieldTag 0 false false false false false) (tag_parts raw)) (λ t, Ok (Some t))
  end.

(** ** Kinds *)

Fixpoint oid_loop (first : bool) (content : bytes) : bool :=
  match content with
  | [] => first
  | octet :: content => if first && (b2z octet =? 0x80) then false else oid_loop (b2z octet <? 128) content
  end.
Definition validObjectIdentifierContent (content : bytes) : bool :=
  if zlen content =? 0 then false else oid_loop true content.

Definition isAbsent (v : gval) : bool :=
  match v with VPtr None | VSlice None | VBytes None => true | _ => false end.

Definition is_choice (raw : option bytes) : option Z :=
  match parseFieldTag raw with Ok (Some t) => if ft_choice t then Some (ft_number t) else None | _ => None end.
(** The alternatives of a CHOICE that are selected, or that have a tag. *)
Definition choices (P : Z → gval → bool) (fields : list gfield) (vals : list gval) : list (Z * nat) :=
  omap (λ '(i, (f, v)), n ← is_choice f.1.2; if P n v then Some (n, i) else None) (imap pair (zip fields vals)).
Definition the_one {A} (l : list A) : option A := match l with [x] => Some x | _ => None end.
Definition choiceField (fields : list gfield) (vals : list gval) : option (Z * nat) :=
  the_one (choices (λ _ v, match v with VPtr None => false | _ => true end) fields vals).
Definition choiceFieldForTag (fields : list gfield) (tag : Z) : option (Z * nat) :=
  the_one (choices (λ n _, tag =? ctx_tag n) fields (map (λ f : gfield, zero f.2) fields)).

Definition tagForImplicitType (t : gtype) : Z :=
  match t with
  | TRaw | TBool | TPtr _ => 0
  | TFlags => tagBitString
  | TUTF8 => tagUTF8String
  | TTime | TGoTime => tagGeneralizedTime
  | TOID => tagObjectIdentifier
  | TInt _ | TUint _ => tagInteger
  | TString => tagGeneralString
  | TBytes => tagOctetString
  | TSlice _ | TStruct _ _ => tagSequence
  end.
Definition tagForImplicitField (t : gtype) : Z :=
  tagForImplicitType (match t with TPtr elem => elem | _ => t end).

(** ** Encoding *)

Definition depth_error {A} : res A := Err "maximum nesting depth exceeded".
Definition in_field {A} (name : string) (r : res A) : res A := wrap_err ("field " +:+ name +:+ ": ") r.

Definition encodeSignedInteger (t : gtype) (v : gval) : res bytes :=
  let encode z := encodeTLV tagInteger (encodeInteger (i32 z)) in
  match t, v with
  | TPtr _, VPtr None => Err "nil signed INTEGER"
  | TPtr (TUint _), VPtr (Some (VNum z)) | TPtr TFlags, VPtr (Some (VNum z)) => encode z
  | TUint _, VNum z | TFlags, VNum z => encode z
  | _, _ => Err "signed INTEGER source is not unsigned"
  end.

Fixpoint encode_items (rec : gval → res bytes) (l : list gval) : res bytes :=
  match l with
  | [] => Ok []
  | v :: l => res_bind (rec v) (λ item, res_bind (encode_items rec l) (λ rest, Ok (item ++ rest)))
  end.

(** The tag of a field around its value. *)
Definition wrap_field (tag : fieldTag) (encoded : bytes) : res bytes :=
  if ft_bare tag then Ok encoded
  else if ft_implicit tag then
    match readTLV encoded with
    | Ok (innerTag, innerContent, innerEnd) =>
        if negb (innerEnd =? zlen encoded) then Err "invalid implicit field encoding"
        else encodeTLV (Z.lor (prim_tag (ft_number tag)) (Z.land innerTag 0x20)) innerContent
    | _ => Err "invalid implicit field encoding"
    end
  else encodeTLV (ctx_tag (ft_number tag)) encoded.

Fixpoint encode_fields (rec : gtype → gval → res bytes) (fields : list gfield) (vals : list gval) : res bytes :=
  match fields, vals with
  | (name, raw, t) :: fields, v :: vals =>
      res_bind (parseFieldTag raw) (λ tag,
      let optional := match tag with Some tag => ft_optional tag | None => false end in
      if optional && isAbsent v then encode_fields rec fields vals else
      let signed := match tag with Some tag => ft_signed tag | None => false end in
      res_bind (in_field name (if signed then encodeSignedInteger t v else rec t v)) (λ encoded,
      res_bind (match tag with Some tag => wrap_field tag encoded | None => Ok encoded end) (λ encoded,
      res_bind (encode_fields rec fields vals) (λ rest, Ok (encoded ++ rest)))))
  | _, _ => Ok []
  end.

(** [encodeBare] of a value, with the encoder of the values in it. *)
Definition encodeBare (rec : gtype → gval → res bytes) (t : gtype) (v : gval) : res bytes :=
  match t, v with
  | TTime, VTime time => encodeTLV tagGeneralizedTime (EncodeGeneralizedTime time)
  | TGoTime, VTime time => encodeTLV tagGeneralizedTime (format_time (Time time))
  | TFlags, VNum z => Ok (EncodeFlags z)
  | TUTF8, VStr s => encodeTLV tagUTF8String s
  | TOID, VBytes s =>
      if validObjectIdentifierContent (default [] s) then encodeTLV tagObjectIdentifier (default [] s)
      else Err "invalid OBJECT IDENTIFIER encoding"
  | TRaw, VBytes s =>
      let raw := default [] s in
      match readTLV raw with
      | Ok (_, _, end_) => if end_ =? zlen raw then Ok raw else Err "invalid raw DER value"
      | _ => Err "invalid raw DER value"
      end
  | TBool, VBool b => encodeTLV tagBoolean [z2b (if b then 0xff else 0)]
  | TInt _, VNum z => encodeTLV tagInteger (encodeInteger z)
  | TUint _, VNum z => res_bind (encodeUnsignedInteger z) (λ content, encodeTLV tagInteger content)
  | TString, VStr s => encodeTLV tagGeneralString s
  | TBytes, VBytes s => encodeTLV tagOctetString (default [] s)
  | TSlice elem, VSlice l => res_bind (encode_items (rec elem) (default [] l)) (λ content, encodeTLV tagSequence content)
  | TStruct _ fields, VStruct vals => res_bind (encode_fields rec fields vals) (λ content, encodeTLV tagSequence content)
  | _, _ => Err "unsupported kind"
  end.

(** [encodeValue] with the depth that is left. *)
Fixpoint encodeValue (left : nat) (t : gtype) (v : gval) : res bytes :=
  match left with
  | O => depth_error
  | S below =>
      match t, v with
      | TPtr elem, VPtr (Some v) => encodeValue below elem v
      | TPtr _, _ => Err "nil pointer"
      | TStruct (Some application) _, _ =>
          match below with
          | O => depth_error
          | S below => res_bind (encodeBare (encodeValue below) t v) (λ inner, encodeTLV (app_tag application) inner)
          end
      | TStruct None fields, VStruct vals =>
          match choiceField fields vals with
          | Some (tag, i) =>
              match fields !! i, vals !! i with
              | Some f, Some v => res_bind (encodeValue below f.2 v) (λ encoded, encodeTLV (ctx_tag tag) encoded)
              | _, _ => Panic
              end
          | None => encodeBare (encodeValue below) t v
          end
      | _, _ => encodeBare (encodeValue below) t v
      end
  end.
Definition asn1_Marshal (t : gtype) (v : gval) : res bytes :=
  wrap_err "marshal kerberos ASN.1: " (encodeValue (S maxDepth) t v).

(** ** Decoding *)

(** [append([]byte(nil), content...)]: nil for no bytes. *)
Definition copied (content : bytes) : option bytes := match content with [] => None | _ => Some content end.

(** [SetUint] of a signed number through a pointer, or not. *)
Definition set_unsigned (value : Z) (t : gtype) (e : string) : res gval :=
  match t with
  | TUint bits => Ok (VNum (value mod 2 ^ bits))
  | TFlags => Ok (VNum (value mod 2 ^ 32))
  | TPtr (TUint bits) => Ok (VPtr (Some (VNum (value mod 2 ^ bits))))
  | TPtr TFlags => Ok (VPtr (Some (VNum (value mod 2 ^ 32))))
  | _ => Err e
  end.
Definition fits_int (bits value : Z) : bool := (- 2 ^ (bits - 1) <=? value) && (value <? 2 ^ (bits - 1)).
Definition set_signed (value : Z) (t : gtype) : res gval :=
  let checked bits := if fits_int bits value then Ok (VNum value) else Err "INTEGER overflows" in
  match t with
  | TInt bits => checked bits
  | TPtr (TInt bits) => res_bind (checked bits) (λ v, Ok (VPtr (Some v)))
  | _ => Err "implicit INTEGER destination is not signed"
  end.

Definition decodeIntegerFromTLV (data : bytes) : res Z :=
  res_bind (readTLV data) (λ '(tag, content, end_),
  if negb (tag =? tagInteger) || negb (end_ =? zlen data) then Err "unexpected signed INTEGER encoding"
  else decodeInteger content).
Definition decodeSignedInteger (data : bytes) (t : gtype) : res gval :=
  res_bind (decodeIntegerFromTLV data) (λ value, set_unsigned value t "signed INTEGER destination is not unsigned").
Definition decodeImplicitInteger (data : bytes) (t : gtype) (signed : bool) : res gval :=
  res_bind (decodeInteger (strip_signed data)) (λ value,
  if signed then set_unsigned value t "implicit INTEGER destination is not unsigned" else set_signed value t).

Definition contextTagNumber (tag : Z) : Z := Z.land tag 0x1f.

Definition decodeImplicitField (rec : bytes → gtype → res gval) (data : bytes) (t : gtype) (tag : fieldTag) (name : string)
    : res gval :=
  let implicitTag := tagForImplicitField t in
  if implicitTag =? 0 then Err ("field " +:+ name +:+ " cannot use implicit tagging") else
  match readTLV data with
  | Ok (_, implicitContent, implicitEnd) =>
      if negb (implicitEnd =? zlen data) then Err "invalid implicit field"
      else if implicitTag =? tagInteger then in_field name (decodeImplicitInteger implicitContent t (ft_signed tag))
      else res_bind (encodeTLV implicitTag implicitContent) (λ implicit, in_field name (rec implicit t))
  | _ => Err "invalid implicit field"
  end.

Fixpoint isLaterContextSpecificTag (fields : list gfield) (nextTag : Z) : bool :=
  match fields with
  | [] => false
  | (_, raw, _) :: fields =>
      match parseFieldTag raw with
      | Ok (Some tag) =>
          if ft_bare tag then isLaterContextSpecificTag fields nextTag else
          let expectedTag := if ft_implicit tag then prim_tag (ft_number tag) else ctx_tag (ft_number tag) in
          if (nextTag =? expectedTag) || (ft_implicit tag && (nextTag =? ctx_tag (ft_number tag))) then true
          else isLaterContextSpecificTag fields nextTag
      | _ => isLaterContextSpecificTag fields nextTag
      end
  end.

(** What [decodeStruct] does with the next element at a field. *)
Inductive field_action := Skip | Take (v : gval).
Definition decode_field (rec : bytes → gtype → res gval) (tag : fieldTag) (name : string) (t : gtype) (later : list gfield)
    (nextTag : Z) (inner element : bytes) : res field_action :=
  let taken r := res_bind r (λ v, Ok (Take v)) in
  if ft_bare tag then
    let expectedTag := tagForImplicitField t in
    if (expectedTag =? 0) && ft_optional tag && isLaterContextSpecificTag later nextTag then Ok Skip
    else if negb (expectedTag =? 0) && negb (nextTag =? expectedTag) then
      if ft_optional tag && (expectedTag <? nextTag) then Ok Skip else Err "unexpected bare field tag"
    else taken (in_field name (rec element t))
  else
  let expectedTag := ctx_tag (ft_number tag) in
  if negb (nextTag =? expectedTag) then
    if ft_implicit tag && (nextTag =? prim_tag (ft_number tag)) then taken (decodeImplicitField rec element t tag name)
    else if ft_optional tag && ((expectedTag <? nextTag) ||
              (ft_implicit tag && (ft_number tag <? contextTagNumber nextTag))) then Ok Skip
    else Err "unexpected or out-of-order field tag"
  else if ft_implicit tag then taken (decodeImplicitField rec element t tag name)
  else if ft_signed tag then taken (in_field name (decodeSignedInteger inner t))
  else taken (in_field name (rec inner t)).

(** The loop of [decodeStruct] over the fields, on the content from its position. *)
Fixpoint decode_fields (rec : bytes → gtype → res gval) (fields : list gfield) (rest : bytes) : res (list gval) :=
  match fields with
  | [] => if zlen rest =? 0 then Ok [] else Err "unknown trailing field"
  | (name, raw, t) :: fields =>
      res_bind (parseFieldTag raw) (λ tag,
      match tag with
      | None => Err ("field " +:+ name +:+ " has no krb5 tag")
      | Some tag =>
          let skip := res_bind (decode_fields rec fields rest) (λ vs, Ok (zero t :: vs)) in
          if zlen rest =? 0 then
            if ft_optional tag then skip else Err ("missing mandatory field " +:+ name)
          else
            res_bind (readTLV rest) (λ '(nextTag, inner, end_),
            res_bind (decode_field rec tag name t fields nextTag inner (take (Z.to_nat end_) rest)) (λ action,
            match action with
            | Skip => skip
            | Take v => res_bind (decode_fields rec fields (drop (Z.to_nat end_) rest)) (λ vs, Ok (v :: vs))
            end))
      end)
  end.

(** The loop over the elements of a SEQUENCE OF, each of two bytes at least. *)
Fixpoint decode_items (n : nat) (rec : bytes → res gval) (content : bytes) : res (list gval) :=
  match content, n with
  | [], _ => Ok []
  | _, O => Panic
  | _, S n =>
      res_bind (readTLV content) (λ '(_, _, end_),
      res_bind (rec (take (Z.to_nat end_) content)) (λ item,
      res_bind (decode_items n rec (drop (Z.to_nat end_) content)) (λ items, Ok (item :: items))))
  end.

(** [decodeBare]: [rec] decodes the items of a slice, [rec_struct] the fields of
    a struct, which are a level deeper. *)
Definition decodeBare (rec rec_struct : bytes → gtype → res gval) (tag : Z) (content : bytes) (t : gtype) : res gval :=
  match t with
  | TTime | TGoTime =>
      if negb (tag =? tagGeneralizedTime) then Err "unexpected GeneralizedTime tag"
      else if zlen content =? 0 then Err "empty GeneralizedTime"
      else res_bind (ParseKerberosTime content) (λ time, Ok (VTime time))
  | TFlags =>
      if negb (tag =? tagBitString) then Err "unexpected BIT STRING tag"
      else res_bind (DecodeFlags (z2b tag :: z2b (zlen content) :: content)) (λ flags, Ok (VNum flags))
  | TUTF8 => if negb (tag =? tagUTF8String) then Err "unexpected UTF8String tag" else Ok (VStr content)
  | TOID =>
      if negb (tag =? tagObjectIdentifier) || negb (validObjectIdentifierContent content)
      then Err "unexpected OBJECT IDENTIFIER encoding" else Ok (VBytes (copied content))
  | TBool =>
      match content with
      | [b] => if negb (tag =? tagBoolean) || (negb (b2z b =? 0) && negb (b2z b =? 0xff)) then Err "invalid BOOLEAN"
               else Ok (VBool (negb (b2z b =? 0)))
      | _ => Err "invalid BOOLEAN"
      end
  | TInt bits =>
      if negb (tag =? tagInteger) then Err "unexpected INTEGER tag"
      else res_bind (decodeInteger content) (λ value,
           if fits_int bits value then Ok (VNum value) else Err "INTEGER overflows")
  | TUint bits =>
      if negb (tag =? tagInteger) then Err "unexpected INTEGER tag"
      else res_bind (decodeUnsignedInteger content) (λ value,
           if value <? 2 ^ bits then Ok (VNum value) else Err "INTEGER overflows")
  | TString => if negb (tag =? tagGeneralString) then Err "unexpected GeneralString tag" else Ok (VStr content)
  | TBytes => if negb (tag =? tagOctetString) then Err "unexpected OCTET STRING tag" else Ok (VBytes (copied content))
  | TSlice elem =>
      if negb (tag =? tagSequence) then Err "unexpected SEQUENCE tag"
      else res_bind (decode_items (length content) (λ item, rec item elem) content) (λ items, Ok (VSlice (Some items)))
  | TStruct _ fields =>
      if negb (tag =? tagSequence) then Err "unexpected SEQUENCE tag"
      else res_bind (decode_fields rec_struct fields content) (λ vals, Ok (VStruct vals))
  | TRaw => if negb (tag =? tagOctetString) then Err "unexpected OCTET STRING tag" else Ok (VBytes (copied content))
  | TPtr _ => Err "unsupported destination kind"
  end.

(** [decodeValue] with the depth that is left. *)
Fixpoint decodeValue (left : nat) (data : bytes) (t : gtype) : res gval :=
  match left with
  | O => depth_error
  | S below =>
      res_bind (readTLV data) (λ '(tag, content, end_),
      if negb (end_ =? zlen data) then Err "trailing data in value" else
      let bare := decodeBare (decodeValue below)
                    (match below with O => λ _ _, depth_error | S deeper => decodeValue deeper end) in
      match t with
      | TPtr elem => res_bind (decodeValue below data elem) (λ v, Ok (VPtr (Some v)))
      | TRaw => Ok (VBytes (copied data))
      | TStruct (Some application) _ =>
          if negb (tag =? app_tag application) then Err "unexpected application tag" else
          res_bind (readTLV content) (λ '(innerTag, innerContent, innerEnd),
          if negb (innerTag =? tagSequence) || negb (innerEnd =? zlen content)
          then Err "application value is not a complete SEQUENCE" else
          match below with
          | O => depth_error
          | S below =>
              decodeBare (decodeValue below)
                (match below with O => λ _ _, depth_error | S deeper => decodeValue deeper end) innerTag innerContent t
          end)
      | TStruct None fields =>
          match choiceFieldForTag fields tag with
          | Some (_, i) =>
              match fields !! i with
              | Some f => res_bind (decodeValue below content f.2) (λ v,
                          Ok (VStruct (<[i := v]> (map (λ f : gfield, zero f.2) fields))))
              | None => Panic
              end
          | None => bare tag content t
          end
      | _ => bare tag content t
      end)
  end.
Definition asn1_Unmarshal (t : gtype) (data : bytes) : res gval :=
  wrap_err "unmarshal kerberos ASN.1: "
    (res_bind (readTLV data) (λ '(_, _, end_),
     if negb (end_ =? zlen data) then Err "trailing data" else decodeValue (S maxDepth) data t)).

(** ** Raw fields *)

Definition matchesTag (tag tagNumber : Z) : bool := (tag =? app_tag tagNumber) || (tag =? ctx_tag tagNumber).
Fixpoint find_child (n : nat) (data : bytes) (tagNumber : Z) : res (option bytes) :=
  match data, n with
  | [], _ => Ok None
  | _, O => Panic
  | _, S n =>
      res_bind (readTLV data) (λ '(tag, _, end_),
      if matchesTag tag tagNumber then Ok (Some (take (Z.to_nat end_) data))
      else find_child n (drop (Z.to_nat end_) data) tagNumber)
  end.
Definition findChild (data : bytes) (tagNumber : Z) : res (option bytes) := find_child (length data) data tagNumber.

Definition field_error {A} (r : res A) : res A := wrap_err "read kerberos ASN.1 field: " r.
Fixpoint field_loop (first : bool) (current : bytes) (path : list Z) : res bytes :=
  match path with
  | [] => Panic
  | tagNumber :: path =>
      res_bind (readTLV current) (λ '(tag, content, end_),
      if negb (end_ =? zlen current) then Err "trailing data"
      else if first && matchesTag tag tagNumber then
        match path with [] => Ok current | _ => field_loop false content path end
      else res_bind (findChild content tagNumber) (λ found,
           match found with
           | None => Err "tag not found"
           | Some found => match path with [] => Ok found | _ => field_loop false found path end
           end))
  end.
Definition Field (data : bytes) (path : list Z) : res bytes :=
  field_error
    (if zlen path =? 0 then Err "empty path"
     else if existsb (λ tag, (tag <? 0) || (30 <? tag)) path then Err "tag out of range"
     else field_loop true data path).
Definition FieldContent (data : bytes) (path : list Z) : res bytes :=
  res_bind (Field data path) (λ element,
  wrap_err "read kerberos ASN.1 field contents: "
    (res_bind (readTLV element) (λ '(_, content, end_),
     if negb (end_ =? zlen element) then Err "trailing data" else Ok content))).

Definition WrapContext (tag : Z) (encoded : bytes) : res bytes :=
  if (tag <? 0) || (30 <? tag) then Err "context tag out of range"
  else if zlen encoded =? 0 then Err "empty context value"
  else encodeTLV (ctx_tag tag) encoded.
Definition UnwrapContext (data : bytes) (tag : Z) : res bytes :=
  if (tag <? 0) || (30 <? tag) then Err "context tag out of range"
  else res_bind (readTLV data) (λ '(actual, content, end_),
       if negb (end_ =? zlen data) || negb (actual =? ctx_tag tag) then Err "unexpected context tag" else Ok content).

(** ** Tag, length and value read back *)

Lemma land_top b : (Z.land (b2z b) 0x80 =? 0) = (b2z b <? 128).
Proof. destruct b; reflexivity. Qed.
Lemma low_bits n : 0 < n <= 4 → Z.land (b2z (z2b (Z.lor 0x80 n))) 0x80 ≠ 0 ∧ Z.land (b2z (z2b (Z.lor 0x80 n))) 0x7f = n.
Proof. intros Hn. assert (n = 1 ∨ n = 2 ∨ n = 3 ∨ n = 4) as [-> | [-> | [-> | ->]]] by lia; vm_compute; done. Qed.
Lemma b2z_small z : 0 <= z < 256 → b2z (z2b z) = z.
Proof. intros Hz. by rewrite b2z_z2b, Z.mod_small. Qed.

Lemma length_bytes_ok room len acc :
  0 <= len →
  match length_bytes room len acc with
  | Ok out => ∃ pre, out = pre ++ acc ∧ (length pre <= room)%nat ∧ be_value pre = len ∧
                     match pre with b :: _ => b2z b ≠ 0 | [] => True end
  | Err _ => False
  | Panic => True
  end.
Proof.
  revert len acc. induction room as [|room IH]; intros len acc Hlen; cbn [length_bytes];
    destruct (Z.eqb_spec len 0) as [->|Hne]; try done.
  1-2: exists []; split_and!; [done|cbn; lia|done|done].
  specialize (IH (Z.shiftr len 8) (z2b len :: acc) ltac:(by apply Z.shiftr_nonneg)).
  destruct (length_bytes room (Z.shiftr len 8) (z2b len :: acc)) as [out| |]; [|done|done].
  destruct IH as (pre & -> & Hl & Hv & Hh). exists (pre ++ [z2b len]).
  rewrite Z.shiftr_div_pow2 in * by lia. change (2 ^ 8) with 256 in *.
  split_and!; [by rewrite <- app_assoc|rewrite length_app; cbn; lia| |].
  - rewrite be_value_app, Hv. change (zlen [z2b len]) with 1. cbn [be_value length]. rewrite b2z_z2b.
    change (256 ^ Z.of_nat 0) with 1. Z.to_euclidean_division_equations. lia.
  - destruct pre as [|b pre]; [|done]. cbn in *. rewrite b2z_z2b. Z.to_euclidean_division_equations. lia.
Qed.

Lemma encodeLength_ok len rest :
  0 <= len →
  match encodeLength len with
  | Ok l => readLength (l ++ rest) = Ok (len, zlen l) ∧ 1 <= zlen l
  | Err _ => False
  | Panic => True
  end.
Proof.
  intros Hlen. unfold encodeLength. destruct (Z.ltb_spec len 128) as [Hlt|Hge].
  - cbn. rewrite land_top, b2z_small by lia. by rewrite (proj2 (Z.ltb_lt len 128)) by lia.
  - pose proof (length_bytes_ok 4 len [] Hlen) as Hb. destruct (length_bytes 4 len []) as [out| |]; [|done|done].
    destruct Hb as (pre & Hout & Hl & Hv & Hh). rewrite app_nil_r in Hout. subst out. cbn [res_bind app readLength].
    destruct pre as [|b pre]; [cbn in *; lia|]. set (l := b :: pre) in *.
    assert (Hz : 1 <= zlen l <= 4) by (unfold l in *; autorewrite with zlen; unfold zlen in *; cbn in *; lia).
    destruct (low_bits (zlen l)) as [Htop Hlow]; [lia|].
    rewrite (proj2 (Z.eqb_neq _ _) Htop), Hlow. autorewrite with zlen.
    rewrite (proj2 (Z.eqb_neq (zlen l) 0)), (proj2 (Z.ltb_ge 4 (zlen l))), (proj2 (Z.ltb_ge (1 + (zlen l + zlen rest)) _))
      by (pose proof (zlen_nonneg rest); lia).
    unfold l at 1. cbn [app orb]. rewrite (proj2 (Z.eqb_neq (b2z b) 0)) by done. change (b :: pre) with l.
    replace (take (Z.to_nat (zlen l)) (l ++ rest)) with l by (unfold zlen; by rewrite Nat2Z.id, take_app_length).
    rewrite Hv, (proj2 (Z.ltb_ge len 128)) by lia.
    split; [by rewrite (Z.add_comm (zlen l))|lia].
Qed.

(** The element is read back, whatever follows it. *)
Lemma encodeTLV_ok tag content :
  0 <= tag < 256 →
  match encodeTLV tag content with
  | Ok d => (∀ rest, readTLV (d ++ rest) = Ok (tag, content, zlen d)) ∧ 2 <= zlen d
  | Err _ => False
  | Panic => True
  end.
Proof.
  intros Htag. unfold encodeTLV. pose proof (λ rest, encodeLength_ok (zlen content) rest (zlen_nonneg content)) as Hl.
  destruct (encodeLength (zlen content)) as [l| |]; [|by apply (Hl [])|done]. cbn [res_bind].
  pose proof (proj2 (Hl [])). split; [|autorewrite with zlen; pose proof (zlen_nonneg content); lia].
  intros rest. unfold readTLV. cbn [app]. autorewrite with zlen. rewrite b2z_small by done.
  pose proof (zlen_nonneg content). pose proof (zlen_nonneg rest).
  rewrite (proj2 (Z.ltb_ge _ 2)) by lia. rewrite <- app_assoc, (proj1 (Hl _)). cbn [res_bind].
  autorewrite with zlen. rewrite (proj2 (Z.ltb_ge _ _)) by lia. unfold zlen. rewrite !Nat2Z.id.
  rewrite drop_app_length, take_app_length. do 2 f_equal. lia.
Qed.

(** ** Integers read back *)

(** The two's-complement value of some bytes. *)
Definition signed_value (l : bytes) : Z :=
  match l with
  | [] => 0
  | a :: _ => if 128 <=? b2z a then be_value l - 256 ^ zlen l else be_value l
  end.
Lemma signed_value_drop a b l :
  ((b2z a =? 0) && (b2z b <? 128)) || ((b2z a =? 0xff) && (128 <=? b2z b)) = true →
  signed_value (a :: b :: l) = signed_value (b :: l).
Proof.
  intros H. unfold signed_value. cbn [be_value length]. rewrite !zlen_cons. unfold zlen. rewrite Nat2Z.inj_succ.
  rewrite Z.add_assoc, !Z.pow_add_r, !Z.pow_succ_r by lia. set (p := 256 ^ Z.of_nat (length l)).
  change (256 ^ 1) with 256. change (256 ^ (1 + 1)) with 65536.
  apply orb_prop in H as [[Ha%Z.eqb_eq Hb]%andb_prop|[Ha%Z.eqb_eq Hb]%andb_prop]; rewrite Ha.
  - rewrite (proj2 (Z.leb_gt 128 0)), (proj2 (Z.leb_gt 128 (b2z b))) by lia. lia.
  - rewrite (proj2 (Z.leb_le 128 255)), Hb by lia. lia.
Qed.
Lemma strip_signed_step a b l :
  strip_signed (a :: b :: l) = if non_minimal (a :: b :: l) then strip_signed (b :: l) else a :: b :: l.
Proof. done. Qed.
Lemma strip_signed_ok l :
  l ≠ [] → signed_value (strip_signed l) = signed_value l ∧ non_minimal (strip_signed l) = false ∧
           1 <= zlen (strip_signed l) <= zlen l.
Proof.
  induction l as [|a l IH]; [done|]. intros _. destruct l as [|b l]; [done|]. rewrite strip_signed_step.
  destruct (non_minimal (a :: b :: l)) eqn:E.
  - destruct IH as (Hv & Hm & Hl); [done|]. rewrite (signed_value_drop a b l E), (zlen_cons a). split_and!; [done|done|lia|lia].
  - rewrite !zlen_cons. pose proof (zlen_nonneg l). split_and!; [done|done|lia|lia].
Qed.

Lemma signed_value_bytes n z : - 2 ^ (8 * Z.of_nat n - 1) <= z < 2 ^ (8 * Z.of_nat n - 1) → (0 < n)%nat →
  signed_value (be_bytes n (z mod 256 ^ Z.of_nat n)) = z.
Proof.
  intros Hz Hn. destruct n as [|n]; [lia|]. set (u := z mod 256 ^ Z.of_nat (S n)).
  assert (H256 : 256 ^ Z.of_nat (S n) = 2 * 2 ^ (8 * Z.of_nat (S n) - 1)).
  { rewrite <- Z.pow_succ_r by lia. change 256 with (2 ^ 8). rewrite <- Z.pow_mul_r by lia. f_equal. lia. }
  set (p := 2 ^ (8 * Z.of_nat (S n) - 1)) in *.
  assert (Hp : 0 < p) by (apply Z.pow_pos_nonneg; lia).
  assert (Hu : u = if z <? 0 then z + 2 * p else z).
  { unfold u. rewrite H256. destruct (Z.ltb_spec z 0); [|rewrite Z.mod_small; lia].
    rewrite <- (Z.mod_add z 1), Z.mod_small; lia. }
  assert (Hv : be_value (be_bytes (S n) u) = u).
  { rewrite be_value_bytes, H256. rewrite Z.mod_small; [done|]. rewrite Hu. destruct (z <? 0) eqn:E; lia. }
  unfold signed_value. destruct (be_bytes (S n) u) as [|a l] eqn:Hl; [done|].
  assert (Hlen : length l = n) by (pose proof (length_be_bytes (S n) u) as Hb; rewrite Hl in Hb; cbn in Hb; lia).
  rewrite Hv. replace (256 ^ zlen (a :: l)) with (2 * p) by (rewrite <- H256, zlen_cons; unfold zlen; f_equal; lia).
  cbn [be_value] in Hv. rewrite Hlen in Hv. pose proof (be_value_range l) as Hr. unfold zlen in Hr. rewrite Hlen in Hr.
  assert (Hpn : p = 128 * 256 ^ Z.of_nat n).
  { rewrite Nat2Z.inj_succ, Z.pow_succ_r in H256 by lia. lia. }
  set (q := 256 ^ Z.of_nat n) in *. pose proof (b2z_range a).
  destruct (Z.leb_spec 128 (b2z a)); destruct (Z.ltb_spec z 0); rewrite Hu in *; nia.
Qed.
Lemma signed_value_decode l :
  1 <= zlen l <= 8 → non_minimal l = false → decodeInteger l = Ok (signed_value l).
Proof.
  intros Hl Hm. unfold decodeInteger. rewrite Hm.
  rewrite (proj2 (Z.eqb_neq (zlen l) 0)), (proj2 (Z.ltb_ge 8 (zlen l))) by lia. cbn [orb]. f_equal.
  destruct l as [|a l]; [rewrite zlen_nil in Hl; lia|]. unfold signed_value. pose proof (be_value_range (a :: l)) as Hr.
  assert (Hq : be_value (a :: l) = b2z a * 256 ^ zlen l + be_value l) by done.
  pose proof (be_value_range l) as Hrl. pose proof (b2z_range a). rewrite zlen_cons in *.
  unfold i64, signed. change (2 ^ 64) with (256 ^ 8). change (2 ^ (64 - 1)) with (128 * 256 ^ 7).
  destruct (Z.ltb_spec (1 + zlen l) 8) as [Hlt|Hge].
  - assert (Hp : 256 ^ (1 + zlen l) <= 256 ^ 7) by (apply Z.pow_le_mono_r; lia).
    rewrite Z.mod_small by lia. rewrite (proj2 (Z.ltb_lt _ _)) by lia. rewrite andb_true_r. done.
  - replace (zlen l) with 7 in * by lia. change (1 + 7) with 8 in *. rewrite Z.mod_small by lia.
    rewrite andb_false_r. destruct (Z.leb_spec 128 (b2z a)); [rewrite (proj2 (Z.ltb_ge _ _)) by nia|rewrite (proj2 (Z.ltb_lt _ _)) by nia]; done.
Qed.
Lemma integer_roundtrip z : - 2 ^ 63 <= z < 2 ^ 63 → decodeInteger (encodeInteger z) = Ok z.
Proof.
  intros Hz. unfold encodeInteger. destruct (strip_signed_ok (be_bytes 8 (u64 z))) as (Hv & Hm & Hl); [done|].
  rewrite zlen_be_bytes in Hl. rewrite signed_value_decode by (done || lia). rewrite Hv.
  f_equal. apply (signed_value_bytes 8 z); [done|lia].
Qed.

Lemma strip_zeros_step a b l :
  strip_zeros (a :: b :: l) = if b2z a =? 0 then strip_zeros (b :: l) else a :: b :: l.
Proof. done. Qed.
Lemma strip_zeros_ok l :
  l ≠ [] → be_value (strip_zeros l) = be_value l ∧ 1 <= zlen (strip_zeros l) <= zlen l ∧
  match strip_zeros l with a :: _ :: _ => b2z a ≠ 0 | _ => True end.
Proof.
  induction l as [|a l IH]; [done|]. intros _. destruct l as [|b l]; [done|]. rewrite strip_zeros_step.
  destruct (Z.eqb_spec (b2z a) 0) as [E|E].
  - destruct IH as (Hv & Hl & Hz); [done|]. rewrite Hv, (zlen_cons a). split_and!; [|lia|lia|done].
    cbn [be_value]. rewrite E. lia.
  - rewrite !zlen_cons. pose proof (zlen_nonneg l). split_and!; [done|lia|lia|done].
Qed.
(** A number of 32 bits has room for the sign byte, and is read back. *)
Lemma unsigned_roundtrip z :
  0 <= z < 2 ^ 32 → ∃ l, encodeUnsignedInteger z = Ok l ∧ decodeUnsignedInteger l = Ok z.
Proof.
  intros Hz. unfold encodeUnsignedInteger.
  destruct (strip_zeros_ok (be_bytes 8 z)) as (Hv & Hl & Hh); [done|].
  rewrite be_value_bytes, Z.mod_small in Hv by (change (256 ^ Z.of_nat 8) with (2 ^ 64); lia).
  rewrite zlen_be_bytes in Hl. set (l := strip_zeros (be_bytes 8 z)) in *. clearbody l.
  destruct l as [|a l]; [rewrite zlen_nil in Hl; lia|]. pose proof (b2z_range a). pose proof (be_value_range l).
  assert (Hval : b2z a * 256 ^ zlen l + be_value l = z) by done.
  assert (Hlen : b2z a ≠ 0 → zlen l < 4).
  { intros Ha. apply Z.nle_gt. intros H4. assert (256 ^ 4 <= 256 ^ zlen l) by (apply Z.pow_le_mono_r; lia).
    change (256 ^ 4) with (2 ^ 32) in *. nia. }
  assert (Hlen' : zlen l < 4).
  { destruct l as [|b l]; [rewrite zlen_nil; lia|]. apply Hlen. done. }
  rewrite zlen_cons in *.
  destruct (Z.leb_spec 128 (b2z a)) as [Htop|Htop].
  - rewrite (proj2 (Nat.eqb_neq _ 8)) by (unfold zlen in *; cbn; lia). eexists. split; [done|].
    unfold decodeUnsignedInteger. rewrite !zlen_cons. change (b2z (z2b 0)) with 0.
    rewrite (proj2 (Z.ltb_ge 9 _)), (proj2 (Z.ltb_ge (b2z a) 128)), (proj2 (Z.leb_gt 128 0)), (proj2 (Z.ltb_ge 5 _)) by lia.
    rewrite andb_false_r. cbn [andb orb negb Z.eqb]. rewrite andb_false_r. f_equal.
    change (be_value (z2b 0 :: a :: l)) with (0 * 256 ^ Z.of_nat (length (a :: l)) + be_value (a :: l)). lia.
  - eexists. split; [done|]. unfold decodeUnsignedInteger. rewrite zlen_cons.
    rewrite (proj2 (Z.ltb_ge 9 _)), (proj2 (Z.leb_gt 128 (b2z a))), (proj2 (Z.ltb_ge 5 _)), (proj2 (Z.eqb_neq (1 + zlen l) 5)) by lia.
    cbn [andb orb]. replace (match l with [] => false | b :: _ => (b2z a =? 0) && (b2z b <? 128) end) with false; [by rewrite Hv|].
    destruct l as [|b l]; [done|]. by rewrite (proj2 (Z.eqb_neq (b2z a) 0)).
Qed.

(** ** Round trip *)

Section gtype_induction.
Context (P : gtype → Prop).
Context (Hbase : ∀ t, match t with TSlice _ | TStruct _ _ | TPtr _ => False | _ => True end → P t).
Context (Hslice : ∀ t, P t → P (TSlice t)) (Hptr : ∀ t, P t → P (TPtr t)).
Context (Hstruct : ∀ a fs, Forall (λ f : gfield, P f.2) fs → P (TStruct a fs)).
Fixpoint gtype_induction (t : gtype) : P t :=
  match t with
  | TSlice t => Hslice t (gtype_induction t)
  | TPtr t => Hptr t (gtype_induction t)
  | TStruct a fs =>
      Hstruct a fs ((fix go fs : Forall (λ f : gfield, P f.2) fs :=
        match fs with [] => List.Forall_nil _ | (n, t) :: fs => List.Forall_cons _ (n, t) fs (gtype_induction t) (go fs) end) fs)
  | t => Hbase t I
  end.
End gtype_induction.

(** The types of the protocol: every field has an explicit tag, in increasing
    order, and a struct has an application tag or none.  [Some last] is the
    highest tag so far. *)
Definition plain (tag : fieldTag) : bool := negb (ft_choice tag) && negb (ft_implicit tag) && negb (ft_bare tag).
Definition signed_kind (t : gtype) : bool :=
  match t with TUint bits | TPtr (TUint bits) => bits =? 32 | _ => false end.
Fixpoint well_formed (t : gtype) : bool :=
  match t with
  | TSlice t | TPtr t => well_formed t
  | TInt bits => (1 <=? bits) && (bits <=? 64)
  | TUint bits => (1 <=? bits) && (bits <=? 64)
  | TStruct a fs =>
      match a with Some n => (0 <=? n) && (n <=? 30) | None => true end &&
      (fix go (last : Z) (fs : list gfield) : bool :=
         match fs with
         | [] => true
         | (_, raw, t) :: fs =>
             match parseFieldTag raw with
             | Ok (Some tag) => plain tag && (last <? ft_number tag) && (ft_number tag <=? 30) &&
                                (negb (ft_signed tag) || signed_kind t) && well_formed t && go (ft_number tag) fs
             | _ => false
             end
         end) (-1) fs
  | _ => true
  end.

(** A time the calendar format can hold. *)
Definition time_ok (t : KerberosTime) : bool :=
  Present t && (Microseconds t =? 0) && (Time t mod nanos =? 0) && (0 <=? year_of (Time t)) && (year_of (Time t) <? 10000).

(** Values that the codec keeps: an absent field only where it is optional; no
    slice of bytes that is empty and not nil, no slice that is nil and present;
    numbers in the range of their type, unsigned ones below 2^32. *)
Definition absent (t : gtype) (v : gval) : bool :=
  match t, v with
  | TPtr _, VPtr None | TSlice _, VSlice None | (TOID | TRaw | TBytes), VBytes None => true
  | _, _ => false
  end.
Fixpoint typed (t : gtype) (v : gval) : bool :=
  match t, v with
  | (TTime | TGoTime), VTime time => time_ok time
  | TFlags, VNum z => (0 <=? z) && (z <? 2 ^ 32)
  | (TUTF8 | TString), VStr _ => true
  | TOID, VBytes (Some s) => validObjectIdentifierContent s
  | TRaw, VBytes (Some s) =>
      match readTLV s with Ok (_, _, end_) => end_ =? zlen s | _ => false end
  | TBool, VBool _ => true
  | TInt bits, VNum z => fits_int bits z
  | TUint bits, VNum z => (0 <=? z) && (z <? 2 ^ bits) && (z <? 2 ^ 32)
  | TBytes, VBytes s => match s with Some [] => false | _ => true end
  | TSlice t, VSlice (Some l) => forallb (typed t) l
  | TPtr t, VPtr (Some v) => typed t v
  | TStruct _ fs, VStruct vals =>
      (fix go (fs : list gfield) (vals : list gval) : bool :=
         match fs, vals with
         | [], [] => true
         | (_, raw, t) :: fs, v :: vals =>
             (match parseFieldTag raw with Ok (Some tag) => ft_optional tag && absent t v | _ => false end || typed t v) &&
             go fs vals
         | _, _ => false
         end) fs vals
  | _, _ => false
  end.

(** The depth the decoder needs. *)
Fixpoint depth (t : gtype) : nat :=
  match t with
  | TSlice t | TPtr t => S (depth t)
  | TStruct _ fs => 3 + fold_right (λ f n, Nat.max (depth f.2) n) 0%nat (fs : list gfield)
  | _ => 1
  end.

(** What is proved of a type: its values are encoded as one element, which is
    read back, and nothing fails but the length of four gigabytes. *)
Definition keeps (t : gtype) : Prop :=
  ∀ v left left', typed t v = true → (depth t <= left)%nat → (depth t <= left')%nat →
  match encodeValue left t v with
  | Ok d => decodeValue left' d t = Ok v ∧ 2 <= zlen d ∧
            ∃ tag content, ∀ rest, readTLV (d ++ rest) = Ok (tag, content, zlen d)
  | Err _ => False
  | Panic => True
  end.

Lemma tag_ranges n : 0 <= n <= 30 → ctx_tag n = 0xa0 + n ∧ app_tag n = 0x60 + n.
Proof.
  intros Hn. assert (H : forallb (λ n, (ctx_tag n =? 0xa0 + n) && (app_tag n =? 0x60 + n)) (map Z.of_nat (seq 0 31)) = true)
    by (vm_compute; reflexivity).
  rewrite forallb_forall in H. specialize (H n). rewrite andb_true_iff, !Z.eqb_eq in H. apply H.
  apply in_map_iff. exists (Z.to_nat n). split; [lia|]. apply in_seq. lia.
Qed.

(** One element, and what its parser says. *)
Lemma decode_element left d t tag content :
  readTLV d = Ok (tag, content, zlen d) →
  decodeValue (S left) d t =
    let bare := decodeBare (decodeValue left) (match left with O => λ _ _, depth_error | S deeper => decodeValue deeper end) in
    match t with
    | TPtr elem => res_bind (decodeValue left d elem) (λ v, Ok (VPtr (Some v)))
    | TRaw => Ok (VBytes (copied d))
    | TStruct (Some application) _ =>
        if negb (tag =? app_tag application) then Err "unexpected application tag" else
        res_bind (readTLV content) (λ '(innerTag, innerContent, innerEnd),
        if negb (innerTag =? tagSequence) || negb (innerEnd =? zlen content)
        then Err "application value is not a complete SEQUENCE" else
        match left with
        | O => depth_error
        | S below =>
            decodeBare (decodeValue below)
              (match below with O => λ _ _, depth_error | S deeper => decodeValue deeper end) innerTag innerContent t
        end)
    | TStruct None fields =>
        match choiceFieldForTag fields tag with
        | Some (_, i) =>
            match fields !! i with
            | Some f => res_bind (decodeValue left content f.2) (λ v,
                        Ok (VStruct (<[i := v]> (map (λ f : gfield, zero f.2) fields))))
            | None => Panic
            end
        | None => bare tag content t
        end
    | _ => bare tag content t
    end.
Proof. intros Hr. cbn [decodeValue]. rewrite Hr. cbn [res_bind]. by rewrite Z.eqb_refl. Qed.

(** An element with a primitive tag. *)
Lemma element_keeps tag content (k : bytes → Prop) :
  0 <= tag < 256 →
  (∀ d, readTLV d = Ok (tag, content, zlen d) → k d) →
  match encodeTLV tag content with
  | Ok d => k d ∧ 2 <= zlen d ∧ ∃ tag content, ∀ rest, readTLV (d ++ rest) = Ok (tag, content, zlen d)
  | Err _ => False
  | Panic => True
  end.
Proof.
  intros Ht Hk. pose proof (encodeTLV_ok tag content Ht) as He. destruct (encodeTLV tag content) as [d| |]; [|done|done].
  destruct He as [Hr Hl]. split_and!; [|done|by exists tag, content].
  apply Hk. specialize (Hr []). by rewrite app_nil_r in Hr.
Qed.

Lemma time_roundtrip t : time_ok t = true →
  zlen (EncodeGeneralizedTime t) ≠ 0 ∧ ParseKerberosTime (EncodeGeneralizedTime t) = Ok t ∧
  EncodeGeneralizedTime t = format_time (Time t).
Proof.
  unfold time_ok. rewrite !andb_true_iff, Z.leb_le, Z.ltb_lt, !Z.eqb_eq. intros ((((Hp & Hmu) & Hn) & Hy0) & Hy1).
  destruct (format_time_digits (Time t)) as (ds & Hf & Hl & Hd & Hparse); [done|].
  unfold EncodeGeneralizedTime. rewrite Hp. cbn [negb].
  assert (Hlen : zlen (format_time (Time t)) = 15) by (rewrite Hf; autorewrite with zlen; unfold zlen; rewrite Hl; done).
  split_and!; [lia| |done]. unfold ParseKerberosTime. rewrite Hlen. cbn [Z.eqb Pos.eqb negb].
  rewrite Hf in Hparse |- *. replace (has_suffix (ds ++ str "Z") (str "Z")) with true by (symmetry; apply has_suffix_spec; eauto).
  change (str "Z") with [Byte.x5a] in *. rewrite removelast_last, Hd, Hparse. cbn. rewrite Hn, Z.sub_0_r.
  destruct t as [tm us pr]. cbn [Present Microseconds Time] in *. by rewrite Hp, Hmu.
Qed.

Lemma copied_default (s : option bytes) : match s with Some [] => false | _ => true end = true → copied (default [] s) = s.
Proof. by destruct s as [[|]|]. Qed.

Lemma flags_element z rest :
  readTLV (EncodeFlags z ++ rest) = Ok (tagBitString, Byte.x00 :: be_bytes 4 (flagsToBytes z), zlen (EncodeFlags z)).
Proof.
  assert (Hl : zlen (EncodeFlags z) = 7) by (unfold EncodeFlags; autorewrite with zlen; reflexivity).
  rewrite Hl. unfold EncodeFlags. unfold readTLV. autorewrite with zlen. pose proof (zlen_nonneg rest).
  rewrite (proj2 (Z.ltb_ge _ 2)) by lia. cbn [app readLength]. change (Z.land (b2z Byte.x05) 128 =? 0) with true. cbn [res_bind].
  change (b2z Byte.x05) with 5. autorewrite with zlen. rewrite (proj2 (Z.ltb_ge _ 5)) by lia. f_equal.
Qed.

(** What is read does not depend on what follows. *)
Lemma readLength_app l rest x : readLength l = Ok x → readLength (l ++ rest) = Ok x ∧ 1 <= x.2 <= zlen l.
Proof.
  destruct l as [|first l]; [done|]. cbn [readLength app]. pose proof (zlen_nonneg l). pose proof (zlen_nonneg rest).
  destruct (Z.land (b2z first) 128 =? 0); [intros [= <-]; cbn; rewrite zlen_cons; split; [done|lia]|].
  set (count := Z.land (b2z first) 127). assert (0 <= count) by (apply Z.land_nonneg; right; lia).
  destruct (Z.eqb_spec count 0); [done|].
  destruct (_ || _) eqn:E; [done|]. apply orb_false_elim in E as [[E1 E2]%orb_false_elim E3].
  destruct (be_value _ <? 128) eqn:E4; [done|]. intros [= <-]. rewrite zlen_cons in *.
  destruct l as [|b l]; [rewrite zlen_nil in *; lia|].
  change (first :: (b :: l) ++ rest) with ((first :: b :: l) ++ rest). rewrite zlen_app, !zlen_cons in *. cbn [app] in *.
  rewrite E1, E3, (proj2 (Z.ltb_ge _ _)) by lia. cbn [orb].
  change (b :: l ++ rest) with ((b :: l) ++ rest). rewrite take_app_le, E4 by (unfold zlen in *; cbn in *; lia).
  cbn [snd]. split; [done|lia].
Qed.
Lemma readTLV_app d rest tag content end_ :
  readTLV d = Ok (tag, content, end_) → readTLV (d ++ rest) = Ok (tag, content, end_) ∧ 2 <= zlen d.
Proof.
  unfold readTLV. destruct (Z.ltb_spec (zlen d) 2); [done|]. destruct d as [|b d]; [done|]. intros Hr.
  destruct (readLength d) as [[len header]| |] eqn:Hl; [|done|done]. cbn [res_bind] in Hr.
  destruct (readLength_app d rest _ Hl) as [Hl' Hh]. cbn [snd] in Hh. cbn [app]. rewrite !zlen_cons, zlen_app in *.
  pose proof (zlen_nonneg rest). rewrite (proj2 (Z.ltb_ge _ 2)), Hl' by lia. cbn [res_bind]. split; [|lia].
  destruct (Z.ltb_spec (zlen d - header) len); [done|]. rewrite (proj2 (Z.ltb_ge _ len)) by lia.
  rewrite <- Hr. rewrite drop_app_le, take_app_le by (rewrite ?length_drop; unfold zlen in *; lia). done.
Qed.

(** The types without parts. *)
Lemma base_keeps t :
  match t with TSlice _ | TStruct _ _ | TPtr _ => False | _ => True end → well_formed t = true → keeps t.
Proof.
  intros Ht Hwf v left left' Hv Hd Hd'. assert (Hdt : depth t = 1%nat) by (by destruct t).
  rewrite Hdt in Hd, Hd'. destruct left as [|left], left' as [|left']; [lia..|]. clear Hd Hd' Hdt.
  destruct t; try contradiction Ht; destruct v; try discriminate Hv;
    cbn [encodeValue encodeBare typed well_formed] in Hv, Hwf |- *.
  - apply time_roundtrip in Hv as (H0 & Hp & _). apply element_keeps; [done|]. intros d Hr.
    rewrite (decode_element _ _ _ _ _ Hr). cbn [decodeBare]. rewrite (proj2 (Z.eqb_neq _ 0) H0), Hp. done.
  - apply time_roundtrip in Hv as (H0 & Hp & Hf). rewrite <- Hf. apply element_keeps; [done|]. intros d Hr.
    rewrite (decode_element _ _ _ _ _ Hr). cbn [decodeBare]. rewrite (proj2 (Z.eqb_neq _ 0) H0), Hp. done.
  - pose proof (λ rest, flags_element z rest) as Hr. split_and!; [|done|by eexists _, _].
    specialize (Hr []). rewrite app_nil_r in Hr. rewrite (decode_element _ _ _ _ _ Hr). cbn [decodeBare].
    change (DecodeFlags _) with (DecodeFlags (EncodeFlags z)). rewrite flags_roundtrip by lia. done.
  - apply element_keeps; [done|]. intros d Hr. by rewrite (decode_element _ _ _ _ _ Hr).
  - destruct s as [s|]; [|done]. change (default [] (Some s)) with s. rewrite Hv. apply element_keeps; [done|]. intros d Hr.
    rewrite (decode_element _ _ _ _ _ Hr). cbn [decodeBare]. rewrite Hv. cbn. by destruct s.
  - destruct s as [s|]; [|done]. change (default [] (Some s)) with s. destruct (readTLV s) as [[[tag content] end_]| |] eqn:Hr; [|done|done].
    rewrite Hv. apply Z.eqb_eq in Hv. subst end_. rewrite (decode_element _ _ _ _ _ Hr).
    destruct (readTLV_app s [] _ _ _ Hr) as [_ Hs]. split_and!; [|done|exists tag, content; intros; by apply readTLV_app].
    by destruct s.
  - apply element_keeps; [done|]. intros d Hr. rewrite (decode_element _ _ _ _ _ Hr). by destruct b.
  - apply element_keeps; [done|]. intros d Hr. rewrite (decode_element _ _ _ _ _ Hr). cbn [decodeBare].
    change (tagInteger =? tagInteger) with true. cbn [negb]. rewrite integer_roundtrip.
    + cbn [res_bind]. by rewrite Hv.
    + unfold fits_int in Hv. apply andb_prop in Hv as [H1%Z.leb_le H2%Z.ltb_lt].
      assert (2 ^ (bits - 1) <= 2 ^ 63) by (apply Z.pow_le_mono_r; lia). lia.
  - destruct (unsigned_roundtrip z) as (l & -> & Hu); [lia|]. cbn [res_bind].
    apply element_keeps; [done|]. intros d Hr. rewrite (decode_element _ _ _ _ _ Hr). cbn [decodeBare].
    change (tagInteger =? tagInteger) with true. cbn [negb]. rewrite Hu. cbn [res_bind]. by rewrite (proj2 (Z.ltb_lt _ _)) by lia.
  - apply element_keeps; [done|]. intros d Hr. by rewrite (decode_element _ _ _ _ _ Hr).
  - apply element_keeps; [done|]. intros d Hr. rewrite (decode_element _ _ _ _ _ Hr). cbn [decodeBare].
    change (tagOctetString =? tagOctetString) with true. cbn [negb]. by rewrite copied_default.
Qed.

(** ** Pointers and slices *)

Lemma ptr_keeps t : keeps t → keeps (TPtr t).
Proof.
  intros IH v left left' Hv Hd Hd'. cbn [depth] in *. destruct left as [|left], left' as [|left']; [lia..|].
  destruct v as [| | | | | | |[v|]]; try discriminate Hv. cbn [typed encodeValue] in *.
  specialize (IH v left left' Hv ltac:(lia) ltac:(lia)). destruct (encodeValue left t v) as [d| |]; [|done|done].
  destruct IH as (Hdec & Hl & tag & content & Hr). split_and!; [|done|by exists tag, content].
  specialize (Hr []). rewrite app_nil_r in Hr. rewrite (decode_element _ _ _ _ _ Hr). cbn zeta. by rewrite Hdec.
Qed.

Lemma items_keep t left left' l :
  keeps t → forallb (typed t) l = true → (depth t <= left)%nat → (depth t <= left')%nat →
  match encode_items (encodeValue left t) l with
  | Ok content => ∀ n, (length content <= n)%nat → decode_items n (λ item, decodeValue left' item t) content = Ok l
  | Err _ => False
  | Panic => True
  end.
Proof.
  intros IH Hl Hd Hd'. induction l as [|v l IHl]; cbn [encode_items]; [by intros []|].
  cbn [forallb] in Hl. apply andb_prop in Hl as [Hv Hl]. specialize (IH v left left' Hv Hd Hd').
  destruct (encodeValue left t v) as [d| |]; [|done|done]. destruct IH as (Hdec & Hz & tag & content & Hr). cbn [res_bind].
  specialize (IHl Hl). destruct (encode_items (encodeValue left t) l) as [rest| |]; [|done|done]. cbn [res_bind].
  intros n Hn. destruct d as [|b d]; [rewrite zlen_nil in Hz; lia|]. rewrite length_app in Hn. cbn [length] in Hn.
  destruct n as [|n]; [lia|]. cbn [app decode_items]. change (b :: d ++ rest) with ((b :: d) ++ rest).
  rewrite Hr. cbn [res_bind]. unfold zlen. rewrite Nat2Z.id, take_app_length, drop_app_length, Hdec. cbn [res_bind].
  rewrite IHl by lia. done.
Qed.
Lemma slice_keeps t : keeps t → keeps (TSlice t).
Proof.
  intros IH v left left' Hv Hd Hd'. cbn [depth] in *. destruct left as [|left], left' as [|left']; [lia..|].
  destruct v as [| | | | |[l|]| |]; try discriminate Hv. cbn [typed encodeValue encodeBare] in *.
  change (default [] (Some l)) with l. pose proof (items_keep t left left' l IH Hv ltac:(lia) ltac:(lia)) as Hi.
  destruct (encode_items (encodeValue left t) l) as [content| |]; [|done|done]. cbn [res_bind].
  apply element_keeps; [done|]. intros d Hr. rewrite (decode_element _ _ _ _ _ Hr). cbn [decodeBare].
  change (tagSequence =? tagSequence) with true. cbn [negb]. by rewrite Hi.
Qed.

(** ** Structs *)

Fixpoint wf_fields (last : Z) (fs : list gfield) : bool :=
  match fs with
  | [] => true
  | (_, raw, t) :: fs =>
      match parseFieldTag raw with
      | Ok (Some tag) => plain tag && (last <? ft_number tag) && (ft_number tag <=? 30) &&
                         (negb (ft_signed tag) || signed_kind t) && well_formed t && wf_fields (ft_number tag) fs
      | _ => false
      end
  end.
Fixpoint typed_fields (fs : list gfield) (vals : list gval) : bool :=
  match fs, vals with
  | [], [] => true
  | (_, raw, t) :: fs, v :: vals =>
      (match parseFieldTag raw with Ok (Some tag) => ft_optional tag && absent t v | _ => false end || typed t v) &&
      typed_fields fs vals
  | _, _ => false
  end.
Lemma well_formed_struct a fs :
  well_formed (TStruct a fs) = match a with Some n => (0 <=? n) && (n <=? 30) | None => true end && wf_fields (-1) fs.
Proof. reflexivity. Qed.
Lemma typed_struct a fs vals : typed (TStruct a fs) (VStruct vals) = typed_fields fs vals.
Proof. reflexivity. Qed.

Lemma absent_zero t v : absent t v = true ∨ typed t v = true → isAbsent v = true → v = zero t.
Proof. destruct t, v as [| | | |[[|]|]|[|]| |[|]]; intros [H|H] Ha; try discriminate H; try discriminate Ha; reflexivity. Qed.

Lemma absent_isAbsent t v : absent t v = true → isAbsent v = true.
Proof. by destruct t, v as [| | | |[|]|[|]| |[|]]. Qed.

(** A 32-bit number written as a signed one. *)
Lemma signed_word z : 0 <= z < 2 ^ 32 →
  match encodeTLV tagInteger (encodeInteger (i32 z)) with
  | Ok d => ∃ value, decodeIntegerFromTLV d = Ok value ∧ value mod 2 ^ 32 = z
  | Err _ => False
  | Panic => True
  end.
Proof.
  intros Hz. pose proof (encodeTLV_ok tagInteger (encodeInteger (i32 z)) ltac:(done)) as He.
  destruct (encodeTLV _ _) as [d| |]; [|done|done]. destruct He as [Hr _]. exists (i32 z).
  assert (Hi : - 2 ^ 31 <= i32 z < 2 ^ 31 ∧ i32 z mod 2 ^ 32 = z).
  { unfold i32, signed. change (32 - 1) with 31. change (2 ^ 32) with (2 * 2 ^ 31) in *. rewrite Z.mod_small by lia.
    destruct (Z.ltb_spec z (2 ^ 31)); (split; [lia|]); [by apply Z.mod_small|].
    rewrite <- (Z.mod_add _ 1) by lia. rewrite Z.mod_small; lia. }
  split; [|apply Hi]. unfold decodeIntegerFromTLV. specialize (Hr []). rewrite app_nil_r in Hr. rewrite Hr. cbn [res_bind].
  rewrite !Z.eqb_refl. cbn [orb negb]. apply integer_roundtrip. lia.
Qed.
Lemma signed_keeps t v : signed_kind t = true → typed t v = true →
  match encodeSignedInteger t v with Ok d => decodeSignedInteger d t = Ok v | Err _ => False | Panic => True end.
Proof.
  intros Hk Hv. unfold decodeSignedInteger. destruct t as [| | | | | | | |bits| | | | |t]; try discriminate Hk.
  - destruct v as [|z| | | | | |]; try discriminate Hv. apply Z.eqb_eq in Hk. cbn [typed] in Hv.
    pose proof (signed_word z ltac:(lia)) as Hw. cbn [encodeSignedInteger]. destruct (encodeTLV _ _) as [d| |]; [|done|done].
    destruct Hw as (value & -> & Hm). cbn. by rewrite Hk, Hm.
  - destruct t as [| | | | | | | |bits| | | | |]; try discriminate Hk.
    destruct v as [| | | | | | |[[|z| | | | | |]|]]; try discriminate Hv. apply Z.eqb_eq in Hk. cbn [typed] in Hv.
    pose proof (signed_word z ltac:(lia)) as Hw. cbn [encodeSignedInteger]. destruct (encodeTLV _ _) as [d| |]; [|done|done].
    destruct Hw as (value & -> & Hm). cbn. by rewrite Hk, Hm.
Qed.

(** The field is written with its tag, and read. *)
Lemma field_keeps name tag t v left left' later :
  keeps t → plain tag = true → 0 <= ft_number tag <= 30 → (negb (ft_signed tag) || signed_kind t) = true →
  typed t v = true → (depth t <= left)%nat → (depth t <= left')%nat →
  match res_bind (in_field name (if ft_signed tag then encodeSignedInteger t v else encodeValue left t v)) (wrap_field tag) with
  | Ok d => 2 <= zlen d ∧ ∃ inner,
      (∀ rest, readTLV (d ++ rest) = Ok (ctx_tag (ft_number tag), inner, zlen d)) ∧
      decode_field (decodeValue left') tag name t later (ctx_tag (ft_number tag)) inner d = Ok (Take v)
  | Err _ => False
  | Panic => True
  end.
Proof.
  intros IH Hp Hn Hs Hv Hd Hd'. unfold plain in Hp. apply andb_prop in Hp as [[Hc Hi]%andb_prop Hb]. apply negb_true_iff in Hc, Hi, Hb.
  assert (Hw : wrap_field tag = λ encoded, encodeTLV (ctx_tag (ft_number tag)) encoded) by (unfold wrap_field; by rewrite Hb, Hi).
  assert (Hf : ∀ inner d, decode_field (decodeValue left') tag name t later (ctx_tag (ft_number tag)) inner d =
     res_bind (in_field name (if ft_signed tag then decodeSignedInteger inner t else decodeValue left' inner t)) (λ v, Ok (Take v))).
  { intros inner d. unfold decode_field. rewrite Hb, Z.eqb_refl, Hi. cbn [negb]. by destruct (ft_signed tag). }
  rewrite Hw. clear Hw.
  assert (He : match (if ft_signed tag then encodeSignedInteger t v else encodeValue left t v) with
    | Ok d => (if ft_signed tag then decodeSignedInteger d t else decodeValue left' d t) = Ok v
    | Err _ => False | Panic => True end).
  { destruct (ft_signed tag); [by apply signed_keeps|]. specialize (IH v left left' Hv Hd Hd').
    destruct (encodeValue left t v); [by destruct IH|done|done]. }
  destruct (if ft_signed tag then _ else _) as [d| |]; [|done|done]. cbn [in_field wrap_err res_bind].
  destruct (tag_ranges _ Hn) as [Hctx _]. pose proof (encodeTLV_ok (ctx_tag (ft_number tag)) d ltac:(lia)) as Ht.
  destruct (encodeTLV _ d) as [e| |]; [|done|done]. destruct Ht as [Hr Hz]. split; [done|]. exists d. split; [done|].
  rewrite Hf, He. done.
Qed.

(** A field that is left out is skipped at the next tag. *)
Lemma decode_field_skip rec tag name t later n inner element :
  plain tag = true → ft_optional tag = true → 0 <= ft_number tag < n → n <= 30 →
  decode_field rec tag name t later (ctx_tag n) inner element = Ok Skip.
Proof.
  intros Hp Ho Hn Hn'. unfold plain in Hp. apply andb_prop in Hp as [[Hc Hi]%andb_prop Hb]. apply negb_true_iff in Hc, Hi, Hb.
  unfold decode_field. rewrite Hb, Hi, Ho. destruct (tag_ranges n) as [-> _]; [lia|].
  destruct (tag_ranges (ft_number tag)) as [-> _]; [lia|].
  rewrite (proj2 (Z.eqb_neq _ _)), (proj2 (Z.ltb_lt _ _)) by lia. done.
Qed.

Lemma fields_keep fs :
  Forall (λ f : gfield, well_formed f.2 = true → keeps f.2) fs → ∀ last vals m m',
  -1 <= last → wf_fields last fs = true → typed_fields fs vals = true →
  Forall (λ f : gfield, (depth f.2 <= m)%nat ∧ (depth f.2 <= m')%nat) fs →
  match encode_fields (encodeValue m) fs vals with
  | Ok content => decode_fields (decodeValue m') fs content = Ok vals ∧
      (content = [] ∨ ∃ n inner end_, last < n <= 30 ∧ readTLV content = Ok (ctx_tag n, inner, end_))
  | Err _ => False
  | Panic => True
  end.
Proof.
  induction 1 as [|[[name raw] t] fs Ht Hfs IH]; intros last vals m m' Hlast Hwf Hv Hd;
    destruct vals as [|v vals]; try discriminate Hv; [split; [done|by left]|].
  cbn [wf_fields typed_fields encode_fields decode_fields snd] in *.
  destruct (parseFieldTag raw) as [[tag|]| |]; try discriminate Hwf. cbn [res_bind].
  repeat match goal with H : _ && _ = true |- _ => apply andb_prop in H as [H ?] end.
  apply Forall_cons in Hd as [[Hd1 Hd2] Hd].
  specialize (IH (ft_number tag) vals m m' ltac:(lia) ltac:(done) ltac:(done) Hd).
  destruct (ft_optional tag && isAbsent v) eqn:Habs.
  - assert (Hz : v = zero t).
    { apply absent_zero; [|by apply andb_prop in Habs as [_ ?]]. match goal with H : _ || _ = true |- _ =>
        apply orb_prop in H as [H|H]; [apply andb_prop in H as [_ H]; by left | by right] end. }
    apply andb_prop in Habs as [Hopt _]. rewrite Hopt in *.
    destruct (encode_fields _ fs vals) as [content| |]; [|done|done]. destruct IH as [Hdec Hhead]. rewrite Hdec. cbn [res_bind].
    rewrite <- Hz. destruct Hhead as [->|(n & inner & end_ & Hn & Hr)]; [split; [done|by left]|].
    split; [|right; exists n, inner, end_; split; [lia|done]].
    destruct (readTLV_app _ [] _ _ _ Hr) as [_ Hz2]. rewrite (proj2 (Z.eqb_neq _ 0)), Hr by lia. cbn [res_bind].
    rewrite decode_field_skip by (done || lia). done.
  - assert (Htv : typed t v = true).
    { match goal with H : _ || _ = true |- _ => apply orb_prop in H as [H|H]; [|done]; apply andb_prop in H as [Ho Ha] end.
      rewrite Ho, (absent_isAbsent _ _ Ha) in Habs. done. }
    pose proof (field_keeps name tag t v m m' fs ltac:(auto) ltac:(done) ltac:(lia) ltac:(done) Htv Hd1 Hd2) as Hk.
    replace (res_bind _ (λ encoded, res_bind (wrap_field tag encoded) _)) with
      (res_bind (res_bind (in_field name (if ft_signed tag then encodeSignedInteger t v else encodeValue m t v)) (wrap_field tag))
        (λ encoded, res_bind (encode_fields (encodeValue m) fs vals) (λ rest, Ok (encoded ++ rest)))) by apply res_bind_assoc.
    destruct (res_bind (in_field name _) (wrap_field tag)) as [d| |]; [|done|done]. destruct Hk as (Hz & inner & Hr & Hdec).
    cbn [res_bind]. destruct (encode_fields _ fs vals) as [rest| |]; [|done|done]. cbn [res_bind]. destruct IH as [IH _].
    rewrite (proj2 (Z.eqb_neq (zlen (d ++ rest)) 0)) by (rewrite zlen_app; pose proof (zlen_nonneg rest); lia).
    rewrite Hr. cbn [res_bind]. replace (Z.to_nat (zlen d)) with (length d) by (unfold zlen; lia).
    rewrite take_app_length, drop_app_length, Hdec. cbn [res_bind]. rewrite IH. split; [done|]. right. exists (ft_number tag), inner, (zlen d). split; [lia|done].
Qed.

Lemma plain_no_choice last fs : wf_fields last fs = true → Forall (λ f : gfield, is_choice f.1.2 = None) fs.
Proof.
  revert last. induction fs as [|[[name raw] t] fs IH]; intros last Hwf; [done|]. cbn [wf_fields] in Hwf.
  destruct (parseFieldTag raw) as [[tag|]| |] eqn:Hp; try discriminate Hwf.
  repeat match goal with H : _ && _ = true |- _ => apply andb_prop in H as [H ?] end. constructor; [|by eapply IH].
  unfold is_choice. cbn. rewrite Hp. unfold plain in Hwf. by destruct (ft_choice tag).
Qed.
Lemma omap_none {A B} (f : A → option B) (l : list A) : (∀ x, x ∈ l → f x = None) → omap f l = [].
Proof.
  induction l as [|x l IH]; intros Hf; [done|]. cbn. rewrite (Hf x) by left. apply IH. intros y Hy. apply Hf. by right.
Qed.
Lemma no_choices P fs vals : Forall (λ f : gfield, is_choice f.1.2 = None) fs → the_one (choices P fs vals) = None.
Proof.
  intros Hf. unfold choices. replace (omap _ _) with (@nil (Z * nat)); [done|]. symmetry. apply omap_none.
  intros [i [f v]] Hin. apply list_elem_of_lookup in Hin as [k Hk]. rewrite list_lookup_imap in Hk.
  destruct (zip fs vals !! k) as [p|] eqn:Hz; [|done]. cbn in Hk. injection Hk as <- ->.
  apply lookup_zip_with_Some in Hz as (f' & v' & [= -> ->] & Hf' & _).
  rewrite Forall_lookup in Hf. by rewrite (Hf _ _ Hf').
Qed.

Lemma depth_fields fs n : (fold_right (λ f n, Nat.max (depth f.2) n) 0 fs <= n)%nat → Forall (λ f : gfield, (depth f.2 <= n)%nat) fs.
Proof. induction fs as [|f fs IH]; cbn; intros Hn; constructor; [lia|apply IH; lia]. Qed.

Lemma encode_application b n fs v :
  encodeValue (S (S b)) (TStruct (Some n) fs) v =
  res_bind (encodeBare (encodeValue b) (TStruct (Some n) fs) v) (λ inner, encodeTLV (app_tag n) inner).
Proof. reflexivity. Qed.
Lemma encode_struct b fs vals :
  choiceField fs vals = None →
  encodeValue (S b) (TStruct None fs) (VStruct vals) = encodeBare (encodeValue b) (TStruct None fs) (VStruct vals).
Proof. intros Hc. cbn [encodeValue]. by rewrite Hc. Qed.
Lemma struct_keeps a fs :
  Forall (λ f : gfield, well_formed f.2 = true → keeps f.2) fs → well_formed (TStruct a fs) = true → keeps (TStruct a fs).
Proof.
  intros IH Hwf v m m' Hv Hd Hd'. rewrite well_formed_struct in Hwf. apply andb_prop in Hwf as [Ha Hwf].
  destruct v as [| | | | | |vals|]; try discriminate Hv. rewrite typed_struct in Hv.
  cbn [depth] in Hd, Hd'. destruct m as [|[|[|m]]], m' as [|[|[|m']]]; [lia..|].
  assert (Hfk : ∀ k k', (m <= k)%nat → (m' <= k')%nat →
    match encode_fields (encodeValue k) fs vals with
    | Ok content => decode_fields (decodeValue k') fs content = Ok vals | Err _ => False | Panic => True end).
  { intros k k' Hk Hk'. pose proof (fields_keep fs IH (-1) vals k k' ltac:(lia) Hwf Hv) as Hf.
    assert (Hdep : Forall (λ f : gfield, (depth f.2 <= k)%nat ∧ (depth f.2 <= k')%nat) fs)
      by (apply Forall_and; split; apply depth_fields; lia).
    specialize (Hf Hdep). destruct (encode_fields (encodeValue k) fs vals) as [content| |]; [apply Hf|done|done]. }
  destruct a as [n|].
  - rewrite encode_application. cbn [encodeBare]. specialize (Hfk (S m) m' ltac:(lia) ltac:(lia)).
    destruct (encode_fields (encodeValue (S m)) fs vals) as [content| |]; [|done|done]. cbn [res_bind].
    pose proof (encodeTLV_ok tagSequence content ltac:(done)) as Hs. destruct (encodeTLV tagSequence content) as [inner| |]; [|done|done].
    destruct Hs as [Hs _]. specialize (Hs []). rewrite app_nil_r in Hs. cbn [res_bind].
    destruct (tag_ranges n) as [_ Htag]; [lia|]. apply element_keeps; [lia|]. intros d Hr.
    rewrite (decode_element _ _ _ _ _ Hr), Z.eqb_refl, Hs. cbn [negb res_bind]. rewrite !Z.eqb_refl. cbn [negb orb decodeBare].
    change (tagSequence =? tagSequence) with true. cbn [negb]. by rewrite Hfk.
  - pose proof (plain_no_choice _ _ Hwf) as Hnc. specialize (Hfk (S (S m)) (S m') ltac:(lia) ltac:(lia)).
    rewrite encode_struct by (by apply no_choices). cbn [encodeBare].
    destruct (encode_fields (encodeValue (S (S m))) fs vals) as [content| |]; [|done|done]. cbn [res_bind].
    apply element_keeps; [done|]. intros d Hr. rewrite (decode_element _ _ _ _ _ Hr). unfold choiceFieldForTag.
    rewrite no_choices by done. cbn [decodeBare]. change (tagSequence =? tagSequence) with true. cbn [negb]. by rewrite Hfk.
Qed.

Lemma all_keep t : well_formed t = true → keeps t.
Proof.
  induction t using gtype_induction; intros Hwf; [by apply base_keeps|by apply slice_keeps, IHt|by apply ptr_keeps, IHt|].
  by apply struct_keeps.
Qed.

Lemma codec_keeps t v :
  well_formed t = true → typed t v = true → (depth t <= S maxDepth)%nat →
  match asn1_Marshal t v with
  | Ok d => asn1_Unmarshal t d = Ok v
  | Err _ => False
  | Panic => True
  end.
Proof.
  intros Hwf Hv Hd. pose proof (all_keep t Hwf v _ _ Hv Hd Hd) as Hk. unfold asn1_Marshal, asn1_Unmarshal.
  destruct (encodeValue (S maxDepth) t v) as [d| |]; [|done|done]. destruct Hk as (Hdec & _ & tag & content & Hr).
  cbn [wrap_err]. specialize (Hr []). rewrite app_nil_r in Hr. rewrite Hr. cbn [res_bind]. rewrite Z.eqb_refl. cbn [negb].
  by rewrite Hdec.
Qed.


(** ** What is decoded has its type *)

(** A value of a type, its integers within their widths, which are positive. *)
Fixpoint shape (t : gtype) (v : gval) : bool :=
  match t, v with
  | (TTime | TGoTime), VTime _ => true
  | TFlags, VNum n => (0 <=? n) && (n <? 2 ^ 32)
  | TInt bits, VNum n => (bits <? 1) || fits_int bits n
  | TUint bits, VNum n => (bits <? 1) || ((0 <=? n) && (n <? 2 ^ bits))
  | (TUTF8 | TString), VStr _ => true
  | (TOID | TRaw | TBytes), VBytes _ => true
  | TBool, VBool _ => true
  | TSlice t, VSlice l => match l with Some l => forallb (shape t) l | None => true end
  | TPtr t, VPtr p => match p with Some v => shape t v | None => true end
  | TStruct _ fs, VStruct vals =>
      (fix go (fs : list gfield) (vals : list gval) : bool :=
         match fs, vals with
         | [], [] => true
         | (_, _, t) :: fs, v :: vals => shape t v && go fs vals
         | _, _ => false
         end) fs vals
  | _, _ => false
  end.
Fixpoint shapes (fs : list gfield) (vals : list gval) : bool :=
  match fs, vals with
  | [], [] => true
  | (_, _, t) :: fs, v :: vals => shape t v && shapes fs vals
  | _, _ => false
  end.
Lemma shape_struct a fs vals : shape (TStruct a fs) (VStruct vals) = shapes fs vals.
Proof. reflexivity. Qed.
Lemma shape_zero t : shape t (zero t) = true.
Proof.
  induction t as [t Hb| | |] using gtype_induction; try done.
  - destruct t as [| | | | | | |bits|bits| | | | |]; try done; cbn; destruct (Z.ltb_spec bits 1); try done; cbn [orb andb].
    + assert (0 < 2 ^ (bits - 1)) by (apply Z.pow_pos_nonneg; lia).
      unfold fits_int. rewrite (proj2 (Z.leb_le _ 0)), (proj2 (Z.ltb_lt 0 _)) by lia. done.
    + apply Z.ltb_lt, Z.pow_pos_nonneg; lia.
  - cbn [zero]. rewrite shape_struct.
  induction H as [|[[name raw] t] fs Ht _ IH]; [done|]. cbn [map shapes snd]. cbn in Ht. by rewrite Ht.
Qed.
Lemma shapes_zero fs : shapes fs (map (λ f : gfield, zero f.2) fs) = true.
Proof. induction fs as [|[[name raw] t] fs IH]; [done|]. cbn [map shapes snd]. by rewrite shape_zero. Qed.
Lemma shapes_insert fs vals i f v :
  shapes fs vals = true → fs !! i = Some f → shape f.2 v = true → shapes fs (<[i := v]> vals) = true.
Proof.
  revert vals i. induction fs as [|[[name raw] t] fs IH]; intros [|v0 vals] [|i] Hs Hf Hv; try discriminate; cbn in *.
  - injection Hf as <-. cbn in Hv. rewrite Hv. by apply andb_prop in Hs as [_ ->].
  - apply andb_prop in Hs as [Hv0 Hs]. apply andb_true_intro. split; [done|]. by apply IH.
Qed.

(** A decoder that gives a value of its type or an error, on inputs that have a length. *)
Definition sound (left : bytes → gtype → res gval) : Prop :=
  ∀ data t, zlen data < 2 ^ 32 →
  match left data t with Ok v => shape t v = true | Err _ => True | Panic => False end.

Lemma length_bytes_total room len acc : 0 <= len < 256 ^ Z.of_nat room → ∃ out, length_bytes room len acc = Ok out.
Proof.
  revert len acc. induction room as [|room IH]; intros len acc Hl; cbn [length_bytes].
  - destruct (Z.eqb_spec len 0); [eauto|]. change (256 ^ Z.of_nat 0) with 1 in Hl. lia.
  - destruct (Z.eqb_spec len 0); [eauto|]. apply IH. rewrite Z.shiftr_div_pow2 by lia. change (2 ^ 8) with 256.
    rewrite Nat2Z.inj_succ, Z.pow_succ_r in Hl by lia. Z.to_euclidean_division_equations. nia.
Qed.
Lemma encodeTLV_total tag content : zlen content < 2 ^ 32 → ∃ d, encodeTLV tag content = Ok d.
Proof.
  intros Hl. unfold encodeTLV, encodeLength. destruct (_ <? 128); [cbn; eauto|].
  destruct (length_bytes_total 4 (zlen content) []) as [out ->]; [split; [apply zlen_nonneg|done]|]. cbn. eauto.
Qed.
Lemma readLength_nonneg l len header : readLength l = Ok (len, header) → 0 <= len.
Proof.
  destruct l as [|first rest]; [done|]. cbn [readLength]. pose proof (b2z_range first).
  destruct (Z.land _ 128 =? 0); [intros [= <- <-]; lia|]. intros Hl. repeat case_match; simplify_eq; apply be_value_range.
Qed.
Lemma readTLV_part data tag content end_ : readTLV data = Ok (tag, content, end_) →
  zlen content < zlen data ∧ 2 <= end_ <= zlen data.
Proof.
  unfold readTLV. destruct (Z.ltb_spec (zlen data) 2); [done|]. destruct data as [|b data]; [done|].
  destruct (readLength data) as [[len header]| |] eqn:Hl; [|done|done]. cbn [res_bind].
  destruct (readLength_app _ [] _ Hl) as [_ Hh]. cbn [snd] in Hh.
  pose proof (readLength_nonneg _ _ _ Hl).
  destruct (Z.ltb_spec (zlen data - header) len); [done|]. intros [= <- <- <-]. rewrite zlen_cons in *. split; [|lia].
  unfold zlen in *. rewrite length_take, length_drop. lia.
Qed.
Lemma zlen_take_le (l : bytes) n : zlen (take n l) <= zlen l.
Proof. unfold zlen. rewrite length_take. lia. Qed.
Lemma zlen_drop_lt (l : bytes) n : 2 <= n <= zlen l → zlen (drop (Z.to_nat n) l) = zlen l - n.
Proof. unfold zlen. rewrite length_drop. lia. Qed.

Lemma readTLV_no_panic data : readTLV data ≠ Panic.
Proof.
  unfold readTLV. destruct (_ <? 2); [done|]. destruct data as [|b data]; [done|].
  assert (Hl : readLength data ≠ Panic) by (unfold readLength; repeat case_match; done).
  destruct (readLength data) as [[len header]| |]; [|done|done]. cbn [res_bind]. by destruct (_ <? len).
Qed.

Lemma decode_items_sound rec t n content :
  sound rec → (length content <= n)%nat → zlen content < 2 ^ 32 →
  match decode_items n (λ item, rec item t) content with
  | Ok l => forallb (shape t) l = true | Err _ => True | Panic => False end.
Proof.
  intros Hrec. revert content. induction n as [|n IH]; intros [|b content] Hn Hl; cbn [decode_items]; try done; [cbn in Hn; lia|].
  set (data := b :: content) in *. pose proof (readTLV_no_panic data).
  destruct (readTLV data) as [[[tag inner] end_]| |] eqn:Hr; [|done|done]. cbn [res_bind].
  destruct (readTLV_part _ _ _ _ Hr) as [_ He].
  pose proof (Hrec (take (Z.to_nat end_) data) t ltac:(pose proof (zlen_take_le data (Z.to_nat end_)); lia)) as Hi.
  destruct (rec (take (Z.to_nat end_) data) t) as [item| |]; [|done|done]. cbn [res_bind].
  pose proof (zlen_drop_lt data end_ He) as Hd.
  specialize (IH (drop (Z.to_nat end_) data) ltac:(unfold zlen in *; lia) ltac:(lia)).
  destruct (decode_items n _ _) as [items| |]; [|done|done]. cbn. by rewrite Hi.
Qed.

Lemma in_field_sound {A} name (r : res A) (P : A → Prop) :
  match r with Ok v => P v | Err _ => True | Panic => False end →
  match in_field name r with Ok v => P v | Err _ => True | Panic => False end.
Proof. by destruct r. Qed.
Lemma decodeInteger_no_panic l : decodeInteger l ≠ Panic.
Proof. unfold decodeInteger. by repeat case_match. Qed.
Lemma set_unsigned_sound value t e :
  match set_unsigned value t e with Ok v => shape t v = true | Err _ => True | Panic => False end.
Proof.
  assert (Hu : ∀ bits, (bits <? 1) || ((0 <=? value mod 2 ^ bits) && (value mod 2 ^ bits <? 2 ^ bits)) = true).
  { intros bits. destruct (Z.ltb_spec bits 1); [done|]. cbn [orb].
    pose proof (Z.mod_pos_bound value (2 ^ bits) ltac:(apply Z.pow_pos_nonneg; lia)).
    by rewrite (proj2 (Z.leb_le _ _)), (proj2 (Z.ltb_lt _ _)) by lia. }
  destruct t as [| | | | | | |bits|bits| | | | |[| | | | | | |bits|bits| | | | |]]; cbn [set_unsigned shape];
    first [done | apply (Hu 32) | apply Hu].
Qed.
Lemma set_signed_sound value t : match set_signed value t with Ok v => shape t v = true | Err _ => True | Panic => False end.
Proof.
  unfold set_signed. destruct t as [| | | | | | |bits| | | | | |[| | | | | | |bits| | | | | |]]; try done;
    destruct (fits_int bits value) eqn:Hf; cbn; rewrite ?Hf, ?orb_true_r; done.
Qed.
Lemma decodeSignedInteger_sound data t :
  match decodeSignedInteger data t with Ok v => shape t v = true | Err _ => True | Panic => False end.
Proof.
  unfold decodeSignedInteger, decodeIntegerFromTLV. pose proof (readTLV_no_panic data).
  destruct (readTLV data) as [[[tag content] end_]| |]; [|done|done]. cbn [res_bind]. destruct (_ || _); [done|].
  pose proof (decodeInteger_no_panic content). destruct (decodeInteger content); [|done|done]. apply set_unsigned_sound.
Qed.
Lemma decodeImplicitInteger_sound data t signed :
  match decodeImplicitInteger data t signed with Ok v => shape t v = true | Err _ => True | Panic => False end.
Proof.
  unfold decodeImplicitInteger. pose proof (decodeInteger_no_panic (strip_signed data)).
  destruct (decodeInteger _); [|done|done]. cbn [res_bind]. destruct signed; [apply set_unsigned_sound|apply set_signed_sound].
Qed.
(** Lengths have one form, so an element keeps its size under another tag. *)
Lemma be_value_length (a b : bytes) :
  be_value a = be_value b → match a with x :: _ => b2z x ≠ 0 | [] => False end →
  match b with x :: _ => b2z x ≠ 0 | [] => False end → zlen a = zlen b.
Proof.
  assert (Hlow : ∀ l : bytes, match l with x :: _ => b2z x ≠ 0 | [] => False end → 256 ^ (zlen l - 1) <= be_value l).
  { intros [|x l] Hx; [done|]. cbn [be_value]. rewrite zlen_cons. replace (1 + zlen l - 1) with (zlen l) by lia.
    pose proof (b2z_range x). pose proof (be_value_range l). unfold zlen in *. nia. }
  intros He Ha Hb. pose proof (Hlow a Ha). pose proof (Hlow b Hb). pose proof (be_value_range a). pose proof (be_value_range b).
  apply Z.le_antisymm; apply Z.nlt_ge; intros Hlt.
  - assert (256 ^ zlen b <= 256 ^ (zlen a - 1)) by (apply Z.pow_le_mono_r; lia). lia.
  - assert (256 ^ zlen a <= 256 ^ (zlen b - 1)) by (apply Z.pow_le_mono_r; lia). lia.
Qed.
Lemma readLength_canonical l len header d : readLength l = Ok (len, header) → encodeLength len = Ok d → zlen d = header.
Proof.
  destruct l as [|first l]; [done|]. cbn [readLength]. rewrite land_top. destruct (Z.ltb_spec (b2z first) 128) as [Hlt|Hge].
  - intros [= <- <-]. unfold encodeLength. by rewrite (proj2 (Z.ltb_lt _ _) Hlt); intros [= <-].
  - set (count := Z.land (b2z first) 127). assert (0 <= count) by (apply Z.land_nonneg; right; lia).
    destruct (Z.eqb_spec count 0); [done|]. destruct (_ || _) eqn:E; [done|]. apply orb_false_elim in E as [[E1 E2]%orb_false_elim E3].
    set (bs := take (Z.to_nat count) l). destruct (Z.ltb_spec (be_value bs) 128) as [|H128]; [done|]. intros [= <- <-].
    unfold encodeLength. rewrite (proj2 (Z.ltb_ge _ 128)) by done.
    pose proof (length_bytes_ok 4 (be_value bs) [] ltac:(lia)) as Hb.
    destruct (length_bytes 4 (be_value bs) []) as [out| |]; [|done|done]. destruct Hb as (pre & -> & _ & Hv & Hh).
    rewrite app_nil_r. intros [= <-]. rewrite zlen_cons, (be_value_length pre bs); [|done| |].
    + unfold bs, zlen. rewrite length_take. rewrite zlen_cons in E2. unfold zlen in *. lia.
    + destruct pre; [cbn in Hv; lia|done].
    + unfold bs in *. destruct l as [|b l]; [rewrite take_nil in H128; cbn in H128; lia|].
      destruct (Z.to_nat count) eqn:Ec; [lia|]. cbn [take]. lia.
Qed.
Lemma encodeTLV_length data tag content end_ tag' d :
  readTLV data = Ok (tag, content, end_) → encodeTLV tag' content = Ok d → zlen d = end_.
Proof.
  unfold readTLV, encodeTLV. destruct (_ <? 2); [done|]. destruct data as [|b data]; [done|].
  destruct (readLength data) as [[len header]| |] eqn:Hl; [|done|done]. cbn [res_bind].
  destruct (readLength_app _ [] _ Hl) as [_ Hh]. cbn [snd] in Hh.
  pose proof (readLength_nonneg _ _ _ Hl).
  destruct (Z.ltb_spec (zlen data - header) len); [done|]. intros [= <- <- <-].
  set (content := take _ _). assert (Hc : zlen content = len).
  { unfold content, zlen in *. rewrite length_take, length_drop. lia. }
  rewrite Hc. destruct (encodeLength len) as [l| |] eqn:He; [|done|done]. cbn [res_bind]. intros [= <-].
  rewrite zlen_cons, zlen_app, (readLength_canonical _ _ _ _ Hl He). lia.
Qed.

Lemma decodeImplicitField_sound rec data t tag name :
  sound rec → zlen data < 2 ^ 32 →
  match decodeImplicitField rec data t tag name with Ok v => shape t v = true | Err _ => True | Panic => False end.
Proof.
  intros Hrec Hl. unfold decodeImplicitField. destruct (_ =? 0); [done|].
  destruct (readTLV data) as [[[itag content] end_]| |] eqn:Hr; [|done|done]. destruct (negb _); [done|].
  destruct (_ =? tagInteger); [apply in_field_sound, decodeImplicitInteger_sound|].
  destruct (readTLV_part _ _ _ _ Hr) as [Hc He].
  destruct (encodeTLV_total (tagForImplicitField t) content) as [d Hd]; [lia|].
  rewrite Hd. cbn [res_bind]. apply in_field_sound, Hrec. rewrite (encodeTLV_length _ _ _ _ _ _ Hr Hd). lia.
Qed.
Lemma decode_field_sound rec tag name t later nextTag inner element :
  sound rec → zlen inner < 2 ^ 32 → zlen element < 2 ^ 32 →
  match decode_field rec tag name t later nextTag inner element with
  | Ok (Take v) => shape t v = true | Ok Skip => True | Err _ => True | Panic => False end.
Proof.
  intros Hrec Hi He. unfold decode_field.
  assert (Htake : ∀ r : res gval, match r with Ok v => shape t v = true | Err _ => True | Panic => False end →
    match res_bind r (λ v, Ok (Take v)) with Ok (Take v) => shape t v = true | Ok Skip => True | Err _ => True | Panic => False end)
    by (by intros [| |]).
  repeat match goal with |- context [if ?b then _ else _] => destruct b end; try done; apply Htake;
    first [by apply decodeImplicitField_sound | apply in_field_sound; first [apply decodeSignedInteger_sound | by apply Hrec]].
Qed.
Lemma parseFieldTag_no_panic raw : parseFieldTag raw ≠ Panic.
Proof.
  destruct raw as [raw|]; [|done]. cbn [parseFieldTag]. enough (∀ t, parse_parts t (tag_parts raw) ≠ Panic) as Hp.
  { specialize (Hp (mkFieldTag 0 false false false false false)). by destruct (parse_parts _ _). }
  induction (tag_parts raw) as [|part parts IH]; intros t; [done|]. cbn [parse_parts].
  assert (parse_part t part ≠ Panic) by (unfold parse_part, decimal, res_bind; repeat case_match; simplify_eq; done).
  destruct (parse_part t part); [apply IH|done|done].
Qed.
Lemma decode_fields_sound rec fs rest :
  sound rec → zlen rest < 2 ^ 32 →
  match decode_fields rec fs rest with Ok vals => shapes fs vals = true | Err _ => True | Panic => False end.
Proof.
  intros Hrec. revert rest. induction fs as [|[[name raw] t] fs IH]; intros rest Hl; cbn [decode_fields].
  - by destruct (zlen rest =? 0).
  - pose proof (parseFieldTag_no_panic raw). destruct (parseFieldTag raw) as [[tag|]| |]; [|done|done|done]. cbn [res_bind].
    assert (Hskip : match res_bind (decode_fields rec fs rest) (λ vs, Ok (zero t :: vs)) with
      | Ok vals => shapes ((name, raw, t) :: fs) vals = true | Err _ => True | Panic => False end).
    { specialize (IH rest Hl). destruct (decode_fields rec fs rest); [|done|done]. cbn. by rewrite shape_zero. }
    destruct (zlen rest =? 0); [by destruct (ft_optional tag)|].
    pose proof (readTLV_no_panic rest). destruct (readTLV rest) as [[[nextTag inner] end_]| |] eqn:Hr; [|done|done]. cbn [res_bind].
    destruct (readTLV_part _ _ _ _ Hr) as [Hi He]. pose proof (zlen_take_le rest (Z.to_nat end_)).
    pose proof (decode_field_sound rec tag name t fs nextTag inner (take (Z.to_nat end_) rest) Hrec ltac:(lia) ltac:(lia)) as Hf.
    destruct (decode_field _ _ _ _ _ _ _ _) as [[|v]| |]; [done| |done|done]. cbn [res_bind].
    specialize (IH (drop (Z.to_nat end_) rest) ltac:(rewrite zlen_drop_lt; lia)).
    destruct (decode_fields rec fs _); [|done|done]. cbn. by rewrite Hf.
Qed.
Lemma parse_time_no_panic value : parse_time value ≠ Panic.
Proof. unfold parse_time. cbv zeta. by repeat case_match. Qed.
Lemma ParseKerberosTime_no_panic value : ParseKerberosTime value ≠ Panic.
Proof.
  unfold ParseKerberosTime. repeat (case_match; [done|]). pose proof (parse_time_no_panic value). by destruct (parse_time value).
Qed.
Lemma DecodeFlags_sound der : match DecodeFlags der with Ok n => 0 <= n < 2 ^ 32 | Err _ => True | Panic => False end.
Proof. unfold DecodeFlags. repeat case_match; simplify_eq; try done. apply bytesToFlags_range. Qed.
Lemma decodeUnsignedInteger_sound l : match decodeUnsignedInteger l with Ok n => 0 <= n | Err _ => True | Panic => False end.
Proof.
  unfold decodeUnsignedInteger. destruct l as [|a rest]; [done|]. pose proof (proj1 (be_value_range (a :: rest))).
  do 4 (match goal with |- context [if ?b then _ else _] => destruct b; [done|] end). done.
Qed.

Lemma decodeBare_sound rec rec_struct tag content t :
  sound rec → sound rec_struct → zlen content < 2 ^ 32 →
  match decodeBare rec rec_struct tag content t with Ok v => shape t v = true | Err _ => True | Panic => False end.
Proof.
  intros Hrec Hrec' Hl. destruct t; cbn [decodeBare]; try done.
  all: try (by destruct (negb (tag =? _)); try destruct (negb (validObjectIdentifierContent _))).
  all: try (destruct (negb (tag =? _)); [done|]).
  - destruct (zlen content =? 0); [done|]. pose proof (ParseKerberosTime_no_panic content). by destruct (ParseKerberosTime _).
  - destruct (zlen content =? 0); [done|]. pose proof (ParseKerberosTime_no_panic content). by destruct (ParseKerberosTime _).
  - pose proof (DecodeFlags_sound (z2b tag :: z2b (zlen content) :: content)) as Hf. destruct (DecodeFlags _); [|done|done]. cbn.
    by rewrite (proj2 (Z.leb_le _ _)), (proj2 (Z.ltb_lt _ _)) by lia.
  - destruct content as [|b [|]]; [done| |done]. by destruct (_ || _).
  - pose proof (decodeInteger_no_panic content). destruct (decodeInteger content) as [n| |]; [|done|done]. cbn [res_bind].
    destruct (fits_int bits n) eqn:E; [|done]. cbn. by rewrite E, orb_true_r.
  - pose proof (decodeUnsignedInteger_sound content). destruct (decodeUnsignedInteger content) as [n| |]; [|done|done]. cbn [res_bind].
    destruct (n <? 2 ^ bits) eqn:E; [|done]. cbn. by rewrite E, (proj2 (Z.leb_le 0 n)), orb_true_r by done.
  - pose proof (decode_items_sound rec t (length content) content Hrec ltac:(lia) Hl). by destruct (decode_items _ _ _).
  - pose proof (decode_fields_sound rec_struct fields content Hrec' Hl). by destruct (decode_fields _ _ _).
Qed.
Lemma choices_lookup P fs vals n i : (n, i) ∈ choices P fs vals → is_Some (fs !! i).
Proof.
  intros ([k [f v]] & Hin & Hc)%list_elem_of_omap. apply list_elem_of_lookup in Hin as [k' Hk]. rewrite list_lookup_imap in Hk.
  destruct (zip fs vals !! k') as [p|] eqn:Hz; [|done]. cbn in Hk. injection Hk as <- ->.
  apply lookup_zip_with_Some in Hz as (f' & v' & [= -> ->] & Hf' & _).
  cbn in Hc. destruct (is_choice _); [|done]. cbn in Hc. destruct (P _ _); [|done]. injection Hc as _ <-. eauto.
Qed.

Lemma decodeValue_sound m : sound (decodeValue m).
Proof.
  induction m as [m IH] using lt_wf_ind. intros data t Hl. destruct m as [|m]; [done|]. cbn [decodeValue].
  assert (Hdeep : ∀ m', (m' < S m)%nat → sound (match m' with O => λ _ _, depth_error | S d => decodeValue d end)).
  { intros [|d] Hd; [done|]. apply IH. lia. }
  assert (Hbare : ∀ m' tag content t, (m' < S m)%nat → zlen content < 2 ^ 32 → let r := decodeBare (decodeValue m')
    (match m' with O => λ _ _, depth_error | S d => decodeValue d end) tag content t in
    match r with Ok v => shape t v = true | Err _ => True | Panic => False end).
  { intros m' tag' content' t' Hm Hc. by apply decodeBare_sound; [apply IH|apply Hdeep|]. }
  pose proof (readTLV_no_panic data). destruct (readTLV data) as [[[tag content] end_]| |] eqn:Hr; [|done|done].
  destruct (readTLV_part _ _ _ _ Hr) as [Hc _]. cbn [res_bind]. destruct (negb _); [done|].
  destruct t as [| | | | | | | | | | | |[a|] fs|t]; try (apply Hbare; lia); [done| | |].
  - destruct (negb _); [done|]. pose proof (readTLV_no_panic content).
    destruct (readTLV content) as [[[itag inner] iend]| |] eqn:Hi; [|done|done]. cbn [res_bind]. destruct (_ || _); [done|].
    destruct (readTLV_part _ _ _ _ Hi) as [Hc' _]. destruct m as [|m]; [done|]. apply Hbare; lia.
  - unfold choiceFieldForTag. set (cs := choices _ _ _). destruct cs as [|[n i] [|]] eqn:Hcs; cbn [the_one]; try (apply Hbare; lia).
    destruct (choices_lookup (λ n _, tag =? ctx_tag n) fs (map (λ f : gfield, zero f.2) fs) n i) as [f Hf].
    { fold cs. rewrite Hcs. by apply list_elem_of_singleton. }
    rewrite Hf. pose proof (IH m ltac:(lia) content f.2 ltac:(lia)). destruct (decodeValue m content f.2) as [v| |]; [|done|done].
    cbn [res_bind]. rewrite shape_struct. eapply shapes_insert; [apply shapes_zero|done|done].
  - pose proof (IH m ltac:(lia) data t Hl). by destruct (decodeValue m data t).
Qed.

Lemma Unmarshal_typed t data :
  zlen data < 2 ^ 32 →
  match asn1_Unmarshal t data with Ok v => shape t v = true | Err _ => True | Panic => False end.
Proof.
  intros Hl. unfold asn1_Unmarshal. pose proof (readTLV_no_panic data).
  destruct (readTLV data) as [[[tag content] end_]| |]; [|done|done]. cbn [res_bind]. destruct (negb _); [done|].
  pose proof (decodeValue_sound (S maxDepth) data t Hl). by destruct (decodeValue _ _ _).
Qed.

(** C10: decoding any input shorter than 4 GiB into any Go type gives a value of
    that type, its integers within their widths, or an error: [Unmarshal]
    neither indexes out of range nor panics on the reencoding of an implicit
    field, whatever the nesting of the input. *)
Theorem unmarshal_sound t data :
  zlen data < 2 ^ 32 →
  match asn1_Unmarshal t data with Ok v => shape t v = true | Err _ => True | Panic => False end.
Proof. apply Unmarshal_typed. Qed.

(** A SEQUENCE with an INTEGER and an optional GeneralString, present and absent. *)
Definition sample_type : gtype :=
  TStruct (Some 3) [("N", Some (str "tag:0"), TInt 32); ("S", Some (str "tag:1,optional"), TString); ("T", Some (str "tag:2"), TTime)].
Definition sample_value : gval := VStruct [VNum (-129); VStr (str "EXAMPLE"); VTime (mkKTime 1000000000 0 true)].
Lemma unmarshal_sound_witness :
  let data := [Byte.x30; Byte.x80; Byte.x00; Byte.x00] in
  match asn1_Unmarshal sample_type data with Ok v => shape sample_type v = true | Err _ => True | Panic => False end.
Proof. cbv zeta. apply unmarshal_sound. vm_compute. reflexivity. Defined.
