(* ===== verification/Wire.v ===== *)
(** * The DER forms of the messages (src/krb5/protocol/protocol.go)

    For each structure, its type as the codec sees it, with the krb5 tags of the
    source, and the passage between the record and the value the codec works on.
    An empty optional slice is nil, and an empty slice of bytes too. *)

From S2P Require Import Prelude Principal Protocol Asn1.
Local Open Scope Z_scope.

(** ** Codecs *)

Record codec (T : Type) := mkCodec {
  c_type : gtype;
  c_put : T → gval;
  c_get : gval → option T;
  c_get_put : ∀ x, c_get (c_put x) = Some x;
  c_total : ∀ v, shape c_type v = true → is_Some (c_get v);
}.
Arguments mkCodec {T}.
Arguments c_type {T}.
Arguments c_put {T}.
Arguments c_get {T}.
Arguments c_get_put {T}.
Arguments c_total {T}.

Definition to_der {T} (c : codec T) (x : T) : res bytes := asn1_Marshal (c_type c) (c_put c x).
(** A decoded value has the shape of its type. *)
Definition of_der {T} (c : codec T) (data : bytes) : res T :=
  res_bind (asn1_Unmarshal (c_type c) data) (λ v, match c_get c v with Some x => Ok x | None => Panic end).
Definition codec_der {T} (c : codec T) : Der T := {| Marshal := to_der c; Unmarshal := of_der c |}.

Definition get_num (v : gval) : option Z := match v with VNum z => Some z | _ => None end.
Definition int32 : codec Z.
Proof. refine (mkCodec (TInt 32) VNum get_num _ _); [done|]. intros []; by eauto. Defined.
Definition uint32 : codec Z.
Proof. refine (mkCodec (TUint 32) VNum get_num _ _); [done|]. intros []; by eauto. Defined.
Definition flags32 : codec Z.
Proof. refine (mkCodec TFlags VNum get_num _ _); [done|]. intros []; by eauto. Defined.
Definition text : codec bytes.
Proof. by refine (mkCodec TString VStr (λ v, match v with VStr s => Some s | _ => None end) _ _); [|intros []; eauto]. Defined.
Definition utf8 : codec bytes.
Proof. by refine (mkCodec TUTF8 VStr (λ v, match v with VStr s => Some s | _ => None end) _ _); [|intros []; eauto]. Defined.
Definition octets : codec bytes.
Proof.
  refine (mkCodec TBytes (λ s, VBytes (copied s)) (λ v, match v with VBytes s => Some (default [] s) | _ => None end) _ _).
  - by intros [|].
  - intros []; by eauto.
Defined.
Definition ktime : codec KerberosTime.
Proof. by refine (mkCodec TTime VTime (λ v, match v with VTime t => Some t | _ => None end) _ _); [|intros []; eauto]. Defined.

Definition ptr {T} (c : codec T) : codec (option T).
Proof.
  refine (mkCodec (TPtr (c_type c)) (λ x, VPtr (c_put c <$> x))
    (λ v, match v with VPtr None => Some None | VPtr (Some v) => Some <$> c_get c v | _ => None end) _ _).
  - intros [x|]; cbn; [by rewrite c_get_put|done].
  - intros [| | | | | | |[v|]] Hs; try discriminate Hs; [|by eauto]. cbn in Hs. apply c_total in Hs as [x ->]. by eexists.
Defined.

Lemma mapM_get_put {T} (c : codec T) l : mapM (c_get c) (c_put c <$> l) = Some l.
Proof. induction l as [|x l IH]; [done|]. cbn in *. by rewrite c_get_put, IH. Qed.
Definition get_list {T} (c : codec T) (v : gval) : option (list T) :=
  match v with VSlice l => mapM (c_get c) (default [] l) | _ => None end.
Lemma get_list_total {T} (c : codec T) v : shape (TSlice (c_type c)) v = true → is_Some (get_list c v).
Proof.
  destruct v as [| | | | |[l|]| |]; try discriminate; [|by eauto]. cbn. intros Hs.
  induction l as [|x l IH]; [by eauto|]. cbn in Hs |- *. apply andb_prop in Hs as [Hx Hs].
  apply c_total in Hx as [y ->]. destruct (IH Hs) as [ys Hys]. cbn. rewrite Hys. by eexists.
Qed.
(** A slice, and a slice that is left out when it is empty. *)
Definition slice {T} (c : codec T) : codec (list T).
Proof.
  refine (mkCodec (TSlice (c_type c)) (λ l, VSlice (Some (c_put c <$> l))) (get_list c) _ (get_list_total c)). apply mapM_get_put.
Defined.
Definition opt_slice {T} (c : codec T) : codec (list T).
Proof.
  refine (mkCodec (TSlice (c_type c)) (λ l, VSlice (match l with [] => None | _ => Some (c_put c <$> l) end)) (get_list c) _ (get_list_total c)).
  intros [|x l]; [done|]. apply (mapM_get_put c (x :: l)).
Defined.

Definition field {T} (name : string) (tag : string) (c : codec T) : gfield := (name, Some (str tag), c_type c).

(** The fields of a record come back one by one. *)
Ltac struct_codec := intros []; cbn [c_get c_put]; rewrite ?c_get_put; reflexivity.
(** A value of the type of a record has every field of it. *)
Lemma shapes_field {T} name tag (c : codec T) fs vals :
  shapes (field name tag c :: fs) vals = true →
  ∃ v rest, vals = v :: rest ∧ is_Some (c_get c v) ∧ shapes fs rest = true.
Proof. destruct vals as [|v rest]; [done|]. intros [Hv Hs]%andb_prop. exists v, rest. split_and!; [done| |done]. by apply c_total. Qed.
Ltac total_fields Hs :=
  lazymatch type of Hs with
  | shapes [] ?vals = true => destruct vals; [|discriminate Hs]
  | shapes (_ :: _) _ = true =>
      let v := fresh "v" in let rest := fresh "vals" in let Hv := fresh "Hv" in let H := fresh "Hs" in
      apply shapes_field in Hs as (v & rest & -> & [? Hv] & H); total_fields H; rewrite Hv
  end.
Ltac total_codec :=
  let v := fresh "v" in let Hs := fresh "Hs" in let vals := fresh "vals" in
  intros v Hs; destruct v as [| | | | | |vals|]; try discriminate Hs; rewrite shape_struct in Hs; total_fields Hs; by eexists.

(** ** Names, keys, data *)

Definition principalName_codec : codec PrincipalName.
Proof.
  refine (mkCodec (TStruct None
      [field "NameType" "tag:0" int32;
       field "NameString" "tag:1" (slice text)])
    (λ x, VStruct
      [c_put int32 (NameType_ x);
       c_put (slice text) (NameString x)])
    (λ v, match v with
          | VStruct [a; b] =>
              a ← c_get int32 a;
              b ← c_get (slice text) b; Some (mkPName a b)
          | _ => None
          end) _ _); [struct_codec|total_codec].
Defined.

Definition hostAddress_codec : codec HostAddress.
Proof.
  refine (mkCodec (TStruct None
      [field "AddrType" "tag:0" int32;
       field "Address" "tag:1" octets])
    (λ x, VStruct
      [c_put int32 (AddrType x);
       c_put octets (Address x)])
    (λ v, match v with
          | VStruct [a; b] =>
              a ← c_get int32 a;
              b ← c_get octets b; Some (mkAddr a b)
          | _ => None
          end) _ _); [struct_codec|total_codec].
Defined.

Definition authorizationDataEntry_codec : codec AuthorizationDataEntry.
Proof.
  refine (mkCodec (TStruct None
      [field "ADType" "tag:0" int32;
       field "ADData" "tag:1" octets])
    (λ x, VStruct
      [c_put int32 (ADType x);
       c_put octets (ADData x)])
    (λ v, match v with
          | VStruct [a; b] =>
              a ← c_get int32 a;
              b ← c_get octets b; Some (mkAD a b)
          | _ => None
          end) _ _); [struct_codec|total_codec].
Defined.

Definition paData_codec : codec PAData.
Proof.
  refine (mkCodec (TStruct None
      [field "PADataType" "tag:1" int32;
       field "PADataValue" "tag:2" octets])
    (λ x, VStruct
      [c_put int32 (PADataType x);
       c_put octets (PADataValue x)])
    (λ v, match v with
          | VStruct [a; b] =>
              a ← c_get int32 a;
              b ← c_get octets b; Some (mkPA a b)
          | _ => None
          end) _ _); [struct_codec|total_codec].
Defined.

Definition encryptedData_codec : codec EncryptedData.
Proof.
  refine (mkCodec (TStruct None
      [field "EType" "tag:0" int32;
       field "KVNO" "tag:1,optional,signed" (ptr uint32);
       field "Cipher" "tag:2" octets])
    (λ x, VStruct
      [c_put int32 (ed_EType x);
       c_put (ptr uint32) (ed_KVNO x);
       c_put octets (ed_Cipher x)])
    (λ v, match v with
          | VStruct [a; b; c] =>
              a ← c_get int32 a;
              b ← c_get (ptr uint32) b;
              c ← c_get octets c; Some (mkEnc a b c)
          | _ => None
          end) _ _); [struct_codec|total_codec].
Defined.

Definition encryptionKey_codec : codec EncryptionKey.
Proof.
  refine (mkCodec (TStruct None
      [field "KeyType" "tag:0" int32;
       field "KeyValue" "tag:1" octets])
    (λ x, VStruct
      [c_put int32 (KeyType x);
       c_put octets (KeyValue x)])
    (λ v, match v with
          | VStruct [a; b] =>
              a ← c_get int32 a;
              b ← c_get octets b; Some (mkEKey a b)
          | _ => None
          end) _ _); [struct_codec|total_codec].
Defined.

Definition checksumValue_codec : codec ChecksumValue.
Proof.
  refine (mkCodec (TStruct None
      [field "ChecksumType" "tag:0" int32;
       field "Checksum" "tag:1" octets])
    (λ x, VStruct
      [c_put int32 (ChecksumType x);
       c_put octets (cksum x)])
    (λ v, match v with
          | VStruct [a; b] =>
              a ← c_get int32 a;
              b ← c_get octets b; Some (mkCksum a b)
          | _ => None
          end) _ _); [struct_codec|total_codec].
Defined.

Definition transitedEncoding_codec : codec TransitedEncoding.
Proof.
  refine (mkCodec (TStruct None
      [field "TrType" "tag:0" int32;
       field "Contents" "tag:1" octets])
    (λ x, VStruct
      [c_put int32 (TrType x);
       c_put octets (Contents x)])
    (λ v, match v with
          | VStruct [a; b] =>
              a ← c_get int32 a;
              b ← c_get octets b; Some (mkTransited a b)
          | _ => None
          end) _ _); [struct_codec|total_codec].
Defined.

Definition lastReqEntry_codec : codec LastReqEntry.
Proof.
  refine (mkCodec (TStruct None
      [field "LRType" "tag:0" int32;
       field "LRValue" "tag:1" ktime])
    (λ x, VStruct
      [c_put int32 (LRType x);
       c_put ktime (LRValue x)])
    (λ v, match v with
          | VStruct [a; b] =>
              a ← c_get int32 a;
              b ← c_get ktime b; Some (mkLastReq a b)
          | _ => None
          end) _ _); [struct_codec|total_codec].
Defined.

Definition verifierMAC_codec : codec VerifierMAC.
Proof.
  refine (mkCodec (TStruct None
      [field "Princ" "tag:0,optional" (ptr principalName_codec);
       field "KVNO" "tag:1,optional" (ptr uint32);
       field "Enctype" "tag:2,optional" (ptr int32);
       field "Checksum" "tag:3" checksumValue_codec])
    (λ x, VStruct
      [c_put (ptr principalName_codec) (v_Princ x);
       c_put (ptr uint32) (v_KVNO x);
       c_put (ptr int32) (v_Enctype x);
       c_put checksumValue_codec (v_Checksum x)])
    (λ v, match v with
          | VStruct [a; b; c; d] =>
              a ← c_get (ptr principalName_codec) a;
              b ← c_get (ptr uint32) b;
              c ← c_get (ptr int32) c;
              d ← c_get checksumValue_codec d; Some (mkVerifier a b c d)
          | _ => None
          end) _ _); [struct_codec|total_codec].
Defined.

Definition cammac_codec : codec CAMMAC.
Proof.
  refine (mkCodec (TStruct None
      [field "Elements" "tag:0" (slice authorizationDataEntry_codec);
       field "KDCVerifier" "tag:1,optional" (ptr verifierMAC_codec);
       field "SVCVerifier" "tag:2,optional" (ptr verifierMAC_codec);
       field "OtherVerifiers" "tag:3,optional" (opt_slice verifierMAC_codec)])
    (λ x, VStruct
      [c_put (slice authorizationDataEntry_codec) (c_Elements x);
       c_put (ptr verifierMAC_codec) (c_KDCVerifier x);
       c_put (ptr verifierMAC_codec) (c_SVCVerifier x);
       c_put (opt_slice verifierMAC_codec) (c_OtherVerifiers x)])
    (λ v, match v with
          | VStruct [a; b; c; d] =>
              a ← c_get (slice authorizationDataEntry_codec) a;
              b ← c_get (ptr verifierMAC_codec) b;
              c ← c_get (ptr verifierMAC_codec) c;
              d ← c_get (opt_slice verifierMAC_codec) d; Some (mkCAMMAC a b c d)
          | _ => None
          end) _ _); [struct_codec|total_codec].
Defined.

(** ** Tickets, requests and replies *)

Definition ticket_codec : codec Ticket.
Proof.
  refine (mkCodec (TStruct (Some 1)
      [field "TktVNO" "tag:0" int32;
       field "Realm" "tag:1" text;
       field "SName" "tag:2" principalName_codec;
       field "EncPart" "tag:3" encryptedData_codec])
    (λ x, VStruct
      [c_put int32 (t_TktVNO x);
       c_put text (t_Realm x);
       c_put principalName_codec (t_SName x);
       c_put encryptedData_codec (t_EncPart x)])
    (λ v, match v with
          | VStruct [a; b; c; d] =>
              a ← c_get int32 a;
              b ← c_get text b;
              c ← c_get principalName_codec c;
              d ← c_get encryptedData_codec d; Some (mkTicket a b c d)
          | _ => None
          end) _ _); [struct_codec|total_codec].
Defined.

Definition encTicketPart_codec : codec EncTicketPart.
Proof.
  refine (mkCodec (TStruct (Some 3)
      [field "Flags" "tag:0" flags32;
       field "Key" "tag:1" encryptionKey_codec;
       field "CRealm" "tag:2" text;
       field "CName" "tag:3" principalName_codec;
       field "Transited" "tag:4" transitedEncoding_codec;
       field "AuthTime" "tag:5" ktime;
       field "StartTime" "tag:6,optional" (ptr ktime);
       field "EndTime" "tag:7" ktime;
       field "RenewTill" "tag:8,optional" (ptr ktime);
       field "CAddr" "tag:9,optional" (opt_slice hostAddress_codec);
       field "AuthorizationData" "tag:10,optional" (opt_slice authorizationDataEntry_codec)])
    (λ x, VStruct
      [c_put flags32 (tp_Flags x);
       c_put encryptionKey_codec (tp_Key x);
       c_put text (tp_CRealm x);
       c_put principalName_codec (tp_CName x);
       c_put transitedEncoding_codec (tp_Transited x);
       c_put ktime (tp_AuthTime x);
       c_put (ptr ktime) (tp_StartTime x);
       c_put ktime (tp_EndTime x);
       c_put (ptr ktime) (tp_RenewTill x);
       c_put (opt_slice hostAddress_codec) (tp_CAddr x);
       c_put (opt_slice authorizationDataEntry_codec) (tp_AuthorizationData x)])
    (λ v, match v with
          | VStruct [a; b; c; d; e; f; g; h; i; j; k] =>
              a ← c_get flags32 a;
              b ← c_get encryptionKey_codec b;
              c ← c_get text c;
              d ← c_get principalName_codec d;
              e ← c_get transitedEncoding_codec e;
              f ← c_get ktime f;
              g ← c_get (ptr ktime) g;
              h ← c_get ktime h;
              i ← c_get (ptr ktime) i;
              j ← c_get (opt_slice hostAddress_codec) j;
              k ← c_get (opt_slice authorizationDataEntry_codec) k; Some (mkTicketPart a b c d e f g h i j k)
          | _ => None
          end) _ _); [struct_codec|total_codec].
Defined.

Definition authenticator_codec : codec Authenticator.
Proof.
  refine (mkCodec (TStruct (Some 2)
      [field "AuthenticatorVNO" "tag:0" int32;
       field "CRealm" "tag:1" text;
       field "CName" "tag:2" principalName_codec;
       field "Checksum" "tag:3,optional" (ptr checksumValue_codec);
       field "Cusec" "tag:4" int32;
       field "Ctime" "tag:5" ktime;
       field "SubKey" "tag:6,optional" (ptr encryptionKey_codec);
       field "SeqNumber" "tag:7,optional" (ptr uint32);
       field "AuthorizationData" "tag:8,optional" (opt_slice authorizationDataEntry_codec)])
    (λ x, VStruct
      [c_put int32 (a_VNO x);
       c_put text (a_CRealm x);
       c_put principalName_codec (a_CName x);
       c_put (ptr checksumValue_codec) (a_Checksum x);
       c_put int32 (a_Cusec x);
       c_put ktime (a_Ctime x);
       c_put (ptr encryptionKey_codec) (a_SubKey x);
       c_put (ptr uint32) (a_SeqNumber x);
       c_put (opt_slice authorizationDataEntry_codec) (a_AuthorizationData x)])
    (λ v, match v with
          | VStruct [a; b; c; d; e; f; g; h; i] =>
              a ← c_get int32 a;
              b ← c_get text b;
              c ← c_get principalName_codec c;
              d ← c_get (ptr checksumValue_codec) d;
              e ← c_get int32 e;
              f ← c_get ktime f;
              g ← c_get (ptr encryptionKey_codec) g;
              h ← c_get (ptr uint32) h;
              i ← c_get (opt_slice authorizationDataEntry_codec) i; Some (mkAuthenticator a b c d e f g h i)
          | _ => None
          end) _ _); [struct_codec|total_codec].
Defined.

Definition kdcReqBody_codec : codec KDCReqBody.
Proof.
  refine (mkCodec (TStruct None
      [field "KDCOptions" "tag:0" flags32;
       field "CName" "tag:1,optional" (ptr principalName_codec);
       field "Realm" "tag:2" text;
       field "SName" "tag:3,optional" (ptr principalName_codec);
       field "From" "tag:4,optional" (ptr ktime);
       field "Till" "tag:5" ktime;
       field "RTime" "tag:6,optional" (ptr ktime);
       field "Nonce" "tag:7" uint32;
       field "EType" "tag:8" (slice int32);
       field "Addresses" "tag:9,optional" (opt_slice hostAddress_codec);
       field "EncAuthorizationData" "tag:10,optional" (ptr encryptedData_codec);
       field "AdditionalTickets" "tag:11,optional" (opt_slice ticket_codec)])
    (λ x, VStruct
      [c_put flags32 (b_KDCOptions x);
       c_put (ptr principalName_codec) (b_CName x);
       c_put text (b_Realm x);
       c_put (ptr principalName_codec) (b_SName x);
       c_put (ptr ktime) (b_From x);
       c_put ktime (b_Till x);
       c_put (ptr ktime) (b_RTime x);
       c_put uint32 (b_Nonce x);
       c_put (slice int32) (b_EType x);
       c_put (opt_slice hostAddress_codec) (b_Addresses x);
       c_put (ptr encryptedData_codec) (b_EncAuthorizationData x);
       c_put (opt_slice ticket_codec) (b_AdditionalTickets x)])
    (λ v, match v with
          | VStruct [a; b; c; d; e; f; g; h; i; j; k; l] =>
              a ← c_get flags32 a;
              b ← c_get (ptr principalName_codec) b;
              c ← c_get text c;
              d ← c_get (ptr principalName_codec) d;
              e ← c_get (ptr ktime) e;
              f ← c_get ktime f;
              g ← c_get (ptr ktime) g;
              h ← c_get uint32 h;
              i ← c_get (slice int32) i;
              j ← c_get (opt_slice hostAddress_codec) j;
              k ← c_get (ptr encryptedData_codec) k;
              l ← c_get (opt_slice ticket_codec) l; Some (mkBody a b c d e f g h i j k l)
          | _ => None
          end) _ _); [struct_codec|total_codec].
Defined.

Definition kdcReq_codec (application : Z) : codec KDCReq.
Proof.
  refine (mkCodec (TStruct (Some application)
      [field "PVNO" "tag:1" int32;
       field "MsgType" "tag:2" int32;
       field "PAData" "tag:3,optional" (opt_slice paData_codec);
       field "ReqBody" "tag:4" kdcReqBody_codec])
    (λ x, VStruct
      [c_put int32 (r_PVNO x);
       c_put int32 (r_MsgType x);
       c_put (opt_slice paData_codec) (r_PAData x);
       c_put kdcReqBody_codec (r_ReqBody x)])
    (λ v, match v with
          | VStruct [a; b; c; d] =>
              a ← c_get int32 a;
              b ← c_get int32 b;
              c ← c_get (opt_slice paData_codec) c;
              d ← c_get kdcReqBody_codec d; Some (mkReq a b c d)
          | _ => None
          end) _ _); [struct_codec|total_codec].
Defined.

Definition kdcRep_codec (application : Z) : codec KDCRep.
Proof.
  refine (mkCodec (TStruct (Some application)
      [field "PVNO" "tag:0" int32;
       field "MsgType" "tag:1" int32;
       field "PAData" "tag:2,optional" (opt_slice paData_codec);
       field "CRealm" "tag:3" text;
       field "CName" "tag:4" principalName_codec;
       field "Ticket" "tag:5" ticket_codec;
       field "EncPart" "tag:6" encryptedData_codec])
    (λ x, VStruct
      [c_put int32 (rep_PVNO x);
       c_put int32 (rep_MsgType x);
       c_put (opt_slice paData_codec) (rep_PAData x);
       c_put text (rep_CRealm x);
       c_put principalName_codec (rep_CName x);
       c_put ticket_codec (rep_Ticket x);
       c_put encryptedData_codec (rep_EncPart x)])
    (λ v, match v with
          | VStruct [a; b; c; d; e; f; g] =>
              a ← c_get int32 a;
              b ← c_get int32 b;
              c ← c_get (opt_slice paData_codec) c;
              d ← c_get text d;
              e ← c_get principalName_codec e;
              f ← c_get ticket_codec f;
              g ← c_get encryptedData_codec g; Some (mkRep a b c d e f g)
          | _ => None
          end) _ _); [struct_codec|total_codec].
Defined.

Definition encKDCRepPart_codec (application : Z) : codec EncKDCRepPart.
Proof.
  refine (mkCodec (TStruct (Some application)
      [field "Key" "tag:0" encryptionKey_codec;
       field "LastReq" "tag:1" (slice lastReqEntry_codec);
       field "Nonce" "tag:2" uint32;
       field "KeyExpiration" "tag:3,optional" (ptr ktime);
       field "Flags" "tag:4" flags32;
       field "AuthTime" "tag:5" ktime;
       field "StartTime" "tag:6,optional" (ptr ktime);
       field "EndTime" "tag:7" ktime;
       field "RenewTill" "tag:8,optional" (ptr ktime);
       field "SRealm" "tag:9" text;
       field "SName" "tag:10" principalName_codec;
       field "CAddr" "tag:11,optional" (opt_slice hostAddress_codec)])
    (λ x, VStruct
      [c_put encryptionKey_codec (ep_Key x);
       c_put (slice lastReqEntry_codec) (ep_LastReq x);
       c_put uint32 (ep_Nonce x);
       c_put (ptr ktime) (ep_KeyExpiration x);
       c_put flags32 (ep_Flags x);
       c_put ktime (ep_AuthTime x);
       c_put (ptr ktime) (ep_StartTime x);
       c_put ktime (ep_EndTime x);
       c_put (ptr ktime) (ep_RenewTill x);
       c_put text (ep_SRealm x);
       c_put principalName_codec (ep_SName x);
       c_put (opt_slice hostAddress_codec) (ep_CAddr x)])
    (λ v, match v with
          | VStruct [a; b; c; d; e; f; g; h; i; j; k; l] =>
              a ← c_get encryptionKey_codec a;
              b ← c_get (slice lastReqEntry_codec) b;
              c ← c_get uint32 c;
              d ← c_get (ptr ktime) d;
              e ← c_get flags32 e;
              f ← c_get ktime f;
              g ← c_get (ptr ktime) g;
              h ← c_get ktime h;
              i ← c_get (ptr ktime) i;
              j ← c_get text j;
              k ← c_get principalName_codec k;
              l ← c_get (opt_slice hostAddress_codec) l; Some (mkRepPart a b c d e f g h i j k l)
          | _ => None
          end) _ _); [struct_codec|total_codec].
Defined.

Definition apReq_codec : codec APReq.
Proof.
  refine (mkCodec (TStruct (Some 14)
      [field "PVNO" "tag:0" int32;
       field "MsgType" "tag:1" int32;
       field "APOptions" "tag:2" flags32;
       field "Ticket" "tag:3" ticket_codec;
       field "Authenticator" "tag:4" encryptedData_codec])
    (λ x, VStruct
      [c_put int32 (ap_PVNO x);
       c_put int32 (ap_MsgType x);
       c_put flags32 (ap_Options x);
       c_put ticket_codec (ap_Ticket x);
       c_put encryptedData_codec (ap_Authenticator x)])
    (λ v, match v with
          | VStruct [a; b; c; d; e] =>
              a ← c_get int32 a;
              b ← c_get int32 b;
              c ← c_get flags32 c;
              d ← c_get ticket_codec d;
              e ← c_get encryptedData_codec e; Some (mkAPReq a b c d e)
          | _ => None
          end) _ _); [struct_codec|total_codec].
Defined.

Definition krbError_codec : codec KRBError.
Proof.
  refine (mkCodec (TStruct (Some 30)
      [field "PVNO" "tag:0" int32;
       field "MsgType" "tag:1" int32;
       field "CTime" "tag:2,optional" (ptr ktime);
       field "Cusec" "tag:3,optional" (ptr int32);
       field "STime" "tag:4" ktime;
       field "Susec" "tag:5" int32;
       field "ErrorCode" "tag:6" int32;
       field "CRealm" "tag:7,optional" (ptr text);
       field "CName" "tag:8,optional" (ptr principalName_codec);
       field "Realm" "tag:9" text;
       field "SName" "tag:10" principalName_codec;
       field "EText" "tag:11,optional" (ptr text);
       field "EData" "tag:12,optional" octets])
    (λ x, VStruct
      [c_put int32 (err_PVNO x);
       c_put int32 (err_MsgType x);
       c_put (ptr ktime) (err_CTime x);
       c_put (ptr int32) (err_Cusec x);
       c_put ktime (err_STime x);
       c_put int32 (err_Susec x);
       c_put int32 (err_ErrorCode x);
       c_put (ptr text) (err_CRealm x);
       c_put (ptr principalName_codec) (err_CName x);
       c_put text (err_Realm x);
       c_put principalName_codec (err_SName x);
       c_put (ptr text) (err_EText x);
       c_put octets (err_EData x)])
    (λ v, match v with
          | VStruct [a; b; c; d; e; f; g; h; i; j; k; l; m] =>
              a ← c_get int32 a;
              b ← c_get int32 b;
              c ← c_get (ptr ktime) c;
              d ← c_get (ptr int32) d;
              e ← c_get ktime e;
              f ← c_get int32 f;
              g ← c_get int32 g;
              h ← c_get (ptr text) h;
              i ← c_get (ptr principalName_codec) i;
              j ← c_get text j;
              k ← c_get principalName_codec k;
              l ← c_get (ptr text) l;
              m ← c_get octets m; Some (mkKrbError a b c d e f g h i j k l m)
          | _ => None
          end) _ _); [struct_codec|total_codec].
Defined.

(** ** Protocol transition and FAST *)

Definition s4uUserID_codec : codec S4UUserID.
Proof.
  refine (mkCodec (TStruct None
      [field "Nonce" "tag:0" uint32;
       field "CName" "tag:1,optional" (ptr principalName_codec);
       field "CRealm" "tag:2" text;
       field "SubjectCert" "tag:3,optional" octets;
       field "Options" "tag:4,optional" (ptr flags32)])
    (λ x, VStruct
      [c_put uint32 (u_Nonce x);
       c_put (ptr principalName_codec) (u_CName x);
       c_put text (u_CRealm x);
       c_put octets (u_SubjectCert x);
       c_put (ptr flags32) (u_Options x)])
    (λ v, match v with
          | VStruct [a; b; c; d; e] =>
              a ← c_get uint32 a;
              b ← c_get (ptr principalName_codec) b;
              c ← c_get text c;
              d ← c_get octets d;
              e ← c_get (ptr flags32) e; Some (mkS4U a b c d e)
          | _ => None
          end) _ _); [struct_codec|total_codec].
Defined.

Definition paS4UX509User_codec : codec PAS4UX509User.
Proof.
  refine (mkCodec (TStruct None
      [field "UserID" "tag:0" s4uUserID_codec;
       field "Checksum" "tag:1" checksumValue_codec])
    (λ x, VStruct
      [c_put s4uUserID_codec (x_UserID x);
       c_put checksumValue_codec (x_Checksum x)])
    (λ v, match v with
          | VStruct [a; b] =>
              a ← c_get s4uUserID_codec a;
              b ← c_get checksumValue_codec b; Some (mkX509 a b)
          | _ => None
          end) _ _); [struct_codec|total_codec].
Defined.

Definition paForUser_codec : codec PAForUser.
Proof.
  refine (mkCodec (TStruct None
      [field "UserName" "tag:0" principalName_codec;
       field "UserRealm" "tag:1" text;
       field "Checksum" "tag:2" checksumValue_codec;
       field "AuthPackage" "tag:3" text])
    (λ x, VStruct
      [c_put principalName_codec (f_UserName x);
       c_put text (f_UserRealm x);
       c_put checksumValue_codec (f_Checksum x);
       c_put text (f_AuthPackage x)])
    (λ v, match v with
          | VStruct [a; b; c; d] =>
              a ← c_get principalName_codec a;
              b ← c_get text b;
              c ← c_get checksumValue_codec c;
              d ← c_get text d; Some (mkForUser a b c d)
          | _ => None
          end) _ _); [struct_codec|total_codec].
Defined.

Definition krbFastArmor_codec : codec KrbFastArmor.
Proof.
  refine (mkCodec (TStruct None
      [field "ArmorType" "tag:0" int32;
       field "ArmorValue" "tag:1" octets])
    (λ x, VStruct
      [c_put int32 (fa_Type x);
       c_put octets (fa_Value x)])
    (λ v, match v with
          | VStruct [a; b] =>
              a ← c_get int32 a;
              b ← c_get octets b; Some (mkFArmor a b)
          | _ => None
          end) _ _); [struct_codec|total_codec].
Defined.

Definition krbFastArmoredReq_codec : codec KrbFastArmoredReq.
Proof.
  refine (mkCodec (TStruct None
      [field "Armor" "tag:0,optional" (ptr krbFastArmor_codec);
       field "ReqChecksum" "tag:1" checksumValue_codec;
       field "EncFastReq" "tag:2" encryptedData_codec])
    (λ x, VStruct
      [c_put (ptr krbFastArmor_codec) (ar_Armor x);
       c_put checksumValue_codec (ar_ReqChecksum x);
       c_put encryptedData_codec (ar_EncFastReq x)])
    (λ v, match v with
          | VStruct [a; b; c] =>
              a ← c_get (ptr krbFastArmor_codec) a;
              b ← c_get checksumValue_codec b;
              c ← c_get encryptedData_codec c; Some (mkArmored a b c)
          | _ => None
          end) _ _); [struct_codec|total_codec].
Defined.

Definition paFXFastRequest_codec : codec PAFXFastRequest.
Proof.
  refine (mkCodec (TStruct None
      [field "ArmoredData" "tag:0,choice" krbFastArmoredReq_codec])
    (λ x, VStruct
      [c_put krbFastArmoredReq_codec (ArmoredData x)])
    (λ v, match v with
          | VStruct [a] =>
              a ← c_get krbFastArmoredReq_codec a; Some (mkFXRequest a)
          | _ => None
          end) _ _); [struct_codec|total_codec].
Defined.

Definition krbFastReq_codec : codec KrbFastReq.
Proof.
  refine (mkCodec (TStruct None
      [field "FastOptions" "tag:0" flags32;
       field "PAData" "tag:1" (slice paData_codec);
       field "ReqBody" "tag:2" kdcReqBody_codec])
    (λ x, VStruct
      [c_put flags32 (fr_Options x);
       c_put (slice paData_codec) (fr_PAData x);
       c_put kdcReqBody_codec (fr_ReqBody x)])
    (λ v, match v with
          | VStruct [a; b; c] =>
              a ← c_get flags32 a;
              b ← c_get (slice paData_codec) b;
              c ← c_get kdcReqBody_codec c; Some (mkFastReq a b c)
          | _ => None
          end) _ _); [struct_codec|total_codec].
Defined.

Definition krbFastFinished_codec : codec KrbFastFinished.
Proof.
  refine (mkCodec (TStruct None
      [field "Timestamp" "tag:0" ktime;
       field "Usec" "tag:1" int32;
       field "CRealm" "tag:2" text;
       field "CName" "tag:3" principalName_codec;
       field "TicketChecksum" "tag:4" checksumValue_codec])
    (λ x, VStruct
      [c_put ktime (ff_Timestamp x);
       c_put int32 (ff_Usec x);
       c_put text (ff_CRealm x);
       c_put principalName_codec (ff_CName x);
       c_put checksumValue_codec (ff_TicketChecksum x)])
    (λ v, match v with
          | VStruct [a; b; c; d; e] =>
              a ← c_get ktime a;
              b ← c_get int32 b;
              c ← c_get text c;
              d ← c_get principalName_codec d;
              e ← c_get checksumValue_codec e; Some (mkFinished a b c d e)
          | _ => None
          end) _ _); [struct_codec|total_codec].
Defined.

Definition krbFastResponse_codec : codec KrbFastResponse.
Proof.
  refine (mkCodec (TStruct None
      [field "PAData" "tag:0" (slice paData_codec);
       field "StrengthenKey" "tag:1,optional" (ptr encryptionKey_codec);
       field "Finished" "tag:2,optional" (ptr krbFastFinished_codec);
       field "Nonce" "tag:3" uint32])
    (λ x, VStruct
      [c_put (slice paData_codec) (fs_PAData x);
       c_put (ptr encryptionKey_codec) (fs_StrengthenKey x);
       c_put (ptr krbFastFinished_codec) (fs_Finished x);
       c_put uint32 (fs_Nonce x)])
    (λ v, match v with
          | VStruct [a; b; c; d] =>
              a ← c_get (slice paData_codec) a;
              b ← c_get (ptr encryptionKey_codec) b;
              c ← c_get (ptr krbFastFinished_codec) c;
              d ← c_get uint32 d; Some (mkFastResponse a b c d)
          | _ => None
          end) _ _); [struct_codec|total_codec].
Defined.

Definition krbFastArmoredRep_codec : codec KrbFastArmoredRep.
Proof.
  refine (mkCodec (TStruct None
      [field "EncFastRep" "tag:0" encryptedData_codec])
    (λ x, VStruct
      [c_put encryptedData_codec (ar_EncFastRep x)])
    (λ v, match v with
          | VStruct [a] =>
              a ← c_get encryptedData_codec a; Some (mkArmoredRep a)
          | _ => None
          end) _ _); [struct_codec|total_codec].
Defined.

Definition paFXFastReply_codec : codec PAFXFastReply.
Proof.
  refine (mkCodec (TStruct None
      [field "ArmoredData" "tag:0,choice" krbFastArmoredRep_codec])
    (λ x, VStruct
      [c_put krbFastArmoredRep_codec (ArmoredRep x)])
    (λ v, match v with
          | VStruct [a] =>
              a ← c_get krbFastArmoredRep_codec a; Some (mkFXReply a)
          | _ => None
          end) _ _); [struct_codec|total_codec].
Defined.

Definition eTypeInfo2Entry_codec : codec ETypeInfo2Entry.
Proof.
  refine (mkCodec (TStruct None
      [field "EType" "tag:0" int32;
       field "Salt" "tag:1,optional" (ptr text);
       field "S2KParams" "tag:2,optional" octets])
    (λ x, VStruct
      [c_put int32 (ei_EType x);
       c_put (ptr text) (ei_Salt x);
       c_put octets (ei_S2KParams x)])
    (λ v, match v with
          | VStruct [a; b; c] =>
              a ← c_get int32 a;
              b ← c_get (ptr text) b;
              c ← c_get octets c; Some (mkEInfo2 a b c)
          | _ => None
          end) _ _); [struct_codec|total_codec].
Defined.

Definition encTimestamp_codec : codec EncTimestamp.
Proof.
  refine (mkCodec (TStruct None
      [field "PATimestamp" "tag:0" ktime;
       field "PAUSec" "tag:1,optional" (ptr int32)])
    (λ x, VStruct
      [c_put ktime (ts_PATimestamp x);
       c_put (ptr int32) (ts_PAUSec x)])
    (λ v, match v with
          | VStruct [a; b] =>
              a ← c_get ktime a;
              b ← c_get (ptr int32) b; Some (mkEncTS a b)
          | _ => None
          end) _ _); [struct_codec|total_codec].
Defined.

(** ** The codec at the types of the messages *)

#[export] Instance ap_req_der : Der APReq := codec_der apReq_codec.
#[export] Instance enc_ticket_part_der : Der EncTicketPart := codec_der encTicketPart_codec.
#[export] Instance authenticator_der : Der Authenticator := codec_der authenticator_codec.
#[export] Instance authorization_data_der : Der AuthorizationData := codec_der (slice authorizationDataEntry_codec).
#[export] Instance method_data_der : Der MethodData := codec_der (slice paData_codec).
#[export] Instance cammac_der : Der CAMMAC := codec_der cammac_codec.
#[export] Instance strings_der : Der (list bytes) := codec_der (slice utf8).
#[export] Instance fast_request_der : Der PAFXFastRequest := codec_der paFXFastRequest_codec.
#[export] Instance fast_reply_der : Der PAFXFastReply := codec_der paFXFastReply_codec.
#[export] Instance fast_req_der : Der KrbFastReq := codec_der krbFastReq_codec.
#[export] Instance fast_response_der : Der KrbFastResponse := codec_der krbFastResponse_codec.
#[export] Instance x509_user_der : Der PAS4UX509User := codec_der paS4UX509User_codec.
#[export] Instance s4u_user_id_der : Der S4UUserID := codec_der s4uUserID_codec.
#[export] Instance for_user_der : Der PAForUser := codec_der paForUser_codec.
#[export] Instance ticket_der : Der Ticket := codec_der ticket_codec.
#[export] Instance encrypted_data_der : Der EncryptedData := codec_der encryptedData_codec.
#[export] Instance encryption_key_der : Der EncryptionKey := codec_der encryptionKey_codec.
#[export] Instance enc_timestamp_der : Der EncTimestamp := codec_der encTimestamp_codec.
#[export] Instance etype_info2_der : Der (list ETypeInfo2Entry) := codec_der (slice eTypeInfo2Entry_codec).
#[export] Instance krb_error_der : Der KRBError := codec_der krbError_codec.
#[export] Instance kdc_req_body_der : Der KDCReqBody := codec_der kdcReqBody_codec.

(** The application tags of the two exchanges. *)
Definition TagASReq : Z := 10.
Definition TagASRep : Z := 11.
Definition TagTGSReq : Z := 12.
Definition TagTGSRep : Z := 13.
Definition TagEncASRepPart : Z := 25.
Definition TagEncTGSRepPart : Z := 26.
Definition as_req_der : Der KDCReq := codec_der (kdcReq_codec TagASReq).
Definition tgs_req_der : Der KDCReq := codec_der (kdcReq_codec TagTGSReq).
Definition as_rep_der : Der KDCRep := codec_der (kdcRep_codec TagASRep).
Definition tgs_rep_der : Der KDCRep := codec_der (kdcRep_codec TagTGSRep).
Definition enc_as_rep_part_der : Der EncKDCRepPart := codec_der (encKDCRepPart_codec TagEncASRepPart).
Definition enc_tgs_rep_part_der : Der EncKDCRepPart := codec_der (encKDCRepPart_codec TagEncTGSRepPart).

(** ** Round trips of the messages *)

(** A record whose numbers and times are in range ([typed] is evaluated on its
    fields) is encoded, and decodes to itself. *)
Definition roundtrips {T} (c : codec T) : Prop :=
  ∀ x, typed (c_type c) (c_put c x) = true →
  match to_der c x with
  | Ok d => of_der c d = Ok x
  | Err _ => False
  | Panic => True
  end.

Lemma codec_roundtrips {T} (c : codec T) :
  well_formed (c_type c) && (depth (c_type c) <=? S maxDepth)%nat = true → roundtrips c.
Proof.
  intros [Hwf Hd%Nat.leb_le]%andb_prop x Hx. unfold to_der, of_der.
  pose proof (codec_keeps (c_type c) (c_put c x) Hwf Hx Hd) as Hk.
  destruct (asn1_Marshal (c_type c) (c_put c x)) as [d| |]; [|done|done]. rewrite Hk. cbn [res_bind]. by rewrite c_get_put.
Qed.


Lemma of_der_no_panic {T} (c : codec T) data : zlen data < 2 ^ 32 → of_der c data ≠ Panic.
Proof.
  intros Hl. unfold of_der. pose proof (Unmarshal_typed (c_type c) data Hl) as Hs.
  destruct (asn1_Unmarshal (c_type c) data) as [v| |]; [|done|done]. cbn [res_bind]. by destruct (c_total c v Hs) as [x ->].
Qed.
