(* ===== verification/Asn1Total.v ===== *)
(** * Encoding small values (src/krb5/asn1/asn1.go)

    The encoder panics on an element of four gigabytes.  [vsize] bounds the
    encoding of a value by the strings in it; below that limit the encoder does not
    panic, so a message in range is encoded and decodes to itself; times lose their
    fractions of a second. *)

From S2P Require Import Prelude GoTime Principal Protocol Asn1 Wire.
Local Open Scope Z_scope.

Fixpoint vsize (v : gval) : Z :=
  match v with
  | VTime _ => 21
  | VNum _ => 16
  | VBool _ => 7
  | VStr s => zlen s + 6
  | VBytes s => zlen (default [] s) + 6
  | VSlice None => 6
  | VSlice (Some l) => 6 + (fix go l := match l with [] => 0 | v :: l => vsize v + go l end) l
  | VStruct l => 12 + (fix go l := match l with [] => 0 | v :: l => vsize v + 6 + go l end) l
  | VPtr None => 6
  | VPtr (Some v) => vsize v
  end.
Fixpoint items_size (l : list gval) : Z := match l with [] => 0 | v :: l => vsize v + items_size l end.
Fixpoint fields_size (l : list gval) : Z := match l with [] => 0 | v :: l => vsize v + 6 + fields_size l end.

(** Times of fifteen characters and unsigned numbers of four bytes. *)
Fixpoint compact (t : gtype) (v : gval) : bool :=
  match t, v with
  | TTime, VTime time => zlen (EncodeGeneralizedTime time) <=? 15
  | TGoTime, VTime time => zlen (format_time (Time time)) <=? 15
  | TUint _, VNum z => (0 <=? z) && (z <? 2 ^ 32)
  | TSlice t, VSlice (Some l) => forallb (compact t) l
  | TPtr t, VPtr (Some v) => compact t v
  | TStruct _ fs, VStruct vals =>
      (fix go (fs : list gfield) (vals : list gval) : bool :=
         match fs, vals with
         | (_, _, t) :: fs, v :: vals => compact t v && go fs vals
         | _, _ => true
         end) fs vals
  | _, _ => true
  end.
Fixpoint compacts (fs : list gfield) (vals : list gval) : bool :=
  match fs, vals with
  | (_, _, t) :: fs, v :: vals => compact t v && compacts fs vals
  | _, _ => true
  end.

(** An encoding of at most [n] bytes, or an error. *)
Definition within (n : Z) (r : res bytes) : Prop :=
  match r with Ok d => zlen d <= n | Err _ => True | Panic => False end.

Lemma within_bind {A} n (r : res A) k : r ≠ Panic → (∀ d, r = Ok d → within n (k d)) → within n (res_bind r k).
Proof. destruct r; [|done|done]. cbn. auto. Qed.
Lemma within_no_panic n r : within n r → r ≠ Panic.
Proof. by destruct r. Qed.
Lemma within_wrap n s r : within n r → within n (wrap_err s r).
Proof. by destruct r. Qed.

Lemma vsize_pos v : 6 <= vsize v.
Proof.
  revert v. fix IH 1. intros [| | | |s|[l|]|l|[p|]]; cbn [vsize]; try lia.
  - pose proof (zlen_nonneg s). lia.
  - pose proof (zlen_nonneg (default [] s)). lia.
  - assert (0 <= (fix go l := match l with [] => 0 | v :: l => vsize v + go l end) l); [|lia].
    induction l as [|v l IHl]; [done|]. pose proof (IH v). lia.
  - assert (0 <= (fix go l := match l with [] => 0 | v :: l => vsize v + 6 + go l end) l); [|lia].
    induction l as [|v l IHl]; [done|]. pose proof (IH v). lia.
  - apply IH.
Qed.
Lemma items_size_nonneg l : 0 <= items_size l.
Proof. induction l as [|v l IH]; cbn [items_size]; [lia|]. pose proof (vsize_pos v). lia. Qed.
Lemma fields_size_nonneg l : 0 <= fields_size l.
Proof. induction l as [|v l IH]; cbn [fields_size]; [lia|]. pose proof (vsize_pos v). lia. Qed.

(** ** Elements *)

Lemma encodeTLV_within tag content : zlen content < 2 ^ 32 → within (zlen content + 6) (encodeTLV tag content).
Proof.
  intros Hl. destruct (encodeTLV_total tag content Hl) as [d Hd]. rewrite Hd. cbn. unfold encodeTLV, encodeLength in Hd.
  destruct (_ <? 128).
  { assert (d = z2b tag :: [z2b (zlen content)] ++ content) as -> by (cbn [res_bind] in Hd; congruence). cbn [app]. autorewrite with zlen. lia. }
  pose proof (length_bytes_ok 4 (zlen content) [] (zlen_nonneg _)) as Hb. destruct (length_bytes 4 (zlen content) []) as [out| |]; [|done|done].
  destruct Hb as (pre & -> & Hp & _). cbn [res_bind] in Hd. assert (d = z2b tag :: (z2b (Z.lor 128 (zlen (pre ++ []))) :: pre ++ []) ++ content) as -> by congruence.
  cbn [app]. autorewrite with zlen. unfold zlen in *. lia.
Qed.
Lemma TLV_within n tag content : zlen content + 6 <= n → n < 2 ^ 32 → within n (encodeTLV tag content).
Proof. intros Hn Hl. pose proof (encodeTLV_within tag content ltac:(lia)) as Hw. destruct (encodeTLV tag content); cbn in *; [lia|done|done]. Qed.

Lemma strip_signed_le l : zlen (strip_signed l) <= zlen l.
Proof.
  induction l as [|a [|b l] IH]; [done|done|]. cbn [strip_signed]. case_match; [|done]. rewrite (zlen_cons a). cbn [strip_signed] in IH. lia.
Qed.
Lemma strip_zeros_le l : zlen (strip_zeros l) <= zlen l.
Proof.
  induction l as [|a [|b l] IH]; [done|done|]. cbn [strip_zeros]. case_match; [|done]. rewrite (zlen_cons a). cbn [strip_zeros] in IH. lia.
Qed.
Lemma encodeInteger_le z : zlen (encodeInteger z) <= 8.
Proof. unfold encodeInteger. pose proof (strip_signed_le (be_bytes 8 (u64 z))) as Hs. rewrite zlen_be_bytes in Hs. lia. Qed.
Lemma encodeUnsigned_within z : 0 <= z < 2 ^ 32 → within 9 (encodeUnsignedInteger z).
Proof.
  intros Hz. unfold encodeUnsignedInteger. change (be_bytes 8 z) with (z2b (Z.shiftr z 56) :: be_bytes 7 z).
  assert (Z.shiftr z 56 = 0) as -> by (rewrite Z.shiftr_div_pow2 by lia; apply Z.div_small; lia).
  change (be_bytes 7 z) with (z2b (Z.shiftr z 48) :: be_bytes 6 z). set (l := z2b (Z.shiftr z 48) :: be_bytes 6 z).
  change (strip_zeros (z2b 0 :: l)) with (strip_zeros l). pose proof (strip_zeros_le l) as Hl.
  assert (zlen l = 7) as Hl7 by (unfold l; autorewrite with zlen; lia). destruct (strip_zeros l) as [|a l'] eqn:Hs; [cbn; lia|].
  case_match; [|cbn in *; unfold zlen in *; cbn [length] in *; lia]. rewrite (proj2 (Nat.eqb_neq _ 8)) by (unfold zlen in *; lia).
  cbn [within]. autorewrite with zlen in *. lia.
Qed.

(** ** Values *)

Lemma readTLV_content data tag content end_ : readTLV data = Ok (tag, content, end_) → zlen content <= zlen data.
Proof.
  unfold readTLV. case_match; [done|]. destruct data as [|b data]; [done|]. destruct (readLength data) as [[len header]| |]; cbn [res_bind]; [|done|done].
  case_match; [done|]. intros Hc. assert (content = take (Z.to_nat len) (drop (Z.to_nat header) data)) as -> by congruence.
  unfold zlen. rewrite length_take, length_drop. cbn [length]. lia.
Qed.
Lemma wrap_field_within tag encoded : zlen encoded + 6 < 2 ^ 32 → within (zlen encoded + 6) (wrap_field tag encoded).
Proof.
  intros Hl. unfold wrap_field. case_match; [cbn; lia|]. case_match; [|apply TLV_within; lia].
  destruct (readTLV encoded) as [[[t c] e]| |] eqn:Hr; [|done|done]. apply readTLV_content in Hr. case_match; [done|]. apply TLV_within; lia.
Qed.
Ltac within_err := try match goal with |- within _ (Err _) => exact I end.
Lemma signed_within t v : within (vsize v) (encodeSignedInteger t v).
Proof.
  assert (Hn : ∀ z, within 16 (encodeTLV tagInteger (encodeInteger (i32 z)))) by (intros z; apply TLV_within; [pose proof (encodeInteger_le (i32 z)); lia|done]).
  destruct t as [| | | | | | | | | | | | |t], v as [| | | | | | |[v|]]; cbn [encodeSignedInteger]; within_err;
    try match goal with |- within _ (encodeTLV _ (encodeInteger (i32 ?z))) => exact (Hn z) end;
    destruct t; within_err; destruct v; within_err;
    match goal with |- within _ (encodeTLV _ (encodeInteger (i32 ?z))) => exact (Hn z) end.
Qed.

(** What is shown of the encoder of the values inside a value. *)
Definition encoder_within (rec : gtype → gval → res bytes) : Prop :=
  ∀ t v, compact t v = true → vsize v < 2 ^ 32 → within (vsize v) (rec t v).

Section values.
Context (rec : gtype → gval → res bytes) (Hrec : encoder_within rec).

Lemma items_within t l : forallb (compact t) l = true → items_size l < 2 ^ 32 → within (items_size l) (encode_items (rec t) l).
Proof using Hrec.
  induction l as [|v l IH]; intros Hc Hl; [done|]. cbn [forallb items_size encode_items] in *. apply andb_prop in Hc as [Hv Hc].
  pose proof (vsize_pos v). pose proof (items_size_nonneg l). specialize (IH Hc ltac:(lia)). pose proof (Hrec t v Hv ltac:(lia)) as Hw.
  destruct (rec t v) as [d| |]; cbn [res_bind within] in *; [|done|done]. destruct (encode_items (rec t) l) as [ds| |]; cbn [res_bind within] in *; [|done|done].
  autorewrite with zlen. lia.
Qed.
Lemma fields_within fs vals : compacts fs vals = true → fields_size vals < 2 ^ 32 → within (fields_size vals) (encode_fields rec fs vals).
Proof using Hrec.
  revert vals. induction fs as [|[[name raw] t] fs IH]; intros [|v vals] Hc Hl; cbn [compacts fields_size encode_fields within] in *;
    [done|pose proof (vsize_pos v); pose proof (fields_size_nonneg vals); rewrite zlen_nil; lia|done|].
  apply andb_prop in Hc as [Hv Hc]. pose proof (vsize_pos v). pose proof (fields_size_nonneg vals). specialize (IH vals Hc ltac:(lia)).
  apply within_bind; [apply parseFieldTag_no_panic|]. intros tag _. case_match.
  { destruct (encode_fields rec fs vals); cbn [within] in *; [lia|done|done]. }
  assert (Hw : within (vsize v) (in_field name (if match tag with Some tag => ft_signed tag | None => false end then encodeSignedInteger t v else rec t v))).
  { apply within_wrap. match goal with |- within _ (if ?b then _ else _) => destruct b end; [apply signed_within|apply Hrec; [done|lia]]. }
  destruct (in_field _ _) as [d| |]; cbn [res_bind within] in *; [|done|done].
  assert (Hf : within (zlen d + 6) (match tag with Some tag => wrap_field tag d | None => Ok d end)) by (destruct tag; [apply wrap_field_within; lia|cbn; lia]).
  destruct (match tag with Some tag => wrap_field tag d | None => Ok d end) as [d'| |]; cbn [res_bind within] in *; [|done|done].
  destruct (encode_fields rec fs vals) as [ds| |]; cbn [res_bind within] in *; [|done|done]. autorewrite with zlen. lia.
Qed.
(** A sequence leaves room for an application tag. *)
Lemma sequence_within fs vals : compacts fs vals = true → 12 + fields_size vals < 2 ^ 32 →
  within (6 + fields_size vals) (res_bind (encode_fields rec fs vals) (λ content, encodeTLV tagSequence content)).
Proof using Hrec.
  intros Hc Hl. pose proof (fields_within fs vals Hc ltac:(lia)) as Hf.
  destruct (encode_fields rec fs vals) as [ds| |]; cbn [res_bind within] in *; [|done|done]. apply TLV_within; lia.
Qed.
Lemma bare_within t v : compact t v = true → vsize v < 2 ^ 32 → within (vsize v) (encodeBare rec t v).
Proof using Hrec.
  intros Hc Hl. pose proof (vsize_pos v).
  destruct t as [| | | | | | |bits|bits| | |t|a fs|t], v as [tm|z|b|s|s|[l|]|vals|[v|]]; cbn [encodeBare]; within_err; cbn [compact vsize default id] in *.
  - apply TLV_within; lia.
  - apply TLV_within; lia.
  - cbn [within]. unfold EncodeFlags. autorewrite with zlen. lia.
  - by apply TLV_within.
  - destruct s as [s|]; cbn [default id] in *; case_match; within_err; by apply TLV_within.
  - destruct (readTLV _) as [[[? ?] ?]| |]; [|exact I|exact I]. case_match; [cbn [within]; destruct s; cbn [default id] in *; lia|exact I].
  - by apply TLV_within.
  - apply TLV_within; [pose proof (encodeInteger_le z); lia|lia].
  - pose proof (encodeUnsigned_within z ltac:(lia)) as Hu. destruct (encodeUnsignedInteger z); cbn [res_bind within] in *; [|done|done]. apply TLV_within; lia.
  - by apply TLV_within.
  - destruct s; cbn [default id] in *; by apply TLV_within.
  - change ((fix go l := match l with [] => 0 | v :: l => vsize v + go l end) l) with (items_size l) in *.
    pose proof (items_within t l Hc ltac:(lia)) as Hi. destruct (encode_items (rec t) l); cbn [res_bind within] in *; [|done|done]. apply TLV_within; lia.
  - cbn [encode_items res_bind]. apply TLV_within; [rewrite zlen_nil; lia|done].
  - change (12 + fields_size vals < 2 ^ 32) in Hl. change (within (12 + fields_size vals) (res_bind (encode_fields rec fs vals) (λ content, encodeTLV tagSequence content))).
    pose proof (sequence_within fs vals Hc ltac:(lia)) as Hs. destruct (res_bind (encode_fields rec fs vals) _); cbn [within] in *; [lia|done|done].
Qed.
End values.

Lemma choiceField_lookup fs vals tag i : choiceField fs vals = Some (tag, i) → ∃ f v, fs !! i = Some f ∧ vals !! i = Some v.
Proof.
  unfold choiceField. intros Hc. assert (Hin : (tag, i) ∈ choices (λ _ v, match v with VPtr None => false | _ => true end) fs vals).
  { destruct (choices _ fs vals) as [|x [|? ?]]; try discriminate Hc. cbn in Hc. injection Hc as ->. left. }
  unfold choices in Hin. apply list_elem_of_omap in Hin as ([j [f v]] & Hin & Hj). apply list_elem_of_lookup in Hin as [k Hk].
  rewrite list_lookup_imap in Hk. destruct (zip fs vals !! k) as [p|] eqn:Hz; [|done]. cbn in Hk. injection Hk as <- ->.
  destruct (is_choice f.1.2); cbn in Hj; [|done]. case_match; [|done]. injection Hj as -> ->.
  apply lookup_zip_with_Some in Hz as (f' & v' & [= -> ->] & Hf & Hv). eauto.
Qed.
Lemma compacts_lookup fs vals i f v : compacts fs vals = true → fs !! i = Some f → vals !! i = Some v → compact f.2 v = true.
Proof.
  revert vals i. induction fs as [|[[name raw] t] fs IH]; intros [|v0 vals] [|i] Hc Hf Hv; try discriminate; cbn in *; apply andb_prop in Hc as [H0 Hc].
  - by injection Hf as <-; injection Hv as <-.
  - by eapply IH.
Qed.
Lemma fields_size_lookup vals i v : vals !! i = Some v → vsize v + 6 <= fields_size vals.
Proof.
  revert i. induction vals as [|v0 vals IH]; intros [|i] Hv; try discriminate; cbn in *; pose proof (fields_size_nonneg vals); pose proof (vsize_pos v0).
  - injection Hv as ->. lia.
  - specialize (IH i Hv). lia.
Qed.

(** The encoder stays within the size of a value, and fails only with an error. *)
Lemma encode_within left : encoder_within (encodeValue left).
Proof.
  induction left as [left IH] using lt_wf_ind. intros t v Hc Hl. destruct left as [|below]; [exact I|].
  assert (Hb : encoder_within (encodeValue below)) by (apply IH; lia).
  destruct t as [| | | | | | | | | | | |[n|] fs|t]; try (apply (bare_within (encodeValue below) Hb); assumption).
  - destruct below as [|b]; [exact I|]. rewrite encode_application. assert (Hb' : encoder_within (encodeValue b)) by (apply IH; lia).
    destruct v as [| | | | | |vals|]; try exact I. cbn [encodeBare].
    pose proof (sequence_within (encodeValue b) Hb' fs vals Hc Hl) as Hs. change (vsize (VStruct vals)) with (12 + fields_size vals) in *.
    destruct (res_bind (encode_fields (encodeValue b) fs vals) _) as [d| |]; cbn [res_bind within] in *; [|done|done]. apply TLV_within; lia.
  - destruct v as [| | | | | |vals|]; try exact I. change (vsize (VStruct vals)) with (12 + fields_size vals) in *. cbn [encodeValue].
    destruct (choiceField fs vals) as [[tag i]|] eqn:Hch.
    + destruct (choiceField_lookup _ _ _ _ Hch) as (f & v & Hf & Hv). rewrite Hf, Hv. pose proof (fields_size_lookup _ _ _ Hv).
      pose proof (Hb f.2 v (compacts_lookup _ _ _ _ _ Hc Hf Hv) ltac:(lia)) as Hw. destruct (encodeValue below f.2 v); cbn [res_bind within] in *; [|done|done]. apply TLV_within; lia.
    + apply (bare_within (encodeValue below) Hb (TStruct None fs) (VStruct vals)); [done|exact Hl].
  - destruct v as [| | | | | | |[v|]]; try exact I. exact (Hb t v Hc Hl).
Qed.

(** Values in range are compact. *)
Lemma time_compact t : time_ok t = true → zlen (EncodeGeneralizedTime t) <= 15 ∧ zlen (format_time (Time t)) <= 15.
Proof.
  intros Ht. destruct (time_roundtrip t Ht) as (_ & _ & ->). unfold time_ok in Ht. rewrite !andb_true_iff, Z.leb_le, Z.ltb_lt in Ht.
  destruct (format_time_digits (Time t)) as (ds & -> & Hl & _); [lia|]. autorewrite with zlen. unfold zlen. rewrite Hl. cbn. lia.
Qed.
Lemma absent_compact t v : absent t v = true → compact t v = true.
Proof. by destruct t, v as [| | | |[]|[]| |[]]. Qed.
Lemma typed_compact t v : typed t v = true → compact t v = true.
Proof.
  revert v. induction t as [t Hb|t IH|t IH|a fs IH] using gtype_induction; intros v Hv.
  - destruct t, v; try done; cbn [typed compact] in *; try (apply time_compact in Hv; lia).
    rewrite !andb_true_iff in Hv. apply andb_true_intro. tauto.
  - destruct v as [| | | | |[l|]| |]; try done. cbn [typed compact] in *. rewrite forallb_forall in *. auto.
  - destruct v as [| | | | | | |[v|]]; try done. by apply IH.
  - destruct v as [| | | | | |vals|]; try done. rewrite typed_struct in Hv. change (compacts fs vals = true).
    revert vals Hv. induction IH as [|[[name raw] t] fs Ht _ IH]; intros [|v vals] Hv; try done. cbn [typed_fields compacts] in *.
    apply andb_prop in Hv as [Hv Hvs]. apply andb_true_intro. split; [|by apply IH]. apply orb_prop in Hv as [Hv|Hv]; [|by apply Ht].
    destruct (parseFieldTag raw) as [[tag|]| |]; try done. apply andb_prop in Hv as [_ Hv]. by apply absent_compact.
Qed.

(** A message in range whose size is below the limit is encoded, within that
    size, and decodes to itself. *)
Lemma to_der_ok {T} (c : codec T) (x : T) :
  well_formed (c_type c) && (depth (c_type c) <=? S maxDepth)%nat = true →
  typed (c_type c) (c_put c x) = true → vsize (c_put c x) < 2 ^ 32 →
  ∃ d, to_der c x = Ok d ∧ of_der c d = Ok x ∧ zlen d <= vsize (c_put c x).
Proof.
  intros Hwf Ht Hs. pose proof (codec_roundtrips c Hwf x Ht) as Hr.
  pose proof (encode_within (S maxDepth) (c_type c) (c_put c x) (typed_compact _ _ Ht) Hs) as Hw.
  unfold to_der, asn1_Marshal in *. destruct (encodeValue _ _ _) as [d| |]; cbn [wrap_err within] in *; [|done|done]. eauto.
Qed.

(** ** Times within a second *)

(** The encoder drops the fractions of a second. *)
Fixpoint whole (v : gval) : gval :=
  match v with
  | VTime t => VTime (mkKTime (Time t / nanos * nanos) 0 (Present t))
  | VSlice (Some l) => VSlice (Some (map whole l))
  | VStruct l => VStruct (map whole l)
  | VPtr (Some v) => VPtr (Some (whole v))
  | _ => v
  end.

Lemma format_whole t : format_time (t / nanos * nanos) = format_time t.
Proof. unfold format_time. by rewrite Z.div_mul. Qed.
Lemma isAbsent_whole v : isAbsent (whole v) = isAbsent v.
Proof. destruct v as [| | | | |[[]|]| |[|]]; reflexivity. Qed.
Lemma signed_whole t v : encodeSignedInteger t (whole v) = encodeSignedInteger t v.
Proof. destruct v as [| | | | |[|]| |[[| | | | |[|]| |[|]]|]]; reflexivity. Qed.

Section whole.
Context (rec : gtype → gval → res bytes) (Hrec : ∀ t v, rec t (whole v) = rec t v).
Lemma items_whole t l : encode_items (rec t) (map whole l) = encode_items (rec t) l.
Proof. induction l as [|v l IH]; [done|]. cbn [map encode_items]. by rewrite Hrec, IH. Qed.
Lemma fields_whole fs vals : encode_fields rec fs (map whole vals) = encode_fields rec fs vals.
Proof.
  revert vals. induction fs as [|[[name raw] t] fs IH]; intros [|v vals]; [done..|]. cbn [map encode_fields].
  by rewrite isAbsent_whole, signed_whole, Hrec, IH.
Qed.
Lemma bare_whole t v : encodeBare rec t (whole v) = encodeBare rec t v.
Proof.
  destruct t, v as [time| | | | |[l|]|vals|[|]]; try reflexivity; cbn [whole encodeBare].
  - unfold EncodeGeneralizedTime. cbn [Present Time]. by rewrite format_whole.
  - cbn [Time]. by rewrite format_whole.
  - cbn [from_option id]. by rewrite items_whole.
  - by rewrite fields_whole.
Qed.
End whole.

Lemma choices_whole (P : Z → gval → bool) (fs : list gfield) (vals : list gval) (k : nat) : (∀ n v, P n (whole v) = P n v) →
  omap (λ '(i, (f, v)), n ← is_choice f.1.2; if P n v then Some (n, i) else None) (imap (λ i, pair (k + i)%nat) (zip fs (map whole vals))) =
  omap (λ '(i, (f, v)), n ← is_choice f.1.2; if P n v then Some (n, i) else None) (imap (λ i, pair (k + i)%nat) (zip fs vals)).
Proof.
  intros HP. revert vals k. induction fs as [|f fs IH]; intros [|v vals] k; [done..|]. cbn [map zip zip_with imap omap list_omap].
  assert (Hs : ∀ l : list (gfield * gval), imap ((λ i, pair (k + i)%nat) ∘ S) l = imap (λ i, pair (S k + i)%nat) l).
  { intros l. apply imap_ext. intros i x _. cbn. f_equal. lia. }
  rewrite !Hs. specialize (IH vals (S k)).
  destruct (is_choice f.1.2); cbn; [rewrite HP; case_match; [by f_equal|done]|done].
Qed.
Lemma choiceField_whole fs vals : choiceField fs (map whole vals) = choiceField fs vals.
Proof.
  unfold choiceField, choices. f_equal. apply (choices_whole (λ _ v, match v with VPtr None => false | _ => true end) fs vals 0).
  by intros _ [| | | | |[|]| |[|]].
Qed.
Lemma lookup_whole (vals : list gval) i : map whole vals !! i = whole <$> vals !! i.
Proof. apply list_lookup_fmap. Qed.

Lemma encode_whole left : ∀ t v, encodeValue left t (whole v) = encodeValue left t v.
Proof.
  induction left as [left IH] using lt_wf_ind. intros t v. destruct left as [|below]; [done|].
  destruct t as [| | | | | | | | | | | |[app|] fs|t]; try (cbn [encodeValue]; apply bare_whole; intros; apply IH; lia).
  - cbn [encodeValue]. destruct below as [|below]; [done|]. rewrite bare_whole; [done|]. intros; apply IH; lia.
  - destruct v as [| | | | |[|]|vals|[|]]; try reflexivity. cbn [whole encodeValue]. rewrite choiceField_whole.
    destruct (choiceField fs vals) as [[tag i]|].
    + rewrite lookup_whole. destruct (fs !! i), (vals !! i); cbn [fmap option_fmap option_map]; [|done..]. by rewrite IH by lia.
    + apply (bare_whole (encodeValue below) (IH below (Nat.lt_succ_diag_r below)) _ (VStruct vals)).
  - destruct v as [| | | | |[|]|vals|[|]]; try reflexivity. cbn [whole encodeValue]. apply IH. lia.
Qed.

(** Values in range have whole seconds. *)
Lemma typed_whole t v : typed t v = true → whole v = v.
Proof.
  revert v. induction t as [t Hb|t IH|t IH|a fs IH] using gtype_induction; intros v Hv.
  - destruct t, v as [time| | | | |[]|[]|[]]; try done; cbn [typed whole] in *; unfold time_ok in Hv; rewrite !andb_true_iff, !Z.eqb_eq in Hv;
      destruct time as [time u p]; cbn in *; destruct Hv as ((((-> & ->) & Hm) & _) & _); apply Z.div_exact in Hm; try done; do 2 f_equal; lia.
  - destruct v as [| | | | |[l|]| |]; try done. cbn [typed whole] in *. do 2 f_equal. rewrite forallb_forall in Hv.
    rewrite <- (map_id l) at 2. apply map_ext_in. auto.
  - destruct v as [| | | | | | |[v|]]; try done. cbn [whole]. by rewrite IH.
  - destruct v as [| | | | | |vals|]; try done. rewrite typed_struct in Hv. cbn [whole]. f_equal.
    revert vals Hv. induction IH as [|[[name raw] t] fs Ht _ IH]; intros [|v vals] Hv; try done. cbn [typed_fields map] in *.
    apply andb_prop in Hv as [Hv Hvs]. rewrite IH by done. f_equal. apply orb_prop in Hv as [Hv|Hv]; [|by apply Ht].
    destruct (parseFieldTag raw) as [[tag|]| |]; try done. apply andb_prop in Hv as [_ Hv]. by destruct t, v as [| | | |[]|[]| |[]].
Qed.

(** A message is encoded as the one with whole seconds, to which it decodes. *)
Lemma to_der_whole {T} (c : codec T) (x x' : T) : c_put c x' = whole (c_put c x) → to_der c x = to_der c x'.
Proof. intros Hx. unfold to_der, asn1_Marshal. by rewrite Hx, encode_whole. Qed.
Lemma to_der_truncates {T} (c : codec T) (x x' : T) :
  well_formed (c_type c) && (depth (c_type c) <=? S maxDepth)%nat = true → c_put c x' = whole (c_put c x) →
  typed (c_type c) (c_put c x') = true → vsize (c_put c x') < 2 ^ 32 →
  ∃ d, to_der c x = Ok d ∧ of_der c d = Ok x' ∧ zlen d <= vsize (c_put c x').
Proof. intros Hwf Hx. rewrite (to_der_whole c x x') by done. by apply to_der_ok. Qed.

(** ** Application tags *)

Lemma encode_app_tag left n fs v d :
  encodeValue left (TStruct (Some n) fs) v = Ok d → ∃ rest, d = z2b (app_tag n) :: rest.
Proof.
  destruct left as [|[|left]]; [done..|]. cbn [encodeValue]. destruct (encodeBare _ _ _) as [inner| |]; [|done..]. cbn [res_bind].
  unfold encodeTLV. destruct (encodeLength _) as [l| |]; [|done..]. cbn [res_bind]. intros Hd. apply Ok_inj in Hd as <-. by eexists.
Qed.
Lemma to_der_app_tag {T} (c : codec T) (x : T) n fs d :
  c_type c = TStruct (Some n) fs → to_der c x = Ok d → ∃ rest, d = z2b (app_tag n) :: rest.
Proof.
  intros Ht. unfold to_der, asn1_Marshal. rewrite Ht. destruct (encodeValue _ _ _) as [d'| |] eqn:He; [|done..].
  cbn [wrap_err]. intros Hd. apply Ok_inj in Hd as <-. by eapply encode_app_tag.
Qed.
Lemma decode_app_tag left n fs b rest v : decodeValue left (b :: rest) (TStruct (Some n) fs) = Ok v → b2z b = app_tag n.
Proof.
  destruct left as [|left]; [done|]. cbn [decodeValue]. unfold readTLV at 1. case_match; [done|].
  destruct (readLength rest) as [[len h]| |]; [|done..]. cbn [res_bind]. case_match; [done|]. cbn [res_bind]. case_match; [done|].
  by destruct (Z.eqb_spec (b2z b) (app_tag n)).
Qed.
Lemma of_der_app_tag {T} (c : codec T) (x : T) n fs b rest :
  c_type c = TStruct (Some n) fs → of_der c (b :: rest) = Ok x → b2z b = app_tag n.
Proof.
  intros Ht. unfold of_der, asn1_Unmarshal. rewrite Ht.
  destruct (readTLV (b :: rest)) as [[[tag content] end_]| |]; [|done..]. cbn [res_bind]. case_match; [done|].
  destruct (decodeValue _ _ _) eqn:Hd; [|done..]. intros _. by eapply decode_app_tag.
Qed.
