(* ===== verification/Messages.v ===== *)
(** * Messages in range

    When the messages of an exchange have an encoding: numbers within their widths,
    times of four-digit years, and a bound on the size, which is the sum over the
    fields.  [fits c n x] says so of the value [x]; it is then encoded within [n]
    bytes and decodes to itself, up to the fractions of a second. *)

From S2P Require Import Prelude GoTime Principal Protocol Asn1 Wire Asn1Total.
Local Open Scope Z_scope.

Record fits {T} (c : codec T) (n : Z) (x : T) : Prop := mkFits {
  fits_typed : typed (c_type c) (c_put c x) = true;
  fits_size : vsize (c_put c x) <= n;
}.
Definition fits_fields (fs : list gfield) (vals : list gval) (n : Z) : Prop := typed_fields fs vals = true ∧ fields_size vals <= n.

(** A codec whose type the library can encode. *)
Definition sound {T} (c : codec T) : Prop := well_formed (c_type c) && (depth (c_type c) <=? S maxDepth)%nat = true.

(** The two values differ in the fractions of a second. *)
Lemma marshal_fits {T} (c : codec T) x x' n :
  sound c → whole (c_put c x) = whole (c_put c x') → fits c n x' → n < 2 ^ 32 →
  ∃ d, to_der c x = Ok d ∧ of_der c d = Ok x' ∧ zlen d <= n.
Proof.
  intros Hs Hx [Ht Hn] Hl. rewrite (typed_whole _ _ Ht) in Hx.
  destruct (to_der_truncates c x x') as (d & Hd & Ho & Hz); [done|done|done|lia|]. exists d. split_and!; [done..|lia].
Qed.

Lemma encoded_fits {T} (c : codec T) x n :
  sound c → fits c n x → n < 2 ^ 32 → ∃ d, to_der c x = Ok d ∧ of_der c d = Ok x ∧ zlen d <= n.
Proof. intros Hs [Ht Hn] Hl. destruct (to_der_ok c x) as (d & Hd & Ho & Hz); [done|done|lia|]. exists d. split_and!; [done..|lia]. Qed.

(** ** Fields *)

Lemma fits_weaken {T} (c : codec T) n m x : fits c n x → n <= m → fits c m x.
Proof. intros [Ht Hs] Hn. split; [done|lia]. Qed.
Lemma fits_nil n : 0 <= n → fits_fields [] [] n.
Proof. done. Qed.
(** A field is present; or it is optional and absent. *)
Lemma fits_cons {T} name tag (c : codec T) x fs vals n m :
  fits c n x → fits_fields fs vals m → fits_fields (field name tag c :: fs) (c_put c x :: vals) (n + 6 + m).
Proof.
  intros [Ht Hs] [Hf Hm]. split; [|cbn [fields_size]; lia]. cbn [typed_fields field]. by rewrite Ht, Hf, orb_true_r.
Qed.
Lemma fits_skip {T} name tag (c : codec T) x fs vals m :
  match parseFieldTag (Some (str tag)) with Ok (Some t) => ft_optional t | _ => false end = true → absent (c_type c) (c_put c x) = true →
  fits_fields fs vals m → fits_fields (field name tag c :: fs) (c_put c x :: vals) (12 + m).
Proof.
  intros Ho Ha [Hf Hm]. split.
  - cbn [typed_fields field]. rewrite Hf, Ha. destruct (parseFieldTag _) as [[t|]| |]; [by rewrite Ho|done..].
  - cbn [fields_size]. assert (vsize (c_put c x) = 6); [|lia].
    destruct (c_type c), (c_put c x) as [| | | |[|]|[|]| |[|]]; try discriminate Ha; reflexivity.
Qed.
Lemma vsize_struct l : vsize (VStruct l) = 12 + fields_size l.
Proof. reflexivity. Qed.
Lemma fits_struct {T} (c : codec T) x app fs vals n :
  c_type c = TStruct app fs → c_put c x = VStruct vals → fits_fields fs vals n → fits c (12 + n) x.
Proof. intros Ht Hv [Hf Hn]. split; rewrite ?Ht, Hv, ?typed_struct, ?vsize_struct; [done|lia]. Qed.

Lemma fits_int32 z : - 2 ^ 31 <= z < 2 ^ 31 → fits int32 16 z.
Proof. intros Hz. split; [|done]. cbn. unfold fits_int. change (2 ^ (32 - 1)) with (2 ^ 31). lia. Qed.
Lemma fits_uint32 z : 0 <= z < 2 ^ 32 → fits uint32 16 z.
Proof. intros Hz. split; [|done]. cbn. lia. Qed.
Lemma fits_flags32 z : 0 <= z < 2 ^ 32 → fits flags32 16 z.
Proof. intros Hz. split; [|done]. cbn. lia. Qed.
Lemma fits_text s : fits text (6 + zlen s) s.
Proof. split; [done|]. cbn. lia. Qed.
Lemma fits_octets s : fits octets (6 + zlen s) s.
Proof. destruct s as [|b s]; (split; [done|]); cbn [octets c_put copied vsize from_option id]; lia. Qed.
Lemma fits_ktime t : time_ok t = true → fits ktime 21 t.
Proof. by split. Qed.
Lemma fits_ptr {T} (c : codec T) n x : fits c n x → fits (ptr c) n (Some x).
Proof. intros [Ht Hs]. by split. Qed.

(** The size of a list. *)
Definition sum_size {T} (size : T → Z) (l : list T) : Z := foldr (λ x n, size x + n) 0 l.
Lemma fits_items {T} (c : codec T) size l :
  Forall (λ x, fits c (size x) x) l → forallb (typed (c_type c)) (c_put c <$> l) = true ∧ items_size (c_put c <$> l) <= sum_size size l.
Proof.
  induction 1 as [|x l [Ht Hs] _ [IHt IHs]]; [done|].
  rewrite fmap_cons. unfold sum_size in *. cbn [forallb items_size foldr]. rewrite Ht, IHt. split; [done|lia].
Qed.
Lemma vsize_slice l : vsize (VSlice (Some l)) = 6 + items_size l.
Proof. reflexivity. Qed.
Lemma fits_slice {T} (c : codec T) size l : Forall (λ x, fits c (size x) x) l → fits (slice c) (6 + sum_size size l) l.
Proof.
  intros [Ht Hs]%fits_items. split; [done|]. change (c_put (slice c) l) with (VSlice (Some (c_put c <$> l))). rewrite vsize_slice. lia.
Qed.
Lemma fits_opt_slice {T} (c : codec T) size l :
  l ≠ [] → Forall (λ x, fits c (size x) x) l → fits (opt_slice c) (6 + sum_size size l) l.
Proof. destruct l as [|x l]; [done|]. intros _ [Ht Hs]%(fits_slice c size). by split. Qed.

(** ** Records *)

Ltac fits_value :=
  first [ apply fits_int32; cbn; lia | apply fits_uint32; cbn; lia | apply fits_flags32; cbn; lia | apply fits_text | apply fits_octets
        | apply fits_ktime; cbn; assumption | apply fits_ptr; fits_value | solve [eauto with fits] ].
Ltac fits_fields_tac :=
  first [ apply fits_nil; reflexivity
        | eapply fits_skip; [vm_compute; reflexivity|reflexivity|fits_fields_tac]
        | eapply fits_cons; [fits_value|fits_fields_tac] ].
(** The fields one by one; what is left is the sum of their sizes. *)
Ltac fits_record := eapply fits_weaken; [eapply fits_struct; [reflexivity|reflexivity|fits_fields_tac]|].

Create HintDb fits.
Definition name_ok (p : PrincipalName) : Prop := - 2 ^ 31 <= NameType_ p < 2 ^ 31.
Definition name_size (p : PrincipalName) : Z := 46 + sum_size (λ s, 6 + zlen s) (NameString p).
Lemma fits_name p : name_ok p → fits principalName_codec (name_size p) p.
Proof.
  intros Hp. assert (Hs : fits (slice text) (6 + sum_size (λ s, 6 + zlen s) (NameString p)) (NameString p)).
  { apply fits_slice. rewrite Forall_forall. intros s _. apply fits_text. }
  unfold name_ok in Hp. fits_record. unfold name_size. lia.
Qed.
#[export] Hint Resolve fits_name : fits.
Lemma sum_size_nonneg {T} (size : T → Z) l : (∀ x, 0 <= size x) → 0 <= sum_size size l.
Proof. intros Hs. unfold sum_size. induction l as [|x l IH]; cbn [foldr]; [lia|]. specialize (Hs x). lia. Qed.
Lemma name_size_pos p : 46 <= name_size p.
Proof. unfold name_size. pose proof (sum_size_nonneg (λ s, 6 + zlen s) (NameString p) ltac:(intros x; pose proof (zlen_nonneg x); lia)). lia. Qed.

Definition pa_ok (pa : PAData) : Prop := - 2 ^ 31 <= PADataType pa < 2 ^ 31.
Definition pa_size (pa : PAData) : Z := 46 + zlen (PADataValue pa).
Lemma fits_pa pa : pa_ok pa → fits paData_codec (pa_size pa) pa.
Proof. unfold pa_ok. intros Hp. fits_record. unfold pa_size. lia. Qed.
Lemma fits_method_data l : Forall pa_ok l → fits (slice paData_codec) (6 + sum_size pa_size l) l.
Proof. intros Hl. apply fits_slice. eapply Forall_impl; [exact Hl|]. intros pa. apply fits_pa. Qed.
Lemma fits_padata l : l ≠ [] → Forall pa_ok l → fits (opt_slice paData_codec) (6 + sum_size pa_size l) l.
Proof. intros Hn Hl. apply fits_opt_slice; [done|]. eapply Forall_impl; [exact Hl|]. intros pa. apply fits_pa. Qed.

Definition enc_ok (e : EncryptedData) : Prop :=
  - 2 ^ 31 <= ed_EType e < 2 ^ 31 ∧ match ed_KVNO e with Some kvno => 0 <= kvno < 2 ^ 32 | None => True end.
Definition enc_size (e : EncryptedData) : Z := 68 + zlen (ed_Cipher e).
Lemma fits_enc e : enc_ok e → fits encryptedData_codec (enc_size e) e.
Proof.
  unfold enc_ok. destruct e as [etype [kvno|] cipher]; cbn; intros [He Hk]; fits_record; unfold enc_size; cbn; lia.
Qed.
Definition key_ok (k : EncryptionKey) : Prop := - 2 ^ 31 <= KeyType k < 2 ^ 31.
Lemma fits_key k : key_ok k → fits encryptionKey_codec (46 + zlen (KeyValue k)) k.
Proof. unfold key_ok. intros Hk. fits_record. lia. Qed.
#[export] Hint Resolve fits_pa fits_method_data fits_padata fits_enc fits_key : fits.

Definition ticket_ok (t : Ticket) : Prop := - 2 ^ 31 <= t_TktVNO t < 2 ^ 31 ∧ name_ok (t_SName t) ∧ enc_ok (t_EncPart t).
Definition ticket_size (t : Ticket) : Z := 64 + zlen (t_Realm t) + name_size (t_SName t) + enc_size (t_EncPart t).
Lemma fits_ticket t : ticket_ok t → fits ticket_codec (ticket_size t) t.
Proof. intros (Hv & Hn & He). fits_record. unfold ticket_size. lia. Qed.
#[export] Hint Resolve fits_ticket : fits.

(** A time of whole seconds, which the calendar format can hold. *)
Definition whole_time (t : Z) : Z := t / nanos * nanos.
Definition year_ok (t : Z) : Prop := 0 <= year_of t < 10000.
Lemma time_ok_at t : t mod nanos = 0 → year_ok t → time_ok (at_time t) = true.
Proof. intros Hm [Hy0 Hy1]. unfold time_ok. cbn [at_time Present Microseconds Time]. rewrite Hm. lia. Qed.
Lemma whole_time_mod t : whole_time t mod nanos = 0.
Proof. unfold whole_time. by rewrite Z.mod_mul. Qed.
Lemma whole_time_id t : t mod nanos = 0 → whole_time t = t.
Proof. intros Hm. unfold whole_time. rewrite (Z.div_mod t nanos) at 2 by done. rewrite Hm. lia. Qed.
Lemma year_whole t : year_of (whole_time t) = year_of t.
Proof. unfold year_of, whole_time. by rewrite Z.div_mul. Qed.

(** The times of the current calendar: from the epoch for some seventy-five centuries. *)
Definition last_instant : Z := 240000000000 * nanos.
Lemma calendar_year t : 0 <= t < last_instant → year_ok t.
Proof.
  intros Ht. unfold year_ok, year_of, date_of_days, date_of_doe.
  assert (Hd : 719468 <= t / nanos / day_secs + epoch_shift < 24 * era_days).
  { unfold last_instant, nanos, day_secs, epoch_shift, era_days in *. Z.to_euclidean_division_equations; lia. }
  set (z := t / nanos / day_secs + epoch_shift) in *. pose proof (Z.mod_pos_bound z era_days ltac:(done)).
  destruct (find_year_spec 399 (z mod era_days) ltac:(lia) ltac:(by right)) as (Hy & _ & _).
  assert (0 <= z / era_days <= 23) by (unfold era_days in *; Z.to_euclidean_division_equations; lia).
  cbv zeta. cbn [fst]. destruct (_ <=? 2); lia.
Qed.
Lemma calendar_time t : t mod nanos = 0 → 0 <= t < last_instant → time_ok (at_time t) = true.
Proof. intros. by apply time_ok_at, calendar_year. Qed.

(** The time stamp of a client. *)
Lemma fits_timestamp t : time_ok t = true → fits encTimestamp_codec 100 (mkEncTS t None).
Proof. intros Ht. fits_record. lia. Qed.

(** The body of a client's request. *)
Lemma fits_etypes l : Forall (λ z, - 2 ^ 31 <= z < 2 ^ 31) l → fits (slice int32) (6 + 16 * Z.of_nat (length l)) l.
Proof.
  intros Hl. eapply fits_weaken.
  - apply (fits_slice int32 (λ _, 16)). eapply Forall_impl; [exact Hl|]. intros z. apply fits_int32.
  - clear Hl. unfold sum_size. induction l as [|z l IH]; cbn [foldr length]; lia.
Qed.
Definition addr_size (a : HostAddress) : Z := 46 + zlen (Address a).
Lemma fits_addresses l :
  l ≠ [] → Forall (λ a, - 2 ^ 31 <= AddrType a < 2 ^ 31) l → fits (opt_slice hostAddress_codec) (6 + sum_size addr_size l) l.
Proof.
  intros Hn Hl. apply fits_opt_slice; [done|]. eapply Forall_impl; [exact Hl|]. intros a Ha. cbv beta in Ha. fits_record. unfold addr_size. lia.
Qed.
#[export] Hint Resolve fits_etypes fits_addresses : fits.

Record body_ok (b : KDCReqBody) : Prop := mkBodyOk {
  bo_options : 0 <= b_KDCOptions b < 2 ^ 32;
  bo_cname : ∃ cname, b_CName b = Some cname ∧ name_ok cname;
  bo_sname : ∃ sname, b_SName b = Some sname ∧ name_ok sname;
  bo_till : time_ok (b_Till b) = true;
  bo_nonce : 0 <= b_Nonce b < 2 ^ 32;
  bo_etypes : Forall (λ z, - 2 ^ 31 <= z < 2 ^ 31) (b_EType b);
  bo_addresses : Forall (λ a, - 2 ^ 31 <= AddrType a < 2 ^ 31) (b_Addresses b);
  bo_none : b_From b = None ∧ b_RTime b = None ∧ b_EncAuthorizationData b = None ∧ b_AdditionalTickets b = [];
}.
Definition names_size (b : KDCReqBody) : Z :=
  match b_CName b with Some n => name_size n | None => 0 end + match b_SName b with Some n => name_size n | None => 0 end.
Definition body_size (b : KDCReqBody) : Z :=
  256 + names_size b + zlen (b_Realm b) + 16 * Z.of_nat (length (b_EType b)) + sum_size addr_size (b_Addresses b).
Lemma fits_body b : body_ok b → fits kdcReqBody_codec (body_size b) b.
Proof.
  intros [Ho (cname & Hc & Hcn) (sname & Hs & Hsn) Ht Hn He Ha (Hf & Hr & Hd & Hk)].
  destruct b as [options cname' realm sname' from till rtime nonce etypes addresses encad tickets]. cbn in *. subst.
  destruct addresses as [|a addresses].
  - fits_record. unfold body_size, names_size, sum_size. cbn. lia.
  - pose proof (fits_addresses (a :: addresses) ltac:(done) Ha). fits_record. unfold body_size, names_size. cbn [b_CName b_SName b_Realm b_EType b_Addresses]. lia.
Qed.
#[export] Hint Resolve fits_body : fits.

Definition req_size (r : KDCReq) : Z := 80 + sum_size pa_size (r_PAData r) + body_size (r_ReqBody r).
Lemma fits_req app r :
  - 2 ^ 31 <= r_PVNO r < 2 ^ 31 → - 2 ^ 31 <= r_MsgType r < 2 ^ 31 → Forall pa_ok (r_PAData r) → body_ok (r_ReqBody r) →
  fits (kdcReq_codec app) (req_size r) r.
Proof.
  intros Hv Hm Hp Hb. destruct r as [v m [|pa pas] b]; cbn in *.
  - fits_record. unfold req_size, sum_size. cbn [r_PAData r_ReqBody foldr]. lia.
  - pose proof (fits_padata (pa :: pas) ltac:(done) Hp). fits_record. unfold req_size. cbn [r_PAData r_ReqBody]. lia.
Qed.

(** An error with data for the client. *)
Definition error_size (e : KRBError) : Z := 260 + zlen (err_Realm e) + name_size (err_SName e) + zlen (err_EData e).
Lemma fits_error stime susec code realm sname data :
  time_ok stime = true → 0 <= susec < 1000000 → - 2 ^ 31 <= code < 2 ^ 31 → name_ok sname →
  let e := mkKrbError 5 30 None None stime susec code None None realm sname None data in fits krbError_codec (error_size e) e.
Proof.
  intros Ht Hs Hc Hn e. subst e. destruct data as [|b data].
  - fits_record. unfold error_size. cbn [err_Realm err_SName err_EData]. unfold zlen. cbn [length]. lia.
  - fits_record. unfold error_size. cbn [err_Realm err_SName err_EData]. lia.
Qed.

Lemma fits_etype_info id salt :
  - 2 ^ 31 <= id < 2 ^ 31 → fits (slice eTypeInfo2Entry_codec) (80 + zlen salt) [mkEInfo2 id (Some salt) []].
Proof.
  intros Hid. eapply fits_weaken.
  - apply (fits_slice eTypeInfo2Entry_codec (λ _, 64 + zlen salt)). constructor; [|constructor]. fits_record. lia.
  - unfold sum_size. cbn. lia.
Qed.

(** The ticket, the reply part and the reply of an initial exchange. *)
Definition renew_ok (t : option KerberosTime) : Prop := match t with Some t => time_ok t = true | None => True end.
Lemma fits_transited : fits transitedEncoding_codec 64 (mkTransited 0 []).
Proof. fits_record. by vm_compute. Qed.
#[export] Hint Resolve fits_transited : fits.
Lemma fits_ticket_part flags key realm name auth start end_ renew :
  0 <= flags < 2 ^ 32 → key_ok key → name_ok name → time_ok auth = true → time_ok start = true → time_ok end_ = true → renew_ok renew →
  fits encTicketPart_codec (400 + zlen (KeyValue key) + zlen realm + name_size name)
    (mkTicketPart flags key realm name (mkTransited 0 []) auth (Some start) end_ renew [] []).
Proof. intros Hf Hk Hn Ha Hs He Hr. destruct renew as [renew|]; cbn in Hr; fits_record; cbn [tp_Key tp_CRealm tp_CName]; lia. Qed.

Lemma fits_last_req t : time_ok t = true → fits (slice lastReqEntry_codec) 80 [mkLastReq 0 t].
Proof.
  intros Ht. eapply fits_weaken.
  - apply (fits_slice lastReqEntry_codec (λ _, 70)). constructor; [|constructor]. fits_record. lia.
  - unfold sum_size. cbn. lia.
Qed.
#[export] Hint Resolve fits_last_req : fits.
Lemma fits_rep_part app key nonce flags auth start end_ renew realm name :
  key_ok key → 0 <= nonce < 2 ^ 32 → 0 <= flags < 2 ^ 32 → time_ok auth = true → time_ok start = true → time_ok end_ = true → renew_ok renew →
  name_ok name →
  fits (encKDCRepPart_codec app) (500 + zlen (KeyValue key) + zlen realm + name_size name)
    (mkRepPart key [mkLastReq 0 auth] nonce None flags auth (Some start) end_ renew realm name []).
Proof. intros Hk Hno Hf Ha Hs He Hr Hn. destruct renew as [renew|]; cbn in Hr; fits_record; cbn [ep_Key ep_SRealm ep_SName]; lia. Qed.

Lemma fits_rep app realm name ticket enc :
  name_ok name → ticket_ok ticket → enc_ok enc →
  fits (kdcRep_codec app) (200 + zlen realm + name_size name + ticket_size ticket + enc_size enc) (mkRep 5 11 [] realm name ticket enc).
Proof. intros Hn Ht He. fits_record. cbn [rep_CRealm rep_CName rep_Ticket rep_EncPart]. lia. Qed.

(** ** What is sent and what is received *)

(** A request is received with the end of the ticket in whole seconds. *)
Definition received (b : KDCReqBody) : KDCReqBody :=
  mkBody (b_KDCOptions b) (b_CName b) (b_Realm b) (b_SName b) (b_From b) (at_time (whole_time (Time (b_Till b)))) (b_RTime b) (b_Nonce b)
    (b_EType b) (b_Addresses b) (b_EncAuthorizationData b) (b_AdditionalTickets b).
Lemma whole_twice t : whole_time t / nanos * nanos = t / nanos * nanos.
Proof. unfold whole_time. by rewrite Z.div_mul. Qed.

Lemma request_received pas b t :
  b_Till b = at_time t → Forall pa_ok pas → body_ok (received b) → req_size (mkReq 5 10 pas (received b)) < 2 ^ 32 →
  ∃ d, Marshal (Der := as_req_der) (mkReq 5 10 pas b) = Ok d ∧ Unmarshal (Der := as_req_der) d = Ok (mkReq 5 10 pas (received b)).
Proof.
  intros Ht Hp Hb Hn.
  destruct (marshal_fits (kdcReq_codec TagASReq) (mkReq 5 10 pas b) (mkReq 5 10 pas (received b)) (req_size (mkReq 5 10 pas (received b))))
    as (d & Hd & Ho & _); [by vm_compute| |by apply fits_req|done|by exists d].
  destruct b as [o cn r sn f till rt no e a ea ad]; cbn in Ht; subst. cbn. by rewrite whole_twice.
Qed.

Lemma whole_time_range t : 0 <= t < last_instant → 0 <= whole_time t < last_instant.
Proof. intros Ht. unfold whole_time, last_instant, nanos in *. Z.to_euclidean_division_equations; lia. Qed.
Lemma timestamp_received t :
  0 <= t < last_instant →
  ∃ d, Marshal (mkEncTS (at_time t) None) = Ok d ∧ Unmarshal d = Ok (mkEncTS (at_time (whole_time t)) None) ∧ zlen d <= 100.
Proof.
  intros Ht. apply (marshal_fits encTimestamp_codec); [by vm_compute| |by apply fits_timestamp, calendar_time, whole_time_range; [apply whole_time_mod|]|done].
  cbn. by rewrite whole_twice.
Qed.

Lemma error_received t susec code realm sname data :
  let e := λ t, mkKrbError 5 30 None None (at_time t) susec code None None realm sname None data in
  0 <= t < last_instant → 0 <= susec < 1000000 → - 2 ^ 31 <= code < 2 ^ 31 → name_ok sname → error_size (e t) < 2 ^ 32 →
  ∃ d, Marshal (e t) = Ok d ∧ Unmarshal d = Ok (e (whole_time t)).
Proof.
  intros e Ht Hs Hc Hn Hl. destruct (marshal_fits krbError_codec (e t) (e (whole_time t)) (error_size (e t))) as (d & Hd & Ho & _);
    [by vm_compute|cbn; by rewrite whole_twice| |done|by exists d].
  change (error_size (e t)) with (error_size (e (whole_time t))). apply fits_error; try done. apply calendar_time, whole_time_range; [apply whole_time_mod|done].
Qed.
