(* ===== verification/Spake.v ===== *)
(** * The SPAKE key exchange (src/krb5/spake)

    The group arithmetic is third-party code (filippo.io/edwards25519 and
    filippo.io/nistec): it is the class [SpakeGroups], an abelian group with its
    encoding for each curve, and what the exchange relies on is
    [SpakeGroupLaws].  Scalars are integers: edwards25519 reduces 64 bytes,
    least significant first, modulo the order of its base point, and nistec takes
    a scalar most significant byte first.  The random private key is an argument. *)

From S2P Require Import Prelude Cts Camellia NFold Crypto Principal Protocol Asn1 Wire.
Local Open Scope Z_scope.

Definition GroupEdwards25519 : Z := 1.
Definition GroupP256 : Z := 2.
Definition GroupP384 : Z := 3.
Definition GroupP521 : Z := 4.
Definition FactorNone : Z := 1.
Definition spake_KeyUsage : Z := 65.

(** ** The curves *)

(** A curve: its points with addition, negation, multiplication by an integer,
    a base point, the test for the neutral element and the encoding. *)
Record curve := mkCurve {
  Point : Type;
  p_Add : Point → Point → Point;
  p_Negate : Point → Point;
  p_Mult : Z → Point → Point;
  p_Base : Point;
  p_IsIdentity : Point → bool;
  p_SetBytes : bytes → res Point;
  p_Bytes : Point → bytes;
}.
Arguments p_Add {c}.
Arguments p_Negate {c}.
Arguments p_Mult {c}.
Arguments p_Base {c}.
Arguments p_IsIdentity {c}.
Arguments p_SetBytes {c}.
Arguments p_Bytes {c}.

(** nistec multiplies by a byte string, which it may refuse; [sha2_Sum n] is the
    SHA-2 function with an output of [n] bytes. *)
Class SpakeGroups := {
  edwards25519 : curve;
  nistec : Z → curve;
  nistec_ScalarMult (g : Z) : Point (nistec g) → bytes → res (Point (nistec g));
  nistec_ScalarBaseMult (g : Z) : bytes → res (Point (nistec g));
  sha2_Sum : nat → bytes → bytes;
}.

(** The order of the base point of edwards25519. *)
Definition ed_order : Z := 2 ^ 252 + 27742317777372353535851937790883648493.

Definition spakeM_bytes : bytes := be_bytes 32 0xd048032c6ea0b6d697ddc2e86bda85a33adac920f1bf18e1b0c6d166a5cecdaf.
Definition spakeN_bytes : bytes := be_bytes 32 0xd3bfb518f44f3430f29d0c92af503865a1ed3281dc69b35dd868ba85f886c4ab.

Record nistGroup := mkNist {
  ng_id : Z; ng_name : string; ng_multLen : nat; ng_elemLen : nat; ng_hashLen : nat;
  ng_m : bytes; ng_n : bytes; ng_order : Z }.

Definition p256 : nistGroup := mkNist GroupP256 "P-256" 32 33 32
  (be_bytes 33 0x02886e2f97ace46e55ba9dd7242579f2993b64e16ef3dcab95afd497333d8fa12f)
  (be_bytes 33 0x03d8bbd6c639c62937b04d997f38c3770719c629d7014d49a24b4f98baa1292b49)
  0xFFFFFFFF00000000FFFFFFFFFFFFFFFFBCE6FAADA7179E84F3B9CAC2FC632551.
Definition p384 : nistGroup := mkNist GroupP384 "P-384" 48 49 48
  (be_bytes 49 0x030ff0895ae5ebf6187080a82d82b42e2765e3b2f8749c7e05eba366434b363d3dc36f15314739074d2eb8613fceec2853)
  (be_bytes 49 0x02c72cf2e390853a1c1c4ad816a62fd15824f56078918f43f922ca21518f9c543bb252c5490214cf9aa3f0baab4b665c10)
  0xFFFFFFFFFFFFFFFFFFFFFFFFFFFFFFFFFFFFFFFFFFFFFFFFC7634D81F4372DDF581A0DB248B0A77AECEC196ACCC52973.
Definition p521 : nistGroup := mkNist GroupP521 "P-521" 66 67 64
  (be_bytes 67 0x02003f06f38131b2ba2600791e82488e8d20ab889af753a41806c5db18d37d85608cfae06b82e4a72cd744c719193562a653ea1f119eef9356907edc9b56979962d7aa)
  (be_bytes 67 0x0200c7924b9ec017f3094562894336a53c50167ba8c5963876880542bc669e494b2532d76c5b53dfb349fdf69154b9e0048c58a42e8ed04cef052a3bc349d95575cd25)
  0x1FFFFFFFFFFFFFFFFFFFFFFFFFFFFFFFFFFFFFFFFFFFFFFFFFFFFFFFFFFFFFFFFFA51868783BF2F966B7FCC0148F709A5D03BB5C9B8899C47AEBB6FB71E91386409.
Definition nistGroupDefs (group : Z) : option nistGroup :=
  if group =? GroupP256 then Some p256
  else if group =? GroupP384 then Some p384
  else if group =? GroupP521 then Some p521
  else None.

(** ** The messages *)

Record SPAKESecondFactor := mkFactor { sf_Type : Z; sf_Data : bytes }.
Record SPAKEChallenge := mkChallenge { sc_Group : Z; sc_PubKey : bytes; sc_Factors : list SPAKESecondFactor }.
Record SPAKEResponse := mkResponse { sr_PubKey : bytes; sr_Factor : EncryptedData }.
Record SPAKESupport := mkSupport { ss_Groups : list Z }.
Record PASPAKE := mkSPAKE {
  sp_Support : option SPAKESupport; sp_Challenge : option SPAKEChallenge;
  sp_Response : option SPAKEResponse; sp_EncData : option EncryptedData }.

Definition spakeSecondFactor_codec : codec SPAKESecondFactor.
Proof.
  refine (mkCodec (TStruct None
      [field "Type" "tag:0" int32;
       field "Data" "tag:1,optional" octets])
    (λ x, VStruct
      [c_put int32 (sf_Type x);
       c_put octets (sf_Data x)])
    (λ v, match v with
          | VStruct [a; b] =>
              a ← c_get int32 a;
              b ← c_get octets b; Some (mkFactor a b)
          | _ => None
          end) _ _); [struct_codec|total_codec].
Defined.

Definition spakeSupport_codec : codec SPAKESupport.
Proof.
  refine (mkCodec (TStruct None
      [field "Groups" "tag:0" (slice int32)])
    (λ x, VStruct
      [c_put (slice int32) (ss_Groups x)])
    (λ v, match v with
          | VStruct [a] =>
              a ← c_get (slice int32) a; Some (mkSupport a)
          | _ => None
          end) _ _); [struct_codec|total_codec].
Defined.

Definition spakeChallenge_codec : codec SPAKEChallenge.
Proof.
  refine (mkCodec (TStruct None
      [field "Group" "tag:0" int32;
       field "PubKey" "tag:1" octets;
       field "Factors" "tag:2" (slice spakeSecondFactor_codec)])
    (λ x, VStruct
      [c_put int32 (sc_Group x);
       c_put octets (sc_PubKey x);
       c_put (slice spakeSecondFactor_codec) (sc_Factors x)])
    (λ v, match v with
          | VStruct [a; b; c] =>
              a ← c_get int32 a;
              b ← c_get octets b;
              c ← c_get (slice spakeSecondFactor_codec) c; Some (mkChallenge a b c)
          | _ => None
          end) _ _); [struct_codec|total_codec].
Defined.

Definition spakeResponse_codec : codec SPAKEResponse.
Proof.
  refine (mkCodec (TStruct None
      [field "PubKey" "tag:0" octets;
       field "Factor" "tag:1" encryptedData_codec])
    (λ x, VStruct
      [c_put octets (sr_PubKey x);
       c_put encryptedData_codec (sr_Factor x)])
    (λ v, match v with
          | VStruct [a; b] =>
              a ← c_get octets a;
              b ← c_get encryptedData_codec b; Some (mkResponse a b)
          | _ => None
          end) _ _); [struct_codec|total_codec].
Defined.

Definition paSPAKE_codec : codec PASPAKE.
Proof.
  refine (mkCodec (TStruct None
      [field "Support" "tag:0,choice" (ptr spakeSupport_codec);
       field "Challenge" "tag:1,choice" (ptr spakeChallenge_codec);
       field "Response" "tag:2,choice" (ptr spakeResponse_codec);
       field "EncData" "tag:3,choice" (ptr encryptedData_codec)])
    (λ x, VStruct
      [c_put (ptr spakeSupport_codec) (sp_Support x);
       c_put (ptr spakeChallenge_codec) (sp_Challenge x);
       c_put (ptr spakeResponse_codec) (sp_Response x);
       c_put (ptr encryptedData_codec) (sp_EncData x)])
    (λ v, match v with
          | VStruct [a; b; c; d] =>
              a ← c_get (ptr spakeSupport_codec) a;
              b ← c_get (ptr spakeChallenge_codec) b;
              c ← c_get (ptr spakeResponse_codec) c;
              d ← c_get (ptr encryptedData_codec) d; Some (mkSPAKE a b c d)
          | _ => None
          end) _ _); [struct_codec|total_codec].
Defined.

#[export] Instance spake_factor_der : Der SPAKESecondFactor := codec_der spakeSecondFactor_codec.
#[export] Instance pa_spake_der : Der PASPAKE := codec_der paSPAKE_codec.

Definition EncodeSupport (groups : list Z) : res bytes := Marshal (mkSPAKE (Some (mkSupport groups)) None None None).
Definition EncodeChallenge (group : Z) (pubkey : bytes) : res bytes :=
  Marshal (mkSPAKE None (Some (mkChallenge group pubkey [mkFactor FactorNone []])) None None).
Definition EncodeResponse (pubkey factor : bytes) (etype : Z) : res bytes :=
  Marshal (mkSPAKE None None (Some (mkResponse pubkey (mkEnc etype None factor))) None).
Definition EncodeFactor : res bytes := Marshal (mkFactor FactorNone []).
Definition spake_Decode (data : bytes) : res PASPAKE := Unmarshal data.

(** ** The exchange *)

Definition unsupported {A} : res A := Err "SPAKE group is unsupported".
Definition checkGroup (group : Z) : res unit :=
  if group =? GroupEdwards25519 then Ok tt
  else match nistGroupDefs group with Some _ => Ok tt | None => unsupported end.

(** Name, scalar width, element width and hash width of a group. *)
Definition GroupInfo (group : Z) : res (string * nat * nat * nat) :=
  if group =? GroupEdwards25519 then Ok ("edwards25519"%string, 32, 32, 32)%nat
  else match nistGroupDefs group with
       | Some def => Ok (ng_name def, ng_multLen def, ng_elemLen def, ng_hashLen def)
       | None => unsupported
       end.

Section Exchange.
Context `{GoCrypto} `{SpakeGroups}.

(** The counter is a byte that may wrap to zero once; [n] counters are left. *)
Fixpoint spake_prf_loop (n : nat) (etype : option EType) (key input : bytes) (size : nat) (counter : Z) (out : bytes) : res bytes :=
  if (size <=? length out)%nat then Ok (take size out)
  else match n with
       | O => Panic
       | S n =>
           res_bind (PRF etype key (z2b counter :: input)) (λ part,
           if counter =? 0 then Err "SPAKE PRF+ overflow"
           else spake_prf_loop n etype key input size (u8 (counter + 1)) (out ++ part))
       end.
Definition spake_prfPlus (etype : option EType) (key input : bytes) (size : nat) : res bytes :=
  spake_prf_loop 256 etype key input size 1 [].

Definition DeriveW (etype : option EType) (initialKey : bytes) (group : Z) : res bytes :=
  res_bind (checkGroup group) (λ _,
  let input := str "SPAKEsecret" ++ be_bytes 4 (u32 group) in
  if group =? GroupEdwards25519 then spake_prfPlus etype initialKey input 32
  else match nistGroupDefs group with
       | Some def => spake_prfPlus etype initialKey input (ng_multLen def)
       | None => unsupported
       end).

(** The bytes are copied to the start of 64 and reduced. *)
Definition scalar (data : bytes) : res Z :=
  if negb (length data =? 32)%nat then Err "SPAKE scalar must be 32 bytes"
  else Ok (le_value (data ++ zeros 32) mod ed_order).

(** The package does not load when its two constants are no points. *)
Definition mustPoint (data : bytes) : res (Point edwards25519) :=
  match p_SetBytes data with Ok point => Ok point | _ => Panic end.
Definition spake_mask (useM : bool) : res (Point edwards25519) := mustPoint (if useM then spakeM_bytes else spakeN_bytes).

Definition maskedPublic (w : bytes) (private : Z) (useM : bool) : res bytes :=
  res_bind (scalar w) (λ mask,
  res_bind (spake_mask useM) (λ point,
  Ok (p_Bytes (p_Add (p_Mult private p_Base) (p_Mult mask point))))).

Definition nistScalar (group : nistGroup) (value : bytes) : res bytes :=
  if negb (length value =? ng_multLen group)%nat then Err "SPAKE scalar has the wrong length"
  else Ok (be_bytes (ng_multLen group) (be_value value mod ng_order group)).

Definition nistKeygen (group : nistGroup) (w private : bytes) (useM : bool) : res bytes :=
  res_bind (nistScalar group private) (λ scalar,
  res_bind (nistec_ScalarBaseMult (ng_id group) scalar) (λ g,
  res_bind (p_SetBytes (if useM then ng_m group else ng_n group)) (λ mask,
  res_bind (nistec_ScalarMult (ng_id group) mask w) (λ mask,
  Ok (p_Bytes (p_Add g mask)))))).

Definition nistResult (group : nistGroup) (w private peer : bytes) (useM : bool) : res bytes :=
  res_bind (nistScalar group private) (λ scalar,
  res_bind (wrap_err "SPAKE peer point: " (p_SetBytes peer)) (λ p : Point (nistec (ng_id group)),
  if p_IsIdentity p then Err "SPAKE peer point is identity"
  else
    res_bind (p_SetBytes (if useM then ng_m group else ng_n group)) (λ mask,
    res_bind (nistec_ScalarMult (ng_id group) mask w) (λ mask,
    let p := p_Add p (p_Negate mask) in
    if p_IsIdentity p then Err "SPAKE result is identity"
    else res_bind (nistec_ScalarMult (ng_id group) p scalar) (λ p, Ok (p_Bytes p)))))).

Definition KeygenWithPrivate (group : Z) (w private : bytes) (useM : bool) : res bytes :=
  res_bind (checkGroup group) (λ _,
  match nistGroupDefs group with
  | Some def => nistKeygen def w private useM
  | None => res_bind (scalar private) (λ s, maskedPublic w s useM)
  end).

(** The private key and the public one; [draw n] are [n] random bytes. *)
Definition Keygen (group : Z) (w : bytes) (useM : bool) (draw : nat → res bytes) : res (bytes * bytes) :=
  res_bind (checkGroup group) (λ _,
  match nistGroupDefs group with
  | Some def =>
      res_bind (draw (ng_multLen def)) (λ private,
      res_bind (nistKeygen def w private useM) (λ public,
      res_bind (nistScalar def private) (λ private, Ok (private, public))))
  | None =>
      res_bind (draw 32%nat) (λ private,
      res_bind (scalar private) (λ s,
      res_bind (maskedPublic w s useM) (λ public, Ok (le_bytes 32 s, public))))
  end).

Definition Result (group : Z) (w private peer : bytes) (useM : bool) : res bytes :=
  res_bind (checkGroup group) (λ _,
  match nistGroupDefs group with
  | Some def => nistResult def w private peer useM
  | None =>
      res_bind (scalar private) (λ our,
      res_bind (wrap_err "SPAKE peer point: " (p_SetBytes peer)) (λ peerPoint : Point edwards25519,
      if p_IsIdentity (p_Mult 8 peerPoint) then Err "SPAKE peer point has small order"
      else
        res_bind (scalar w) (λ mask,
        res_bind (spake_mask useM) (λ peerMask,
        let unmasked := p_Add peerPoint (p_Negate (p_Mult mask peerMask)) in
        Ok (p_Bytes (p_Mult our unmasked))))))
  end).

Definition hash_len (group : Z) : option nat :=
  if group =? GroupEdwards25519 then Some 32%nat else ng_hashLen <$> nistGroupDefs group.

(** The transcript hash; nothing for a group that is not known. *)
Definition TranscriptForGroup (group : Z) (previous data1 data2 : bytes) : bytes :=
  match hash_len group with
  | Some n =>
      let previous := match previous with [] => zeros n | _ => previous end in
      sha2_Sum n (previous ++ data1 ++ data2)
  | None => []
  end.

Definition DeriveKey (etype : option EType) (initialKey w result transcript derReq : bytes) (group n : Z) : res bytes :=
  res_bind (checkGroup group) (λ _,
  match etype, hash_len group with
  | None, _ => Err "SPAKE nil enctype"
  | _, None => unsupported
  | Some e, Some size =>
      let seed := sha2_Sum size (str "SPAKEkey" ++ be_bytes 4 (u32 group) ++ be_bytes 4 (u32 (etype_ID e)) ++ w ++ result
                    ++ transcript ++ derReq ++ be_bytes 4 (u32 n) ++ [Byte.x01]) in
      if (length seed <? etype_KeySize e)%nat then Err "SPAKE hash output is shorter than key"
      else CF2 etype initialKey (take (etype_KeySize e) seed) (str "SPAKE") (str "keyderiv")
  end).

End Exchange.

(** ** Agreement *)

(** Adding a point and its negation changes nothing, multiplications compose,
    and an encoded point is read back. *)
Class CurveLaws (c : curve) : Prop := {
  p_Add_Negate (p q : Point c) : p_Add (p_Add p q) (p_Negate q) = p;
  p_Mult_Mult a b (p : Point c) : p_Mult a (p_Mult b p) = p_Mult (a * b) p;
  p_SetBytes_Bytes (p : Point c) : p_SetBytes (p_Bytes p) = Ok p;
}.

Class SpakeGroupLaws `{SpakeGroups} : Prop := {
  edwards_laws :: CurveLaws edwards25519;
  edwards_constants useM : ∃ p : Point edwards25519, p_SetBytes (if useM : bool then spakeM_bytes else spakeN_bytes) = Ok p;
  nistec_laws g :: CurveLaws (nistec g);
  nistec_constants def g useM : nistGroupDefs g = Some def → ∃ p : Point (nistec g), p_SetBytes (if useM : bool then ng_m def else ng_n def) = Ok p;
  nistec_mult def g s p : nistGroupDefs g = Some def → length s = ng_multLen def → nistec_ScalarMult g p s = Ok (p_Mult (be_value s) p);
  nistec_base_mult def g s : nistGroupDefs g = Some def → length s = ng_multLen def → nistec_ScalarBaseMult g s = Ok (p_Mult (be_value s) p_Base);
  length_sha2 n data : n ∈ [32; 48; 64]%nat → length (sha2_Sum n data) = n;
}.

(** The refusals of a peer's value. *)
Definition refusals : list string :=
  ["SPAKE peer point is identity"; "SPAKE result is identity"; "SPAKE peer point has small order"]%string.
Definition accepted_or_refused (r : res bytes) : Prop := (∃ x, r = Ok x) ∨ ∃ m, m ∈ refusals ∧ r = Err m.

(** The width of the scalars of a group. *)
Definition scalar_len (group : Z) : nat := match GroupInfo group with Ok (_, n, _, _) => n | _ => O end.

Lemma nist_defs g def : nistGroupDefs g = Some def →
  ng_id def = g ∧ checkGroup g = Ok tt ∧ GroupInfo g = Ok (ng_name def, ng_multLen def, ng_elemLen def, ng_hashLen def) ∧
  hash_len g = Some (ng_hashLen def) ∧ (ng_multLen def ≤ 66)%nat ∧ ng_hashLen def ∈ [32; 48; 64]%nat ∧ (32 ≤ ng_hashLen def)%nat ∧
  0 < ng_order def <= 256 ^ Z.of_nat (ng_multLen def).
Proof.
  unfold nistGroupDefs.
  destruct (Z.eqb_spec g GroupP256) as [->|?]; [|destruct (Z.eqb_spec g GroupP384) as [->|?]; [|destruct (Z.eqb_spec g GroupP521) as [->|?]; [|done]]];
    intros [= <-]; (split_and!; [done..|cbn; lia|cbn; set_solver|cbn; lia|done|by vm_compute]).
Qed.

Section agreement.
Context `{GoCryptoLaws} `{SpakeGroupLaws}.

Lemma edwards_or_nist g : checkGroup g = Ok tt → g = GroupEdwards25519 ∨ ∃ def, nistGroupDefs g = Some def.
Proof. unfold checkGroup. destruct (Z.eqb_spec g GroupEdwards25519); [by left|]. destruct (nistGroupDefs g); [by eauto|done]. Qed.

Lemma spake_prf_loop_ok n e key info size counter out :
  registered e → length key = etype_KeySize e → counter = 257 - Z.of_nat n → (1 < n < 257)%nat →
  (size ≤ length out + (n - 1) * PRFOutputSize e)%nat →
  ∃ r, spake_prf_loop n (Some e) key info size counter out = Ok r ∧ length r = size.
Proof.
  intros Hreg Hk. revert counter out. induction n as [|n IH]; intros counter out Hc Hn Hs; [lia|].
  cbn [spake_prf_loop]; destruct (Nat.leb_spec size (length out)) as [Hle|Hgt].
  { eexists. split; [done|]. rewrite length_take. lia. }
  destruct (PRF_ok e key (z2b counter :: info) Hreg Hk) as (part & -> & Hl). cbn [res_bind]. rewrite (proj2 (Z.eqb_neq _ _)) by lia.
  destruct (Nat.eq_dec n 1%nat) as [->|Hn1].
  - cbn [spake_prf_loop]. rewrite (proj2 (Nat.leb_le _ _)) by (rewrite length_app; lia). eexists. split; [done|]. rewrite length_take, length_app. lia.
  - apply IH; [|lia|rewrite length_app; nia]. unfold u8. rewrite Z.mod_small by lia. lia.
Qed.
Lemma DeriveW_ok e key group : registered e → length key = etype_KeySize e → checkGroup group = Ok tt →
  ∃ w, DeriveW (Some e) key group = Ok w ∧ length w = scalar_len group.
Proof.
  intros Hreg Hk Hg. unfold DeriveW. rewrite Hg. cbn [res_bind]. pose proof (PRFOutputSize_ge e Hreg).
  destruct (edwards_or_nist group Hg) as [->|[def Hdef]].
  - change (scalar_len GroupEdwards25519) with 32%nat. apply spake_prf_loop_ok; [done|done|done|lia|cbn [length]; lia].
  - destruct (nist_defs _ _ Hdef) as (Hid & _ & Hi & _ & Hm & _). unfold scalar_len. rewrite Hi.
    destruct (Z.eqb_spec group GroupEdwards25519) as [->|_]; [done|]. rewrite Hdef. apply spake_prf_loop_ok; [done|done|done|lia|cbn [length]; lia].
Qed.

Lemma scalar_ok data : length data = 32%nat → ∃ s, scalar data = Ok s ∧ 0 <= s < ed_order.
Proof. intros Hl. unfold scalar. rewrite Hl. eexists. split; [done|]. by apply Z.mod_pos_bound. Qed.
Lemma scalar_bytes s : 0 <= s < ed_order → scalar (le_bytes 32 s) = Ok s.
Proof.
  intros Hs. unfold scalar. rewrite length_le_bytes. cbn [negb Nat.eqb]. f_equal. unfold le_value, le_bytes.
  rewrite rev_app_distr, rev_involutive. rewrite be_value_app.
  change (be_value (rev (zeros 32))) with 0. rewrite Z.mul_0_l, Z.add_0_l, be_value_bytes.
  rewrite (Z.mod_small s) by (assert (ed_order < 256 ^ Z.of_nat 32) by done; lia). by apply Z.mod_small.
Qed.
Lemma nistScalar_ok def value : length value = ng_multLen def → ∃ s, nistScalar def value = Ok s ∧ length s = ng_multLen def.
Proof. intros Hl. unfold nistScalar. rewrite Hl, Nat.eqb_refl. eexists. split; [done|]. apply length_be_bytes. Qed.
Lemma nistScalar_idem g def value s : nistGroupDefs g = Some def → nistScalar def value = Ok s → nistScalar def s = Ok s.
Proof using Type.
  intros Hd. destruct (nist_defs _ _ Hd) as (_ & _ & _ & _ & _ & _ & _ & Ho). unfold nistScalar.
  destruct (length value =? ng_multLen def)%nat; cbn [negb]; [|done]. intros Hs. assert (s = be_bytes (ng_multLen def) (be_value value mod ng_order def)) as -> by congruence.
  rewrite length_be_bytes, Nat.eqb_refl. cbn [negb]. f_equal. rewrite be_value_bytes.
  pose proof (Z.mod_pos_bound (be_value value) (ng_order def) ltac:(clear -Ho; lia)) as Hb. clear -Ho Hb.
  rewrite (Z.mod_small (be_value value mod ng_order def) (256 ^ _)) by lia. by rewrite Z.mod_mod by lia.
Qed.
(** The private key that is kept gives the public one. *)
Lemma Keygen_private group w useM draw private public :
  Keygen group w useM draw = Ok (private, public) →
  KeygenWithPrivate group w private useM = Ok public ∧ length private = scalar_len group.
Proof using Type.
  unfold Keygen, KeygenWithPrivate, scalar_len. destruct (checkGroup group) as [[]| |] eqn:Hg; [|done..]. cbn [res_bind].
  destruct (edwards_or_nist group Hg) as [->|[def Hdef]].
  - cbn [nistGroupDefs]. destruct (draw 32%nat) as [data| |]; [|done..]. cbn [res_bind].
    destruct (scalar data) as [s| |] eqn:Hs; [|done..]. cbn [res_bind]. destruct (maskedPublic w s useM) eqn:Hm; [|done..]. cbn [res_bind].
    intros Hx. apply Ok_inj, pair_equal_spec in Hx as [<- <-].
    assert (0 <= s < ed_order) by (unfold scalar in Hs; case_match; [done|]; simplify_eq; by apply Z.mod_pos_bound).
    rewrite scalar_bytes by done. cbn [res_bind]. split; [done|apply length_le_bytes].
  - rewrite Hdef. destruct (draw _) as [data| |]; [|done..]. cbn [res_bind]. destruct (nistKeygen def w data useM) eqn:Hk; [|done..]. cbn [res_bind].
    destruct (nistScalar def data) as [s| |] eqn:Hs; [|done..]. cbn [res_bind]. intros [= -> ->].
    destruct (nist_defs _ _ Hdef) as (_ & _ & -> & _). unfold nistKeygen in *. rewrite (nistScalar_idem _ _ _ _ Hdef Hs). rewrite Hs in Hk.
    split; [done|]. unfold nistScalar in Hs. case_match; [done|]. simplify_eq. apply length_be_bytes.
Qed.

(** What the two sides exchange: [x] times the base point, masked. *)
Lemma ed_Keygen_spec w useM draw data : length w = 32%nat → draw 32%nat = Ok data → length data = 32%nat →
  ∃ x mask point, Keygen GroupEdwards25519 w useM draw = Ok (le_bytes 32 x, p_Bytes (p_Add (p_Mult x p_Base) (p_Mult mask point))) ∧
    0 <= x < ed_order ∧ scalar w = Ok mask ∧ spake_mask useM = Ok point.
Proof.
  intros Hw Hd Hl. destruct (scalar_ok data Hl) as (x & Hx & Hb). destruct (scalar_ok w Hw) as (mask & Hm & _). destruct (edwards_constants useM) as [point Hp].
  exists x, mask, point. assert (Hsm : spake_mask useM = Ok point) by (unfold spake_mask, mustPoint; by rewrite Hp).
  split_and!; try done; [|lia|lia].
  unfold Keygen, maskedPublic. change (checkGroup GroupEdwards25519) with (Ok tt). change (nistGroupDefs GroupEdwards25519) with (@None nistGroup).
  cbn [res_bind]. rewrite Hd. cbn [res_bind]. rewrite Hx. cbn [res_bind]. rewrite Hm. cbn [res_bind]. rewrite Hsm. done.
Qed.
Lemma ed_Result_spec w useM x y mask point : 0 <= x < ed_order → scalar w = Ok mask → spake_mask useM = Ok point →
  let peer := p_Add (p_Mult y p_Base) (p_Mult mask point) in
  Result GroupEdwards25519 w (le_bytes 32 x) (p_Bytes peer) useM =
    if p_IsIdentity (p_Mult 8 peer) then Err "SPAKE peer point has small order" else Ok (p_Bytes (p_Mult (x * y) (p_Base (c := edwards25519)))).
Proof.
  intros Hx Hm Hp peer. unfold Result. change (checkGroup GroupEdwards25519) with (Ok tt). change (nistGroupDefs GroupEdwards25519) with (@None nistGroup).
  cbn [res_bind]. rewrite scalar_bytes by done. cbn [res_bind]. rewrite p_SetBytes_Bytes. cbn [wrap_err res_bind]. destruct (p_IsIdentity (p_Mult 8 peer)); [done|].
  rewrite Hm. cbn [res_bind]. rewrite Hp. cbn [res_bind]. unfold peer. by rewrite p_Add_Negate, p_Mult_Mult.
Qed.

Lemma nist_Keygen_spec g def w useM draw data :
  nistGroupDefs g = Some def → length w = ng_multLen def → draw (ng_multLen def) = Ok data → length data = ng_multLen def →
  ∃ x (point : Point (nistec g)), Keygen g w useM draw = Ok (x, p_Bytes (p_Add (p_Mult (be_value x) p_Base) (p_Mult (be_value w) point))) ∧
    length x = ng_multLen def ∧ nistScalar def x = Ok x ∧ p_SetBytes (if useM then ng_m def else ng_n def) = Ok point.
Proof.
  intros Hg Hw Hd Hl. destruct (nist_defs _ _ Hg) as (Hid & Hc & _). destruct (nistScalar_ok def data Hl) as (x & Hx & Hlx).
  destruct (nistec_constants def g useM Hg) as [point Hp]. exists x, point. split_and!; [|done|by eapply nistScalar_idem|done].
  unfold Keygen, nistKeygen. rewrite Hc. cbn [res_bind]. rewrite Hg, Hd. cbn [res_bind]. rewrite Hx. cbn [res_bind]. rewrite Hid.
  rewrite (nistec_base_mult def) by done. cbn [res_bind]. rewrite Hp. cbn [res_bind]. rewrite (nistec_mult def) by done. done.
Qed.
Lemma nist_Result_spec g def w (useM : bool) x y (point : Point (nistec g)) :
  nistGroupDefs g = Some def → length w = ng_multLen def → length x = ng_multLen def → nistScalar def x = Ok x →
  p_SetBytes (if useM then ng_m def else ng_n def) = Ok point →
  let peer := p_Add (p_Mult (be_value y) p_Base) (p_Mult (be_value w) point) : Point (nistec g) in
  Result g w x (p_Bytes peer) useM =
    if p_IsIdentity peer then Err "SPAKE peer point is identity"
    else if p_IsIdentity (p_Mult (be_value y) (p_Base (c := nistec g))) then Err "SPAKE result is identity"
    else Ok (p_Bytes (p_Mult (be_value x * be_value y) (p_Base (c := nistec g)))).
Proof.
  intros Hg Hw Hlx Hx Hp peer. destruct (nist_defs _ _ Hg) as (Hid & Hc & _). unfold Result, nistResult. rewrite Hc. cbn [res_bind]. rewrite Hg, Hx. cbn [res_bind].
  rewrite Hid, p_SetBytes_Bytes. cbn [wrap_err res_bind]. destruct (p_IsIdentity peer); [done|]. rewrite Hp. cbn [res_bind]. rewrite (nistec_mult def) by done. cbn [res_bind].
  unfold peer. rewrite p_Add_Negate. destruct (p_IsIdentity _); [done|]. rewrite (nistec_mult def) by done. cbn [res_bind]. by rewrite p_Mult_Mult.
Qed.

Lemma DeriveKey_ok e key w result transcript body group n :
  registered e → length key = etype_KeySize e → checkGroup group = Ok tt →
  ∃ k, DeriveKey (Some e) key w result transcript body group n = Ok k ∧ length k = etype_KeySize e.
Proof.
  intros Hreg Hk Hg. pose proof (KeySize_le e Hreg).
  assert (∃ size, hash_len group = Some size ∧ size ∈ [32; 48; 64]%nat ∧ (32 ≤ size)%nat) as (size & Hh & Hin & Hsize).
  { destruct (edwards_or_nist group Hg) as [->|[def Hdef]]; [exists 32%nat; split_and!; [done|set_solver|lia]|].
    destruct (nist_defs _ _ Hdef) as (_ & _ & _ & Hh & _ & Hin & Hle & _). eauto. }
  unfold DeriveKey. rewrite Hg. cbn [res_bind]. rewrite Hh, length_sha2 by done. rewrite (proj2 (Nat.ltb_ge _ _)) by lia.
  edestruct (CF2_ok e key e) as (r1 & r2 & _ & _ & Hl1 & Hl2 & Hr); [done|done|done| |].
  2: { unfold CF2. rewrite Hr. eexists. split; [done|]. by apply length_xor_block. }
  rewrite length_take, length_sha2 by done. lia.
Qed.


End agreement.

(** ** A concrete group

    The laws can hold: the integers modulo three, whose elements are encoded as
    one byte and for which every other string is the first element. *)
Module SpakeExample.
Inductive three := T0 | T1 | T2.
Definition of_z (z : Z) : three := if z mod 3 =? 0 then T0 else if z mod 3 =? 1 then T1 else T2.
Definition to_z (t : three) : Z := match t with T0 => 0 | T1 => 1 | T2 => 2 end.
Definition toy_curve : curve := {|
  Point := three;
  p_Add a b := of_z (to_z a + to_z b);
  p_Negate a := of_z (- to_z a);
  p_Mult n a := of_z (n * to_z a);
  p_Base := T1;
  p_IsIdentity a := match a with T0 => true | _ => false end;
  p_SetBytes d := match d with [b] => Ok (of_z (b2z b)) | _ => Ok T1 end;
  p_Bytes a := [z2b (to_z a)];
|}.
Definition toy_groups : SpakeGroups := {|
  edwards25519 := toy_curve;
  nistec _ := toy_curve;
  nistec_ScalarMult _ p s := Ok (p_Mult (c := toy_curve) (be_value s) p);
  nistec_ScalarBaseMult _ s := Ok (p_Mult (c := toy_curve) (be_value s) T1);
  sha2_Sum n data := take n (data ++ zeros n);
|}.
#[local] Existing Instance toy_groups.
#[local] Existing Instance toy_crypto.
#[local] Existing Instance toy_crypto_laws.

Lemma of_z_to_z t : of_z (to_z t) = t.
Proof. by destruct t. Qed.
Lemma to_z_of_z z : to_z (of_z z) = z mod 3.
Proof.
  unfold of_z. pose proof (Z.mod_pos_bound z 3 eq_refl). destruct (Z.eqb_spec (z mod 3) 0) as [->|]; [done|].
  destruct (Z.eqb_spec (z mod 3) 1) as [->|]; [done|]. cbn. lia.
Qed.
Lemma of_z_mod a b : a mod 3 = b mod 3 → of_z a = of_z b.
Proof. unfold of_z. by intros ->. Qed.
#[local] Instance toy_curve_laws : CurveLaws toy_curve.
Proof.
  split; cbn.
  - intros p q. rewrite <- (of_z_to_z p) at 2. apply of_z_mod. rewrite !to_z_of_z, <- Zplus_mod. f_equal. lia.
  - intros a b p. apply of_z_mod. rewrite to_z_of_z, Zmult_mod_idemp_r. f_equal. lia.
  - by intros [].
Qed.
#[local] Instance toy_group_laws : SpakeGroupLaws.
Proof.
  split; try apply _; intros; cbn.
  - destruct useM; by eexists.
  - by match goal with |- context [match ?l with _ => _ end] => destruct l as [|? [|??]] end; eexists.
  - done.
  - done.
  - rewrite length_take, length_app. unfold zeros. rewrite length_replicate. lia.
Qed.

End SpakeExample.
