(* ===== verification/Preauth.v ===== *)
(** * Pre-authentication data (src/krb5/preauth/preauth.go, src/krb5/otp/otp.go)

    The encrypted time stamp and challenge, the choice of the encryption type
    the KDC advertises, and the payloads of one-time passwords.  The clock and the
    random confounder of an encryption are arguments. *)

From S2P Require Import Prelude Cts Camellia NFold Crypto Principal Ulog Kdb GoStrings Protocol GoTime Asn1 Wire.
Local Open Scope Z_scope.

(** ** One-time password payloads (protocol.go) *)

Record AlgorithmIdentifier := mkAlg { alg_Algorithm : bytes; alg_Parameters : option bytes }.
Record OTPTokenInfo := mkToken { tk_Flags : Z; tk_Vendor : option bytes; tk_Challenge : bytes; tk_Length : option Z; tk_Format : option Z; tk_TokenID : bytes; tk_AlgID : option bytes; tk_HashAlg : list AlgorithmIdentifier; tk_IterationCount : option Z }.
Record PAOTPChallenge := mkOTPChallenge { oc_Nonce : bytes; oc_Service : option bytes; oc_TokenInfo : list OTPTokenInfo; oc_Salt : option bytes; oc_S2KParams : bytes }.
Record PAOTPRequest := mkOTPRequest { or_Flags : Z; or_Nonce : bytes; or_EncData : EncryptedData; or_HashAlg : option AlgorithmIdentifier; or_IterationCount : option Z; or_OTPValue : bytes; or_PIN : option bytes; or_Challenge : bytes; or_Time : option KerberosTime; or_Counter : bytes; or_Format : option Z; or_TokenID : bytes; or_AlgID : option bytes; or_Vendor : option bytes }.
Record PAOTPEncRequest := mkOTPEnc { oe_Nonce : bytes }.
Record ETypeInfoEntry := mkEInfo { e1_EType : Z; e1_Salt : option bytes }.

Definition oid : codec bytes.
Proof.
  refine (mkCodec TOID (λ s, VBytes (copied s)) (λ v, match v with VBytes s => Some (default [] s) | _ => None end) _ _).
  - by intros [|].
  - intros []; by eauto.
Defined.
Definition raw : codec bytes.
Proof.
  refine (mkCodec TRaw (λ s, VBytes (copied s)) (λ v, match v with VBytes s => Some (default [] s) | _ => None end) _ _).
  - by intros [|].
  - intros []; by eauto.
Defined.

Definition algorithmIdentifier_codec : codec AlgorithmIdentifier.
Proof.
  refine (mkCodec (TStruct None
      [field "Algorithm" "tag:0,bare" oid;
       field "Parameters" "tag:1,optional,bare" (ptr raw)])
    (λ x, VStruct
      [c_put oid (alg_Algorithm x);
       c_put (ptr raw) (alg_Parameters x)])
    (λ v, match v with
          | VStruct [a; b] =>
              a ← c_get oid a;
              b ← c_get (ptr raw) b; Some (mkAlg a b)
          | _ => None
          end) _ _); [struct_codec|total_codec].
Defined.

Definition otpTokenInfo_codec : codec OTPTokenInfo.
Proof.
  refine (mkCodec (TStruct None
      [field "Flags" "tag:0,implicit" flags32;
       field "Vendor" "tag:1,optional,implicit" (ptr utf8);
       field "Challenge" "tag:2,optional,implicit" octets;
       field "Length" "tag:3,optional,implicit" (ptr int32);
       field "Format" "tag:4,optional,implicit" (ptr int32);
       field "TokenID" "tag:5,optional,implicit" octets;
       field "AlgID" "tag:6,optional,implicit" (ptr utf8);
       field "SupportedHashAlg" "tag:7,optional,implicit" (opt_slice algorithmIdentifier_codec);
       field "IterationCount" "tag:8,optional,implicit" (ptr int32)])
    (λ x, VStruct
      [c_put flags32 (tk_Flags x);
       c_put (ptr utf8) (tk_Vendor x);
       c_put octets (tk_Challenge x);
       c_put (ptr int32) (tk_Length x);
       c_put (ptr int32) (tk_Format x);
       c_put octets (tk_TokenID x);
       c_put (ptr utf8) (tk_AlgID x);
       c_put (opt_slice algorithmIdentifier_codec) (tk_HashAlg x);
       c_put (ptr int32) (tk_IterationCount x)])
    (λ v, match v with
          | VStruct [a; b; c; d; e; f; g; h; i] =>
              a ← c_get flags32 a;
              b ← c_get (ptr utf8) b;
              c ← c_get octets c;
              d ← c_get (ptr int32) d;
              e ← c_get (ptr int32) e;
              f ← c_get octets f;
              g ← c_get (ptr utf8) g;
              h ← c_get (opt_slice algorithmIdentifier_codec) h;
              i ← c_get (ptr int32) i; Some (mkToken a b c d e f g h i)
          | _ => None
          end) _ _); [struct_codec|total_codec].
Defined.

Definition paOTPChallenge_codec : codec PAOTPChallenge.
Proof.
  refine (mkCodec (TStruct None
      [field "Nonce" "tag:0,implicit" octets;
       field "Service" "tag:1,optional,implicit" (ptr utf8);
       field "TokenInfo" "tag:2,implicit" (slice otpTokenInfo_codec);
       field "Salt" "tag:3,optional,implicit" (ptr text);
       field "S2KParams" "tag:4,optional,implicit" octets])
    (λ x, VStruct
      [c_put octets (oc_Nonce x);
       c_put (ptr utf8) (oc_Service x);
       c_put (slice otpTokenInfo_codec) (oc_TokenInfo x);
       c_put (ptr text) (oc_Salt x);
       c_put octets (oc_S2KParams x)])
    (λ v, match v with
          | VStruct [a; b; c; d; e] =>
              a ← c_get octets a;
              b ← c_get (ptr utf8) b;
              c ← c_get (slice otpTokenInfo_codec) c;
              d ← c_get (ptr text) d;
              e ← c_get octets e; Some (mkOTPChallenge a b c d e)
          | _ => None
          end) _ _); [struct_codec|total_codec].
Defined.

Definition paOTPRequest_codec : codec PAOTPRequest.
Proof.
  refine (mkCodec (TStruct None
      [field "Flags" "tag:0,implicit" flags32;
       field "Nonce" "tag:1,optional,implicit" octets;
       field "EncData" "tag:2,implicit" encryptedData_codec;
       field "HashAlg" "tag:3,optional,implicit" (ptr algorithmIdentifier_codec);
       field "IterationCount" "tag:4,optional,implicit" (ptr int32);
       field "OTPValue" "tag:5,optional,implicit" octets;
       field "PIN" "tag:6,optional,implicit" (ptr utf8);
       field "Challenge" "tag:7,optional,implicit" octets;
       field "Time" "tag:8,optional,implicit" (ptr ktime);
       field "Counter" "tag:9,optional,implicit" octets;
       field "Format" "tag:10,optional,implicit" (ptr int32);
       field "TokenID" "tag:11,optional,implicit" octets;
       field "AlgID" "tag:12,optional,implicit" (ptr utf8);
       field "Vendor" "tag:13,optional,implicit" (ptr utf8)])
    (λ x, VStruct
      [c_put flags32 (or_Flags x);
       c_put octets (or_Nonce x);
       c_put encryptedData_codec (or_EncData x);
       c_put (ptr algorithmIdentifier_codec) (or_HashAlg x);
       c_put (ptr int32) (or_IterationCount x);
       c_put octets (or_OTPValue x);
       c_put (ptr utf8) (or_PIN x);
       c_put octets (or_Challenge x);
       c_put (ptr ktime) (or_Time x);
       c_put octets (or_Counter x);
       c_put (ptr int32) (or_Format x);
       c_put octets (or_TokenID x);
       c_put (ptr utf8) (or_AlgID x);
       c_put (ptr utf8) (or_Vendor x)])
    (λ v, match v with
          | VStruct [a; b; c; d; e; f; g; h; i; j; k; l; m; n] =>
              a ← c_get flags32 a;
              b ← c_get octets b;
              c ← c_get encryptedData_codec c;
              d ← c_get (ptr algorithmIdentifier_codec) d;
              e ← c_get (ptr int32) e;
              f ← c_get octets f;
              g ← c_get (ptr utf8) g;
              h ← c_get octets h;
              i ← c_get (ptr ktime) i;
              j ← c_get octets j;
              k ← c_get (ptr int32) k;
              l ← c_get octets l;
              m ← c_get (ptr utf8) m;
              n ← c_get (ptr utf8) n; Some (mkOTPRequest a b c d e f g h i j k l m n)
          | _ => None
          end) _ _); [struct_codec|total_codec].
Defined.

Definition paOTPEncRequest_codec : codec PAOTPEncRequest.
Proof.
  refine (mkCodec (TStruct None
      [field "Nonce" "tag:0,implicit" octets])
    (λ x, VStruct
      [c_put octets (oe_Nonce x)])
    (λ v, match v with
          | VStruct [a] =>
              a ← c_get octets a; Some (mkOTPEnc a)
          | _ => None
          end) _ _); [struct_codec|total_codec].
Defined.

Definition eTypeInfoEntry_codec : codec ETypeInfoEntry.
Proof.
  refine (mkCodec (TStruct None
      [field "EType" "tag:0" int32;
       field "Salt" "tag:1,optional" (ptr octets)])
    (λ x, VStruct
      [c_put int32 (e1_EType x);
       c_put (ptr octets) (e1_Salt x)])
    (λ v, match v with
          | VStruct [a; b] =>
              a ← c_get int32 a;
              b ← c_get (ptr octets) b; Some (mkEInfo a b)
          | _ => None
          end) _ _); [struct_codec|total_codec].
Defined.

#[export] Instance otp_challenge_der : Der PAOTPChallenge := codec_der paOTPChallenge_codec.
#[export] Instance otp_request_der : Der PAOTPRequest := codec_der paOTPRequest_codec.
#[export] Instance otp_enc_request_der : Der PAOTPEncRequest := codec_der paOTPEncRequest_codec.
#[export] Instance etype_info_der : Der (list ETypeInfoEntry) := codec_der (slice eTypeInfoEntry_codec).

Definition PADataEncryptedTimestamp : Z := 2.
Definition PADataETypeInfo : Z := 11.
Definition PADataETypeInfo2 : Z := 19.
Definition PADataCookie : Z := 133.
Definition PADataEncryptedChallenge : Z := 138.
Definition PADataChallenge : Z := 141.
Definition PADataRequest : Z := 142.
Definition PADataASFreshness : Z := 150.
Definition PADataSPAKE : Z := 151.
Definition encryptedChallengeClientUsage : Z := 54.
Definition encryptedChallengeKDCUsage : Z := 55.
Definition KeyUsageRequest : Z := 45.

(** ** preauth.go *)

Definition FindPAData (data : MethodData) (typ : Z) : option PAData := List.find (λ pa, PADataType pa =? typ) data.
Definition ParseMethodData (data : bytes) : res MethodData := wrap_err "parse METHOD-DATA: " (Unmarshal data).

Section preauth.
Context `{GoCrypto} (fips : bool).

Definition registered_id (id : Z) : bool := is_ok (Registry_Get fips id).

(** The entries of one element of the method data, legacy ones converted. *)
Definition etype_entries (pa : PAData) : res (option (list ETypeInfo2Entry)) :=
  if PADataType pa =? PADataETypeInfo2 then
    res_bind (wrap_err "parse ETYPE-INFO2: " (Unmarshal (PADataValue pa))) (λ entries, Ok (Some entries))
  else if PADataType pa =? PADataETypeInfo then
    res_bind (wrap_err "parse ETYPE-INFO: " (Unmarshal (PADataValue pa))) (λ legacy : list ETypeInfoEntry,
    Ok (Some (map (λ entry, mkEInfo2 (e1_EType entry) (e1_Salt entry) []) legacy)))
  else Ok None.

(** The entries in the order of the client's preference, if it has one. *)
Definition preferred_entries (preference : list Z) (entries : list ETypeInfo2Entry) : list ETypeInfo2Entry :=
  match preference with
  | [] => entries
  | _ => preference ≫= λ preferred, filter (λ entry, ei_EType entry = preferred) entries
  end.

(** The encryption type, the salt and the parameters of string-to-key. *)
Fixpoint SelectEType (methodData : MethodData) (realm : bytes) (name : Principal) (preference : list Z) : res (Z * bytes * bytes) :=
  match methodData with
  | [] => Err "select preauthentication enctype: unsupported encryption type"
  | pa :: rest =>
      res_bind (etype_entries pa) (λ found,
      match found ≫= λ entries, List.find (λ entry, registered_id (ei_EType entry)) (preferred_entries preference entries) with
      | Some entry =>
          let defaultSalt := realm ++ strings_join [] (Components name) in
          Ok (ei_EType entry, default defaultSalt (ei_Salt entry), ei_S2KParams entry)
      | None => SelectEType rest realm name preference
      end)
  end.

Definition BuildEncryptedTimestamp (etype : option EType) (key : bytes) (now microseconds : Z) (conf : res bytes) : res PAData :=
  match etype with
  | None => Err "build PA-ENC-TIMESTAMP: nil enctype"
  | Some etype =>
      let timestamp := mkEncTS (at_time now) (if microseconds =? 0 then None else Some microseconds) in
      res_bind (wrap_err "marshal PA-ENC-TS-ENC: " (Marshal timestamp)) (λ plaintext,
      res_bind (wrap_err "encrypt PA-ENC-TIMESTAMP: " (etype_Encrypt etype conf key 1 plaintext)) (λ ciphertext,
      Ok (mkPA PADataEncryptedTimestamp ciphertext)))
  end.

(** A time stamp sealed with the key combined from the armor key and the
    client's key; the client and the KDC use different peppers and usages. *)
Definition challenge_key (etype : EType) (armorKey : bytes) (clientEType : option EType) (clientKey pepper : bytes) : res bytes :=
  CF2WithKeyEType (Some etype) armorKey clientEType clientKey pepper (str "challengelongterm").
Definition client_pepper : bytes := str "clientchallengearmor".
Definition kdc_pepper : bytes := str "kdcchallengearmor".

Definition build_challenge (label : string) (pepper : bytes) (usage : Z) (armorEType : option EType) (armorKey : bytes) (clientEType : option EType)
    (clientKey : bytes) (now : Z) (conf : res bytes) : res PAData :=
  match armorEType with
  | None => Err ("build " ++ label ++ ": nil enctype")%string
  | Some etype =>
      res_bind (wrap_err ("derive " ++ label ++ " key: ")%string (challenge_key etype armorKey clientEType clientKey pepper)) (λ challengeKey,
      res_bind (wrap_err ("marshal " ++ label ++ ": ")%string (Marshal (mkEncTS (at_time now) None))) (λ plaintext,
      res_bind (wrap_err ("encrypt " ++ label ++ ": ")%string (etype_Encrypt etype conf challengeKey usage plaintext)) (λ ciphertext,
      res_bind (wrap_err ("marshal " ++ label ++ " wrapper: ")%string (Marshal (mkEnc (etype_ID etype) None ciphertext))) (λ encoded,
      Ok (mkPA PADataEncryptedChallenge encoded)))))
  end.
Definition open_challenge (verb label : string) (pepper : bytes) (usage : Z) (armorEType : option EType) (armorKey : bytes) (clientEType : option EType)
    (clientKey data : bytes) : res Z :=
  match armorEType with
  | None => Err (verb ++ label ++ ": nil enctype")%string
  | Some etype =>
      res_bind (wrap_err ("parse " ++ label ++ ": ")%string (Unmarshal data)) (λ encrypted,
      if negb (ed_EType encrypted =? etype_ID etype) || (zlen (ed_Cipher encrypted) =? 0)
      then Err ("parse " ++ label ++ ": invalid encrypted data")%string
      else
        res_bind (wrap_err ("derive " ++ label ++ " key: ")%string (challenge_key etype armorKey clientEType clientKey pepper)) (λ challengeKey,
        res_bind (wrap_err ("decrypt " ++ label ++ ": ")%string (etype_Decrypt etype challengeKey usage (ed_Cipher encrypted))) (λ plaintext,
        match Unmarshal plaintext with
        | Ok timestamp =>
            if negb (Present (ts_PATimestamp timestamp)) then Err ("parse " ++ label ++ " timestamp")%string
            else Ok (Time (ts_PATimestamp timestamp))
        | Err _ => Err ("parse " ++ label ++ " timestamp")%string
        | Panic => Panic
        end)))
  end.

Definition BuildEncryptedChallengeWithKeyEType := build_challenge "PA-ENCRYPTED-CHALLENGE" client_pepper encryptedChallengeClientUsage.
Definition DecryptEncryptedChallengeWithKeyEType := open_challenge "decrypt " "PA-ENCRYPTED-CHALLENGE" client_pepper encryptedChallengeClientUsage.
Definition BuildEncryptedChallengeReplyWithKeyEType := build_challenge "PA-ENCRYPTED-CHALLENGE reply" kdc_pepper encryptedChallengeKDCUsage.
Definition VerifyEncryptedChallengeReplyWithKeyEType (armorEType : option EType) (armorKey : bytes) (clientEType : option EType)
    (clientKey data : bytes) : res unit :=
  res_bind (open_challenge "verify " "PA-ENCRYPTED-CHALLENGE reply" kdc_pepper encryptedChallengeKDCUsage armorEType armorKey clientEType clientKey data) (λ _, Ok tt).

(** ** otp.go *)

Definition unix (t : Z) : Z := t / second.
(** [random] fills the nonce after its time stamp. *)
Definition NewNonce (now : Z) (armorKeyLength : nat) (random : nat → res bytes) : res bytes :=
  res_bind (random armorKeyLength) (λ tail, Ok (be_bytes 4 (u32 (unix now)) ++ tail)).
Definition ValidateNonce (nonce : bytes) (armorKeyLength : nat) (now skew : Z) : res unit :=
  if negb (length nonce =? 4 + armorKeyLength)%nat then Err "OTP nonce length mismatch"
  else
    let ts := be_value (take 4 nonce) * second in
    let skew := if skew <? 0 then - skew else skew in
    let skew := if skew =? 0 then 5 * 60 * second else skew in
    if (ts <? now - skew) || (now + skew <? ts) then Err "OTP nonce clock skew" else Ok tt.

Definition EncryptNonce (etype : option EType) (armorKey nonce : bytes) (conf : res bytes) : res EncryptedData :=
  match etype with
  | Some etype =>
      if zlen armorKey =? 0 then Err "OTP: incomplete armor key"
      else
        res_bind (Marshal (mkOTPEnc nonce)) (λ plain,
        res_bind (etype_Encrypt etype conf armorKey KeyUsageRequest plain) (λ cipher,
        Ok (mkEnc (etype_ID etype) None cipher)))
  | None => Err "OTP: incomplete armor key"
  end.
Definition DecryptNonce (etype : option EType) (armorKey : bytes) (enc : EncryptedData) : res bytes :=
  match etype with
  | Some etype =>
      if negb (ed_EType enc =? etype_ID etype) then Err "OTP: enctype mismatch"
      else
        res_bind (etype_Decrypt etype armorKey KeyUsageRequest (ed_Cipher enc)) (λ plain,
        res_bind (Unmarshal plain) (λ value : PAOTPEncRequest, Ok (oe_Nonce value)))
  | None => Err "OTP: enctype mismatch"
  end.

End preauth.
