(* ===== verification/Cammac.v ===== *)
(** * Protected authorization data (src/krb5/cammac/cammac.go)

    The CAMMAC container of RFC 7751: elements with a verifier of the KDC,
    which covers the ticket with the elements, and one of the service.  *)

From S2P Require Import Prelude Crypto Protocol Asn1 Wire.
Local Open Scope Z_scope.

Definition ChecksumHMACSHA196AES128 : Z := 15.
Definition ChecksumHMACSHA196AES256 : Z := 16.
Definition ChecksumCMACCamellia128 : Z := 17.
Definition ChecksumCMACCamellia256 : Z := 18.
Definition ChecksumHMACSHA256128AES128 : Z := 19.
Definition ChecksumHMACSHA384192AES256 : Z := 20.

(** [errors.Is] on wrapped messages: the cause stands at the end. *)
Fixpoint errors_Is (msg target : string) : bool :=
  if String.eqb msg target then true
  else match msg with EmptyString => false | String _ msg => errors_Is msg target end.

Definition KeyUsage : Z := 64.
Definition ErrNotFound : string := "CAMMAC not found".
Definition ErrInvalid : string := "invalid CAMMAC".

Definition checksumType (enctype : Z) : res Z :=
  if enctype =? EnctypeAES128SHA1 then Ok ChecksumHMACSHA196AES128
  else if enctype =? EnctypeAES256SHA1 then Ok ChecksumHMACSHA196AES256
  else if enctype =? EnctypeAES128SHA256 then Ok ChecksumHMACSHA256128AES128
  else if enctype =? EnctypeAES256SHA384 then Ok ChecksumHMACSHA384192AES256
  else if enctype =? EnctypeCamellia128 then Ok ChecksumCMACCamellia128
  else if enctype =? EnctypeCamellia256 then Ok ChecksumCMACCamellia256
  else Err "CAMMAC: unsupported checksum enctype".

Section cammac.
Context `{GoCrypto} (fips : bool).

Definition encodeAuthData (value : AuthorizationData) : res bytes :=
  wrap_err "CAMMAC authorization data: " (Marshal value).
Definition encodeKDCPart (ticket : EncTicketPart) (elements : AuthorizationData) : res bytes :=
  wrap_err "CAMMAC KDC verifier input: " (Marshal (set_AuthorizationData ticket elements)).

Definition Cammac_Marshal (elements : AuthorizationData) (ticket : EncTicketPart)
    (kdcKey serviceKey : EncryptionKey) (kdcKVNO : Z) : res AuthorizationData :=
  if zlen elements =? 0 then Err "CAMMAC: invalid CAMMAC: empty elements" else
  if (zlen (KeyValue kdcKey) =? 0) || (zlen (KeyValue serviceKey) =? 0)
  then Err "CAMMAC: invalid CAMMAC: incomplete verifier key" else
  res_bind (checksumType (KeyType kdcKey)) (λ kdcType,
  res_bind (checksumType (KeyType serviceKey)) (λ serviceType,
  res_bind (Registry_Get fips (KeyType kdcKey)) (λ kdcEType,
  res_bind (Registry_Get fips (KeyType serviceKey)) (λ serviceEType,
  res_bind (encodeKDCPart ticket elements) (λ kdcInput,
  res_bind (encodeAuthData elements) (λ elementDER,
  res_bind (wrap_err "CAMMAC KDC verifier: " (Checksum kdcEType (KeyValue kdcKey) KeyUsage kdcInput)) (λ kdcSum,
  res_bind (wrap_err "CAMMAC service verifier: "
    (Checksum serviceEType (KeyValue serviceKey) KeyUsage elementDER)) (λ serviceSum,
  let cammac := mkCAMMAC elements
    (Some (mkVerifier None (Some kdcKVNO) None (mkCksum kdcType kdcSum)))
    (Some (mkVerifier None None None (mkCksum serviceType serviceSum))) [] in
  res_bind (wrap_err "CAMMAC: " (Marshal cammac)) (λ encoded,
  res_bind (wrap_err "CAMMAC wrapper: " (Marshal [mkAD ADCAMMAC encoded])) (λ inner,
  Ok [mkAD ADIfRelevant inner])))))))))).

Definition Cammac_Parse (data : bytes) : res CAMMAC :=
  res_bind (wrap_err "CAMMAC: " (Unmarshal data)) (λ value : CAMMAC,
  if zlen (c_Elements value) =? 0 then Err "CAMMAC: invalid CAMMAC: missing elements" else
  match c_KDCVerifier value, c_SVCVerifier value with
  | None, None =>
      if zlen (c_OtherVerifiers value) =? 0 then Err "CAMMAC: invalid CAMMAC: missing verifiers" else Ok value
  | _, _ => Ok value
  end).

(** The two loops of [find]. *)
Fixpoint find_inner (inner : AuthorizationData) : res (list CAMMAC) :=
  match inner with
  | [] => Ok []
  | entry :: inner =>
      if negb (ADType entry =? ADCAMMAC) then find_inner inner else
      res_bind (Cammac_Parse (ADData entry)) (λ value,
      res_bind (find_inner inner) (λ rest, Ok (value :: rest)))
  end.
Fixpoint find_outer (data : AuthorizationData) : res (list CAMMAC) :=
  match data with
  | [] => Ok []
  | outer :: data =>
      if negb (ADType outer =? ADIfRelevant) then find_outer data else
      res_bind (wrap_err "CAMMAC IF-RELEVANT: " (Unmarshal (ADData outer))) (λ inner : AuthorizationData,
      res_bind (find_inner inner) (λ values,
      res_bind (find_outer data) (λ rest, Ok (values ++ rest))))
  end.
Definition Cammac_find (data : AuthorizationData) : res (list CAMMAC) :=
  res_bind (find_outer data) (λ values,
  match values with [] => Err ErrNotFound | _ => Ok values end).

Fixpoint verify_service (etype : EType) (key : bytes) (values : list CAMMAC) : res AuthorizationData :=
  match values with
  | [] => Ok []
  | value :: values =>
      match c_SVCVerifier value with
      | None => Err "CAMMAC: invalid CAMMAC: missing service verifier"
      | Some v =>
          res_bind (encodeAuthData (c_Elements value)) (λ encoded,
          res_bind (wrap_err "CAMMAC service verifier: "
            (VerifyChecksum etype key KeyUsage encoded (cksum (v_Checksum v)))) (λ _,
          res_bind (verify_service etype key values) (λ rest, Ok (c_Elements value ++ rest))))
      end
  end.
Definition VerifyService (data : AuthorizationData) (key : EncryptionKey) : res AuthorizationData :=
  res_bind (Cammac_find data) (λ values,
  res_bind (Registry_Get fips (KeyType key)) (λ etype, verify_service etype (KeyValue key) values)).

Fixpoint verify_kdc (etype : EType) (key : bytes) (ticket : EncTicketPart) (values : list CAMMAC) : res unit :=
  match values with
  | [] => Ok tt
  | value :: values =>
      match c_KDCVerifier value with
      | None => Err "CAMMAC: invalid CAMMAC: missing KDC verifier"
      | Some v =>
          res_bind (encodeKDCPart ticket (c_Elements value)) (λ input,
          res_bind (wrap_err "CAMMAC KDC verifier: "
            (VerifyChecksum etype key KeyUsage input (cksum (v_Checksum v)))) (λ _,
          verify_kdc etype key ticket values))
      end
  end.
Definition VerifyKDC (data : AuthorizationData) (ticket : EncTicketPart) (key : EncryptionKey) : res unit :=
  res_bind (Cammac_find data) (λ values,
  res_bind (Registry_Get fips (KeyType key)) (λ etype, verify_kdc etype (KeyValue key) ticket values)).

Definition ProtectedElements (data : AuthorizationData) : res AuthorizationData :=
  res_bind (Cammac_find data) (λ values, Ok (concat (c_Elements <$> values))).

Definition HasCAMMAC (data : AuthorizationData) : bool := is_ok (Cammac_find data).
End cammac.
