(* ===== verification/Pac.v ===== *)
(** * Privilege attribute certificates (src/krb5/pac/pac.go, src/krb5/pac/authdata.go)

    The container of MS-PAC: its binary form, its buffers, its checksums, and
    its place in the authorization data of a ticket.  A nil and an empty slice
    are both the empty list; the field [dirty], which is only written, is left
    out, and so is the test for a nil receiver. *)

From S2P Require Import Prelude Principal GoStrings Crypto Ulog Protocol Asn1 Wire Cammac.
Local Open Scope Z_scope.

Definition Alignment : Z := 8.
Definition headerLen : Z := 8.
Definition bufferLen : Z := 16.
Definition maxBuffers : Z := 4096.
Definition LogonInfoBuffer : Z := 1.
Definition CredentialInfoBuffer : Z := 2.
Definition ServerChecksum : Z := 6.
Definition KDCChecksum : Z := 7.
Definition ClientInfoBuffer : Z := 10.
Definition DelegationInfoBuffer : Z := 11.
Definition UPNDNSInfo : Z := 12.
Definition TicketChecksum : Z := 16.
Definition FullChecksum : Z := 19.
Definition checksumUsage : Z := 17.

Record Buffer := mkBuffer { b_Type : Z; b_Data : bytes }.
(** The flag dirty is never read. *)
Record PAC := mkPAC { p_Version : Z; p_Buffers : list Buffer; p_raw : bytes }.
Record PACKey := mkPACKey { pk_EType : option EType; pk_Key : bytes }.
Definition set_Buffers (p : PAC) (bs : list Buffer) : PAC := mkPAC (p_Version p) bs (p_raw p).
Definition set_Data (b : Buffer) (data : bytes) : Buffer := mkBuffer (b_Type b) data.

(** ** The binary form *)

(** [binary.LittleEndian.Uint16], [Uint32] and [Uint64] at an offset that is in range. *)
Definition slice_at (data : bytes) (off size : Z) : bytes := take (Z.to_nat size) (drop (Z.to_nat off) data).
Definition u16_at (data : bytes) (off : Z) : Z := le_value (slice_at data off 2).
Definition u32_at (data : bytes) (off : Z) : Z := le_value (slice_at data off 4).
Definition u64_at (data : bytes) (off : Z) : Z := le_value (slice_at data off 8).

Definition overlaps (offset end_ : Z) (prior : Z * Z) : bool := (offset <? prior.2) && (prior.1 <? end_).
(** The loop of [Parse] from buffer [i] on. *)
Fixpoint parse_buffers (n : nat) (data : bytes) (tableLen i : Z) (spans : list (Z * Z)) (types : list Z) : res (list Buffer) :=
  match n with
  | O => Ok []
  | S n =>
      let off := headerLen + i * bufferLen in
      let typ := u32_at data off in
      if bool_decide (typ ∈ types) then Err "PAC: duplicate buffer type" else
      let size := u32_at data (off + 4) in
      let offset := u64_at data (off + 8) in
      if negb (offset mod Alignment =? 0) || (offset <? tableLen) then Err "PAC: invalid buffer offset"
      else if (zlen data <? size) || (zlen data - size <? offset) then Err "PAC: buffer exceeds input"
      else if existsb (overlaps offset (offset + size)) spans then Err "PAC: buffer overlaps another buffer"
      else res_bind (parse_buffers n data tableLen (i + 1) (spans ++ [(offset, offset + size)]) (typ :: types)) (λ bs,
           Ok (mkBuffer typ (slice_at data offset size) :: bs))
  end.
Definition pac_Parse (data : bytes) : res PAC :=
  if zlen data <? headerLen then Err "PAC: truncated header" else
  let count := u32_at data 0 in
  if (count =? 0) || (maxBuffers <? count) then Err "PAC: too many buffers" else
  let tableLen := headerLen + count * bufferLen in
  if zlen data <? tableLen then Err "PAC: truncated buffer table" else
  let version := u32_at data 4 in
  if negb (version =? 0) then Err "PAC: unsupported version" else
  res_bind (parse_buffers (Z.to_nat count) data tableLen 0 [] []) (λ bs, Ok (mkPAC version bs data)).

Definition pac_New : PAC := mkPAC 0 [] [].

(** [copy(out[offset:], data)] within the slice. *)
Definition write_at (out : bytes) (offset : Z) (data : bytes) : bytes :=
  take (Z.to_nat offset) out ++ data ++ drop (Z.to_nat offset + length data) out.
Fixpoint fill_layout (buffers : list Buffer) (i : Z) (out : bytes) : option bytes :=
  match buffers with
  | [] => Some out
  | b :: buffers =>
      let off := headerLen + i * bufferLen in
      if negb (u32_at out off =? b_Type b) || negb (u32_at out (off + 4) =? u32 (zlen (b_Data b))) then None else
      let size := u32_at out (off + 4) in
      let offset := u64_at out (off + 8) in
      if (zlen out <? size) || (zlen out - size <? offset) then None
      else fill_layout buffers (i + 1) (write_at out offset (take (Z.to_nat size) (b_Data b)))
  end.
Definition marshalPreservingLayout (p : PAC) : option bytes :=
  if zlen (p_raw p) <? headerLen then None else
  let count := u32_at (p_raw p) 0 in
  if negb (count =? zlen (p_Buffers p)) || negb (u32_at (p_raw p) 4 =? p_Version p) then None
  else if zlen (p_raw p) <? headerLen + count * bufferLen then None
  else fill_layout (p_Buffers p) 0 (p_raw p).

(** A length rounded up to the alignment, and the data with its padding. *)
Definition aligned (n : Z) : Z := Z.ldiff (n + Alignment - 1) (Alignment - 1).
Definition padded (data : bytes) : bytes := data ++ zeros (Z.to_nat (aligned (zlen data) - zlen data)).
Fixpoint buffer_table (buffers : list Buffer) (offset : Z) : bytes :=
  match buffers with
  | [] => []
  | b :: buffers =>
      le_bytes 4 (b_Type b) ++ le_bytes 4 (zlen (b_Data b)) ++ le_bytes 8 offset ++
      buffer_table buffers (offset + aligned (zlen (b_Data b)))
  end.
Definition canonical_form (p : PAC) : bytes :=
  le_bytes 4 (zlen (p_Buffers p)) ++ le_bytes 4 (p_Version p) ++
  buffer_table (p_Buffers p) (headerLen + zlen (p_Buffers p) * bufferLen) ++
  concat ((λ b, padded (b_Data b)) <$> p_Buffers p).
Definition pac_MarshalBinary (p : PAC) : res bytes :=
  if maxBuffers <? zlen (p_Buffers p) then Err "PAC: too many buffers" else
  match (if zlen (p_raw p) =? 0 then None else marshalPreservingLayout p) with
  | Some encoded => Ok encoded
  | None =>
      if existsb (λ b, 2 ^ 32 - 1 <? zlen (b_Data b)) (p_Buffers p) then Err "PAC: buffer too large"
      else Ok (canonical_form p)
  end.

(** ** Buffers *)

(** The loop of [PAC.Buffer], which takes an empty buffer for an absent one. *)
Fixpoint find_buffer (buffers : list Buffer) (typ : Z) (found : bytes) : option bytes :=
  match buffers with
  | [] => if zlen found =? 0 then None else Some found
  | b :: buffers =>
      if b_Type b =? typ then
        if negb (zlen found =? 0) then None else find_buffer buffers typ (b_Data b)
      else find_buffer buffers typ found
  end.
Definition pac_Buffer (p : PAC) (typ : Z) : option bytes := find_buffer (p_Buffers p) typ [].
(** Change the first buffer of a type. *)
Fixpoint update_buffer (buffers : list Buffer) (typ : Z) (f : bytes → bytes) : option (list Buffer) :=
  match buffers with
  | [] => None
  | b :: buffers =>
      if b_Type b =? typ then Some (set_Data b (f (b_Data b)) :: buffers)
      else bs ← update_buffer buffers typ f; Some (b :: bs)
  end.
Definition setBuffer (p : PAC) (typ : Z) (data : bytes) : PAC :=
  set_Buffers p (match update_buffer (p_Buffers p) typ (λ _, data) with
                 | Some bs => bs
                 | None => p_Buffers p ++ [mkBuffer typ data]
                 end).
Definition SetBuffer : PAC → Z → bytes → PAC := setBuffer.

Definition pac_signature (p : PAC) (typ : Z) : option bytes :=
  data ← pac_Buffer p typ; if zlen data <? 4 then None else Some (drop 4 data).
Definition signatureType (p : PAC) (typ : Z) : option Z :=
  data ← pac_Buffer p typ; if zlen data <? 4 then None else Some (i32 (u32_at data 0)).
Definition pac_checksumType (key : PACKey) : res Z :=
  match pk_EType key with
  | None => Err "PAC: missing signing key"
  | Some etype =>
      if zlen (pk_Key key) =? 0 then Err "PAC: missing signing key"
      else match checksumType (etype_ID etype) with
           | Ok t => Ok t
           | _ => Err "PAC: unsupported signing enctype"
           end
  end.

(** ** Client information *)

Definition filetime (authtime : Z) : Z := u64 (i64 (authtime / 1000000000 + 11644473600) * 10000000).
Definition client_info (authtime : Z) (encoded : list Z) : bytes :=
  le_bytes 8 (filetime authtime) ++ le_bytes 2 (u16 (zlen encoded * 2)) ++ concat (le_bytes 2 <$> encoded).
Definition SetClientInfo (p : PAC) (authtime : Z) (client : Principal) : res PAC :=
  res_bind (Format client) (λ name,
  let encoded := utf16_Encode (to_runes name) in
  if 2 ^ 16 - 1 <? zlen encoded * 2 then Err "PAC: client-info name is too long"
  else Ok (setBuffer p ClientInfoBuffer (client_info authtime encoded))).
Definition addClientInfo (p : PAC) (authtime : Z) (client : Principal) : res PAC :=
  res_bind (Format client) (λ name,
  match pac_Buffer p ClientInfoBuffer with
  | Some _ => Ok p
  | None =>
      let encoded := utf16_Encode (to_runes name) in
      if 2 ^ 16 - 1 <? zlen encoded * 2 then Err "PAC: client-info name is too long"
      else Ok (setBuffer p ClientInfoBuffer (client_info authtime encoded))
  end).

(** [binary.LittleEndian.Uint16] of consecutive pairs. *)
Fixpoint le_units (data : bytes) : list Z :=
  match data with
  | a :: b :: data => le_value [a; b] :: le_units data
  | _ => []
  end.
(** The time in nanoseconds and the name. *)
Definition pac_ClientInfo (p : PAC) : res (Z * bytes) :=
  match pac_Buffer p ClientInfoBuffer with
  | None => Err "PAC: missing or truncated client-info buffer"
  | Some data =>
      if zlen data <? 10 then Err "PAC: missing or truncated client-info buffer" else
      let n := u16_at data 8 in
      if negb (n mod 2 =? 0) || (zlen data <? 10 + n) then Err "PAC: invalid client-info name length" else
      let seconds := u64_at data 0 / 10000000 - 11644473600 in
      Ok (seconds * 1000000000, of_runes (utf16_Decode (le_units (slice_at data 10 n))))
  end.

(** ** Signing and verifying *)

Definition ensureSignature (p : PAC) (typ : Z) (key : PACKey) : res PAC :=
  res_bind (pac_checksumType key) (λ cksumType,
  match pk_EType key with
  | None => Panic
  | Some etype =>
      let size := 4 + Z.of_nat (ChecksumSize etype) in
      match pac_Buffer p typ with
      | Some data => if negb (zlen data =? size) then Err "PAC: signature buffer has another length"
                     else Ok (setBuffer p typ (le_bytes 4 (u32 cksumType) ++ zeros (length data - 4)))
      | None => Ok (setBuffer p typ (le_bytes 4 (u32 cksumType) ++ zeros (ChecksumSize etype)))
      end
  end).

(** The first buffer of a type, whose data is changed when it holds a signature. *)
Definition zeroed (data : bytes) : bytes := take 4 data ++ zeros (length data - 4).
Definition zeroSignature (p : PAC) (typ : Z) : res PAC :=
  match List.find (λ b, b_Type b =? typ) (p_Buffers p) with
  | None => Err "PAC: missing signature buffer"
  | Some b => if zlen (b_Data b) <? 4 then Err "PAC: malformed signature buffer"
              else Ok (set_Buffers p (default (p_Buffers p) (update_buffer (p_Buffers p) typ zeroed)))
  end.
Definition setSignature (p : PAC) (typ : Z) (value : bytes) : PAC :=
  set_Buffers p (default (p_Buffers p) (update_buffer (p_Buffers p) typ (λ data, take 4 data ++ value))).

Section signatures.
Context `{GoCrypto}.

(** [key.EType.Checksum] and [key.EType.VerifyChecksum]; a nil interface panics. *)
Definition key_Checksum (key : PACKey) (data : bytes) : res bytes :=
  match pk_EType key with Some etype => Checksum etype (pk_Key key) checksumUsage data | None => Panic end.
Definition key_Verify (key : PACKey) (data checksum : bytes) : res unit :=
  match pk_EType key with Some etype => VerifyChecksum etype (pk_Key key) checksumUsage data checksum | None => Panic end.

(** [sign]: the buffers of the signatures, with the signature of the ticket, ... *)
Definition sign_buffers (p : PAC) (authtime : Z) (client : option Principal) (serverKey privsvrKey : PACKey)
    (serviceTicket : bool) (ticket : option bytes) : res PAC :=
  res_bind (match client with Some client => addClientInfo p authtime client | None => Ok p end) (λ p,
  res_bind (ensureSignature p ServerChecksum serverKey) (λ p,
  res_bind (ensureSignature p KDCChecksum privsvrKey) (λ p,
  res_bind (if serviceTicket then
              res_bind (ensureSignature p FullChecksum privsvrKey) (λ p,
              match ticket with Some _ => ensureSignature p TicketChecksum privsvrKey | None => Ok p end)
            else Ok p) (λ p,
  match ticket with
  | Some ticket => res_bind (key_Checksum privsvrKey ticket) (λ value, Ok (setSignature p TicketChecksum value))
  | None => Ok p
  end)))).
(** ... and the values of the other signatures. *)
Definition sign_values (p : PAC) (serverKey privsvrKey : PACKey) (serviceTicket : bool) : res bytes :=
  res_bind (zeroSignature p ServerChecksum) (λ p,
  res_bind (zeroSignature p KDCChecksum) (λ p,
  res_bind (if serviceTicket then zeroSignature p FullChecksum else Ok p) (λ p,
  res_bind (pac_MarshalBinary p) (λ encoded,
  res_bind (if serviceTicket then res_bind (key_Checksum privsvrKey encoded) (λ value, Ok (setSignature p FullChecksum value))
            else Ok p) (λ p,
  res_bind (pac_MarshalBinary p) (λ encoded,
  res_bind (key_Checksum serverKey encoded) (λ serverValue,
  let p := setSignature p ServerChecksum serverValue in
  match pac_Buffer p ServerChecksum with
  | None => Err "PAC: missing server checksum"
  | Some serverBuffer =>
      res_bind (key_Checksum privsvrKey serverBuffer) (λ privValue,
      pac_MarshalBinary (setSignature p KDCChecksum privValue))
  end))))))).
Definition sign (p : PAC) (authtime : Z) (client : option Principal) (serverKey privsvrKey : PACKey)
    (serviceTicket : bool) (ticket : option bytes) : res bytes :=
  res_bind (sign_buffers p authtime client serverKey privsvrKey serviceTicket ticket) (λ p,
  sign_values p serverKey privsvrKey serviceTicket).
Definition Sign (p : PAC) (authtime : Z) (client : option Principal) (serverKey privsvrKey : PACKey) (serviceTicket : bool)
    : res bytes := sign p authtime client serverKey privsvrKey serviceTicket None.
Definition SignWithTicket (p : PAC) (authtime : Z) (client : option Principal) (serverKey privsvrKey : PACKey) (ticket : bytes)
    : res bytes :=
  if zlen ticket =? 0 then Err "PAC: missing encoded dummy ticket"
  else sign p authtime client serverKey privsvrKey true (Some ticket).
Definition AddTicketSignature (p : PAC) (encTicketPart : bytes) (privsvrKey : PACKey) : res PAC :=
  res_bind (ensureSignature p TicketChecksum privsvrKey) (λ p,
  res_bind (key_Checksum privsvrKey encTicketPart) (λ value, Ok (setSignature p TicketChecksum value))).
Definition VerifyTicketSignature (p : PAC) (encTicketPart : bytes) (privsvrKey : PACKey) : res unit :=
  if negb (bool_decide (is_Some (pk_EType privsvrKey))) || (zlen (pk_Key privsvrKey) =? 0)
  then Err "PAC: missing ticket verification key" else
  res_bind (pac_checksumType privsvrKey) (λ expectedType,
  if negb (bool_decide (signatureType p TicketChecksum = Some expectedType)) then Err "PAC: ticket checksum type mismatch" else
  match pac_signature p TicketChecksum with
  | None => Err "PAC: missing or malformed ticket checksum"
  | Some expected => wrap_err "PAC ticket checksum: " (key_Verify privsvrKey encTicketPart expected)
  end).

(** The signature of a buffer that is there, with the type of the key. *)
Definition expected_signature (p : PAC) (typ : Z) (privsvrKey : PACKey) (malformed mismatch : string) : res (option bytes) :=
  match pac_Buffer p typ with
  | None => Ok None
  | Some _ =>
      match pac_signature p typ with
      | None => Err malformed
      | Some expected =>
          match pk_EType privsvrKey with
          | None => Ok (Some expected)
          | Some _ =>
              res_bind (pac_checksumType privsvrKey) (λ privType,
              if negb (bool_decide (signatureType p typ = Some privType)) then Err mismatch else Ok (Some expected))
          end
      end
  end.
(** [privExpected != nil]: an empty signature is nil. *)
Definition present (expected : option bytes) (privsvrKey : PACKey) : option bytes :=
  match expected, pk_EType privsvrKey with
  | Some e, Some _ => if zlen e =? 0 then None else Some e
  | _, _ => None
  end.
Definition pac_Verify (p : PAC) (serverKey privsvrKey : PACKey) : res unit :=
  if negb (bool_decide (is_Some (pk_EType serverKey))) || (zlen (pk_Key serverKey) =? 0)
  then Err "PAC: missing server verification key" else
  res_bind (pac_checksumType serverKey) (λ serverType,
  match pac_signature p ServerChecksum with
  | None => Err "PAC: missing or malformed server checksum"
  | Some serverExpected =>
  if negb (bool_decide (signatureType p ServerChecksum = Some serverType)) then Err "PAC: server checksum type mismatch" else
  res_bind (expected_signature p KDCChecksum privsvrKey "PAC: missing or malformed KDC checksum"
              "PAC: KDC checksum type mismatch") (λ privExpected,
  res_bind (expected_signature p FullChecksum privsvrKey "PAC: missing or malformed full checksum"
              "PAC: full checksum type mismatch") (λ fullExpected,
  res_bind (match present fullExpected privsvrKey with
            | None => Ok tt
            | Some expected =>
                res_bind (zeroSignature p ServerChecksum) (λ work,
                res_bind (zeroSignature work KDCChecksum) (λ work,
                res_bind (zeroSignature work FullChecksum) (λ work,
                res_bind (pac_MarshalBinary work) (λ data,
                wrap_err "PAC full checksum: " (key_Verify privsvrKey data expected)))))
            end) (λ _,
  res_bind (zeroSignature p ServerChecksum) (λ work,
  res_bind (zeroSignature work KDCChecksum) (λ work,
  res_bind (pac_MarshalBinary work) (λ data,
  res_bind (wrap_err "PAC server checksum: " (key_Verify serverKey data serverExpected)) (λ _,
  match present privExpected privsvrKey with
  | None => Ok tt
  | Some expected =>
      res_bind (zeroSignature p KDCChecksum) (λ work,
      match pac_Buffer work ServerChecksum with
      | None => Err "PAC: missing server checksum"
      | Some serverBuffer => wrap_err "PAC KDC checksum: " (key_Verify privsvrKey serverBuffer expected)
      end)
  end)))))))
  end).
End signatures.

(** ** Authorization data *)

Definition pac_ErrNotFound : string := "PAC not found".
Definition ADWin2KPac : Z := 128.
Definition wrap_pac (value : bytes) : res AuthorizationDataEntry :=
  res_bind (wrap_err "PAC authorization data: " (Marshal [mkAD ADWin2KPac value])) (λ inner, Ok (mkAD ADIfRelevant inner)).
Definition pac_AuthorizationData (value : bytes) : res AuthorizationData :=
  res_bind (pac_Parse value) (λ _, res_bind (wrap_pac value) (λ entry, Ok [entry])).
Definition DummyAuthorizationData : res AuthorizationData := res_bind (wrap_pac [Byte.x00]) (λ entry, Ok [entry]).

(** The elements of a container with the PAC in the place of the first one, and
    whether there was one. *)
Fixpoint replace_pac (inner : AuthorizationData) (value : bytes) (inserted : bool) : AuthorizationData * bool :=
  match inner with
  | [] => ([], inserted)
  | entry :: inner =>
      if ADType entry =? ADWin2KPac then
        let '(filtered, has) := replace_pac inner value true in
        (if inserted then filtered else mkAD ADWin2KPac value :: filtered, has)
      else let '(filtered, has) := replace_pac inner value inserted in (entry :: filtered, has)
  end.
Fixpoint add_loop (data : AuthorizationData) (value : bytes) (replaced : bool) : res (AuthorizationData * bool) :=
  match data with
  | [] => Ok ([], replaced)
  | outer :: data =>
      if negb (ADType outer =? ADIfRelevant) then res_bind (add_loop data value replaced) (λ '(out, r), Ok (outer :: out, r)) else
      res_bind (wrap_err "PAC authorization data: " (Unmarshal (ADData outer))) (λ inner : AuthorizationData,
      let '(filtered, hasPAC) := replace_pac inner value false in
      if hasPAC then
        res_bind (wrap_err "PAC authorization data: " (Marshal filtered)) (λ encoded,
        res_bind (add_loop data value true) (λ '(out, r), Ok (mkAD (ADType outer) encoded :: out, r)))
      else res_bind (add_loop data value replaced) (λ '(out, r), Ok (outer :: out, r)))
  end.
Definition addAuthorizationData (data : AuthorizationData) (value : bytes) : res AuthorizationData :=
  res_bind (add_loop data value false) (λ '(out, replaced),
  if replaced then Ok out else res_bind (wrap_pac value) (λ entry, Ok (out ++ [entry]))).
Definition AddDummyAuthorizationData (data : AuthorizationData) : res AuthorizationData := addAuthorizationData data [Byte.x00].
Definition AddAuthorizationData (data : AuthorizationData) (value : bytes) : res AuthorizationData :=
  res_bind (pac_Parse value) (λ _, addAuthorizationData data value).

Fixpoint FromAuthorizationData (data : AuthorizationData) : res PAC :=
  match data with
  | [] => Err ("PAC authorization data: " +:+ pac_ErrNotFound)
  | outer :: data =>
      if negb (ADType outer =? ADIfRelevant) then FromAuthorizationData data else
      res_bind (wrap_err "PAC authorization data: " (Unmarshal (ADData outer))) (λ inner : AuthorizationData,
      match List.find (λ entry, ADType entry =? ADWin2KPac) inner with
      | Some entry => pac_Parse (ADData entry)
      | None => FromAuthorizationData data
      end)
  end.
Definition FromTicket `{GoCrypto} (part : EncTicketPart) (serverKey : PACKey) (privsvrKey : option PACKey) : res PAC :=
  res_bind (FromAuthorizationData (tp_AuthorizationData part)) (λ p,
  res_bind (pac_Verify p serverKey (default (mkPACKey None []) privsvrKey)) (λ _, Ok p)).

(** ** Lemmas on offsets *)

Lemma slice_at_write_same out off data :
  0 <= off → off + zlen data <= zlen out → slice_at (write_at out off data) off (zlen data) = data.
Proof.
  intros Ho Hl. unfold slice_at, write_at, zlen in *. rewrite Nat2Z.id.
  rewrite drop_app_length' by (rewrite length_take; lia). by rewrite take_app_length.
Qed.
Lemma slice_at_write_other out off data o n :
  0 <= off → off + zlen data <= zlen out → 0 <= o → 0 <= n → o + n <= off ∨ off + zlen data <= o →
  slice_at (write_at out off data) o n = slice_at out o n.
Proof.
  intros Ho Hl H0 Hn Hd. unfold slice_at, write_at, zlen in *. apply list_eq. intros i.
  destruct (decide (i < Z.to_nat n)%nat) as [Hi|Hi]; [|rewrite !lookup_take_ge by lia; done].
  rewrite !lookup_take_lt, !lookup_drop by lia. destruct Hd as [Hd|Hd].
  - rewrite lookup_app_l by (rewrite length_take; lia). rewrite lookup_take_lt by lia. done.
  - rewrite lookup_app_r by (rewrite length_take; lia). rewrite length_take.
    rewrite lookup_app_r by lia. rewrite lookup_drop. f_equal. lia.
Qed.
Lemma zlen_write_at out off data : 0 <= off → off + zlen data <= zlen out → zlen (write_at out off data) = zlen out.
Proof. intros Ho Hl. unfold write_at, zlen in *. rewrite !length_app, length_take, length_drop. lia. Qed.
Lemma write_at_overwrite out off a b :
  0 <= off → off + zlen a <= zlen out → zlen a = zlen b → write_at (write_at out off a) off b = write_at out off b.
Proof.
  intros Ho Hl Hab. unfold write_at, zlen in *. rewrite take_app_length' by (rewrite length_take; lia). f_equal. f_equal.
  rewrite drop_app, drop_ge by (rewrite length_take; lia). cbn. rewrite length_take, drop_app, drop_ge by lia. cbn.
  rewrite drop_drop. f_equal. lia.
Qed.
Lemma lookup_write_at out off data i :
  0 <= off → off + zlen data <= zlen out →
  write_at out off data !! i =
  if decide (Z.to_nat off <= i < Z.to_nat off + length data)%nat then data !! (i - Z.to_nat off)%nat else out !! i.
Proof.
  intros Ho Hl. unfold write_at, zlen in *. assert (length (take (Z.to_nat off) out) = Z.to_nat off) as Ht by (rewrite length_take; lia).
  destruct (decide (i < Z.to_nat off)%nat) as [Hi|Hi].
  - rewrite lookup_app_l, lookup_take_lt by lia. rewrite decide_False by lia. done.
  - rewrite lookup_app_r, Ht by lia. destruct (decide (i < Z.to_nat off + length data)%nat) as [Hj|Hj].
    + rewrite decide_True, lookup_app_l by lia. done.
    + rewrite decide_False, lookup_app_r, lookup_drop by lia. f_equal. lia.
Qed.
Lemma write_at_commute out o1 a o2 b :
  0 <= o1 → o1 + zlen a <= zlen out → 0 <= o2 → o2 + zlen b <= zlen out → o1 + zlen a <= o2 ∨ o2 + zlen b <= o1 →
  write_at (write_at out o1 a) o2 b = write_at (write_at out o2 b) o1 a.
Proof.
  intros H1 H1' H2 H2' Hd. apply list_eq. intros i. rewrite !lookup_write_at by (try rewrite zlen_write_at; lia).
  unfold zlen in *. repeat case_decide; try done; lia.
Qed.

(** ** The layout of an encoded PAC *)

Lemma u32_at_range data o : 0 <= u32_at data o < 2 ^ 32.
Proof.
  unfold u32_at. set (l := slice_at data o 4). assert (zlen l <= 4) by (unfold l, slice_at, zlen; rewrite length_take; lia).
  pose proof (le_value_range l). assert (256 ^ zlen l <= 256 ^ 4) by (apply Z.pow_le_mono_r; lia). lia.
Qed.
Lemma u64_at_nonneg data o : 0 <= u64_at data o.
Proof. apply le_value_range. Qed.

(** The type, size and offset of the entry of a buffer. *)
Abbreviation entry := (Z * Z * Z)%type.
Definition entry_at (data : bytes) (i : Z) : entry :=
  let off := headerLen + i * bufferLen in (u32_at data off, u32_at data (off + 4), u64_at data (off + 8)).
Fixpoint entries (n : nat) (data : bytes) (i : Z) : list entry :=
  match n with O => [] | S n => entry_at data i :: entries n data (i + 1) end.
Fixpoint accepted (tableLen len : Z) (spans : list (Z * Z)) (types : list Z) (es : list entry) : bool :=
  match es with
  | [] => true
  | (typ, size, offset) :: es =>
      negb (bool_decide (typ ∈ types)) && negb (negb (offset mod Alignment =? 0) || (offset <? tableLen)) &&
      negb ((len <? size) || (len - size <? offset)) && negb (existsb (overlaps offset (offset + size)) spans) &&
      accepted tableLen len (spans ++ [(offset, offset + size)]) (typ :: types) es
  end.
Definition extract (data : bytes) (e : entry) : Buffer := mkBuffer e.1.1 (slice_at data e.2 e.1.2).

Lemma parse_buffers_spec n data tl i spans types bs :
  parse_buffers n data tl i spans types = Ok bs ↔
  accepted tl (zlen data) spans types (entries n data i) = true ∧ bs = extract data <$> entries n data i.
Proof.
  revert i spans types bs. induction n as [|n IH]; intros i spans types bs; cbn [parse_buffers entries accepted].
  { split; [by intros [= <-]|by intros [_ ->]]. }
  unfold entry_at. cbv zeta. set (off := headerLen + i * bufferLen).
  destruct (bool_decide (u32_at data off ∈ types)); [naive_solver|].
  destruct (_ || (_ <? tl)); [naive_solver|]. destruct ((zlen data <? _) || _); [naive_solver|].
  destruct (existsb _ spans); [naive_solver|]. cbn [negb andb].
  specialize (IH (i + 1) (spans ++ [(u64_at data (off + 8), u64_at data (off + 8) + u32_at data (off + 4))]) (u32_at data off :: types)).
  destruct (parse_buffers _ _ _ _ _ _) as [bs'| |]; cbn [res_bind].
  - destruct (proj1 (IH bs') eq_refl) as [Ha ->]. split; [intros [= <-]; done|intros [_ ->]; done].
  - split; [done|]. intros [Ha _]. discriminate (proj2 (IH _) (conj Ha eq_refl)).
  - split; [done|]. intros [Ha _]. discriminate (proj2 (IH _) (conj Ha eq_refl)).
Qed.

Record laid_out (data : bytes) (n : nat) : Prop := mkLaid {
  laid_count : u32_at data 0 = Z.of_nat n;
  laid_bound : 0 < Z.of_nat n <= maxBuffers;
  laid_table : headerLen + Z.of_nat n * bufferLen <= zlen data;
  laid_version : u32_at data 4 = 0;
  laid_entries : accepted (headerLen + Z.of_nat n * bufferLen) (zlen data) [] [] (entries n data 0) = true;
}.
Lemma Parse_spec data p :
  pac_Parse data = Ok p ↔ ∃ n, laid_out data n ∧ p = mkPAC 0 (extract data <$> entries n data 0) data.
Proof.
  unfold pac_Parse, headerLen, maxBuffers, bufferLen. pose proof (u32_at_range data 0) as Hc. split.
  - destruct (Z.ltb_spec (zlen data) 8); [done|]. destruct (_ || _) eqn:Eb; [done|].
    apply orb_false_elim in Eb as [E1%Z.eqb_neq E2%Z.ltb_ge].
    destruct (Z.ltb_spec (zlen data) (8 + u32_at data 0 * 16)); [done|].
    destruct (Z.eqb_spec (u32_at data 4) 0) as [Hv|]; [|done]. cbn [negb].
    destruct (parse_buffers _ _ _ _ _ _) as [bs| |] eqn:Hp; [|done|done]. cbn [res_bind]. intros [= <-].
    apply parse_buffers_spec in Hp as [Ha ->]. exists (Z.to_nat (u32_at data 0)). rewrite Hv. split; [|done].
    split; unfold headerLen, bufferLen, maxBuffers; rewrite ?Z2Nat.id by lia; try done; lia.
  - intros (n & [H0 Hb Ht Hv Ha] & ->). unfold headerLen, maxBuffers, bufferLen in *. rewrite H0, Hv.
    rewrite (proj2 (Z.ltb_ge (zlen data) 8)), (proj2 (Z.eqb_neq (Z.of_nat n) 0)), (proj2 (Z.ltb_ge 4096 _)), (proj2 (Z.ltb_ge (zlen data) _)) by lia.
    cbn [orb negb Z.eqb]. rewrite Nat2Z.id.
    rewrite (proj2 (parse_buffers_spec n data (8 + Z.of_nat n * 16) 0 [] [] _) (conj Ha eq_refl)). done.
Qed.

Definition in_bounds (tl len : Z) (e : entry) : Prop := tl <= e.2 ∧ e.2 + e.1.2 <= len.
Definition apart (e f : entry) : Prop := e.2 + e.1.2 <= f.2 ∨ f.2 + f.1.2 <= e.2.
Fixpoint separate (es : list entry) : Prop :=
  match es with [] => True | e :: es => Forall (apart e) es ∧ separate es end.
Definition profile (bs : list Buffer) : list (Z * Z) := (λ b, (b_Type b, zlen (b_Data b))) <$> bs.

Lemma accepted_facts tl len spans types es :
  accepted tl len spans types es = true →
  Forall (in_bounds tl len) es ∧ Forall (λ e : entry, Forall (λ sp : Z * Z, sp.2 <= e.2 ∨ e.2 + e.1.2 <= sp.1) spans) es ∧
  separate es ∧ NoDup (es.*1).*1 ∧ Forall (λ e : entry, e.1.1 ∉ types) es.
Proof.
  revert spans types. induction es as [|[[t s] o] es IH]; intros spans types Ha; [repeat split; constructor|]. cbn [accepted] in Ha.
  apply andb_prop in Ha as [[[[Ht Ho]%andb_prop Hl]%andb_prop Hs]%andb_prop Ha].
  destruct (IH _ _ Ha) as (Hb & Hsp & Hsep & Hnd & Hty). clear IH Ha.
  apply negb_true_iff, bool_decide_eq_false in Ht. apply negb_true_iff, orb_false_elim in Ho as [_ Ho%Z.ltb_ge].
  apply negb_true_iff, orb_false_elim in Hl as [Hl1%Z.ltb_ge Hl2%Z.ltb_ge]. apply negb_true_iff in Hs.
  split_and!; cbn.
  - constructor; [unfold in_bounds; cbn; lia|done].
  - constructor; [|apply (Forall_impl _ _ _ Hsp); intros e He; by apply Forall_app in He as [He _]].
    apply Forall_forall. intros sp Hsp'. cbn. assert (overlaps o (o + s) sp = false) as Hov.
    { rewrite <- not_true_iff_false in Hs |- *. intros Hx. apply Hs, existsb_exists. exists sp. split; [by apply list_elem_of_In|done]. }
    unfold overlaps in Hov. lia.
  - split; [|done]. apply (Forall_impl _ _ _ Hsp). intros e He. apply Forall_app in He as [_ He].
    inversion He; subst. unfold apart. cbn in *. lia.
  - constructor; [|done]. intros Hin. rewrite <- list_fmap_compose in Hin. apply list_elem_of_fmap in Hin as (e & -> & He).
    rewrite Forall_forall in Hty. apply (Hty e He). cbn. by left.
  - constructor; [done|]. apply (Forall_impl _ _ _ Hty). intros e He Hx. apply He. by right.
Qed.

Lemma entries_write n out o d i :
  0 <= i → headerLen + (i + Z.of_nat n) * bufferLen <= o → o + zlen d <= zlen out →
  entries n (write_at out o d) i = entries n out i.
Proof.
  unfold headerLen, bufferLen. revert i. induction n as [|n IH]; intros i Hi Ho Hl; [done|]. cbn [entries]. rewrite IH by lia. f_equal.
  unfold entry_at, u32_at, u64_at, headerLen, bufferLen. cbv zeta. by rewrite !slice_at_write_other by lia.
Qed.
Lemma length_entries n data i : length (entries n data i) = n.
Proof. revert i. induction n; intros i; cbn; [done|]. by rewrite IHn. Qed.

Fixpoint writes (bs : list Buffer) (es : list entry) (out : bytes) : bytes :=
  match bs, es with
  | b :: bs, e :: es => writes bs es (write_at out e.2 (b_Data b))
  | _, _ => out
  end.
Lemma fill_spec bs i out tl :
  0 <= i → 0 <= tl → headerLen + (i + zlen bs) * bufferLen <= tl → Forall (λ b, zlen (b_Data b) < 2 ^ 32) bs →
  Forall (in_bounds tl (zlen out)) (entries (length bs) out i) →
  fill_layout bs i out =
  if bool_decide (profile bs = (entries (length bs) out i).*1) then Some (writes bs (entries (length bs) out i) out) else None.
Proof.
  unfold headerLen, bufferLen. intros Hi Htl. revert i out Hi. induction bs as [|b bs IH]; intros i out Hi Ht Hs Hb; [done|].
  cbn [fill_layout length entries profile fmap list_fmap writes]. unfold entry_at in *. cbv zeta in *. cbn [entries] in Hb.
  inversion Hs; subst. inversion Hb as [|e es [Hb1 Hb2] Hb']; subst. unfold entry_at in Hb1, Hb2. cbn [fst snd] in *.
  set (off := headerLen + i * bufferLen) in *. unfold u32. rewrite (Z.mod_small (zlen (b_Data b))) by (pose proof (zlen_nonneg (b_Data b)); lia).
  destruct (Z.eqb_spec (u32_at out off) (b_Type b)) as [Ety|Nty]; cbn [negb orb];
    [|rewrite bool_decide_eq_false_2; [done|intros [=]; congruence]].
  destruct (Z.eqb_spec (u32_at out (off + 4)) (zlen (b_Data b))) as [Esz|Nsz]; cbn [negb orb];
    [|rewrite bool_decide_eq_false_2; [done|intros [=]; congruence]].
  rewrite Esz in *. rewrite take_ge by (unfold zlen; lia). rewrite zlen_cons in Ht. pose proof (u64_at_nonneg out (off + 8)).
  rewrite (proj2 (Z.ltb_ge _ _)), (proj2 (Z.ltb_ge (_ - _) _)) by (pose proof (zlen_nonneg (b_Data b)); lia). cbn [orb].
  assert (He : entries (length bs) (write_at out (u64_at out (off + 8)) (b_Data b)) (i + 1) = entries (length bs) out (i + 1)).
  { apply entries_write; unfold headerLen, bufferLen, zlen in *; lia. }
  rewrite IH, He; [|lia|lia|done|rewrite He, zlen_write_at by lia; done].
  rewrite Ety. fold (profile bs). destruct (decide (profile bs = (entries (length bs) out (i + 1)).*1)) as [Hp|Hp].
  - rewrite !bool_decide_eq_true_2 by congruence. done.
  - rewrite !bool_decide_eq_false_2 by congruence. done.
Qed.

(** What is written is read back, and written over. *)
Lemma separate_spec e es : separate (e :: es) → Forall (λ f, apart e f) es ∧ separate es.
Proof. done. Qed.
Lemma zlen_writes bs es out :
  profile bs = es.*1 → Forall (in_bounds 0 (zlen out)) es → zlen (writes bs es out) = zlen out.
Proof.
  revert bs out. induction es as [|[[t s] o] es IH]; intros [|b bs] out Hp Hb; try done. cbn in Hp. injection Hp as <- <- Hp.
  inversion Hb as [|? ? [Hb1 Hb2] Hb']; subst. cbn in *. rewrite IH; [apply zlen_write_at; lia|done|].
  rewrite zlen_write_at by lia. done.
Qed.
Lemma writes_commute bs es out o d :
  profile bs = es.*1 → Forall (in_bounds 0 (zlen out)) es → 0 <= o → o + zlen d <= zlen out →
  Forall (λ f : entry, o + zlen d <= f.2 ∨ f.2 + f.1.2 <= o) es →
  write_at (writes bs es out) o d = writes bs es (write_at out o d).
Proof.
  revert bs out. induction es as [|[[t s] o'] es IH]; intros [|b bs] out Hp Hb Ho Hd Ha; try done. cbn in Hp. injection Hp as <- <- Hp.
  inversion Hb as [|? ? [Hb1 Hb2] Hb']; subst. inversion Ha; subst. cbn in *.
  rewrite IH by (try rewrite zlen_write_at; auto; lia). f_equal. apply write_at_commute; lia.
Qed.
Lemma writes_overwrite bs bs' es out :
  profile bs = es.*1 → profile bs' = es.*1 → separate es → Forall (in_bounds 0 (zlen out)) es →
  writes bs' es (writes bs es out) = writes bs' es out.
Proof.
  revert bs bs' out. induction es as [|[[t s] o] es IH]; intros [|b bs] [|b' bs'] out Hp Hp' Hs Hb; try done.
  cbn in Hp, Hp'. injection Hp as Ht Hl Hp. injection Hp' as Ht' Hl' Hp'.
  inversion Hb as [|? ? [Hb1 Hb2] Hb']; subst s. destruct Hs as [Ha Hs]. cbn in *.
  assert (Hzl : zlen (write_at out o (b_Data b)) = zlen out) by (apply zlen_write_at; lia).
  rewrite writes_commute; [|done|by rewrite Hzl|lia|lia|rewrite <- Hl' in Ha; exact Ha].
  rewrite write_at_overwrite by lia. apply IH; [done|done|done|]. by rewrite zlen_write_at by lia.
Qed.
Lemma extract_writes bs es out :
  profile bs = es.*1 → separate es → Forall (in_bounds 0 (zlen out)) es → extract (writes bs es out) <$> es = bs.
Proof.
  revert bs out. induction es as [|[[t s] o] es IH]; intros [|b bs] out Hp Hs Hb; try done. cbn in Hp. injection Hp as <- <- Hp.
  inversion Hb as [|? ? [Hb1 Hb2] Hb']; subst. destruct Hs as [Ha Hs]. cbn [writes fmap list_fmap] in *. cbn [fst snd] in *.
  f_equal.
  - rewrite <- writes_commute by done. unfold extract. cbn [fst snd]. rewrite slice_at_write_same; [by destruct b|lia|].
    by rewrite zlen_writes.
  - apply IH; [done|done|]. by rewrite zlen_write_at.
Qed.
Lemma entries_writes n bs es out i tl :
  0 <= i → headerLen + (i + Z.of_nat n) * bufferLen <= tl → 0 <= tl →
  profile bs = es.*1 → Forall (in_bounds tl (zlen out)) es → entries n (writes bs es out) i = entries n out i.
Proof.
  intros Hi Ht Htl. revert bs out. induction es as [|[[t s] o] es IH]; intros [|b bs] out Hp Hb; try done. cbn in Hp. injection Hp as <- <- Hp.
  inversion Hb as [|? ? [Hb1 Hb2] Hb']; subst. cbn [writes fst snd] in *.
  rewrite IH; [|done|rewrite zlen_write_at by lia; done]. apply entries_write; lia.
Qed.
Lemma u32_at_writes bs es out o tl :
  0 <= o → o + 4 <= tl → profile bs = es.*1 → Forall (in_bounds tl (zlen out)) es → u32_at (writes bs es out) o = u32_at out o.
Proof.
  intros Ho Ht. revert bs out. induction es as [|[[t s] o'] es IH]; intros [|b bs] out Hp Hb; try done. cbn in Hp. injection Hp as <- <- Hp.
  inversion Hb as [|? ? [Hb1 Hb2] Hb']; subst. cbn [writes fst snd] in *.
  rewrite IH; [|done|rewrite zlen_write_at by lia; done]. unfold u32_at. by rewrite slice_at_write_other by lia.
Qed.

Lemma in_bounds_weaken tl len es : 0 <= tl → Forall (in_bounds tl len) es → Forall (in_bounds 0 len) es.
Proof. intros Ht Hb. apply (Forall_impl _ _ _ Hb). unfold in_bounds. lia. Qed.

(** A layout with other contents is a layout with the same entries. *)
Lemma laid_out_facts data n : laid_out data n →
  let tl := headerLen + Z.of_nat n * bufferLen in
  Forall (in_bounds tl (zlen data)) (entries n data 0) ∧ Forall (in_bounds 0 (zlen data)) (entries n data 0) ∧
  separate (entries n data 0) ∧ NoDup ((entries n data 0).*1).*1.
Proof.
  intros [_ Hn _ _ Ha]. destruct (accepted_facts _ _ _ _ _ Ha) as (Hb & _ & Hs & Hd & _). split_and!; try done.
  eapply in_bounds_weaken; [|done]. unfold headerLen, bufferLen. lia.
Qed.
Lemma laid_out_writes data n bs :
  laid_out data n → profile bs = (entries n data 0).*1 →
  laid_out (writes bs (entries n data 0) data) n ∧
  entries n (writes bs (entries n data 0) data) 0 = entries n data 0.
Proof.
  intros Hl Hp. destruct (laid_out_facts _ _ Hl) as (Hb & Hb0 & Hs & _). destruct Hl as [Hc Hn Ht Hv Ha].
  unfold headerLen, bufferLen in *.
  assert (He : entries n (writes bs (entries n data 0) data) 0 = entries n data 0).
  { eapply entries_writes; [done|..|done|exact Hb]; unfold headerLen, bufferLen; lia. }
  split; [|done]. split; rewrite ?He, ?zlen_writes by done; try done.
  - rewrite (u32_at_writes bs _ data 0 (8 + Z.of_nat n * 16)) by (done || lia). done.
  - rewrite (u32_at_writes bs _ data 4 (8 + Z.of_nat n * 16)) by (done || lia). done.
Qed.

(** ** The canonical form *)

Lemma slice_at_app pre d post off size :
  off = zlen pre → size = zlen d → slice_at (pre ++ d ++ post) off size = d.
Proof. intros -> ->. unfold slice_at, zlen. rewrite !Nat2Z.id, drop_app_length, take_app_length. done. Qed.
Lemma write_at_app pre d d' post off :
  off = zlen pre → zlen d = zlen d' → write_at (pre ++ d ++ post) off d' = pre ++ d' ++ post.
Proof.
  intros -> Hl. unfold write_at, zlen in *. rewrite Nat2Z.id, take_app_length. f_equal. f_equal.
  rewrite <- drop_drop, drop_app_length. replace (length d') with (length d) by lia. by rewrite drop_app_length.
Qed.
Lemma aligned_spec n : 0 <= n → n <= aligned n ∧ aligned n < n + 8 ∧ aligned n mod 8 = 0.
Proof.
  intros Hn. unfold aligned, Alignment. change (8 - 1) with (Z.ones 3). rewrite Z.ldiff_ones_r by done.
  rewrite Z.shiftl_mul_pow2, Z.shiftr_div_pow2 by done. change (2 ^ 3) with 8. Z.to_euclidean_division_equations. lia.
Qed.
Lemma zlen_padded d : zlen (padded d) = aligned (zlen d).
Proof.
  unfold padded. rewrite zlen_app. unfold zlen at 2. unfold zeros; rewrite length_replicate. pose proof (aligned_spec (zlen d) (zlen_nonneg d)). lia.
Qed.

(** The entries that the canonical form has. *)
Fixpoint canonical_entries (bs : list Buffer) (offset : Z) : list entry :=
  match bs with
  | [] => []
  | b :: bs => (b_Type b, zlen (b_Data b), offset) :: canonical_entries bs (offset + aligned (zlen (b_Data b)))
  end.
Lemma canonical_profile bs offset : (canonical_entries bs offset).*1 = profile bs.
Proof. revert offset. induction bs as [|b bs IH]; intros offset; [done|]. cbn. by rewrite IH. Qed.
Lemma canonical_same bs bs' offset : profile bs' = profile bs → canonical_entries bs' offset = canonical_entries bs offset.
Proof.
  revert bs' offset. induction bs as [|b bs IH]; intros [|b' bs'] offset Hp; try done. cbn in *. injection Hp as -> -> Hp.
  by rewrite (IH _ _ Hp).
Qed.
Abbreviation payload bs := (concat ((λ b, padded (b_Data b)) <$> bs)).
Definition sized (b : Buffer) : Prop := 0 <= b_Type b < 2 ^ 32 ∧ zlen (b_Data b) < 2 ^ 32.
Lemma zlen_payload_nonneg bs : 0 <= zlen (payload bs).
Proof. apply zlen_nonneg. Qed.

Lemma entries_canonical bs pre post i offset :
  zlen pre = headerLen + i * bufferLen → Forall sized bs → 0 <= offset → offset + zlen (payload bs) < 2 ^ 64 →
  entries (length bs) (pre ++ buffer_table bs offset ++ post) i = canonical_entries bs offset.
Proof.
  revert pre i offset. induction bs as [|b bs IH]; intros pre i offset Hi Hs Ho Hx; [done|]. inversion Hs as [|? ? [Ht Hz] Hs']; subst.
  cbn [length entries buffer_table canonical_entries]. cbn [fmap list_fmap concat] in Hx. rewrite zlen_app, zlen_padded in Hx.
  pose proof (aligned_spec (zlen (b_Data b)) (zlen_nonneg _)). pose proof (zlen_payload_nonneg bs). pose proof (zlen_nonneg (b_Data b)).
  f_equal.
  - unfold entry_at, u32_at, u64_at. cbv zeta. rewrite <- Hi. f_equal; [f_equal|].
    + rewrite <- !app_assoc, slice_at_app by (done || unfold zlen; rewrite length_le_bytes; lia). by apply le_value_bytes.
    + rewrite <- !app_assoc, (app_assoc pre), slice_at_app by (rewrite ?zlen_app; unfold zlen; rewrite ?length_le_bytes; lia).
      by apply le_value_bytes.
    + rewrite <- !app_assoc, (app_assoc pre), (app_assoc (pre ++ _)).
      rewrite slice_at_app by (rewrite ?zlen_app; unfold zlen; rewrite ?length_le_bytes; lia). apply le_value_bytes.
      change (256 ^ Z.of_nat 8) with (2 ^ 64). lia.
  - rewrite <- !app_assoc, (app_assoc pre), (app_assoc (pre ++ _)), (app_assoc ((pre ++ _) ++ _)).
    apply IH; [|done|lia|lia]. rewrite !zlen_app, Hi. unfold zlen. rewrite !length_le_bytes. unfold headerLen, bufferLen. lia.
Qed.
Lemma extract_canonical bs pre post offset :
  zlen pre = offset → extract (pre ++ payload bs ++ post) <$> canonical_entries bs offset = bs.
Proof.
  revert pre offset. induction bs as [|b bs IH]; intros pre offset Ho; [done|]. cbn [canonical_entries fmap list_fmap concat]. f_equal.
  - unfold extract, padded. cbn [fst snd]. rewrite <- !app_assoc, slice_at_app by done. by destruct b.
  - rewrite <- !app_assoc, (app_assoc pre). apply IH. rewrite zlen_app, zlen_padded. lia.
Qed.
Lemma padded_same d d' : zlen d = zlen d' → ∃ z, padded d = d ++ z ∧ padded d' = d' ++ z.
Proof. intros Hl. unfold padded. rewrite Hl. by eexists. Qed.
Lemma writes_canonical bs bs' pre post offset :
  zlen pre = offset → profile bs' = profile bs →
  writes bs' (canonical_entries bs offset) (pre ++ payload bs ++ post) = pre ++ payload bs' ++ post.
Proof.
  revert bs' pre offset. induction bs as [|b bs IH]; intros [|b' bs'] pre offset Ho Hp; try done. cbn in Hp. injection Hp as Ht Hl Hp.
  cbn [canonical_entries writes fmap list_fmap concat]. cbn [snd]. destruct (padded_same (b_Data b') (b_Data b) Hl) as (z & Hz' & Hz).
  rewrite Hz, Hz', <- !app_assoc. rewrite write_at_app by done.
  assert (Hzl : aligned (zlen (b_Data b)) = zlen (b_Data b' ++ z)) by (by rewrite <- Hz', zlen_padded, Hl).
  rewrite (app_assoc pre), (app_assoc (pre ++ _)), (IH bs'); [by rewrite <- !app_assoc| |done]. rewrite !zlen_app in *. lia.
Qed.
Lemma accepted_canonical tl len spans types bs offset :
  tl <= offset → offset mod 8 = 0 → offset + zlen (payload bs) <= len → 0 <= offset → NoDup (b_Type <$> bs) →
  Forall (λ b, b_Type b ∉ types) bs → Forall (λ sp : Z * Z, sp.2 <= offset) spans →
  accepted tl len spans types (canonical_entries bs offset) = true.
Proof.
  revert spans types offset. induction bs as [|b bs IH]; intros spans types offset Ht Hm Hl Ho Hn Hty Hsp; [done|].
  cbn [canonical_entries accepted]. cbn [fmap list_fmap concat] in Hl. rewrite zlen_app, zlen_padded in Hl.
  pose proof (aligned_spec (zlen (b_Data b)) (zlen_nonneg _)) as (Ha1 & Ha2 & Ha3). pose proof (zlen_payload_nonneg bs).
  pose proof (zlen_nonneg (b_Data b)). inversion Hn; subst. inversion Hty as [|? ? Hb Hty']; subst.
  rewrite bool_decide_eq_false_2 by done. unfold Alignment. rewrite Hm, (proj2 (Z.ltb_ge _ _) Ht).
  rewrite (proj2 (Z.ltb_ge len _)), (proj2 (Z.ltb_ge (len - _) _)) by lia. cbn [negb orb andb Z.eqb].
  replace (existsb _ spans) with false.
  - cbn [negb andb]. apply IH; try done; try lia.
    + rewrite Z.add_mod, Hm, Ha3 by done. done.
    + apply Forall_forall. intros b' Hb' Hin. apply elem_of_cons in Hin as [He|Hin]; [|by rewrite Forall_forall in Hty'; eapply Hty'].
      match goal with Hx : b_Type b ∉ list_fmap _ _ _ _ |- _ => apply Hx end. rewrite <- He. by apply list_elem_of_fmap_2.
    + apply Forall_app. split; [|repeat constructor; cbn; lia]. apply (Forall_impl _ _ _ Hsp). intros sp ?. lia.
  - symmetry. apply not_true_iff_false. intros (sp & Hin & Hov)%existsb_exists. apply list_elem_of_In in Hin.
    rewrite Forall_forall in Hsp. specialize (Hsp _ Hin). unfold overlaps in Hov. lia.
Qed.

(** ** Stability of the encoding *)

Record pac_wf (p : PAC) : Prop := mkWf {
  wf_version : p_Version p = 0;
  wf_types : NoDup (b_Type <$> p_Buffers p);
  wf_sized : Forall sized (p_Buffers p);
  wf_raw : p_raw p = [] ∨ ∃ n, laid_out (p_raw p) n;
}.
Lemma zlen_buffer_table bs offset : zlen (buffer_table bs offset) = zlen bs * bufferLen.
Proof.
  revert offset. induction bs as [|b bs IH]; intros offset; [done|]. cbn [buffer_table]. rewrite !zlen_app, IH, zlen_cons.
  unfold zlen. rewrite !length_le_bytes. unfold bufferLen. lia.
Qed.
Lemma payload_bound bs : Forall sized bs → zlen (payload bs) <= zlen bs * 2 ^ 33.
Proof.
  induction 1 as [|b bs [_ Hb] Hs IH]; [done|]. cbn [fmap list_fmap concat]. rewrite zlen_app, zlen_padded, zlen_cons.
  pose proof (aligned_spec (zlen (b_Data b)) (zlen_nonneg _)). lia.
Qed.
Lemma canonical_laid_out bs :
  NoDup (b_Type <$> bs) → Forall sized bs → 0 < zlen bs <= maxBuffers →
  let e := canonical_form (mkPAC 0 bs []) in
  laid_out e (length bs) ∧ entries (length bs) e 0 = canonical_entries bs (headerLen + zlen bs * bufferLen).
Proof.
  intros Hn Hs Hc. cbv zeta. set (tl := headerLen + zlen bs * bufferLen). pose proof (payload_bound bs Hs) as Hp.
  unfold maxBuffers in Hc. set (e := canonical_form _).
  assert (He : e = (le_bytes 4 (zlen bs) ++ le_bytes 4 0) ++ buffer_table bs tl ++ payload bs)
    by (unfold e, canonical_form; cbn [p_Buffers p_Version]; by rewrite <- !app_assoc).
  assert (Hen : entries (length bs) e 0 = canonical_entries bs tl).
  { rewrite He. apply entries_canonical; [|done|unfold tl, headerLen, bufferLen; lia|unfold tl, headerLen, bufferLen; lia].
    rewrite zlen_app. unfold zlen. rewrite !length_le_bytes. done. }
  assert (Hz : zlen e = tl + zlen (payload bs)).
  { rewrite He, !zlen_app, zlen_buffer_table, !zlen_le_bytes. unfold tl, headerLen. lia. }
  pose proof (zlen_payload_nonneg bs). split; [|done]. split; change (Z.of_nat (length bs)) with (zlen bs) in *; fold tl.
  - unfold u32_at. rewrite He, <- app_assoc. apply (le_value_bytes 4 (zlen bs)). lia.
  - unfold maxBuffers. lia.
  - lia.
  - unfold u32_at. rewrite He, <- app_assoc. rewrite slice_at_app by (unfold zlen; rewrite length_le_bytes; done). by apply le_value_bytes.
  - rewrite Hen. apply accepted_canonical; try done; try lia; [|unfold tl, headerLen, bufferLen; lia|by apply Forall_true; intros; apply not_elem_of_nil].
    unfold tl, headerLen, bufferLen. replace (8 + zlen bs * 16) with ((1 + zlen bs * 2) * 8) by lia. apply Z.mod_mul. done.
Qed.

(** The two forms an encoding can have. *)
Definition keeps_layout (raw : bytes) (bs : list Buffer) (n : nat) : Prop :=
  laid_out raw n ∧ length bs = n ∧ profile bs = (entries n raw 0).*1.
Lemma Marshal_layout raw bs n :
  keeps_layout raw bs n → Forall sized bs → pac_MarshalBinary (mkPAC 0 bs raw) = Ok (writes bs (entries n raw 0) raw).
Proof.
  intros (Hl & <- & Hp) Hs. destruct (laid_out_facts _ _ Hl) as (Hb & _). destruct Hl as [Hc Hn Ht Hv Ha].
  change (Z.of_nat (length bs)) with (zlen bs) in *.
  unfold pac_MarshalBinary, marshalPreservingLayout. cbn [p_raw p_Buffers p_Version].
  unfold maxBuffers, headerLen, bufferLen in *. rewrite Hc, Hv, Z.eqb_refl.
  rewrite (proj2 (Z.ltb_ge 4096 _)), (proj2 (Z.eqb_neq (zlen raw) 0)), (proj2 (Z.ltb_ge (zlen raw) 8)), (proj2 (Z.ltb_ge (zlen raw) _)) by lia.
  cbn [negb orb Z.eqb]. rewrite (fill_spec bs 0 raw (8 + zlen bs * 16)); unfold headerLen, bufferLen; try lia; try done.
  - rewrite bool_decide_eq_true_2 by done. done.
  - apply (Forall_impl _ _ _ Hs). intros b [_ ?]. done.
Qed.
Lemma Marshal_canonical raw bs :
  raw = [] ∨ (∃ n, laid_out raw n) → (∀ n, ¬ keeps_layout raw bs n) → Forall sized bs → zlen bs <= maxBuffers →
  pac_MarshalBinary (mkPAC 0 bs raw) = Ok (canonical_form (mkPAC 0 bs [])).
Proof.
  intros Hr Hk Hs Hm. unfold pac_MarshalBinary. cbn [p_raw p_Buffers]. rewrite (proj2 (Z.ltb_ge maxBuffers _)) by done.
  assert (Hsz : existsb (λ b, 2 ^ 32 - 1 <? zlen (b_Data b)) bs = false).
  { apply not_true_iff_false. intros (b & Hb%list_elem_of_In & Hz)%existsb_exists. rewrite Forall_forall in Hs. destruct (Hs _ Hb). lia. }
  rewrite Hsz. destruct Hr as [->|[n Hl]]; [done|]. destruct (laid_out_facts _ _ Hl) as (Hb & _). pose proof Hl as [Hc Hn Ht Hv Ha].
  unfold marshalPreservingLayout. cbn [p_raw p_Buffers p_Version]. unfold headerLen, bufferLen in *. rewrite Hc, Hv.
  rewrite (proj2 (Z.eqb_neq (zlen raw) 0)), (proj2 (Z.ltb_ge (zlen raw) 8)) by lia.
  destruct (Z.eqb_spec (Z.of_nat n) (zlen bs)) as [En|]; [|done]. assert (length bs = n) as <- by (unfold zlen in *; lia).
  rewrite (proj2 (Z.ltb_ge (zlen raw) _)) by lia. cbn [negb orb Z.eqb].
  rewrite (fill_spec bs 0 raw (8 + zlen bs * 16)); unfold headerLen, bufferLen; try lia; try done.
  - rewrite bool_decide_eq_false_2; [done|]. intros Hp. by apply (Hk (length bs)).
  - apply (Forall_impl _ _ _ Hs). intros b [_ ?]. done.
Qed.

Lemma layout_cases raw bs :
  raw = [] ∨ (∃ n, laid_out raw n) → (∃ n, keeps_layout raw bs n) ∨ (∀ n, ¬ keeps_layout raw bs n).
Proof.
  intros [->|[n Hl]].
  - right. intros n ([_ Hn Ht _ _] & _). unfold headerLen, bufferLen in Ht. change (zlen []) with 0 in Ht. lia.
  - destruct (decide (length bs = n ∧ profile bs = (entries n raw 0).*1)) as [Hd|Hd]; [left; by exists n|].
    right. intros m (Hl' & Hlen & Hp). assert (m = n) as -> by (pose proof (laid_count _ _ Hl); pose proof (laid_count _ _ Hl'); lia).
    by apply Hd.
Qed.
Lemma profile_length bs bs' : profile bs' = profile bs → length bs' = length bs.
Proof. intros Hp. apply (f_equal length) in Hp. unfold profile in Hp. by rewrite !length_fmap in Hp. Qed.
Lemma profile_sized bs bs' : profile bs' = profile bs → Forall sized bs → Forall sized bs'.
Proof.
  revert bs'. induction bs as [|b bs IH]; intros [|b' bs'] Hp Hs; try done. cbn in Hp. injection Hp as Ht Hl Hp.
  inversion Hs as [|? ? [H1 H2] Hs']; subst. constructor; [split; congruence|by apply IH].
Qed.
Lemma keeps_profile raw bs bs' n : profile bs' = profile bs → keeps_layout raw bs n → keeps_layout raw bs' n.
Proof. intros Hp (Hl & Hn & He). split_and!; [done|by rewrite (profile_length _ _ Hp)|by rewrite Hp]. Qed.
Lemma table_profile bs bs' offset : profile bs' = profile bs → buffer_table bs' offset = buffer_table bs offset.
Proof.
  revert bs' offset. induction bs as [|b bs IH]; intros [|b' bs'] offset Hp; try done. cbn in Hp. injection Hp as Ht Hl Hp.
  cbn [buffer_table]. by rewrite Ht, Hl, (IH _ _ Hp).
Qed.

Lemma Marshal_stable p e :
  pac_wf p → 0 < zlen (p_Buffers p) → pac_MarshalBinary p = Ok e →
  pac_Parse e = Ok (mkPAC 0 (p_Buffers p) e) ∧
  ∀ bs', profile bs' = profile (p_Buffers p) → pac_MarshalBinary (mkPAC 0 bs' e) = pac_MarshalBinary (mkPAC 0 bs' (p_raw p)).
Proof.
  destruct p as [v bs raw]. intros [Hv Hnd Hs Hr] Hc Hm. cbn [p_Version p_Buffers p_raw] in *. subst v.
  assert (Hmax : zlen bs <= maxBuffers).
  { unfold pac_MarshalBinary in Hm. cbn [p_Buffers] in Hm. destruct (Z.ltb_spec maxBuffers (zlen bs)); [done|lia]. }
  destruct (layout_cases raw bs Hr) as [[n Hk]|Hk].
  - rewrite (Marshal_layout _ _ n Hk Hs) in Hm. injection Hm as <-. destruct Hk as (Hl & Hn & Hp).
    destruct (laid_out_writes _ _ bs Hl Hp) as (Hl' & He'). destruct (laid_out_facts _ _ Hl) as (_ & Hb & Hsep & _). split.
    + apply Parse_spec. exists n. split; [done|]. by rewrite He', extract_writes.
    + intros bs' Hp'. pose proof (profile_sized _ _ Hp' Hs) as Hs'. pose proof (profile_length _ _ Hp') as Hlen.
      rewrite (Marshal_layout raw bs' n), (Marshal_layout _ bs' n) by (try split_and!; congruence || done).
      rewrite He', writes_overwrite by congruence || done. done.
  - rewrite (Marshal_canonical raw bs Hr Hk Hs Hmax) in Hm. injection Hm as <-.
    destruct (canonical_laid_out bs Hnd Hs ltac:(lia)) as (Hl & He). split.
    + apply Parse_spec. exists (length bs). split; [done|]. rewrite He. f_equal. symmetry. unfold canonical_form. cbn [p_Buffers p_Version].
      set (tl := headerLen + zlen bs * bufferLen). rewrite (app_assoc _ (le_bytes 4 0)), (app_assoc _ (buffer_table _ _)).
      rewrite <- (app_nil_r (payload bs)). apply extract_canonical. rewrite !zlen_app, zlen_buffer_table, !zlen_le_bytes. done.
    + intros bs' Hp'. pose proof (profile_sized _ _ Hp' Hs) as Hs'. pose proof (profile_length _ _ Hp') as Hlen.
      rewrite (Marshal_layout _ bs' (length bs)); [|by split_and!; [|done|rewrite He, canonical_profile]|done].
      rewrite (Marshal_canonical raw bs'); [|done|intros m Hm; apply (Hk m); by apply (keeps_profile raw bs')|done|unfold zlen in *; lia].
      rewrite He. f_equal. unfold canonical_form. cbn [p_Buffers p_Version]. replace (zlen bs') with (zlen bs) by (unfold zlen; by rewrite Hlen).
      set (tl := headerLen + zlen bs * bufferLen). rewrite (table_profile _ _ _ Hp').
      rewrite !(app_assoc _ (le_bytes 4 0)), !(app_assoc _ (buffer_table _ _)).
      rewrite <- (app_nil_r (payload bs)), <- (app_nil_r (payload bs')). apply writes_canonical; [|done].
      rewrite !zlen_app, zlen_buffer_table, !zlen_le_bytes. done.
Qed.

(** What is read is written back, to the bit. *)
Lemma zlen_slice_at data o n : 0 <= o → 0 <= n → o + n <= zlen data → zlen (slice_at data o n) = n.
Proof. intros. unfold slice_at, zlen in *. rewrite length_take, length_drop. lia. Qed.
Lemma write_slice_at data o n : 0 <= o → 0 <= n → o + n <= zlen data → write_at data o (slice_at data o n) = data.
Proof.
  intros Ho Hn Hl. apply list_eq. intros i. rewrite lookup_write_at by (rewrite ?zlen_slice_at; lia).
  case_decide as Hd; [|done]. unfold slice_at, zlen in *. rewrite length_take, length_drop in Hd.
  rewrite lookup_take_lt, lookup_drop by lia. f_equal. lia.
Qed.
Definition plausible (e : entry) : Prop := 0 <= e.1.1 < 2 ^ 32 ∧ 0 <= e.1.2 < 2 ^ 32.
Lemma entries_plausible n data i : Forall plausible (entries n data i).
Proof.
  revert i. induction n as [|n IH]; intros i; cbn [entries]; constructor; [|apply IH].
  unfold plausible, entry_at. cbn. split; apply u32_at_range.
Qed.
Lemma extract_profile data es :
  Forall plausible es → Forall (in_bounds 0 (zlen data)) es → profile (extract data <$> es) = es.*1 ∧ Forall sized (extract data <$> es).
Proof.
  induction es as [|[[t s] o] es IH]; intros Hp Hb; [done|]. inversion Hp as [|? ? [Hp1 Hp2] Hp']; inversion Hb as [|? ? [Hb1 Hb2] Hb']; subst.
  cbn in Hp1, Hp2, Hb1, Hb2. destruct (IH Hp' Hb') as [IH1 IH2]. unfold profile in *. cbn. rewrite zlen_slice_at, IH1 by lia.
  split; [done|]. constructor; [|done]. unfold sized. cbn. rewrite zlen_slice_at; lia.
Qed.
Lemma extract_types data es : b_Type <$> (extract data <$> es) = (es.*1).*1.
Proof. induction es as [|e es IH]; [done|]. cbn in *. by rewrite IH. Qed.
Lemma writes_extract data es :
  Forall plausible es → Forall (in_bounds 0 (zlen data)) es → writes (extract data <$> es) es data = data.
Proof.
  induction es as [|[[t s] o] es IH]; intros Hp Hb; [done|]. inversion Hp as [|? ? [Hp1 Hp2] Hp']; inversion Hb as [|? ? [Hb1 Hb2] Hb']; subst.
  cbn in Hp1, Hp2, Hb1, Hb2 |- *. rewrite write_slice_at by lia. by apply IH.
Qed.
Lemma pac_Parse_wf data p : pac_Parse data = Ok p →
  pac_wf p ∧ 0 < zlen (p_Buffers p) ∧ p_raw p = data ∧ pac_MarshalBinary p = Ok data.
Proof.
  intros (n & Hl & ->)%Parse_spec. destruct (laid_out_facts _ _ Hl) as (_ & Hb & _ & Hnd).
  destruct (extract_profile _ _ (entries_plausible n data 0) Hb) as [Hp Hs]. cbn [p_Buffers p_raw]. split_and!; [|..|done|].
  - split; cbn [p_Version p_Buffers p_raw]; [done|by rewrite extract_types|done|eauto].
  - unfold zlen. rewrite length_fmap, length_entries. apply (laid_bound _ _ Hl).
  - rewrite (Marshal_layout data _ n); [|by split_and!; [|rewrite length_fmap, length_entries|]|done]. f_equal.
    apply writes_extract; [apply entries_plausible|done].
Qed.

(** A PAC survives its encoding.  Reading accepted bytes and writing them
    again gives the same bytes, gaps and order included; and what is written of
    buffers with distinct types reads back as these buffers, whether the layout
    of a parsed PAC is kept or laid out afresh. *)
Theorem pac_roundtrip :
  (∀ data p, pac_Parse data = Ok p → pac_MarshalBinary p = Ok data) ∧
  (∀ p e, pac_wf p → 0 < zlen (p_Buffers p) → pac_MarshalBinary p = Ok e → pac_Parse e = Ok (mkPAC 0 (p_Buffers p) e)).
Proof.
  split; [intros data p Hp; apply (pac_Parse_wf _ _ Hp)|]. intros p e Hw Hc Hm. by destruct (Marshal_stable p e Hw Hc Hm).
Qed.

(** ** Buffers by type *)

Definition get (bs : list Buffer) (typ : Z) : option bytes := b_Data <$> List.find (λ b, b_Type b =? typ) bs.
Definition upd (bs : list Buffer) (typ : Z) (f : bytes → bytes) : list Buffer := default bs (update_buffer bs typ f).

Lemma update_none bs typ f : update_buffer bs typ f = None ↔ get bs typ = None.
Proof.
  unfold get. induction bs as [|b bs IH]; [done|]. cbn. destruct (b_Type b =? typ); [done|].
  destruct (update_buffer bs typ f); cbn; [|by rewrite <- IH]. split; [done|]. intros Hx. by apply IH in Hx.
Qed.
Lemma upd_cons b bs typ f :
  upd (b :: bs) typ f = if b_Type b =? typ then set_Data b (f (b_Data b)) :: bs else b :: upd bs typ f.
Proof. unfold upd. cbn. destruct (b_Type b =? typ); [done|]. by destruct (update_buffer bs typ f). Qed.
Lemma upd_types bs typ f : b_Type <$> upd bs typ f = b_Type <$> bs.
Proof. induction bs as [|b bs IH]; [done|]. rewrite upd_cons. destruct (b_Type b =? typ); cbn in *; [done|]. by rewrite IH. Qed.
Lemma get_upd bs typ f t : get (upd bs typ f) t = if t =? typ then f <$> get bs t else get bs t.
Proof.
  unfold get. induction bs as [|b bs IH]; [by destruct (t =? typ)|]. rewrite upd_cons. cbn [List.find].
  destruct (Z.eqb_spec (b_Type b) typ) as [<-|Hn]; cbn [List.find b_Type set_Data].
  - rewrite (Z.eqb_sym (b_Type b) t). by destruct (t =? b_Type b).
  - destruct (Z.eqb_spec (b_Type b) t) as [<-|]; [|done]. cbn. by rewrite (proj2 (Z.eqb_neq _ _) Hn).
Qed.
Lemma upd_profile bs typ f :
  (∀ d, get bs typ = Some d → zlen (f d) = zlen d) → profile (upd bs typ f) = profile bs.
Proof.
  unfold get. induction bs as [|b bs IH]; intros Hf; [done|]. rewrite upd_cons. cbn [List.find] in Hf.
  destruct (b_Type b =? typ); cbn in *; [by rewrite (Hf _ eq_refl)|]. f_equal. by apply IH.
Qed.
Lemma get_not_in bs t : t ∉ (b_Type <$> bs) → get bs t = None.
Proof.
  unfold get. induction bs as [|b bs IH]; [done|]. cbn. intros Hn. apply not_elem_of_cons in Hn as [Hn Hr].
  rewrite (proj2 (Z.eqb_neq (b_Type b) t)) by congruence. by apply IH.
Qed.
Lemma buffers_ext bs bs' :
  b_Type <$> bs = b_Type <$> bs' → NoDup (b_Type <$> bs) → (∀ t, get bs t = get bs' t) → bs = bs'.
Proof.
  revert bs'. induction bs as [|b bs IH]; intros [|b' bs'] Ht Hn Hg; try done. cbn in Ht. injection Ht as Hb Ht.
  inversion Hn as [|? ? Hni Hn']; subst. f_equal.
  - specialize (Hg (b_Type b)). unfold get in Hg. cbn in Hg. rewrite <- Hb, Z.eqb_refl in Hg. destruct b, b'; cbn in *. congruence.
  - apply IH; [done|done|]. intros t. destruct (Z.eqb_spec t (b_Type b)) as [->|Hne].
    + rewrite get_not_in by done. symmetry. apply get_not_in. by rewrite <- Ht.
    + specialize (Hg t). unfold get in Hg |- *. cbn in Hg.
      rewrite (proj2 (Z.eqb_neq (b_Type b) t)), (proj2 (Z.eqb_neq (b_Type b') t)) in Hg by congruence. done.
Qed.
Lemma find_buffer_get bs typ found :
  NoDup (b_Type <$> bs) → (zlen found ≠ 0 → get bs typ = None) →
  find_buffer bs typ found = if zlen found =? 0 then d ← get bs typ; if zlen d =? 0 then None else Some d else Some found.
Proof.
  revert found. induction bs as [|b bs IH]; intros found Hn Hf; [unfold get; cbn; by destruct (zlen found =? 0)|].
  inversion Hn as [|? ? Hni Hn']; subst. cbn [find_buffer]. unfold get in Hf |- *. cbn [List.find] in *.
  destruct (Z.eqb_spec (b_Type b) typ) as [<-|Hne]; [|by apply IH].
  destruct (Z.eqb_spec (zlen found) 0) as [|Hz]; [|by specialize (Hf Hz)]. cbn.
  rewrite IH; [|done|intros _; by apply get_not_in]. destruct (zlen (b_Data b) =? 0); [|done].
  by rewrite get_not_in.
Qed.
Lemma pac_Buffer_get p typ : NoDup (b_Type <$> p_Buffers p) →
  pac_Buffer p typ = d ← get (p_Buffers p) typ; if zlen d =? 0 then None else Some d.
Proof. intros Hn. unfold pac_Buffer. by rewrite find_buffer_get. Qed.

Lemma pac_wf_upd p typ f :
  pac_wf p → (∀ d, get (p_Buffers p) typ = Some d → zlen (f d) < 2 ^ 32) → pac_wf (set_Buffers p (upd (p_Buffers p) typ f)).
Proof.
  intros [Hv Hn Hs Hr] Hf. split; cbn [p_Version p_Buffers p_raw set_Buffers]; [done|by rewrite upd_types| |done].
  clear Hn Hv Hr. destruct p as [v bs raw]; cbn [p_Buffers] in *. unfold get in Hf. induction Hs as [|b bs [Hb1 Hb2] Hs IH]; [done|].
  rewrite upd_cons. cbn [List.find] in Hf. destruct (b_Type b =? typ); constructor; try done.
  - split; [done|]. by apply Hf.
  - by apply IH.
Qed.
Lemma setBuffer_spec p typ d :
  pac_wf p → 0 <= typ < 2 ^ 32 → zlen d < 2 ^ 32 →
  let q := setBuffer p typ d in
  pac_wf q ∧ 0 < zlen (p_Buffers q) ∧ p_raw q = p_raw p ∧
  ∀ t, get (p_Buffers q) t = if t =? typ then Some d else get (p_Buffers p) t.
Proof.
  intros Hw Ht Hd. cbv zeta. unfold setBuffer. destruct (update_buffer (p_Buffers p) typ (λ _, d)) as [bs|] eqn:Hu.
  - assert (bs = upd (p_Buffers p) typ (λ _, d)) as -> by (unfold upd; by rewrite Hu).
    assert (Hg : get (p_Buffers p) typ ≠ None) by (rewrite <- (update_none _ _ (λ _, d)), Hu; done).
    split_and!; [by apply pac_wf_upd| |done|].
    + cbn [p_Buffers set_Buffers]. destruct (p_Buffers p) as [|b bs]; [done|]. rewrite upd_cons.
      destruct (b_Type b =? typ); rewrite zlen_cons; pose proof (zlen_nonneg bs); try pose proof (zlen_nonneg (upd bs typ (λ _, d))); lia.
    + intros t. cbn [p_Buffers set_Buffers]. rewrite get_upd. destruct (Z.eqb_spec t typ) as [->|]; [|done].
      by destruct (get (p_Buffers p) typ).
  - apply update_none in Hu. destruct Hw as [Hv Hn Hs Hr]. split_and!; [|..|done|]; cbn [p_Version p_Buffers p_raw set_Buffers].
    + split; cbn [p_Version p_Buffers p_raw set_Buffers]; try done.
      * rewrite fmap_app. apply NoDup_app. split_and!; [done| |apply NoDup_singleton].
        intros t Hin Ht'. apply list_elem_of_singleton in Ht' as ->. cbn in Hin. clear -Hu Hin. unfold get in Hu.
        induction (p_Buffers p) as [|b bs IH]; [by apply elem_of_nil in Hin|]. cbn in *.
        destruct (Z.eqb_spec (b_Type b) typ); [done|]. apply elem_of_cons in Hin as [?|?]; [congruence|by apply IH].
      * apply Forall_app. split; [done|]. constructor; [done|constructor].
    + rewrite zlen_app. change (zlen [mkBuffer typ d]) with 1. pose proof (zlen_nonneg (p_Buffers p)). lia.
    + intros t. unfold get in *. clear -Hu. induction (p_Buffers p) as [|b bs IH]; cbn in *.
      * rewrite (Z.eqb_sym typ t). by destruct (t =? typ).
      * destruct (Z.eqb_spec (b_Type b) typ) as [|Hne]; [done|]. destruct (Z.eqb_spec (b_Type b) t) as [<-|]; [|by apply IH].
        by rewrite (proj2 (Z.eqb_neq _ _) Hne).
Qed.

(** A key that makes checksums of a type. *)
Record usable_key `{GoCrypto} (key : PACKey) (etype : EType) (ct : Z) : Prop := mkUsable {
  uk_etype : pk_EType key = Some etype;
  uk_registered : registered etype;
  uk_size : length (pk_Key key) = etype_KeySize etype;
  uk_type : pac_checksumType key = Ok ct;
}.
Definition signature_buffer (ct : Z) (value : bytes) : bytes := le_bytes 4 (u32 ct) ++ value.
Lemma checksumType_range key ct : pac_checksumType key = Ok ct → 0 <= ct < 2 ^ 31.
Proof.
  unfold pac_checksumType, checksumType. intros Hc. repeat case_match; simplify_eq; vm_compute; split; discriminate || reflexivity.
Qed.
Lemma zlen_signature_buffer ct v : zlen (signature_buffer ct v) = 4 + zlen v.
Proof. unfold signature_buffer. by rewrite zlen_app, zlen_le_bytes. Qed.
Lemma signature_parts ct v :
  0 <= ct < 2 ^ 31 → drop 4 (signature_buffer ct v) = v ∧ i32 (u32_at (signature_buffer ct v) 0) = ct ∧
  take 4 (signature_buffer ct v) = le_bytes 4 (u32 ct).
Proof.
  intros Hc. unfold signature_buffer. split_and!.
  - by rewrite drop_app_length' by (by rewrite length_le_bytes).
  - unfold u32_at. change (le_bytes 4 (u32 ct) ++ v) with ([] ++ le_bytes 4 (u32 ct) ++ v).
    rewrite slice_at_app by (rewrite ?zlen_le_bytes; done). unfold u32. rewrite le_value_bytes by (apply Z.mod_pos_bound; done).
    rewrite Z.mod_small by lia. unfold i32, signed. rewrite Z.mod_small by lia. case_match; lia.
  - by rewrite take_app_length' by (by rewrite length_le_bytes).
Qed.

Lemma upd_ext bs typ f g : (∀ d, get bs typ = Some d → f d = g d) → upd bs typ f = upd bs typ g.
Proof.
  unfold get. induction bs as [|b bs IH]; intros Hf; [done|]. rewrite !upd_cons. cbn [List.find] in Hf.
  destruct (b_Type b =? typ); [by rewrite (Hf _ eq_refl)|]. f_equal. by apply IH.
Qed.
Lemma upd_id bs typ f : (∀ d, get bs typ = Some d → f d = d) → upd bs typ f = bs.
Proof.
  unfold get. induction bs as [|b bs IH]; intros Hf; [done|]. rewrite upd_cons. cbn [List.find] in Hf.
  destruct (b_Type b =? typ); [rewrite (Hf _ eq_refl); by destruct b|]. f_equal. by apply IH.
Qed.
Lemma set_Buffers_id p : set_Buffers p (p_Buffers p) = p.
Proof. by destruct p. Qed.

Section sign_verify.
Context `{GoCrypto, !GoCryptoLaws}.

Lemma ensure_spec p typ key e ct p' :
  pac_wf p → usable_key key e ct → 0 <= typ < 2 ^ 32 → ensureSignature p typ key = Ok p' →
  pac_wf p' ∧ 0 < zlen (p_Buffers p') ∧ p_raw p' = p_raw p ∧
  ∀ t, get (p_Buffers p') t = if t =? typ then Some (signature_buffer ct (zeros (ChecksumSize e))) else get (p_Buffers p) t.
Proof.
  intros Hw [He Hr Hk Hc] Ht. unfold ensureSignature. rewrite Hc. cbn [res_bind]. rewrite He.
  assert (Hsz : zlen (signature_buffer ct (zeros (ChecksumSize e))) < 2 ^ 32).
  { rewrite zlen_signature_buffer. unfold zlen, zeros. rewrite length_replicate. pose proof (registered_cases e Hr) as Hcs.
    destruct e as [e|e]; cbn in Hcs |- *; [|done]. destruct Hcs as (_ & Hcs & _). destruct (ae_hash e); cbn in Hcs; lia. }
  intros Hp. apply (setBuffer_spec p typ _ Hw Ht) in Hsz as Hs. destruct (pac_Buffer p typ) as [data|].
  - destruct (Z.eqb_spec (zlen data) (4 + Z.of_nat (ChecksumSize e))) as [Hl|]; [|done]. cbn [negb] in Hp. injection Hp as <-.
    replace (length data - 4)%nat with (ChecksumSize e) by (unfold zlen in Hl; lia). exact Hs.
  - injection Hp as <-. exact Hs.
Qed.
Lemma zero_spec p typ ct v :
  get (p_Buffers p) typ = Some (signature_buffer ct v) →
  zeroSignature p typ = Ok (set_Buffers p (upd (p_Buffers p) typ (λ _, signature_buffer ct (zeros (length v))))).
Proof.
  intros Hg. unfold zeroSignature, get in *. destruct (List.find _ _) as [b|] eqn:Hf; [|done]. cbn [fmap option_fmap option_map] in Hg. injection Hg as Hg.
  rewrite Hg, zlen_signature_buffer. rewrite (proj2 (Z.ltb_ge _ 4)) by (pose proof (zlen_nonneg v); lia). do 2 f_equal.
  apply (upd_ext _ typ zeroed). intros d Hd. unfold get in Hd. rewrite Hf in Hd. injection Hd as <-. rewrite Hg. unfold zeroed, signature_buffer.
  rewrite take_app_length' by (by rewrite length_le_bytes). rewrite length_app, length_le_bytes. f_equal. f_equal. lia.
Qed.
Lemma zero_blank p typ ct n :
  get (p_Buffers p) typ = Some (signature_buffer ct (zeros n)) → zeroSignature p typ = Ok p.
Proof.
  intros Hg. rewrite (zero_spec p typ ct (zeros n) Hg). rewrite upd_id, set_Buffers_id; [done|]. intros d Hd. rewrite Hg in Hd.
  injection Hd as <-. unfold zeros. by rewrite length_replicate.
Qed.
Lemma set_spec p typ ct n v :
  get (p_Buffers p) typ = Some (signature_buffer ct (zeros n)) →
  setSignature p typ v = set_Buffers p (upd (p_Buffers p) typ (λ _, signature_buffer ct v)).
Proof.
  intros Hg. unfold setSignature. f_equal. apply (upd_ext _ typ). intros d Hd. rewrite Hg in Hd. injection Hd as <-.
  unfold signature_buffer. by rewrite take_app_length' by (by rewrite length_le_bytes).
Qed.

(** The signature of a buffer. *)
Lemma signature_get p typ ct v :
  NoDup (b_Type <$> p_Buffers p) → 0 <= ct < 2 ^ 31 → get (p_Buffers p) typ = Some (signature_buffer ct v) →
  pac_Buffer p typ = Some (signature_buffer ct v) ∧ pac_signature p typ = Some v ∧ signatureType p typ = Some ct.
Proof.
  intros Hn Hc Hg. assert (Hb : pac_Buffer p typ = Some (signature_buffer ct v)).
  { rewrite pac_Buffer_get, Hg by done. cbn [mbind option_bind]. rewrite zlen_signature_buffer.
    rewrite (proj2 (Z.eqb_neq _ 0)) by (pose proof (zlen_nonneg v); lia). done. }
  destruct (signature_parts ct v Hc) as (Hd & Ht & _). unfold pac_signature, signatureType. rewrite Hb. cbn [mbind option_bind].
  rewrite zlen_signature_buffer, (proj2 (Z.ltb_ge _ 4)) by (pose proof (zlen_nonneg v); lia). by rewrite Hd, Ht.
Qed.
Lemma key_Checksum_ok key e ct data : usable_key key e ct →
  ∃ v, key_Checksum key data = Ok v ∧ length v = ChecksumSize e ∧ key_Verify key data v = Ok tt.
Proof.
  intros [He Hr Hk _]. unfold key_Checksum, key_Verify. rewrite He. destruct (Checksum_ok e (pk_Key key) checksumUsage data Hr Hk) as (v & Hv & Hl).
  exists v. split_and!; [done|done|]. unfold VerifyChecksum. rewrite Hv. cbn [res_bind]. by rewrite bytes_eqb_refl.
Qed.
Lemma ChecksumSize_pos e : registered e → (0 < ChecksumSize e)%nat.
Proof. intros Hr%registered_cases. destruct e; cbn in *; lia. Qed.

(** A PAC whose signature buffers are ready to be signed. *)
Record prepared (p : PAC) (sk pk : EType * Z) (full : bool) : Prop := mkPrepared {
  pr_wf : pac_wf p;
  pr_count : 0 < zlen (p_Buffers p);
  pr_server : get (p_Buffers p) ServerChecksum = Some (signature_buffer sk.2 (zeros (ChecksumSize sk.1)));
  pr_kdc : get (p_Buffers p) KDCChecksum = Some (signature_buffer pk.2 (zeros (ChecksumSize pk.1)));
  pr_full : get (p_Buffers p) FullChecksum = if full then Some (signature_buffer pk.2 (zeros (ChecksumSize pk.1))) else None;
}.

Section keys.
Context (sk pk : PACKey) (es ep : EType) (cs cp : Z) (Hsk : usable_key sk es cs) (Hpk : usable_key pk ep cp).

(** The buffers once they are signed. *)
Definition with_full (bs : list Buffer) (full : bool) (v : bytes) : list Buffer :=
  if full then upd bs FullChecksum (λ _, signature_buffer cp v) else bs.
Definition with_both (bs : list Buffer) (vs vk : bytes) : list Buffer :=
  upd (upd bs ServerChecksum (λ _, signature_buffer cs vs)) KDCChecksum (λ _, signature_buffer cp vk).
Lemma get_with_full bs full v t : get (with_full bs full v) t =
  if full && (t =? FullChecksum) then (λ _, signature_buffer cp v) <$> get bs t else get bs t.
Proof. unfold with_full. destruct full; [apply get_upd|done]. Qed.
Lemma get_with_both bs vs vk t : get (with_both bs vs vk) t =
  if t =? KDCChecksum then (λ _, signature_buffer cp vk) <$> get bs t
  else if t =? ServerChecksum then (λ _, signature_buffer cs vs) <$> get bs t else get bs t.
Proof. unfold with_both. rewrite !get_upd. destruct (Z.eqb_spec t KDCChecksum) as [->|]; [done|]. done. Qed.
Lemma with_types bs full v vs vk :
  b_Type <$> with_both (with_full bs full v) vs vk = b_Type <$> bs ∧ b_Type <$> with_full bs full v = b_Type <$> bs.
Proof. unfold with_both, with_full. rewrite !upd_types. by destruct full; rewrite ?upd_types. Qed.

Lemma sign_values_spec p full e :
  prepared p (es, cs) (ep, cp) full → sign_values p sk pk full = Ok e →
  ∃ e2 e3 v vs vk,
    pac_MarshalBinary p = Ok e2 ∧ (full = true → key_Checksum pk e2 = Ok v) ∧
    pac_MarshalBinary (set_Buffers p (with_full (p_Buffers p) full v)) = Ok e3 ∧ key_Checksum sk e3 = Ok vs ∧
    key_Checksum pk (signature_buffer cs vs) = Ok vk ∧
    pac_MarshalBinary (set_Buffers p (with_both (with_full (p_Buffers p) full v) vs vk)) = Ok e.
Proof.
  intros [Hw Hc Hs Hk Hf]. cbn [fst snd] in *. unfold sign_values.
  rewrite (zero_blank p ServerChecksum cs _ Hs). cbn [res_bind]. rewrite (zero_blank p KDCChecksum cp _ Hk). cbn [res_bind].
  replace (if full then zeroSignature p FullChecksum else Ok p) with (Ok p) by (destruct full; [by rewrite (zero_blank p FullChecksum cp _ Hf)|done]).
  cbn [res_bind]. destruct (pac_MarshalBinary p) as [e2| |] eqn:He2; [|done|done]. cbn [res_bind].
  destruct (key_Checksum_ok pk ep cp e2 Hpk) as (v & Hv & _).
  replace (if full then _ else Ok p) with (Ok (set_Buffers p (with_full (p_Buffers p) full v))); cycle 1.
  { unfold with_full. destruct full; [|by rewrite set_Buffers_id]. rewrite Hv. cbn [res_bind]. by rewrite (set_spec p FullChecksum cp _ v Hf). }
  cbn [res_bind]. set (p3 := set_Buffers p _). destruct (pac_MarshalBinary p3) as [e3| |] eqn:He3; [|done|done]. cbn [res_bind].
  destruct (key_Checksum_ok sk es cs e3 Hsk) as (vs & Hvs & _). rewrite Hvs. cbn [res_bind].
  assert (Hs3 : get (p_Buffers p3) ServerChecksum = Some (signature_buffer cs (zeros (ChecksumSize es)))).
  { cbn [p_Buffers p3 set_Buffers]. rewrite get_with_full, andb_false_r. done. }
  rewrite (set_spec p3 ServerChecksum cs _ vs Hs3). set (p4 := set_Buffers p3 _).
  assert (Hs4 : get (p_Buffers p4) ServerChecksum = Some (signature_buffer cs vs)).
  { cbn [p_Buffers p4 set_Buffers]. by rewrite get_upd, Z.eqb_refl, Hs3. }
  assert (Hn4 : NoDup (b_Type <$> p_Buffers p4)).
  { cbn [p_Buffers p4 p3 set_Buffers]. rewrite upd_types. rewrite (proj2 (with_types _ full v vs vs)). apply Hw. }
  destruct (signature_get p4 ServerChecksum cs vs Hn4 (checksumType_range _ _ (uk_type _ _ _ Hsk)) Hs4) as (-> & _).
  destruct (key_Checksum_ok pk ep cp (signature_buffer cs vs) Hpk) as (vk & Hvk & _). rewrite Hvk. cbn [res_bind].
  rewrite (set_spec p4 KDCChecksum cp (ChecksumSize ep) vk); cycle 1.
  { cbn [p_Buffers p4 p3 set_Buffers]. rewrite get_upd, get_with_full, andb_false_r. done. }
  intros He. exists e2, e3, v, vs, vk. split_and!; done.
Qed.

Lemma with_profile p full v vs vk :
  prepared p (es, cs) (ep, cp) full → (full = true → length v = ChecksumSize ep) → length vs = ChecksumSize es → length vk = ChecksumSize ep →
  profile (with_full (p_Buffers p) full v) = profile (p_Buffers p) ∧
  profile (with_both (with_full (p_Buffers p) full v) vs vk) = profile (p_Buffers p).
Proof.
  intros [_ _ Hs Hk Hf] Hv Hvs Hvk. cbn [fst snd] in *.
  assert (Hsame : ∀ bs typ ct n w, get bs typ = Some (signature_buffer ct (zeros n)) → length w = n →
            profile (upd bs typ (λ _, signature_buffer ct w)) = profile bs).
  { intros bs typ ct n w Hg Hl. apply upd_profile. intros d Hd. rewrite Hg in Hd. injection Hd as <-.
    rewrite !zlen_signature_buffer. unfold zlen, zeros. by rewrite length_replicate, Hl. }
  assert (Hfull : profile (with_full (p_Buffers p) full v) = profile (p_Buffers p)).
  { unfold with_full. destruct full; [|done]. apply (Hsame _ _ _ (ChecksumSize ep)); [done|by apply Hv]. }
  split; [done|]. unfold with_both. rewrite (Hsame _ _ _ (ChecksumSize ep)), (Hsame _ _ _ (ChecksumSize es)); try done.
  - by rewrite get_with_full, andb_false_r.
  - rewrite get_upd, get_with_full, andb_false_r. done.
Qed.

(** Zeroing the signatures of the signed PAC gives the PACs that were signed. *)
Lemma zero_both p full v vs vk raw :
  prepared p (es, cs) (ep, cp) full → length vs = ChecksumSize es → length vk = ChecksumSize ep →
  let q := mkPAC 0 (with_both (with_full (p_Buffers p) full v) vs vk) raw in
  ∃ q1, zeroSignature q ServerChecksum = Ok q1 ∧ zeroSignature q1 KDCChecksum = Ok (mkPAC 0 (with_full (p_Buffers p) full v) raw).
Proof.
  intros [Hw _ Hs Hk Hf] Hvs Hvk. cbn [fst snd] in *. cbv zeta. set (bs3 := with_full _ _ _). set (q := mkPAC 0 _ raw).
  assert (Hs3 : get bs3 ServerChecksum = Some (signature_buffer cs (zeros (ChecksumSize es)))) by (unfold bs3; by rewrite get_with_full, andb_false_r).
  assert (Hk3 : get bs3 KDCChecksum = Some (signature_buffer cp (zeros (ChecksumSize ep)))) by (unfold bs3; by rewrite get_with_full, andb_false_r).
  eexists. split; [apply (zero_spec q ServerChecksum cs vs); cbn [p_Buffers q]; rewrite get_with_both, Hs3; done|].
  rewrite (zero_spec _ KDCChecksum cp vk); cbn [p_Buffers set_Buffers q]; [|rewrite get_upd, get_with_both, Hk3; done]. f_equal. unfold set_Buffers. cbn. f_equal.
  apply buffers_ext; [unfold with_both; by rewrite !upd_types| |].
  - unfold with_both. rewrite !upd_types. unfold bs3. rewrite (proj2 (with_types _ full v vs vk)). apply Hw.
  - intros t. rewrite !get_upd, get_with_both. destruct (Z.eqb_spec t KDCChecksum) as [->|]; [rewrite Hk3; cbn [fmap option_fmap option_map]; by rewrite Hvk|].
    destruct (Z.eqb_spec t ServerChecksum) as [->|]; [|done]. rewrite Hs3. cbn [fmap option_fmap option_map]. by rewrite Hvs.
Qed.
Lemma zero_full p v raw :
  prepared p (es, cs) (ep, cp) true → length v = ChecksumSize ep →
  zeroSignature (mkPAC 0 (with_full (p_Buffers p) true v) raw) FullChecksum = Ok (mkPAC 0 (p_Buffers p) raw).
Proof.
  intros [Hw _ _ _ Hf] Hv. cbn [fst snd] in *. rewrite (zero_spec _ FullChecksum cp v); cbn [p_Buffers]; [|rewrite get_with_full, Hf; done].
  f_equal. unfold set_Buffers. cbn [p_Version p_Buffers p_raw]. f_equal. apply buffers_ext.
  - unfold with_full. by rewrite !upd_types.
  - unfold with_full. rewrite !upd_types. apply Hw.
  - intros t. rewrite get_upd, get_with_full. cbn [andb]. destruct (Z.eqb_spec t FullChecksum) as [->|]; [|done].
    rewrite Hf. cbn [fmap option_fmap option_map]. by rewrite Hv.
Qed.

Lemma usable_key_present key e ct : usable_key key e ct →
  negb (bool_decide (is_Some (pk_EType key))) || (zlen (pk_Key key) =? 0) = false.
Proof.
  intros [He _ _ Hc]. unfold pac_checksumType in Hc. rewrite He in Hc |- *. rewrite bool_decide_eq_true_2 by eauto.
  by destruct (zlen (pk_Key key) =? 0).
Qed.
Lemma expected_get p typ v a b :
  NoDup (b_Type <$> p_Buffers p) → get (p_Buffers p) typ = Some (signature_buffer cp v) → expected_signature p typ pk a b = Ok (Some v).
Proof.
  intros Hn Hg. destruct Hpk as [He _ _ Hc]. pose proof (checksumType_range _ _ Hc) as Hr.
  destruct (signature_get p typ cp v Hn Hr Hg) as (Hb & Hs & Ht). unfold expected_signature. rewrite Hb, Hs, He, Hc. cbn [res_bind].
  by rewrite Ht, bool_decide_eq_true_2.
Qed.
Lemma present_some v : length v = ChecksumSize ep → present (Some v) pk = Some v.
Proof.
  intros Hl. destruct Hpk as [He Hr _ _]. unfold present. rewrite He. pose proof (ChecksumSize_pos ep Hr).
  rewrite (proj2 (Z.eqb_neq _ 0)); [done|]. unfold zlen. lia.
Qed.

Lemma signed_verifies p full e2 e3 e v vs vk :
  prepared p (es, cs) (ep, cp) full →
  pac_MarshalBinary p = Ok e2 → (full = true → key_Checksum pk e2 = Ok v) →
  pac_MarshalBinary (set_Buffers p (with_full (p_Buffers p) full v)) = Ok e3 → key_Checksum sk e3 = Ok vs →
  key_Checksum pk (signature_buffer cs vs) = Ok vk →
  pac_MarshalBinary (set_Buffers p (with_both (with_full (p_Buffers p) full v) vs vk)) = Ok e →
  let q := mkPAC 0 (with_both (with_full (p_Buffers p) full v) vs vk) e in
  pac_Parse e = Ok q ∧ pac_Verify q sk pk = Ok tt.
Proof.
  intros Hp He2 Hv He3 Hvs Hvk He. cbv zeta. pose proof Hp as [Hw Hc Hs Hk Hf]. cbn [fst snd] in *.
  destruct (key_Checksum_ok sk es cs e3 Hsk) as (x & Hx & Hls & Hvers). rewrite Hvs in Hx. injection Hx as <-.
  destruct (key_Checksum_ok pk ep cp (signature_buffer cs vs) Hpk) as (x & Hx & Hlk & Hverk). rewrite Hvk in Hx. injection Hx as <-.
  assert (Hlv : full = true → length v = ChecksumSize ep ∧ key_Verify pk e2 v = Ok tt).
  { intros ->. destruct (key_Checksum_ok pk ep cp e2 Hpk) as (x & Hx & Hl & Hver). rewrite Hv in Hx by done. by injection Hx as <-. }
  destruct (with_profile p full v vs vk Hp ltac:(intros; by apply Hlv) Hls Hlk) as [Hpf3 Hpf5].
  set (bs3 := with_full (p_Buffers p) full v) in *. set (bs5 := with_both bs3 vs vk) in *.
  assert (Hn5 : NoDup (b_Type <$> bs5)) by (unfold bs5, bs3; rewrite (proj1 (with_types _ full v vs vk)); apply Hw).
  assert (Hw5 : pac_wf (set_Buffers p bs5)).
  { destruct Hw as [Hwv Hwn Hws Hwr]. split; cbn [p_Version p_Buffers p_raw set_Buffers]; try done. by eapply profile_sized. }
  destruct (Marshal_stable (set_Buffers p bs5) e Hw5) as [Hparse Hst]; [|done|].
  { cbn [p_Buffers set_Buffers]. unfold zlen. rewrite (profile_length _ _ Hpf5). exact Hc. }
  cbn [p_Buffers p_raw set_Buffers] in Hparse, Hst. split; [done|]. set (q := mkPAC 0 bs5 e).
  assert (Hver0 : p_Version p = 0) by apply Hw. unfold set_Buffers in He3. rewrite Hver0 in He3.
  assert (Hsk5 : get bs5 ServerChecksum = Some (signature_buffer cs vs)).
  { unfold bs5, bs3. rewrite get_with_both, get_with_full, andb_false_r, Hs. done. }
  assert (Hkk5 : get bs5 KDCChecksum = Some (signature_buffer cp vk)).
  { unfold bs5, bs3. rewrite get_with_both, get_with_full, andb_false_r, Hk. done. }
  assert (Hff5 : get bs5 FullChecksum = if full then Some (signature_buffer cp v) else None).
  { unfold bs5, bs3. rewrite get_with_both, get_with_full, Hf. by destruct full. }
  pose proof (checksumType_range _ _ (uk_type _ _ _ Hsk)) as Hrs.
  destruct (signature_get q ServerChecksum cs vs Hn5 Hrs Hsk5) as (Hbs & Hss & Hts).
  unfold pac_Verify. rewrite (usable_key_present _ _ _ Hsk), (uk_type _ _ _ Hsk). cbn [res_bind]. rewrite Hss, Hts, bool_decide_eq_true_2 by done. cbn [negb].
  rewrite (expected_get q KDCChecksum vk) by done. cbn [res_bind].
  destruct (zero_both p full v vs vk e Hp Hls Hlk) as (q1 & Hz1 & Hz2). fold bs3 in Hz1, Hz2. fold bs5 in Hz1. fold q in Hz1.
  assert (Hserver : pac_MarshalBinary (mkPAC 0 bs3 e) = Ok e3) by (rewrite Hst by congruence; done).
  replace (expected_signature q FullChecksum pk _ _) with (Ok (if full then Some v else None)); cycle 1.
  { destruct full; [symmetry; by apply expected_get|]. unfold expected_signature. rewrite pac_Buffer_get by done. cbn [p_Buffers q]. by rewrite Hff5. }
  cbn [res_bind]. match goal with |- res_bind ?c _ = _ => replace c with (Ok tt) end; cycle 1.
  { destruct full; [|done]. destruct (Hlv eq_refl) as [Hl Hver]. rewrite present_some, Hz1 by done. cbn [res_bind]. rewrite Hz2. cbn [res_bind].
    unfold bs3. rewrite zero_full by done. cbn [res_bind]. rewrite Hst by done.
    replace (mkPAC 0 (p_Buffers p) (p_raw p)) with p by (destruct p; cbn in *; congruence). rewrite He2. cbn [res_bind]. by rewrite Hver. }
  cbn [res_bind]. rewrite Hz1. cbn [res_bind]. rewrite Hz2. cbn [res_bind]. rewrite Hserver. cbn [res_bind]. rewrite Hvers. cbn [res_bind wrap_err].
  rewrite present_some by done. rewrite (zero_spec q KDCChecksum cp vk Hkk5). cbn [res_bind].
  rewrite pac_Buffer_get; cbn [p_Buffers set_Buffers q]; [|by rewrite upd_types]. rewrite get_upd. change (ServerChecksum =? KDCChecksum) with false.
  cbv iota. rewrite Hsk5. cbn [mbind option_bind]. rewrite zlen_signature_buffer, (proj2 (Z.eqb_neq _ 0)) by (pose proof (zlen_nonneg vs); lia).
  by rewrite Hverk.
Qed.

Definition signature_types : list Z := [ServerChecksum; KDCChecksum; TicketChecksum; FullChecksum].
Lemma addClientInfo_spec p authtime client p' :
  pac_wf p → match client with Some client => addClientInfo p authtime client | None => Ok p end = Ok p' →
  pac_wf p' ∧ ∀ t d, get (p_Buffers p) t = d → t ≠ ClientInfoBuffer ∨ default [] d ≠ [] → get (p_Buffers p') t = d.
Proof.
  intros Hw Hp. destruct client as [client|]; [|by injection Hp as <-]. unfold addClientInfo in Hp.
  destruct (Format client) as [name| |]; [|done|done]. cbn [res_bind] in Hp.
  destruct (pac_Buffer p ClientInfoBuffer) as [x|] eqn:Hb; [by injection Hp as <-|].
  set (encoded := utf16_Encode _) in Hp. destruct (Z.ltb_spec (2 ^ 16 - 1) (zlen encoded * 2)); [done|]. injection Hp as <-.
  assert (Hz : zlen (client_info authtime encoded) < 2 ^ 32).
  { unfold client_info. rewrite !zlen_app, !zlen_le_bytes. assert (zlen (concat (le_bytes 2 <$> encoded)) = zlen encoded * 2) as ->; [|lia].
    clear. induction encoded as [|u l IH]; [done|]. cbn [fmap list_fmap concat]. rewrite zlen_app, zlen_le_bytes, zlen_cons, IH. lia. }
  destruct (setBuffer_spec p ClientInfoBuffer _ Hw ltac:(done) Hz) as (Hw' & _ & _ & Hg). split; [done|].
  intros t d Hd Hor. rewrite Hg. destruct (Z.eqb_spec t ClientInfoBuffer) as [->|]; [|done]. destruct Hor as [Hor|Hor]; [done|].
  rewrite pac_Buffer_get, Hd in Hb by apply Hw. destruct d as [d|]; [|done]. cbn [mbind option_bind] in Hb.
  destruct (Z.eqb_spec (zlen d) 0) as [Hd0|]; [|done]. destruct d; [done|]. rewrite zlen_cons in Hd0. pose proof (zlen_nonneg d). lia.
Qed.
Lemma ticket_stage p pd vt :
  pac_wf p → ensureSignature p TicketChecksum pk = Ok pd → length vt = ChecksumSize ep →
  let q := setSignature pd TicketChecksum vt in
  pac_wf q ∧ 0 < zlen (p_Buffers q) ∧
  ∀ t, get (p_Buffers q) t = if t =? TicketChecksum then Some (signature_buffer cp vt) else get (p_Buffers p) t.
Proof.
  intros Hw Hd Hl. cbv zeta. apply (ensure_spec _ _ _ ep cp) in Hd as (Hwd & Hcd & _ & Hgd); [|done|done|done].
  assert (Ht : get (p_Buffers pd) TicketChecksum = Some (signature_buffer cp (zeros (ChecksumSize ep)))) by (by rewrite Hgd, Z.eqb_refl).
  rewrite (set_spec pd TicketChecksum cp _ vt Ht). cbn [p_Buffers set_Buffers]. split_and!.
  - assert (Hp : profile (upd (p_Buffers pd) TicketChecksum (λ _, signature_buffer cp vt)) = profile (p_Buffers pd)).
    { apply upd_profile. intros d Hd. rewrite Ht in Hd. injection Hd as <-. rewrite !zlen_signature_buffer. unfold zlen, zeros.
      by rewrite length_replicate, Hl. }
    destruct Hwd as [Hv Hn Hs Hr]. split; cbn [p_Version p_Buffers p_raw set_Buffers]; [done|by rewrite upd_types| |done].
    by eapply profile_sized.
  - destruct (p_Buffers pd) as [|b bs]; [done|]. rewrite upd_cons. case_match; rewrite zlen_cons; unfold zlen; lia.
  - intros t. rewrite get_upd, Hgd. by destruct (t =? TicketChecksum).
Qed.
Lemma sign_buffers_spec p authtime client full ticket p1 :
  pac_wf p → (is_Some ticket → full = true) → (full = false → get (p_Buffers p) FullChecksum = None) →
  sign_buffers p authtime client sk pk full ticket = Ok p1 →
  prepared p1 (es, cs) (ep, cp) full ∧
  (∀ t, ticket = Some t → ∃ vt, key_Checksum pk t = Ok vt ∧ get (p_Buffers p1) TicketChecksum = Some (signature_buffer cp vt)) ∧
  (∀ typ d, typ ∉ signature_types → get (p_Buffers p) typ = Some d → d ≠ [] → get (p_Buffers p1) typ = Some d).
Proof.
  intros Hw Htf Hnf. unfold sign_buffers.
  destruct (match client with Some _ => _ | None => _ end) as [p'| |] eqn:Hci; [|done|done]. cbn [res_bind].
  apply addClientInfo_spec in Hci as [Hw' Hg']; [|done].
  destruct (ensureSignature p' ServerChecksum sk) as [pa| |] eqn:Ha; [|done|done]. cbn [res_bind].
  apply (ensure_spec _ _ _ es cs) in Ha as (Hwa & _ & _ & Hga); [|done|done|done].
  destruct (ensureSignature pa KDCChecksum pk) as [pb| |] eqn:Hb; [|done|done]. cbn [res_bind].
  apply (ensure_spec _ _ _ ep cp) in Hb as (Hwb & Hcb & _ & Hgb); [|done|done|done].
  intros Hp1. destruct full; cycle 1.
  - destruct ticket as [t|]; [by discriminate (Htf (ex_intro _ t eq_refl))|]. injection Hp1 as <-. split_and!; [|done|].
    + split; cbn [fst snd]; try done; rewrite Hgb; cbn; rewrite ?Hga; try done. apply Hg'; [by apply Hnf|by left].
    + intros typ d Hn Hd Hne. unfold signature_types in Hn. rewrite Hgb, Hga.
      rewrite !(proj2 (Z.eqb_neq _ _)) by (intros ->; apply Hn; set_solver). apply Hg'; [done|by right].
  - destruct (ensureSignature pb FullChecksum pk) as [pc| |] eqn:Hc; [|done|done]. cbn [res_bind] in Hp1.
    apply (ensure_spec _ _ _ ep cp) in Hc as (Hwc & Hcc & _ & Hgc); [|done|done|done].
    assert (Hkept : ∀ typ d, typ ∉ signature_types → get (p_Buffers p) typ = Some d → d ≠ [] → get (p_Buffers pc) typ = Some d).
    { intros typ d Hn Hd Hne. unfold signature_types in Hn. rewrite Hgc, Hgb, Hga.
      rewrite !(proj2 (Z.eqb_neq _ _)) by (intros ->; apply Hn; set_solver). apply Hg'; [done|by right]. }
    destruct ticket as [t|]; cbn [res_bind] in Hp1; cycle 1.
    + injection Hp1 as <-. split_and!; [|done|done]. split; cbn [fst snd]; try done; rewrite Hgc; cbn; rewrite ?Hgb; cbn; rewrite ?Hga; done.
    + destruct (ensureSignature pc TicketChecksum pk) as [pd| |] eqn:Hd; [|done|done]. cbn [res_bind] in Hp1.
      destruct (key_Checksum_ok pk ep cp t Hpk) as (vt & Hvt & Hlt & _). rewrite Hvt in Hp1. cbn [res_bind] in Hp1. injection Hp1 as <-.
      destruct (ticket_stage pc pd vt Hwc Hd Hlt) as (Hwq & Hcq & Hgq). split_and!.
      * split; cbn [fst snd]; try done; rewrite Hgq; cbn; rewrite Hgc; cbn; rewrite ?Hgb; cbn; rewrite ?Hga; done.
      * intros t' [= <-]. exists vt. split; [done|]. by rewrite Hgq.
      * intros typ d Hn Hd' Hne. rewrite Hgq, (proj2 (Z.eqb_neq _ _)); [by apply Hkept|]. intros ->. apply Hn. unfold signature_types. set_solver.
Qed.

Lemma sign_accepted p authtime client full ticket e :
  pac_wf p → (is_Some ticket → full = true) → (full = false → get (p_Buffers p) FullChecksum = None) →
  sign p authtime client sk pk full ticket = Ok e →
  ∃ q, pac_Parse e = Ok q ∧ pac_Verify q sk pk = Ok tt ∧
    (∀ t, ticket = Some t → VerifyTicketSignature q t pk = Ok tt) ∧
    (∀ typ d, typ ∉ signature_types → get (p_Buffers p) typ = Some d → d ≠ [] → get (p_Buffers q) typ = Some d).
Proof.
  intros Hw Htf Hnf. unfold sign. destruct (sign_buffers _ _ _ _ _ _ _) as [p1| |] eqn:Hb; [|done|done]. cbn [res_bind]. intros He.
  destruct (sign_buffers_spec _ _ _ _ _ _ Hw Htf Hnf Hb) as (Hp & Ht & Hkept).
  destruct (sign_values_spec _ _ _ Hp He) as (e2 & e3 & v & vs & vk & He2 & Hv & He3 & Hvs & Hvk & He').
  destruct (signed_verifies _ _ _ _ _ _ _ _ Hp He2 Hv He3 Hvs Hvk He') as (Hq & Hver). eexists. split_and!; [done|done|..]; cbn [p_Buffers].
  - intros t ->. destruct (Ht t eq_refl) as (vt & Hvt & Hgt).
    set (q := mkPAC 0 _ e). assert (Hgq : get (p_Buffers q) TicketChecksum = Some (signature_buffer cp vt)).
    { cbn [p_Buffers q]. rewrite get_with_both, get_with_full, andb_false_r. done. }
    assert (Hn : NoDup (b_Type <$> p_Buffers q)) by (cbn [p_Buffers q]; rewrite (proj1 (with_types _ _ _ _ _)); apply Hp).
    destruct (signature_get q _ _ _ Hn (checksumType_range _ _ (uk_type _ _ _ Hpk)) Hgq) as (_ & Hs & Hty).
    unfold VerifyTicketSignature. rewrite (usable_key_present _ _ _ Hpk), (uk_type _ _ _ Hpk). cbn [res_bind].
    rewrite Hty, bool_decide_eq_true_2, Hs by done. cbn [negb]. destruct (key_Checksum_ok pk ep cp t Hpk) as (x & Hx & _ & Hvx).
    rewrite Hvt in Hx. injection Hx as <-. by rewrite Hvx.
  - intros typ d Hn Hd Hne. rewrite get_with_both, get_with_full. unfold signature_types in Hn.
    rewrite !(proj2 (Z.eqb_neq _ _)) by (intros ->; apply Hn; set_solver). rewrite andb_false_r. by apply Hkept.
Qed.
End keys.
End sign_verify.

(** ** A forged PAC, and a PAC that cannot be signed again *)

Section forgery.
Context `{GoCrypto, !GoCryptoLaws}.

Definition forged (cp : Z) (logon server : bytes) : list Buffer :=
  [mkBuffer LogonInfoBuffer logon; mkBuffer ServerChecksum server; mkBuffer KDCChecksum (signature_buffer cp [])].
Lemma forged_wf cp logon cs v : zlen logon < 2 ^ 32 → zlen v < 100 → pac_wf (mkPAC 0 (forged cp logon (signature_buffer cs v)) []).
Proof.
  intros Hl Hv. split; cbn [p_Version p_Buffers p_raw forged fmap list_fmap b_Type]; [done|by repeat constructor; set_solver| |by left].
  apply Forall_cons. split; [done|]. apply Forall_cons. split; [|apply Forall_cons; split; [done|apply Forall_nil; done]].
  split; [done|]. cbn [b_Data]. rewrite zlen_signature_buffer. lia.
Qed.
Lemma ChecksumSize_small e : registered e → (ChecksumSize e < 100)%nat.
Proof.
  intros Hc%registered_cases. destruct e as [e|e]; cbn in Hc |- *; [|lia]. destruct Hc as (_ & Hc & _). destruct (ae_hash e); cbn in Hc; lia.
Qed.

(** C38: the checksum of the KDC can be left out.  Whoever holds the key of a
    service can make, for any contents, a PAC that [Verify] accepts with the
    key of the service and any key of the KDC that makes checksums of a given
    type: its KDC checksum buffer has a type and no value. *)
Theorem pac_kdc_signature_skipped sk es cs cp logon :
  usable_key sk es cs → 0 <= cp < 2 ^ 31 → zlen logon < 2 ^ 32 →
  ∃ e q, pac_Parse e = Ok q ∧ get (p_Buffers q) LogonInfoBuffer = Some logon ∧
         ∀ pk ep, usable_key pk ep cp → pac_Verify q sk pk = Ok tt.
Proof.
  intros Hsk Hcp Hlogon. pose proof Hsk as [_ Hrs _ Hcs]. pose proof (checksumType_range _ _ Hcs) as Hr. pose proof (ChecksumSize_small _ Hrs).
  set (blank := signature_buffer cs (zeros (ChecksumSize es))). set (e0 := canonical_form (mkPAC 0 (forged cp logon blank) [])).
  destruct (key_Checksum_ok sk es cs e0 Hsk) as (vs & Hvs & Hl & Hver).
  assert (Hcanon : ∀ v, zlen v < 100 → let p := mkPAC 0 (forged cp logon (signature_buffer cs v)) [] in pac_MarshalBinary p = Ok (canonical_form p)).
  { intros v Hv. apply Marshal_canonical; [by left| |by apply forged_wf|done]. intros n ([_ Hn Ht _ _] & _). unfold headerLen, bufferLen in Ht.
    change (zlen []) with 0 in Ht. lia. }
  assert (Hzb : zlen (zeros (ChecksumSize es)) = zlen vs) by (unfold zlen, zeros; by rewrite length_replicate, Hl).
  assert (Hzv : zlen vs < 100) by (unfold zlen; lia). pose proof (forged_wf cp logon cs vs Hlogon Hzv) as Hw.
  set (bs := forged cp logon (signature_buffer cs vs)) in *. set (e := canonical_form (mkPAC 0 bs [])).
  destruct (Marshal_stable _ e Hw ltac:(done) (Hcanon vs Hzv)) as [Hq Hst]. cbn [p_Buffers p_raw] in *.
  exists e, (mkPAC 0 bs e). split_and!; [done|done|]. intros pk ep Hpk. set (q := mkPAC 0 bs e).
  assert (Hn : NoDup (b_Type <$> p_Buffers q)) by apply Hw.
  destruct (signature_get q ServerChecksum cs vs Hn Hr eq_refl) as (_ & Hss & Hst').
  unfold pac_Verify. rewrite (usable_key_present _ _ _ Hsk), Hcs. cbn [res_bind]. rewrite Hss, Hst', bool_decide_eq_true_2 by done. cbn [negb].
  rewrite (expected_get pk ep cp Hpk q KDCChecksum [] _ _ Hn eq_refl). cbn [res_bind].
  replace (expected_signature q FullChecksum pk _ _) with (Ok (A := option bytes) None); cycle 1.
  { unfold expected_signature. by rewrite pac_Buffer_get. }
  cbn [res_bind present]. rewrite (zero_spec q ServerChecksum cs vs eq_refl). cbn [res_bind].
  rewrite (zero_blank _ KDCChecksum cp 0) by done. cbn [res_bind].
  change (set_Buffers q _) with (mkPAC 0 (forged cp logon (signature_buffer cs (zeros (length vs)))) e). rewrite Hl. fold blank. rewrite Hst; cycle 1.
  { unfold profile, bs, forged, blank. cbn [fmap list_fmap b_Type b_Data]. by rewrite !zlen_signature_buffer, Hzb. }
  pose proof (Hcanon (zeros (ChecksumSize es)) ltac:(lia)) as Hb. cbv zeta in Hb. fold blank in Hb. rewrite Hb. fold e0. cbn [res_bind]. rewrite Hver. cbn [res_bind wrap_err]. destruct Hpk as [He _ _ _].
  unfold present. rewrite He. done.
Qed.

(** C39: a PAC cannot be signed again with a key whose checksums have another
    size: the buffer of the old signature is kept and has the wrong length, so
    that signing fails whatever the other arguments are. *)
Theorem pac_resign_fails p authtime client sk pk es full ticket data :
  pac_wf p → pk_EType sk = Some es → get (p_Buffers p) ServerChecksum = Some data → data ≠ [] →
  zlen data ≠ 4 + Z.of_nat (ChecksumSize es) → ∀ e, sign p authtime client sk pk full ticket ≠ Ok e.
Proof.
  intros Hw He Hg Hne Hz e. unfold sign, sign_buffers.
  destruct (match client with Some _ => _ | None => _ end) as [p'| |] eqn:Hc; [|done|done]. cbn [res_bind].
  apply addClientInfo_spec in Hc as [Hw' Hk]; [|done]. specialize (Hk _ _ Hg ltac:(by left)).
  unfold ensureSignature at 1. destruct (pac_checksumType sk) as [ct| |]; [|done|done]. cbn [res_bind]. rewrite He.
  rewrite pac_Buffer_get, Hk by apply Hw'. cbn [mbind option_bind].
  assert (zlen data ≠ 0) by (destruct data; [done|]; rewrite zlen_cons; pose proof (zlen_nonneg data); lia).
  rewrite (proj2 (Z.eqb_neq (zlen data) 0)) by done. by rewrite (proj2 (Z.eqb_neq _ _)).
Qed.
End forgery.

(** ** Concrete PACs *)

Module PacExample.
#[local] Existing Instance toy_crypto.
#[local] Existing Instance toy_crypto_laws.

Definition key_of (id : Z) (key : string) : PACKey :=
  mkPACKey (match Registry_Get false id with Ok e => Some e | _ => None end) (str key).
Definition service_key : PACKey := key_of EnctypeAES128SHA1 "0123456789abcdef".
Definition kdc_key : PACKey := key_of EnctypeAES128SHA1 "fedcba9876543210".
Definition sha2_key : PACKey := key_of EnctypeAES128SHA256 "0123456789abcdef".
Definition aes128 : EType := EAes (mkAes EnctypeAES128SHA1 16 12 false SHA1 EmptyString 4096).
Definition fresh : PAC := mkPAC 0 [mkBuffer LogonInfoBuffer (str "logon information")] [].
Definition alice : Principal := mkPrincipal (str "R") NTPrincipal [str "alice"].
#[local] Abbreviation signed_pac := (sign fresh 1000000000 (Some alice) service_key kdc_key true (Some (str "ticket"))).
Lemma service_usable : usable_key service_key aes128 ChecksumHMACSHA196AES128.
Proof. split; try reflexivity. by exists false, EnctypeAES128SHA1. Qed.
Lemma kdc_usable : usable_key kdc_key aes128 ChecksumHMACSHA196AES128.
Proof. split; try reflexivity. by exists false, EnctypeAES128SHA1. Qed.
Lemma fresh_wf : pac_wf fresh.
Proof. split; [done|by repeat constructor; set_solver|by apply Forall_cons; split; [|apply Forall_nil]|by left]. Qed.
Lemma is_ok_result {A} (r : res A) : is_ok r = true → ∃ a, r = Ok a.
Proof. destruct r as [a| |]; [|done|done]. by exists a. Qed.
Lemma signed_ok : ∃ e, signed_pac = Ok e.
Proof. apply is_ok_result. vm_compute. reflexivity. Qed.

Lemma pac_roundtrip_witness : ∃ e, pac_MarshalBinary fresh = Ok e ∧ pac_Parse e = Ok (mkPAC 0 (p_Buffers fresh) e).
Proof. eexists. split; [reflexivity|]. by apply (proj2 pac_roundtrip fresh _ fresh_wf). Defined.
Lemma pac_kdc_signature_skipped_witness :
  ∃ e q, pac_Parse e = Ok q ∧ get (p_Buffers q) LogonInfoBuffer = Some (str "administrator") ∧ pac_Verify q service_key kdc_key = Ok tt.
Proof.
  destruct (pac_kdc_signature_skipped service_key aes128 _ ChecksumHMACSHA196AES128 (str "administrator") service_usable
    ltac:(vm_compute; split; [discriminate|reflexivity]) ltac:(reflexivity)) as (e & q & Hp & Hl & Hv).
  exact (ex_intro _ e (ex_intro _ q (conj Hp (conj Hl (Hv _ aes128 kdc_usable))))).
Defined.
Lemma not_ok_result {A} (r : res A) : (∀ a, r ≠ Ok a) → is_ok r = false.
Proof. destruct r as [a| |]; [|done|done]. intros Hr. by destruct (Hr a). Qed.
(** A PAC with a signature of the SHA-1 type and a service with a key of the SHA-2 type. *)
Lemma pac_resign_fails_witness :
  is_ok (sign (mkPAC 0 [mkBuffer ServerChecksum (signature_buffer ChecksumHMACSHA196AES128 (zeros 12))] []) 0 None sha2_key kdc_key true
           (Some (str "ticket"))) = false.
Proof.
  apply not_ok_result, (pac_resign_fails _ _ _ _ _ (default aes128 (pk_EType sha2_key)) _ _ (signature_buffer ChecksumHMACSHA196AES128 (zeros 12)));
    try reflexivity; try discriminate.
  split; [done|by repeat constructor; set_solver|by apply Forall_cons; split; [|apply Forall_nil]|by left].
Defined.
End PacExample.
