(* ===== verification/PacData.v ===== *)
(** * The contents of PAC buffers (src/krb5/pac/sid.go, upndns.go, credential.go, delegation.go, ndr.go)

    Security identifiers in their text and binary forms, UPN_DNS_INFO, the
    envelope of encrypted credentials, and the two NDR structures:
    S4U_DELEGATION_INFO and KERB_VALIDATION_INFO.  A string that is not UTF-8
    is encoded with replacement runes, as Go's conversion does. *)

From S2P Require Import Prelude GoStrings GoTime Crypto Pac.
Local Open Scope Z_scope.

(** ** Security identifiers *)

Record SID := mkSID { s_Revision : Z; s_IdentifierAuthority : Z; s_SubAuthorities : list Z }.

(** [strconv.FormatUint] and [strconv.ParseUint] in base 10; a uint64 has at most 20 digits. *)
Fixpoint digits (fuel : nat) (n : Z) : bytes :=
  match fuel with
  | O => []
  | S fuel => (if n <? 10 then [] else digits fuel (n / 10)) ++ [z2b (48 + n mod 10)]
  end.
Definition FormatUint (n : Z) : bytes := digits 20 n.
Definition ParseUint (s : bytes) (bits : Z) : res Z :=
  if (zlen s =? 0) || negb (forallb is_digit s) then Err "invalid syntax"
  else if 2 ^ bits <=? atoi s then Err "value out of range" else Ok (atoi s).

Definition dash : byte := Byte.x2d.
Definition sid_String (s : SID) : bytes :=
  strings_join [dash] ([str "S"; FormatUint (s_Revision s); FormatUint (s_IdentifierAuthority s)] ++ (FormatUint <$> s_SubAuthorities s)).
Fixpoint parse_subs (parts : list bytes) : res (list Z) :=
  match parts with
  | [] => Ok []
  | part :: parts =>
      res_bind (wrap_err "PAC: invalid SID subauthority: " (ParseUint part 32)) (λ sub,
      res_bind (parse_subs parts) (λ subs, Ok (sub :: subs)))
  end.
Definition ParseSID (value : bytes) : res SID :=
  match split_byte dash value with
  | s :: revision :: authority :: subs =>
      if negb (EqualFold_ascii s (str "S")) then Err "PAC: invalid SID" else
      res_bind (wrap_err "PAC: invalid SID revision: " (ParseUint revision 8)) (λ revision,
      res_bind (wrap_err "PAC: invalid SID authority: " (ParseUint authority 48)) (λ authority,
      if 15 <? zlen subs then Err "PAC: too many SID subauthorities" else
      res_bind (parse_subs subs) (λ subs, Ok (mkSID revision authority subs))))
  | _ => Err "PAC: invalid SID"
  end.
Definition sid_MarshalBinary (s : SID) : res bytes :=
  if 15 <? zlen (s_SubAuthorities s) then Err "PAC: too many SID subauthorities"
  else if 2 ^ 48 <=? s_IdentifierAuthority s then Err "PAC: SID authority exceeds 48 bits"
  else Ok ([z2b (s_Revision s); z2b (zlen (s_SubAuthorities s))] ++ be_bytes 6 (s_IdentifierAuthority s) ++
           concat (le_bytes 4 <$> s_SubAuthorities s)).
(** The words at an offset. *)
Fixpoint u32s_at (n : nat) (data : bytes) (off : Z) : list Z :=
  match n with O => [] | S n => u32_at data off :: u32s_at n data (off + 4) end.
Definition ParseSIDBinary (data : bytes) : res (SID * Z) :=
  if zlen data <? 8 then Err "PAC: truncated SID" else
  let count := be_value (slice_at data 1 1) in
  let n := 8 + 4 * count in
  if zlen data <? n then Err "PAC: truncated SID subauthorities"
  else Ok (mkSID (be_value (slice_at data 0 1)) (be_value (slice_at data 2 6)) (u32s_at (Z.to_nat count) data 8), n).

(** ** UPN_DNS_INFO *)

Definition UPNDNSInfoHasSAMNameAndSID : Z := 2.
Record UPNDNSInfoData := mkUPN { u_UPN : bytes; u_DNSDomainName : bytes; u_Flags : Z; u_SAMName : bytes; u_SID : option SID }.

Definition encodeUTF16 (value : bytes) : res bytes :=
  let units := utf16_Encode (to_runes value) in
  if 0x7fff <? zlen units then Err "PAC: UTF-16 string is too long" else Ok (concat (le_bytes 2 <$> units)).
Definition decodeUTF16 (data : bytes) : res bytes :=
  if negb (zlen data mod 2 =? 0) then Err "PAC: odd UTF-16 string length" else Ok (of_runes (utf16_Decode (le_units data))).
Definition align4 (value : Z) : Z := Z.ldiff (value + 3) 3.
Definition pad4 (v : bytes) : bytes := v ++ zeros (Z.to_nat (align4 (zlen v) - zlen v)).

(** [place]: the field at the offset, which is aligned, and the offset after it. *)
Definition place (offset : Z) (value : bytes) : res (Z * Z) :=
  if (0xffff <? offset) || (0xffff <? zlen value) then Err "PAC: UPN_DNS_INFO field exceeds uint16"
  else Ok (offset, align4 (offset + zlen value)).
Definition upn_extended (u : UPNDNSInfoData) : bool := negb (Z.land (u_Flags u) UPNDNSInfoHasSAMNameAndSID =? 0).
Definition upn_MarshalBinary (u : UPNDNSInfoData) : res bytes :=
  res_bind (encodeUTF16 (u_UPN u)) (λ upn,
  res_bind (encodeUTF16 (u_DNSDomainName u)) (λ dns,
  res_bind (if upn_extended u then
              res_bind (encodeUTF16 (u_SAMName u)) (λ sam,
              match u_SID u with
              | None => Err "PAC: extended UPN_DNS_INFO requires a SID"
              | Some sid => res_bind (sid_MarshalBinary sid) (λ sid, Ok (sam, sid))
              end)
            else Ok ([], [])) (λ '(sam, sid),
  let offset := align4 (if upn_extended u then 20 else 12) in
  res_bind (place offset upn) (λ '(upnOffset, offset),
  res_bind (place offset dns) (λ '(dnsOffset, offset),
  let head := le_bytes 2 (zlen upn) ++ le_bytes 2 upnOffset ++ le_bytes 2 (zlen dns) ++ le_bytes 2 dnsOffset ++ le_bytes 4 (u_Flags u) in
  if upn_extended u then
    res_bind (place offset sam) (λ '(samOffset, offset),
    res_bind (place offset sid) (λ '(sidOffset, _),
    Ok (head ++ le_bytes 2 (zlen sam) ++ le_bytes 2 samOffset ++ le_bytes 2 (zlen sid) ++ le_bytes 2 sidOffset ++
        pad4 upn ++ pad4 dns ++ pad4 sam ++ pad4 sid)))
  else Ok (head ++ pad4 upn ++ pad4 dns)))))).
(** [read]: a field, whose slice is in range. *)
Definition upn_read (data : bytes) (offset length : Z) : res bytes :=
  if negb (offset mod 4 =? 0) || (offset <? 12) || (zlen data - length <? offset) then Err "PAC: invalid UPN_DNS_INFO offset"
  else Ok (slice_at data offset length).
Definition ParseUPNDNSInfo (data : bytes) : res UPNDNSInfoData :=
  if zlen data <? 12 then Err "PAC: truncated UPN_DNS_INFO" else
  let flags := u32_at data 8 in
  res_bind (upn_read data (u16_at data 2) (u16_at data 0)) (λ upn,
  res_bind (upn_read data (u16_at data 6) (u16_at data 4)) (λ dns,
  res_bind (decodeUTF16 upn) (λ upn,
  res_bind (decodeUTF16 dns) (λ dns,
  if Z.land flags UPNDNSInfoHasSAMNameAndSID =? 0 then Ok (mkUPN upn dns flags [] None)
  else if zlen data <? 20 then Err "PAC: truncated extended UPN_DNS_INFO" else
  res_bind (upn_read data (u16_at data 14) (u16_at data 12)) (λ sam,
  res_bind (upn_read data (u16_at data 18) (u16_at data 16)) (λ sid,
  res_bind (decodeUTF16 sam) (λ sam,
  match ParseSIDBinary sid with
  | Ok (parsed, used) => if negb (used =? zlen sid) then Err "PAC: invalid UPN_DNS_INFO SID"
                         else Ok (mkUPN upn dns flags sam (Some parsed))
  | Err _ => Err "PAC: invalid UPN_DNS_INFO SID"
  | Panic => Panic
  end))))))).

(** ** Encrypted credentials *)

Definition CredentialInfoKeyUsage : Z := 16.
Record CredentialInfo := mkCred { c_Version : Z; c_EncryptionType : Z; c_Data : bytes }.
Definition cred_MarshalBinary (c : CredentialInfo) : res bytes :=
  if negb (c_Version c =? 0) then Err "PAC: unsupported credential-info version"
  else Ok (le_bytes 4 (c_Version c) ++ le_bytes 4 (u32 (c_EncryptionType c)) ++ c_Data c).
Definition ParseCredentialInfo (data : bytes) : res CredentialInfo :=
  if zlen data <? 8 then Err "PAC: truncated credential-info" else
  let version := u32_at data 0 in
  if negb (version =? 0) then Err "PAC: unsupported credential-info version"
  else Ok (mkCred version (i32 (u32_at data 4)) (drop 8 data)).

Section credentials.
Context `{GoCrypto} (fips : bool).
Definition EncryptCredentialInfo (etype : option EType) (confounder : res bytes) (key plaintext : bytes) : res CredentialInfo :=
  match etype with
  | None => Err "PAC: missing credential-info enctype"
  | Some etype =>
      res_bind (etype_Encrypt etype confounder key CredentialInfoKeyUsage plaintext) (λ ciphertext,
      Ok (mkCred 0 (etype_ID etype) ciphertext))
  end.
Definition cred_Decrypt (c : CredentialInfo) (key : bytes) : res bytes :=
  if negb (c_Version c =? 0) then Err "PAC: unsupported credential-info version" else
  res_bind (Registry_Get fips (c_EncryptionType c)) (λ etype,
  etype_Decrypt etype key CredentialInfoKeyUsage (c_Data c)).
End credentials.

(** ** NDR readers *)

(** [delegationReader] and [ndrReader]: reading the data at an offset. *)
Definition rd (A : Type) : Type := bytes → Z → res (A * Z).
Definition rd_ret {A} (a : A) : rd A := λ _ off, Ok (a, off).
Definition rd_err {A} (e : string) : rd A := λ _ _, Err e.
Definition rd_bind {A B} (p : rd A) (k : A → rd B) : rd B :=
  λ data off, res_bind (p data off) (λ '(a, off), k a data off).
Declare Scope ndr_scope.
Notation "'rd!' x ':=' p 'in' k" := (rd_bind p (λ x, k)) (at level 10, x name, p at level 100, k at level 200) : ndr_scope.
Notation "'rd!' ' x ':=' p 'in' k" := (rd_bind p (λ y, match y with x => k end)) (at level 10, x pattern, p at level 100, k at level 200) : ndr_scope.
Local Open Scope ndr_scope.
(** The error of a call in a context. *)
Definition rd_wrap {A} (e : string) (p : rd A) : rd A := λ data off, wrap_err e (p data off).
(** Any error is this one. *)
Definition rd_or {A} (e : string) (p : rd A) : rd A :=
  λ data off, match p data off with Err _ => Err e | r => r end.
Definition rd_check (b : bool) (e : string) : rd unit := λ _ off, if b then Ok (tt, off) else Err e.
(** A check on the number of bytes left. *)
Definition rd_room (f : Z → bool) (e : string) : rd unit := λ data off, if f (zlen data - off) then Ok (tt, off) else Err e.

Definition rd_bytes (e : string) (n : Z) : rd bytes :=
  λ data off, if (n <? 0) || (zlen data - off <? n) then Err e else Ok (slice_at data off n, off + n).
Definition rd_le (e : string) (n : Z) : rd Z := rd! v := rd_bytes e n in rd_ret (le_value v).
Fixpoint rd_list {A} (n : nat) (p : rd A) : rd (list A) :=
  match n with
  | O => rd_ret []
  | S n => rd! x := p in rd! xs := rd_list n p in rd_ret (x :: xs)
  end.

(** ** S4U_DELEGATION_INFO *)

Record DelegationInfo := mkDelegation { d_ProxyTarget : bytes; d_TransitedServices : list bytes }.
Definition ndrPointerValue : Z := 0x20000.

(** The encoded string and its units. *)
Definition marshalDelegationWChars (value : bytes) : res (bytes * Z) :=
  res_bind (encodeUTF16 value) (λ data,
  let units := zlen data / 2 in
  if 2 ^ 16 - 2 <? units then Err "PAC: delegation string is too long"
  else Ok (le_bytes 4 (units + 1) ++ le_bytes 4 0 ++ le_bytes 4 units ++ data ++
           (if negb (units mod 2 =? 0) then le_bytes 2 0 else []), units)).
Fixpoint marshal_services (services : list bytes) : res (list (bytes * Z)) :=
  match services with
  | [] => Ok []
  | s :: services => res_bind (marshalDelegationWChars s) (λ m, res_bind (marshal_services services) (λ ms, Ok (m :: ms)))
  end.
(** The [k]-th pointer, counted from 0; there are fewer than 2^29. *)
Definition delegationPointer (k : Z) : bytes := le_bytes 4 (u32 (ndrPointerValue + 4 * k)).
Definition string_header (units : Z) : bytes := le_bytes 2 (u16 (2 * units)) ++ le_bytes 2 (u16 (2 * (units + 1))).
Fixpoint service_headers (units : list Z) (k : Z) : bytes :=
  match units with
  | [] => []
  | n :: units => string_header n ++ delegationPointer k ++ service_headers units (k + 1)
  end.
Definition delegation_MarshalBinary (d : DelegationInfo) : res bytes :=
  res_bind (marshalDelegationWChars (d_ProxyTarget d)) (λ '(proxy, proxyChars),
  res_bind (marshal_services (d_TransitedServices d)) (λ services,
  let n := zlen (d_TransitedServices d) in
  if 2 ^ 32 - 1 <? n then Err "PAC: too many transited services" else
  let body := delegationPointer 0 ++ string_header proxyChars ++ delegationPointer 1 ++ le_bytes 4 (u32 n) ++
              delegationPointer 2 ++ proxy ++ le_bytes 4 (u32 n) ++ service_headers services.*2 3 ++ concat services.*1 in
  let body := if negb ((16 + zlen body) mod 8 =? 0) then body ++ le_bytes 4 0 else body in
  Ok ([Byte.x01; Byte.x10; Byte.x08; Byte.x00] ++ le_bytes 4 0xcccccccc ++ le_bytes 4 (u32 (zlen body)) ++ le_bytes 4 0 ++ body))).

Definition truncated_delegation : string := "PAC: truncated delegation-info data".
Definition d_u16 : rd Z := rd_le truncated_delegation 2.
Definition d_u32 : rd Z := rd_le truncated_delegation 4.
Definition wcharPointer : rd bytes :=
  rd! maximum := d_u32 in
  rd! _ := d_u32 in
  rd! actual := d_u32 in
  rd! _ := rd_room (λ left, negb ((maximum <? actual) || (u32 (left / 2) <? actual))) "PAC: invalid delegation-info string length" in
  rd! raw := rd_bytes truncated_delegation (actual * 2) in
  rd! value := (λ _ off, res_bind (decodeUTF16 raw) (λ v, Ok (v, off))) in
  if negb (actual mod 2 =? 0) then rd! _ := d_u16 in rd_ret value else rd_ret value.
Definition service_header : rd Z :=
  rd! length := d_u16 in
  rd! maximum := d_u16 in
  rd! _ := d_u32 in
  rd! _ := rd_check (negb ((maximum <? length) || negb (length mod 2 =? 0) || (maximum <? length))) "PAC: invalid delegation-info service header" in
  rd_ret maximum.
Fixpoint read_services (maxima : list Z) : rd (list bytes) :=
  match maxima with
  | [] => rd_ret []
  | maximum :: maxima =>
      rd! service := wcharPointer in
      rd! _ := rd_check (negb (maximum / 2 <? u32 (zlen (to_runes service)))) "PAC: delegation-info service exceeds maximum" in
      rd! services := read_services maxima in
      rd_ret (service :: services)
  end.
Definition delegation_body : rd DelegationInfo :=
  rd! _ := d_u32 in
  rd! _ := d_u16 in
  rd! _ := d_u16 in
  rd! _ := d_u32 in
  rd! nservices := d_u32 in
  rd! _ := rd_room (λ left, negb (u32 (left / 8) <? nservices)) "PAC: delegation-info service count is too large" in
  rd! _ := d_u32 in
  rd! proxy := wcharPointer in
  rd! encodedCount := rd_or "PAC: delegation-info service count mismatch" d_u32 in
  rd! _ := rd_check (encodedCount =? nservices) "PAC: delegation-info service count mismatch" in
  rd! headers := rd_list (Z.to_nat nservices) service_header in
  rd! services := read_services headers in
  rd_ret (mkDelegation proxy services).
Definition ParseDelegationInfo (data : bytes) : res DelegationInfo :=
  if (zlen data <? 16) || negb (zlen data mod 8 =? 0) then Err "PAC: invalid delegation-info length"
  else if negb (bytes_eqb (slice_at data 0 2) [Byte.x01; Byte.x10]) || negb (u16_at data 2 =? 8)
  then Err "PAC: invalid delegation-info header"
  else if negb (u32_at data 8 =? u32 (zlen data - 16)) then Err "PAC: invalid delegation-info object length"
  else res_bind (delegation_body data 16) (λ '(d, off),
       if negb (off =? zlen data) && negb (bytes_eqb (drop (Z.to_nat off) data) (zeros 4)) then Err "PAC: trailing delegation-info data"
       else Ok d).

(** ** KERB_VALIDATION_INFO *)

Definition LogonInfoExtraSids : Z := 0x20.
Definition LogonInfoResourceGroups : Z := 0x200.
Record GroupMembership := mkGroup { g_RelativeID : Z; g_Attributes : Z }.
Record SIDAndAttributes := mkSidAttr { sa_SID : SID; sa_Attributes : Z }.
Record LogonInfo := mkLogon {
  l_LogonTime : Z; l_LogoffTime : Z; l_KickOffTime : Z; l_PasswordLastSet : Z; l_PasswordCanChange : Z; l_PasswordMustChange : Z;
  l_EffectiveName : bytes; l_FullName : bytes; l_LogonScript : bytes; l_ProfilePath : bytes; l_HomeDirectory : bytes;
  l_HomeDirectoryDrive : bytes;
  l_LogonCount : Z; l_BadPasswordCount : Z; l_UserID : Z; l_PrimaryGroupID : Z;
  l_GroupIDs : list GroupMembership; l_UserFlags : Z; l_UserSessionKey : bytes;
  l_LogonServer : bytes; l_LogonDomainName : bytes; l_LogonDomainID : option SID;
  l_Reserved1 : Z * Z; l_UserAccountControl : Z; l_SubAuthStatus : Z;
  l_LastSuccessfulILogon : Z; l_LastFailedILogon : Z; l_FailedILogonCount : Z; l_Reserved3 : Z;
  l_SidCount : Z; l_ExtraSIDs : list SIDAndAttributes; l_ResourceGroupDomainSID : option SID;
  l_ResourceGroupCount : Z; l_ResourceGroupIDs : list GroupMembership;
}.

(** What the deferred functions write. *)
Inductive referent :=
| RUnicode (data : bytes)
| RSid (s : SID)
| RGroups (l : list GroupMembership)
| RExtra (l : list SIDAndAttributes).
Record ndrWriter := mkWriter { w_buf : bytes; w_nextRef : Z; w_deferred : list referent }.
Definition w_write (w : ndrWriter) (data : bytes) : ndrWriter := mkWriter (w_buf w ++ data) (w_nextRef w) (w_deferred w).
Definition w_align (w : ndrWriter) (n : Z) : ndrWriter :=
  w_write w (zeros (Z.to_nat (Z.land (- zlen (w_buf w)) (n - 1)))).
Definition w_ref (w : ndrWriter) : ndrWriter :=
  mkWriter (w_buf w ++ le_bytes 4 (u32 (ndrPointerValue + u32 (w_nextRef w + 1)))) (u32 (w_nextRef w + 1)) (w_deferred w).
Definition w_defer (w : ndrWriter) (r : referent) : ndrWriter := mkWriter (w_buf w) (w_nextRef w) (w_deferred w ++ [r]).
(** A pointer with what it refers to. *)
Definition w_pointer (w : ndrWriter) (r : option referent) : ndrWriter :=
  match r with None => w_write w (le_bytes 4 0) | Some r => w_defer (w_ref w) r end.

Definition w_unicode (w : ndrWriter) (value : bytes) : res ndrWriter :=
  res_bind (encodeUTF16 value) (λ encoded,
  if 0xffff <? zlen encoded then Err "PAC: NDR unicode string is too long"
  else Ok (w_pointer (w_write w (le_bytes 2 (zlen encoded) ++ le_bytes 2 (zlen encoded))) (Some (RUnicode encoded)))).
Fixpoint w_unicodes (w : ndrWriter) (values : list bytes) : res ndrWriter :=
  match values with [] => Ok w | v :: values => res_bind (w_unicode w v) (λ w, w_unicodes w values) end.
Definition w_sidPointer (w : ndrWriter) (s : option SID) : ndrWriter := w_pointer w (RSid <$> s).
Definition w_groups (w : ndrWriter) (l : list GroupMembership) : ndrWriter :=
  w_pointer w (match l with [] => None | _ => Some (RGroups l) end).
Definition w_extraSIDs (w : ndrWriter) (l : list SIDAndAttributes) : ndrWriter :=
  w_pointer w (match l with [] => None | _ => Some (RExtra l) end).

Definition w_sid (w : ndrWriter) (s : SID) : res ndrWriter :=
  res_bind (sid_MarshalBinary s) (λ data,
  Ok (w_write (w_align w 4) (le_bytes 4 (zlen (s_SubAuthorities s)) ++ take 8 data ++ concat (le_bytes 4 <$> s_SubAuthorities s)))).
Fixpoint w_sids (w : ndrWriter) (l : list SIDAndAttributes) : res ndrWriter :=
  match l with [] => Ok w | x :: l => res_bind (w_sid w (sa_SID x)) (λ w, w_sids w l) end.
Definition w_referent (w : ndrWriter) (r : referent) : res ndrWriter :=
  match r with
  | RUnicode data =>
      Ok (w_write (w_align w 4) (le_bytes 4 (zlen data / 2) ++ le_bytes 4 0 ++ le_bytes 4 (zlen data / 2) ++ data))
  | RSid s => w_sid w s
  | RGroups l =>
      Ok (w_write (w_align w 4) (le_bytes 4 (u32 (zlen l)) ++
            concat ((λ g, le_bytes 4 (g_RelativeID g) ++ le_bytes 4 (g_Attributes g)) <$> l)))
  | RExtra l =>
      let w := w_write (w_align w 4) (le_bytes 4 (u32 (zlen l))) in
      w_sids (foldl (λ w x, w_write (w_ref w) (le_bytes 4 (sa_Attributes x))) w l) l
  end.
Fixpoint w_referents (w : ndrWriter) (rs : list referent) : res ndrWriter :=
  match rs with [] => Ok w | r :: rs => res_bind (w_referent w r) (λ w, w_referents w rs) end.

Definition has_flag (flags mask : Z) : bool := negb (Z.land flags mask =? 0).
Definition logon_MarshalBinary (l : LogonInfo) : res bytes :=
  let w := w_write (mkWriter [] 0 []) ([Byte.x01; Byte.x10; Byte.x08; Byte.x00] ++ le_bytes 4 0xcccccccc ++ le_bytes 4 0 ++ le_bytes 4 0) in
  let w := w_write (w_ref w) (concat (le_bytes 8 <$> [l_LogonTime l; l_LogoffTime l; l_KickOffTime l; l_PasswordLastSet l;
                                                     l_PasswordCanChange l; l_PasswordMustChange l])) in
  res_bind (w_unicodes w [l_EffectiveName l; l_FullName l; l_LogonScript l; l_ProfilePath l; l_HomeDirectory l; l_HomeDirectoryDrive l]) (λ w,
  let w := w_write w (le_bytes 2 (l_LogonCount l) ++ le_bytes 2 (l_BadPasswordCount l) ++
                      le_bytes 4 (l_UserID l) ++ le_bytes 4 (l_PrimaryGroupID l) ++ le_bytes 4 (u32 (zlen (l_GroupIDs l)))) in
  let w := w_write (w_groups w (l_GroupIDs l)) (le_bytes 4 (l_UserFlags l) ++ l_UserSessionKey l) in
  res_bind (w_unicodes w [l_LogonServer l; l_LogonDomainName l]) (λ w,
  let w := w_write (w_sidPointer w (l_LogonDomainID l))
             (le_bytes 4 (l_Reserved1 l).1 ++ le_bytes 4 (l_Reserved1 l).2 ++ le_bytes 4 (l_UserAccountControl l) ++
              le_bytes 4 (l_SubAuthStatus l) ++ le_bytes 8 (l_LastSuccessfulILogon l) ++ le_bytes 8 (l_LastFailedILogon l)) in
  let extra := if has_flag (l_UserFlags l) LogonInfoExtraSids then l_ExtraSIDs l else [] in
  let w := w_write w (le_bytes 4 (l_FailedILogonCount l) ++ le_bytes 4 (l_Reserved3 l) ++ le_bytes 4 (u32 (zlen extra))) in
  let w := w_extraSIDs w extra in
  let resource := has_flag (l_UserFlags l) LogonInfoResourceGroups in
  let resourceGroups := if resource then l_ResourceGroupIDs l else [] in
  let w := w_sidPointer w (if resource then l_ResourceGroupDomainSID l else None) in
  let w := w_groups (w_write w (le_bytes 4 (u32 (zlen resourceGroups)))) resourceGroups in
  res_bind (w_referents w (w_deferred w)) (λ w,
  let out := w_buf w in Ok (write_at out 8 (le_bytes 4 (u32 (zlen out - 16))))))).

Definition truncated_ndr : string := "PAC: truncated NDR data".
Definition n_u16 : rd Z := rd_le truncated_ndr 2.
Definition n_u32 : rd Z := rd_le truncated_ndr 4.
Definition n_u64 : rd Z := rd_le truncated_ndr 8.
Definition n_align (n : Z) : rd unit :=
  λ data off, let next := Z.ldiff (off + n - 1) (n - 1) in
              if zlen data <? next then Err "PAC: truncated NDR alignment" else Ok (tt, next).
Definition n_pointer : rd bool := rd! v := n_u32 in rd_ret (negb (v =? 0)).
(** The length of a string and whether it is there. *)
Definition unicodeDescriptor : rd (Z * bool) :=
  rd! length := n_u16 in
  rd! _ := n_u16 in
  rd! present := n_pointer in
  rd_ret (length, present).
Definition readUnicode (desc : Z * bool) : rd bytes :=
  if negb desc.2 then rd_ret [] else
  rd! _ := n_align 4 in
  rd! max := n_u32 in
  rd! _ := n_u32 in
  rd! actual := rd_or "PAC: invalid NDR unicode array" n_u32 in
  rd! _ := rd_check (negb ((max <? actual) || negb (actual =? desc.1 / 2))) "PAC: invalid NDR unicode array" in
  rd! data := rd_bytes truncated_ndr (actual * 2) in
  λ _ off, res_bind (decodeUTF16 data) (λ v, Ok (v, off)).
Definition n_sid (present : bool) : rd (option SID) :=
  if negb present then rd_ret None else
  rd! _ := n_align 4 in
  rd! count := rd_or "PAC: invalid NDR SID" n_u32 in
  rd! _ := rd_check (negb (15 <? count)) "PAC: invalid NDR SID" in
  rd! body := rd_bytes truncated_ndr 8 in
  rd! _ := rd_check (be_value (slice_at body 1 1) =? count) "PAC: SID count mismatch" in
  rd! subs := rd_list (Z.to_nat count) n_u32 in
  rd_ret (Some (mkSID (be_value (slice_at body 0 1)) (be_value (slice_at body 2 6)) subs)).
Definition n_group : rd GroupMembership := rd! id := n_u32 in rd! attributes := n_u32 in rd_ret (mkGroup id attributes).
Definition n_groups (present : bool) : rd (list GroupMembership) :=
  if negb present then rd_ret [] else
  rd! _ := n_align 4 in
  rd! count := rd_or "PAC: invalid NDR group array" n_u32 in
  rd! _ := rd_room (λ left, negb (u32 (left / 8) <? count)) "PAC: invalid NDR group array" in
  rd_list (Z.to_nat count) n_group.
Definition extra_entry : rd (bool * Z) := rd! present := n_pointer in rd! attributes := n_u32 in rd_ret (present, attributes).
Fixpoint read_extra (l : list (bool * Z)) : rd (list SIDAndAttributes) :=
  match l with
  | [] => rd_ret []
  | (present, attributes) :: l =>
      rd! sid := rd_wrap "PAC: extra SID: " (n_sid present) in
      match sid with
      | None => rd_err "PAC: missing extra SID"
      | Some sid => rd! rest := read_extra l in rd_ret (mkSidAttr sid attributes :: rest)
      end
  end.
Definition n_extraSIDs (present : bool) (sidCount : Z) : rd (list SIDAndAttributes) :=
  if negb present then rd_ret [] else
  rd! _ := n_align 4 in
  rd! count := rd_or "PAC: extra SID count mismatch" n_u32 in
  rd! _ := rd_check (count =? sidCount) "PAC: extra SID count mismatch" in
  rd! _ := rd_room (λ left, negb (u32 (left / 8) <? count)) "PAC: extra SID array exceeds input" in
  rd! l := rd_list (Z.to_nat count) extra_entry in
  read_extra l.
Fixpoint read_unicodes (descs : list (Z * bool)) : rd (list bytes) :=
  match descs with
  | [] => rd_ret []
  | desc :: descs =>
      rd! v := rd_wrap "PAC: effective string: " (readUnicode desc) in
      rd! vs := read_unicodes descs in rd_ret (v :: vs)
  end.

(** The fixed part, with the descriptors of the deferred referents. *)
Record fixed_part := mkFixed {
  fp_times : list Z; fp_descs : list (Z * bool); fp_LogonCount : Z; fp_BadPasswordCount : Z; fp_UserID : Z; fp_PrimaryGroupID : Z;
  fp_groupCount : Z; fp_groupPresent : bool; fp_UserFlags : Z; fp_key : bytes; fp_server : Z * bool; fp_domain : Z * bool;
  fp_domainPresent : bool; fp_Reserved1 : Z * Z; fp_UserAccountControl : Z; fp_SubAuthStatus : Z; fp_LastSuccessful : Z; fp_LastFailed : Z;
  fp_FailedCount : Z; fp_Reserved3 : Z; fp_SidCount : Z; fp_extraPresent : bool; fp_resourceDomainPresent : bool;
  fp_ResourceGroupCount : Z; fp_resourceGroupsPresent : bool;
}.
Definition read_fixed : rd fixed_part :=
  rd! present := rd_or "PAC: missing KERB_VALIDATION_INFO pointer" n_pointer in
  rd! _ := rd_check present "PAC: missing KERB_VALIDATION_INFO pointer" in
  rd! times := rd_list 6 n_u64 in
  rd! descs := rd_list 6 unicodeDescriptor in
  rd! logonCount := n_u16 in
  rd! badPasswordCount := n_u16 in
  rd! userID := n_u32 in
  rd! primaryGroupID := n_u32 in
  rd! groupCount := n_u32 in
  rd! groupPresent := n_pointer in
  rd! userFlags := n_u32 in
  rd! key := rd_bytes truncated_ndr 16 in
  rd! server := unicodeDescriptor in
  rd! domain := unicodeDescriptor in
  rd! domainPresent := n_pointer in
  rd! r0 := n_u32 in
  rd! r1 := n_u32 in
  rd! control := n_u32 in
  rd! status := n_u32 in
  rd! lastSuccessful := n_u64 in
  rd! lastFailed := n_u64 in
  rd! failedCount := n_u32 in
  rd! reserved3 := n_u32 in
  rd! sidCount := n_u32 in
  rd! extraPresent := n_pointer in
  rd! resourceDomainPresent := n_pointer in
  rd! resourceGroupCount := n_u32 in
  rd! resourceGroupsPresent := n_pointer in
  rd_ret (mkFixed times descs logonCount badPasswordCount userID primaryGroupID groupCount groupPresent userFlags key server domain
            domainPresent (r0, r1) control status lastSuccessful lastFailed failedCount reserved3 sidCount extraPresent
            resourceDomainPresent resourceGroupCount resourceGroupsPresent).
Definition logon_body : rd LogonInfo :=
  rd! f := read_fixed in
  rd! names := read_unicodes (fp_descs f) in
  rd! groups := rd_wrap "PAC: group array: " (n_groups (fp_groupPresent f)) in
  rd! _ := rd_check (u32 (zlen groups) =? fp_groupCount f) "PAC: group count mismatch" in
  rd! server := rd_wrap "PAC: logon server: " (readUnicode (fp_server f)) in
  rd! domain := rd_wrap "PAC: logon domain: " (readUnicode (fp_domain f)) in
  rd! domainID := rd_wrap "PAC: logon domain SID: " (n_sid (fp_domainPresent f)) in
  rd! extra := n_extraSIDs (fp_extraPresent f) (fp_SidCount f) in
  rd! resourceDomain := rd_wrap "PAC: resource domain SID: " (n_sid (fp_resourceDomainPresent f)) in
  rd! resourceGroups := rd_or "PAC: resource group count mismatch" (n_groups (fp_resourceGroupsPresent f)) in
  rd! _ := rd_check (u32 (zlen resourceGroups) =? fp_ResourceGroupCount f) "PAC: resource group count mismatch" in
  match fp_times f, names with
  | [t1; t2; t3; t4; t5; t6], [n1; n2; n3; n4; n5; n6] =>
      rd_ret (mkLogon t1 t2 t3 t4 t5 t6 n1 n2 n3 n4 n5 n6 (fp_LogonCount f) (fp_BadPasswordCount f) (fp_UserID f) (fp_PrimaryGroupID f)
                groups (fp_UserFlags f) (fp_key f) server domain domainID (fp_Reserved1 f) (fp_UserAccountControl f) (fp_SubAuthStatus f)
                (fp_LastSuccessful f) (fp_LastFailed f) (fp_FailedCount f) (fp_Reserved3 f) (fp_SidCount f) extra resourceDomain
                (fp_ResourceGroupCount f) resourceGroups)
  | _, _ => λ _ _, Panic
  end.
Definition ParseLogonInfo (data : bytes) : res LogonInfo :=
  if (zlen data <? 20) || negb (bytes_eqb (slice_at data 0 2) [Byte.x01; Byte.x10]) || negb (u16_at data 2 =? 8) ||
     negb (u32_at data 4 =? 0xcccccccc) then Err "PAC: invalid NDR common header"
  else if negb (u32_at data 8 =? zlen data - 16) || negb (u32_at data 12 =? 0) then Err "PAC: invalid NDR private header"
  else res_bind (logon_body data 16) (λ '(l, off),
       let remaining := drop (Z.to_nat off) data in
       if off =? zlen data then Ok l
       else if negb (zlen remaining =? Z.land (- off) 7) then Err "PAC: trailing NDR data"
       else if existsb (λ b, negb (b2z b =? 0)) remaining then Err "PAC: non-zero NDR trailing data"
       else Ok l).

(** ** Strings *)

(** Go's conversion to runes and back: ill-formed bytes become U+FFFD. *)
Definition utf8_fix (s : bytes) : bytes := of_runes (to_runes s).
Lemma le_units_concat units : Forall (λ u, 0 <= u < 2 ^ 16) units → le_units (concat (le_bytes 2 <$> units)) = units.
Proof.
  induction 1 as [|u units Hu _ IH]; [done|]. cbn [fmap list_fmap concat].
  destruct (le_bytes 2 u) as [|a [|b [|]]] eqn:Hl; pose proof (length_le_bytes 2 u) as Hlen; rewrite Hl in Hlen; try done.
  cbn [app le_units]. rewrite IH, <- Hl, le_value_bytes by lia. done.
Qed.
Lemma zlen_units units : zlen (concat (le_bytes 2 <$> units)) = 2 * zlen units.
Proof. induction units as [|u units IH]; [done|]. cbn [fmap list_fmap concat]. rewrite zlen_app, zlen_le_bytes, IH, zlen_cons. lia. Qed.
Lemma encodeUTF16_ok s d : encodeUTF16 s = Ok d →
  decodeUTF16 d = Ok (utf8_fix s) ∧ zlen d = 2 * zlen (utf16_Encode (to_runes s)) ∧ zlen (utf16_Encode (to_runes s)) <= 0x7fff.
Proof.
  unfold encodeUTF16, decodeUTF16. destruct (Z.ltb_spec 0x7fff (zlen (utf16_Encode (to_runes s)))); [done|]. intros [= <-].
  rewrite zlen_units. rewrite Z.mul_comm, Z.mod_mul by done. cbn [negb Z.eqb].
  rewrite le_units_concat by apply utf16_Encode_range. rewrite utf16_roundtrip by apply to_runes_scalar. split_and!; [done|lia|done].
Qed.

(** ** Security identifiers *)

Definition sid_wf (s : SID) : Prop :=
  0 <= s_Revision s < 2 ^ 8 ∧ 0 <= s_IdentifierAuthority s < 2 ^ 48 ∧ Forall (λ u, 0 <= u < 2 ^ 32) (s_SubAuthorities s) ∧
  zlen (s_SubAuthorities s) <= 15.

Lemma digit_char d : 0 <= d < 10 → is_digit (z2b (48 + d)) = true ∧ b2z (z2b (48 + d)) - 48 = d ∧ Byte.eqb (z2b (48 + d)) dash = false.
Proof.
  intros Hd. unfold is_digit. rewrite b2z_of_small by lia. split_and!; [lia|lia|]. apply byte_eqb_ne. intros He.
  apply (f_equal b2z) in He. rewrite b2z_of_small in He by lia. change (b2z dash) with 45 in He. lia.
Qed.
Lemma digits_spec fuel n : 0 <= n < 10 ^ Z.of_nat fuel → (0 < fuel)%nat →
  forallb is_digit (digits fuel n) = true ∧ atoi (digits fuel n) = n ∧ digits fuel n ≠ [] ∧ existsb (λ b, Byte.eqb b dash) (digits fuel n) = false.
Proof.
  revert n. induction fuel as [|fuel IH]; intros n Hn Hf; [lia|]. cbn [digits].
  destruct (digit_char (n mod 10) ltac:(apply Z.mod_pos_bound; lia)) as (Hc & Hv & Hd).
  assert (Hsplit : ∀ l x, forallb is_digit l = true → atoi l = x → existsb (λ b, Byte.eqb b dash) l = false → 10 * x + n mod 10 = n →
    let r := l ++ [z2b (48 + n mod 10)] in
    forallb is_digit r = true ∧ atoi r = n ∧ r ≠ [] ∧ existsb (λ b, Byte.eqb b dash) r = false).
  { intros l x Hl Hx Hdl Hs. cbv zeta. rewrite forallb_app, existsb_app, Hl, Hdl. cbn [forallb existsb]. rewrite Hc, Hd.
    split_and!; [done| |by destruct l|done]. unfold atoi in *. rewrite foldl_app. cbn [foldl]. rewrite Hx, Hv. done. }
  destruct (Z.ltb_spec n 10).
  - apply (Hsplit [] 0); try done. rewrite Z.mod_small; lia.
  - destruct (IH (n / 10)) as (H1 & H2 & _ & H4).
    + rewrite Nat2Z.inj_succ, Z.pow_succ_r in Hn by lia. Z.to_euclidean_division_equations. lia.
    + destruct fuel; [cbn in Hn; lia|lia].
    + apply (Hsplit _ (n / 10)); try done. Z.to_euclidean_division_equations. lia.
Qed.
Lemma FormatUint_ok n bits : 0 <= n < 2 ^ bits → 0 <= bits <= 64 →
  ParseUint (FormatUint n) bits = Ok n ∧ existsb (λ b, Byte.eqb b dash) (FormatUint n) = false.
Proof.
  intros Hn Hb. assert (2 ^ bits <= 2 ^ 64) by (apply Z.pow_le_mono_r; lia). unfold FormatUint, ParseUint.
  destruct (digits_spec 20 n) as (H1 & H2 & H3 & H4); [change (10 ^ Z.of_nat 20) with (10 ^ 20); lia|lia|].
  rewrite H1, H2, (proj2 (Z.leb_gt _ _)) by lia. destruct (digits 20 n); [done|].
  rewrite (proj2 (Z.eqb_neq _ 0)) by (rewrite zlen_cons; pose proof (zlen_nonneg l); lia). done.
Qed.
Lemma split_app sep s rest : existsb (λ b, Byte.eqb b sep) s = false → split_byte sep (s ++ sep :: rest) = s :: split_byte sep rest.
Proof.
  induction s as [|b s IH]; cbn; [by rewrite byte_eqb_refl|]. intros [-> Hs]%orb_false_elim. by rewrite IH.
Qed.
Lemma split_single sep s : existsb (λ b, Byte.eqb b sep) s = false → split_byte sep s = [s].
Proof. induction s as [|b s IH]; cbn; [done|]. intros [-> Hs]%orb_false_elim. by rewrite IH. Qed.
Lemma split_join sep parts :
  parts ≠ [] → Forall (λ p, existsb (λ b, Byte.eqb b sep) p = false) parts → split_byte sep (strings_join [sep] parts) = parts.
Proof.
  induction parts as [|p [|q parts] IH]; intros Hne Hf; inversion Hf; subst; [done|by apply split_single|].
  change (strings_join [sep] (p :: q :: parts)) with (p ++ sep :: strings_join [sep] (q :: parts)). rewrite split_app by done. f_equal. by apply IH.
Qed.
Lemma parse_subs_ok subs : Forall (λ u, 0 <= u < 2 ^ 32) subs → parse_subs (FormatUint <$> subs) = Ok subs.
Proof.
  induction 1 as [|u subs Hu _ IH]; [done|]. cbn [fmap list_fmap parse_subs]. rewrite (proj1 (FormatUint_ok u 32 Hu ltac:(lia))). cbn [wrap_err res_bind].
  by rewrite IH.
Qed.
Lemma sid_text s : sid_wf s → ParseSID (sid_String s) = Ok s.
Proof.
  intros (Hr & Ha & Hs & Hl). unfold ParseSID, sid_String. rewrite split_join; [|done|].
  - cbn [app]. change (negb (EqualFold_ascii (str "S") (str "S"))) with false. cbv iota.
    rewrite (proj1 (FormatUint_ok _ 8 Hr ltac:(lia))), (proj1 (FormatUint_ok _ 48 Ha ltac:(lia))). cbn [wrap_err res_bind].
    rewrite (proj2 (Z.ltb_ge 15 _)) by (unfold zlen in *; by rewrite length_fmap).
    rewrite parse_subs_ok by done. by destruct s.
  - cbn [app]. constructor; [done|]. constructor; [apply (FormatUint_ok _ 8 Hr); lia|]. constructor; [apply (FormatUint_ok _ 48 Ha); lia|].
    apply Forall_fmap, (Forall_impl _ _ _ Hs). intros u Hu. apply (FormatUint_ok u 32 Hu). lia.
Qed.

Lemma be_value_byte z : 0 <= z < 256 → be_value [z2b z] = z.
Proof. intros Hz. cbn. rewrite b2z_of_small by done. lia. Qed.
Lemma u32s_concat subs pre post :
  Forall (λ u, 0 <= u < 2 ^ 32) subs → u32s_at (length subs) (pre ++ concat (le_bytes 4 <$> subs) ++ post) (zlen pre) = subs.
Proof.
  intros Hs. revert pre. induction Hs as [|u subs Hu _ IH]; intros pre; [done|]. cbn [length u32s_at fmap list_fmap concat].
  rewrite <- app_assoc. f_equal.
  - unfold u32_at. rewrite slice_at_app by (rewrite ?zlen_le_bytes; done). by apply le_value_bytes.
  - rewrite app_assoc. replace (zlen pre + 4) with (zlen (pre ++ le_bytes 4 u)) by (rewrite zlen_app, zlen_le_bytes; lia). apply IH.
Qed.
Lemma zlen_be_bytes' n z : zlen (be_bytes n z) = Z.of_nat n.
Proof. unfold zlen. by rewrite length_be_bytes. Qed.
(** The head of a binary identifier. *)
Definition sid_head (s : SID) : bytes := [z2b (s_Revision s); z2b (zlen (s_SubAuthorities s))] ++ be_bytes 6 (s_IdentifierAuthority s).
Lemma sid_head_ok s rest : sid_wf s →
  be_value (slice_at (sid_head s ++ rest) 0 1) = s_Revision s ∧ be_value (slice_at (sid_head s ++ rest) 1 1) = zlen (s_SubAuthorities s) ∧
  be_value (slice_at (sid_head s ++ rest) 2 6) = s_IdentifierAuthority s ∧ zlen (sid_head s) = 8.
Proof.
  intros (Hr & Ha & Hs & Hl). pose proof (zlen_nonneg (s_SubAuthorities s)). unfold sid_head. split_and!.
  - by apply be_value_byte.
  - apply be_value_byte. lia.
  - change (([?a; ?b] ++ ?c) ++ ?d) with ([a; b] ++ c ++ d). rewrite slice_at_app by (rewrite ?zlen_be_bytes'; done).
    rewrite be_value_bytes. by apply Z.mod_small.
  - rewrite zlen_app, zlen_be_bytes'. done.
Qed.
Lemma zlen_words subs : zlen (concat (le_bytes 4 <$> subs)) = 4 * zlen subs.
Proof. induction subs as [|u subs IH]; [done|]. cbn [fmap list_fmap concat]. rewrite zlen_app, zlen_le_bytes, IH, zlen_cons. lia. Qed.
Lemma sid_binary s : sid_wf s → ∃ d, sid_MarshalBinary s = Ok d ∧ ParseSIDBinary d = Ok (s, zlen d) ∧
  d = sid_head s ++ concat (le_bytes 4 <$> s_SubAuthorities s) ∧ zlen d <= 68.
Proof.
  intros Hw. pose proof Hw as (Hr & Ha & Hs & Hl). unfold sid_MarshalBinary.
  rewrite (proj2 (Z.ltb_ge 15 _)), (proj2 (Z.leb_gt (2 ^ 48) _)) by lia. eexists. split; [done|].
  set (d := _ ++ _). assert (Hd : d = sid_head s ++ concat (le_bytes 4 <$> s_SubAuthorities s)) by (unfold sid_head, d; by rewrite <- app_assoc).
  destruct (sid_head_ok s (concat (le_bytes 4 <$> s_SubAuthorities s)) Hw) as (H1 & H2 & H3 & H4).
  assert (Hz : zlen d = 8 + 4 * zlen (s_SubAuthorities s)) by (rewrite Hd, zlen_app, zlen_words; lia). split_and!; [|done|lia].
  unfold ParseSIDBinary. rewrite (proj2 (Z.ltb_ge (zlen d) 8)) by (pose proof (zlen_nonneg (s_SubAuthorities s)); lia).
  rewrite Hd in *. rewrite H1, H2, H3. rewrite (proj2 (Z.ltb_ge (zlen _) _)) by lia. rewrite Hz. do 2 f_equal. destruct s as [rev auth subs]. cbn [s_SubAuthorities s_Revision s_IdentifierAuthority] in *.
  f_equal. unfold zlen at 1. rewrite Nat2Z.id. pose proof (u32s_concat subs (sid_head (mkSID rev auth subs)) [] Hs) as Hu.
  rewrite app_nil_r, H4 in Hu. exact Hu.
Qed.

(** ** UPN_DNS_INFO *)

(** A segment of a concatenation. *)
Lemma seg_at (segs : list bytes) k x off :
  segs !! k = Some x → off = zlen (concat (take k segs)) → slice_at (concat segs) off (zlen x) = x.
Proof.
  intros Hk ->. rewrite <- (take_drop_middle segs k x Hk) at 1. rewrite concat_app. cbn [concat]. by apply slice_at_app.
Qed.
Lemma seg_prefix (segs : list bytes) k x y off :
  segs !! k = Some (x ++ y) → off = zlen (concat (take k segs)) → slice_at (concat segs) off (zlen x) = x.
Proof.
  intros Hk ->. rewrite <- (take_drop_middle segs k _ Hk) at 1. rewrite concat_app. cbn [concat]. rewrite <- app_assoc. by apply slice_at_app.
Qed.
Lemma seg_u16 (segs : list bytes) k v off :
  segs !! k = Some (le_bytes 2 v) → off = zlen (concat (take k segs)) → 0 <= v < 2 ^ 16 → u16_at (concat segs) off = v.
Proof. intros Hk Ho Hv. unfold u16_at. pose proof (seg_at segs k _ off Hk Ho) as Hs. rewrite zlen_le_bytes in Hs. change (Z.of_nat 2) with 2 in Hs. rewrite Hs. by apply le_value_bytes. Qed.
Lemma seg_u32 (segs : list bytes) k v off :
  segs !! k = Some (le_bytes 4 v) → off = zlen (concat (take k segs)) → 0 <= v < 2 ^ 32 → u32_at (concat segs) off = v.
Proof. intros Hk Ho Hv. unfold u32_at. pose proof (seg_at segs k _ off Hk Ho) as Hs. rewrite zlen_le_bytes in Hs. change (Z.of_nat 4) with 4 in Hs. rewrite Hs. by apply le_value_bytes. Qed.

Lemma align4_spec n : 0 <= n → n <= align4 n < n + 4 ∧ align4 n mod 4 = 0.
Proof.
  intros Hn. unfold align4. assert (Z.ldiff (n + 3) 3 = (n + 3) / 4 * 4) as ->.
  { change (Z.ldiff (n + 3) 3) with (Z.ldiff (n + 3) (Z.ones 2)). by rewrite Z.ldiff_ones_r, Z.shiftl_mul_pow2, Z.shiftr_div_pow2 by done. }
  Z.to_euclidean_division_equations. lia.
Qed.
Lemma align4_add o n : 0 <= o → o mod 4 = 0 → 0 <= n → align4 (o + n) = o + align4 n.
Proof.
  intros Ho Hm Hn. pose proof (align4_spec (o + n) ltac:(lia)). pose proof (align4_spec n Hn). Z.to_euclidean_division_equations. lia.
Qed.
Lemma zlen_pad4 v : zlen (pad4 v) = align4 (zlen v).
Proof.
  unfold pad4. pose proof (align4_spec (zlen v) (zlen_nonneg v)). rewrite zlen_app. unfold zlen at 2, zeros. rewrite length_replicate. lia.
Qed.
Definition upn_wf (u : UPNDNSInfoData) : Prop :=
  0 <= u_Flags u < 2 ^ 32 ∧ match u_SID u with Some s => sid_wf s | None => True end.
(** The value that the parser gives: the extension is there with its flag. *)
Definition upn_read_back (u : UPNDNSInfoData) : UPNDNSInfoData :=
  mkUPN (utf8_fix (u_UPN u)) (utf8_fix (u_DNSDomainName u)) (u_Flags u)
    (if upn_extended u then utf8_fix (u_SAMName u) else []) (if upn_extended u then u_SID u else None).

Lemma upn_read_seg (segs : list bytes) k v off :
  segs !! k = Some (pad4 v) → off = zlen (concat (take k segs)) → off mod 4 = 0 → 12 <= off → upn_read (concat segs) off (zlen v) = Ok v.
Proof.
  intros Hk Ho Hm Hl. unfold upn_read. rewrite Hm, (proj2 (Z.ltb_ge off 12)) by done. cbn [negb orb Z.eqb].
  rewrite (proj2 (Z.ltb_ge _ _)).
  - f_equal. by apply (seg_prefix segs k v (zeros (Z.to_nat (align4 (zlen v) - zlen v)))).
  - rewrite <- (take_drop_middle segs k _ Hk), concat_app. cbn [concat]. rewrite !zlen_app, zlen_pad4, <- Ho.
    pose proof (align4_spec (zlen v) (zlen_nonneg v)). pose proof (zlen_nonneg (concat (drop (S k) segs))). lia.
Qed.
Ltac offsets := repeat match goal with s := _ : list bytes |- _ => subst s end; cbn [take concat app]; rewrite ?zlen_app, ?zlen_le_bytes, ?zlen_pad4, ?zlen_nil; cbn [Z.of_nat Pos.of_succ_nat Pos.succ]; lia.
Ltac aligned4 := Z.to_euclidean_division_equations; lia.
Lemma upn_short u upn dns :
  0 <= u_Flags u < 2 ^ 32 → upn_extended u = false → zlen upn <= 0xffff → zlen dns <= 0xffff →
  12 + align4 (zlen upn) <= 0xffff → decodeUTF16 upn = Ok (utf8_fix (u_UPN u)) → decodeUTF16 dns = Ok (utf8_fix (u_DNSDomainName u)) →
  ParseUPNDNSInfo (concat [le_bytes 2 (zlen upn); le_bytes 2 12; le_bytes 2 (zlen dns); le_bytes 2 (12 + align4 (zlen upn));
                           le_bytes 4 (u_Flags u); pad4 upn; pad4 dns]) = Ok (upn_read_back u).
Proof.
  intros Hf Hx Lu Ld Lo Du Dd. set (segs := [_; _; _; _; _; _; _]).
  pose proof (align4_spec (zlen upn) (zlen_nonneg _)) as [Au Mu]. pose proof (align4_spec (zlen dns) (zlen_nonneg _)) as [Ad Md].
  pose proof (zlen_nonneg upn). pose proof (zlen_nonneg dns).
  unfold ParseUPNDNSInfo. rewrite (proj2 (Z.ltb_ge _ 12)) by (unfold segs; offsets).
  rewrite (seg_u32 segs 4 (u_Flags u)) by (done || offsets).
  rewrite (seg_u16 segs 0 (zlen upn) 0), (seg_u16 segs 1 12 2), (seg_u16 segs 2 (zlen dns) 4), (seg_u16 segs 3 (12 + align4 (zlen upn)) 6) by (done || lia || offsets).
  rewrite (upn_read_seg segs 5 upn) by (done || offsets). cbn [res_bind].
  rewrite (upn_read_seg segs 6 dns) by (done || offsets || aligned4). cbn [res_bind]. rewrite Du, Dd. cbn [res_bind].
  unfold upn_read_back. rewrite Hx. unfold upn_extended in Hx. apply negb_false_iff in Hx. by rewrite Hx.
Qed.
Lemma upn_long u upn dns sam sid s :
  0 <= u_Flags u < 2 ^ 32 → upn_extended u = true → zlen upn <= 0xffff → zlen dns <= 0xffff → zlen sam <= 0xffff → zlen sid <= 0xffff →
  20 + align4 (zlen upn) + align4 (zlen dns) + align4 (zlen sam) <= 0xffff →
  decodeUTF16 upn = Ok (utf8_fix (u_UPN u)) → decodeUTF16 dns = Ok (utf8_fix (u_DNSDomainName u)) → decodeUTF16 sam = Ok (utf8_fix (u_SAMName u)) →
  u_SID u = Some s → ParseSIDBinary sid = Ok (s, zlen sid) →
  ParseUPNDNSInfo (concat [le_bytes 2 (zlen upn); le_bytes 2 20; le_bytes 2 (zlen dns); le_bytes 2 (20 + align4 (zlen upn));
                           le_bytes 4 (u_Flags u); le_bytes 2 (zlen sam); le_bytes 2 (20 + align4 (zlen upn) + align4 (zlen dns));
                           le_bytes 2 (zlen sid); le_bytes 2 (20 + align4 (zlen upn) + align4 (zlen dns) + align4 (zlen sam));
                           pad4 upn; pad4 dns; pad4 sam; pad4 sid]) = Ok (upn_read_back u).
Proof.
  intros Hf Hx Lu Ld Ls Li Lo Du Dd Ds Hs Di. set (segs := [_; _; _; _; _; _; _; _; _; _; _; _; _]).
  pose proof (align4_spec (zlen upn) (zlen_nonneg _)) as [Au Mu]. pose proof (align4_spec (zlen dns) (zlen_nonneg _)) as [Ad Md].
  pose proof (align4_spec (zlen sam) (zlen_nonneg _)) as [As Ms]. pose proof (align4_spec (zlen sid) (zlen_nonneg _)) as [Ai Mi].
  pose proof (zlen_nonneg upn). pose proof (zlen_nonneg dns). pose proof (zlen_nonneg sam). pose proof (zlen_nonneg sid).
  unfold ParseUPNDNSInfo. rewrite (proj2 (Z.ltb_ge _ 12)), (proj2 (Z.ltb_ge _ 20)) by (unfold segs; offsets).
  rewrite (seg_u32 segs 4 (u_Flags u)) by (done || offsets).
  rewrite (seg_u16 segs 0 (zlen upn) 0), (seg_u16 segs 1 20 2), (seg_u16 segs 2 (zlen dns) 4), (seg_u16 segs 3 (20 + align4 (zlen upn)) 6) by (done || lia || offsets).
  rewrite (upn_read_seg segs 9 upn) by (done || offsets). cbn [res_bind].
  rewrite (upn_read_seg segs 10 dns) by (done || offsets || aligned4). cbn [res_bind]. rewrite Du, Dd. cbn [res_bind].
  unfold upn_read_back. rewrite Hx. unfold upn_extended in Hx. apply negb_true_iff in Hx. rewrite Hx.
  rewrite (seg_u16 segs 5 (zlen sam) 12), (seg_u16 segs 6 (20 + align4 (zlen upn) + align4 (zlen dns)) 14) by (done || lia || offsets).
  rewrite (seg_u16 segs 7 (zlen sid) 16), (seg_u16 segs 8 (20 + align4 (zlen upn) + align4 (zlen dns) + align4 (zlen sam)) 18) by (done || lia || offsets).
  rewrite (upn_read_seg segs 11 sam) by (done || offsets || aligned4). cbn [res_bind].
  rewrite (upn_read_seg segs 12 sid) by (done || offsets || aligned4). cbn [res_bind]. rewrite Ds. cbn [res_bind].
  by rewrite Di, Z.eqb_refl, Hs.
Qed.
Lemma upn_roundtrip u d : upn_wf u → upn_MarshalBinary u = Ok d → ParseUPNDNSInfo d = Ok (upn_read_back u).
Proof.
  intros (Hf & Hsid). unfold upn_MarshalBinary.
  destruct (encodeUTF16 (u_UPN u)) as [upn| |] eqn:Hupn; [|done|done]. cbn [res_bind].
  destruct (encodeUTF16 (u_DNSDomainName u)) as [dns| |] eqn:Hdns; [|done|done]. cbn [res_bind].
  apply encodeUTF16_ok in Hupn as (Du & Zu & Lu). apply encodeUTF16_ok in Hdns as (Dd & Zd & Ld).
  pose proof (align4_spec (zlen upn) (zlen_nonneg _)) as [Au Mu]. pose proof (align4_spec (zlen dns) (zlen_nonneg _)) as [Ad Md].
  pose proof (zlen_nonneg upn). pose proof (zlen_nonneg dns). unfold place.
  destruct (upn_extended u) eqn:Hx; cbn [res_bind].
  - destruct (encodeUTF16 (u_SAMName u)) as [sam| |] eqn:Hsam; [|done|done]. cbn [res_bind].
    apply encodeUTF16_ok in Hsam as (Ds & Zs & Ls). pose proof (align4_spec (zlen sam) (zlen_nonneg _)) as [As Ms].
    destruct (u_SID u) as [s|] eqn:Hs; [|done]. destruct (sid_binary s Hsid) as (sid & -> & Hp & _ & Hl). cbn [res_bind].
    pose proof (zlen_nonneg sam). pose proof (zlen_nonneg sid).
    change (align4 20) with 20. destruct (_ || (0xffff <? zlen upn)); [done|]. cbn [res_bind]. rewrite (align4_add 20) by (done || lia).
    destruct (_ || (0xffff <? zlen dns)); [done|]. cbn [res_bind]. rewrite align4_add by (lia || aligned4).
    destruct (_ || (0xffff <? zlen sam)); [done|]. cbn [res_bind]. rewrite align4_add by (lia || aligned4).
    destruct ((0xffff <? _) || (0xffff <? zlen sid)) eqn:Hp4; [done|]. cbn [res_bind]. intros [= <-].
    rewrite <- (upn_long u upn dns sam sid s) by (done || lia). f_equal. cbn [concat]. rewrite ?app_nil_r, <- ?app_assoc. reflexivity.
  - change (align4 12) with 12. destruct (_ || (0xffff <? zlen upn)); [done|]. cbn [res_bind]. rewrite (align4_add 12) by (done || lia).
    destruct ((0xffff <? _) || (0xffff <? zlen dns)) eqn:Hp2; [done|]. cbn [res_bind]. intros [= <-].
    rewrite <- (upn_short u upn dns) by (done || lia). f_equal. cbn [concat]. rewrite ?app_nil_r, <- ?app_assoc. reflexivity.
Qed.

(** ** Encrypted credentials *)

Lemma i32_of_u32 z : - 2 ^ 31 <= z < 2 ^ 31 → i32 (u32 z) = z.
Proof. intros Hz. unfold i32, u32, signed. cbv zeta. rewrite Z.mod_mod by done. case_match; Z.to_euclidean_division_equations; lia. Qed.
Lemma cred_roundtrip c d : - 2 ^ 31 <= c_EncryptionType c < 2 ^ 31 → cred_MarshalBinary c = Ok d → ParseCredentialInfo d = Ok c.
Proof.
  intros He. unfold cred_MarshalBinary. destruct (Z.eqb_spec (c_Version c) 0) as [Hv|]; [|done]. cbn [negb]. intros Hd.
  destruct c as [v t data]. cbn [c_Version c_EncryptionType c_Data] in *. subst v.
  assert (d = le_bytes 4 0 ++ le_bytes 4 (u32 t) ++ data) as -> by congruence. unfold ParseCredentialInfo.
  rewrite (proj2 (Z.ltb_ge _ 8)) by (rewrite !zlen_app, !zlen_le_bytes; pose proof (zlen_nonneg data); lia).
  assert (H0 : u32_at (le_bytes 4 0 ++ le_bytes 4 (u32 t) ++ data) 0 = 0) by (apply (le_value_bytes 4 0); lia).
  assert (H4 : u32_at (le_bytes 4 0 ++ le_bytes 4 (u32 t) ++ data) 4 = u32 t).
  { unfold u32_at. rewrite slice_at_app by (rewrite zlen_le_bytes; done). apply le_value_bytes. unfold u32. apply Z.mod_pos_bound. done. }
  rewrite H0, H4. cbn [negb Z.eqb]. rewrite i32_of_u32 by done. done.
Qed.

(** ** Reading what was written *)

(** The reader takes the bytes that follow a prefix and gives a value. *)
Definition parses {A} (p : rd A) (pre e : bytes) (a : A) : Prop :=
  ∀ post, zlen (pre ++ e ++ post) < 2 ^ 32 → p (pre ++ e ++ post) (zlen pre) = Ok (a, zlen (pre ++ e)).

Lemma parses_ret {A} (a : A) pre : parses (rd_ret a) pre [] a.
Proof. intros post _. unfold rd_ret. by rewrite app_nil_r. Qed.
Lemma parses_bind {A B} (p : rd A) (k : A → rd B) pre e1 e2 a b :
  parses p pre e1 a → parses (k a) (pre ++ e1) e2 b → parses (rd_bind p k) pre (e1 ++ e2) b.
Proof.
  intros Hp Hk post Hl. unfold rd_bind. rewrite <- app_assoc in Hl |- *. rewrite (Hp (e2 ++ post) Hl). cbn [res_bind].
  rewrite app_assoc in Hl |- *. rewrite (Hk post Hl). by rewrite app_assoc.
Qed.
Lemma parses_bind0 {A B} (p : rd A) (k : A → rd B) pre e a b :
  parses p pre [] a → parses (k a) pre e b → parses (rd_bind p k) pre e b.
Proof. intros Hp Hk. change e with ([] ++ e). eapply parses_bind; [done|]. by rewrite app_nil_r. Qed.
Lemma parses_last {A B} (p : rd A) (k : A → rd B) pre e a b :
  parses p pre e a → parses (k a) (pre ++ e) [] b → parses (rd_bind p k) pre e b.
Proof. intros Hp Hk. rewrite <- (app_nil_r e). by eapply parses_bind. Qed.
Lemma parses_wrap {A} m (p : rd A) pre e a : parses p pre e a → parses (rd_wrap m p) pre e a.
Proof. intros Hp post Hl. unfold rd_wrap. by rewrite (Hp post Hl). Qed.
Lemma parses_or {A} m (p : rd A) pre e a : parses p pre e a → parses (rd_or m p) pre e a.
Proof. intros Hp post Hl. unfold rd_or. by rewrite (Hp post Hl). Qed.
Lemma parses_pure {A} (r : res A) pre a : r = Ok a → parses (λ _ off, res_bind r (λ v, Ok (v, off))) pre [] a.
Proof. intros -> post _. cbn. by rewrite app_nil_r. Qed.
Lemma parses_room {B} f m (k : unit → rd B) pre e b :
  (∀ n, zlen e <= n < 2 ^ 32 → f n = true) → parses (k tt) pre e b → parses (rd_bind (rd_room f m) k) pre e b.
Proof.
  intros Hf Hk post Hl. unfold rd_bind, rd_room. rewrite Hf; [cbn [res_bind]; by apply Hk|].
  rewrite !zlen_app in *. pose proof (zlen_nonneg pre). pose proof (zlen_nonneg post). lia.
Qed.
Lemma parses_list {A} (p : rd A) (enc : A → bytes) l pre :
  Forall (λ x, ∀ pre, parses p pre (enc x) x) l → parses (rd_list (length l) p) pre (concat (enc <$> l)) l.
Proof.
  intros Hl. revert pre. induction Hl as [|x l Hx _ IH]; intros pre; cbn [length rd_list fmap list_fmap concat]; [apply parses_ret|].
  eapply parses_bind; [apply Hx|]. eapply parses_last; [apply IH|]. apply parses_ret.
Qed.
Lemma parses_check b m pre : b = true → parses (rd_check b m) pre [] tt.
Proof. intros -> post _. unfold rd_check. by rewrite app_nil_r. Qed.
Lemma parses_bytes m n pre e : zlen e = n → parses (rd_bytes m n) pre e e.
Proof.
  intros <- post Hl. unfold rd_bytes. rewrite slice_at_app by done. rewrite !zlen_app.
  pose proof (zlen_nonneg e). pose proof (zlen_nonneg post).
  rewrite (proj2 (Z.ltb_ge (zlen e) 0)), (proj2 (Z.ltb_ge (zlen pre + _ - _) _)) by lia. done.
Qed.
Lemma parses_le m n k pre v : 0 <= v < 256 ^ Z.of_nat n → k = Z.of_nat n → parses (rd_le m k) pre (le_bytes n v) v.
Proof.
  intros Hv ->. unfold rd_le. eapply parses_last; [apply parses_bytes, zlen_le_bytes|]. rewrite le_value_bytes by done. apply parses_ret.
Qed.
Lemma u32_range z : 0 <= u32 z < 2 ^ 32.
Proof. apply Z.mod_pos_bound. done. Qed.
Lemma u16_range z : 0 <= u16 z < 2 ^ 16.
Proof. apply Z.mod_pos_bound. done. Qed.

(** ** S4U_DELEGATION_INFO *)

Ltac parse_step := eapply parses_bind; [first [apply parses_le; [first [apply u32_range | apply u16_range | lia]|done]]|cbv beta].

Lemma wchars_ok v e units pre : marshalDelegationWChars v = Ok (e, units) →
  parses wcharPointer pre e (utf8_fix v) ∧ units = zlen (utf16_Encode (to_runes v)) ∧ 0 <= units <= 0x7fff ∧ zlen e mod 4 = 0.
Proof.
  unfold marshalDelegationWChars. destruct (encodeUTF16 v) as [data| |] eqn:Hd; [|done|done]. cbn [res_bind].
  apply encodeUTF16_ok in Hd as (Hd & Hz & Hl). assert (Hu : zlen data / 2 = zlen (utf16_Encode (to_runes v))) by (Z.to_euclidean_division_equations; lia).
  rewrite Hu. set (n := zlen (utf16_Encode (to_runes v))) in *. assert (0 <= n) by apply zlen_nonneg.
  rewrite (proj2 (Z.ltb_ge (2 ^ 16 - 2) n)) by lia. intros Hx.
  assert (e = le_bytes 4 (n + 1) ++ le_bytes 4 0 ++ le_bytes 4 n ++ data ++ (if negb (n mod 2 =? 0) then le_bytes 2 0 else []) ∧ units = n)
    as [-> ->] by (split; congruence).
  split_and!; [|done|done|done|].
  - unfold wcharPointer, d_u32. do 3 parse_step. apply parses_room.
    { intros m Hm. rewrite zlen_app in Hm. pose proof (zlen_nonneg (if negb (n mod 2 =? 0) then le_bytes 2 0 else [])).
      unfold u32. rewrite Z.mod_small by (Z.to_euclidean_division_equations; lia).
      rewrite (proj2 (Z.ltb_ge (n + 1) n)), (proj2 (Z.ltb_ge (m / 2) n)) by (Z.to_euclidean_division_equations; lia). done. }
    eapply parses_bind; [apply parses_bytes; lia|]. eapply parses_bind0; [by apply parses_pure|].
    destruct (negb (n mod 2 =? 0)); [|apply parses_ret]. eapply parses_last; [apply (parses_le _ 2); [lia|done]|]. apply parses_ret.
  - rewrite !zlen_app, !zlen_le_bytes, Hz. destruct (Z.eqb_spec (n mod 2) 0); cbn [negb]; rewrite ?zlen_le_bytes, ?zlen_nil;
      Z.to_euclidean_division_equations; lia.
Qed.
Lemma service_header_ok n k pre : 0 <= n <= 0x7ffe → parses service_header pre (string_header n ++ delegationPointer k) (2 * (n + 1)).
Proof.
  intros Hn. unfold string_header, delegationPointer. rewrite <- app_assoc. unfold service_header, d_u16, d_u32. do 2 parse_step.
  eapply parses_last; [apply (parses_le _ 4); [apply u32_range|done]|]. unfold u16. rewrite !Z.mod_small by lia.
  eapply parses_bind0; [|apply parses_ret]. apply parses_check.
  rewrite (proj2 (Z.ltb_ge (2 * (n + 1)) (2 * n))), (Z.mul_comm 2 n), Z.mod_mul by lia. done.
Qed.
Lemma service_headers_ok units k pre : Forall (λ n, 0 <= n <= 0x7ffe) units →
  parses (rd_list (length units) service_header) pre (service_headers units k) ((λ n, 2 * (n + 1)) <$> units).
Proof.
  intros Hu. revert k pre. induction Hu as [|n units Hn _ IH]; intros k pre; cbn [length rd_list service_headers fmap list_fmap]; [apply parses_ret|].
  rewrite app_assoc. eapply parses_bind; [by apply service_header_ok|]. eapply parses_last; [apply IH|]. apply parses_ret.
Qed.
Lemma utf16_at_least rs : zlen rs <= zlen (utf16_Encode rs).
Proof.
  unfold utf16_Encode. induction rs as [|r rs IH]; [done|]. cbn [fmap list_fmap concat]. rewrite zlen_cons, zlen_app.
  assert (1 <= zlen (utf16_units r)) by (unfold utf16_units; repeat case_match; done). lia.
Qed.
Lemma read_services_ok names l pre : marshal_services names = Ok l → Forall (λ n, 0 <= n <= 0x7ffe) l.*2 →
  parses (read_services ((λ n, 2 * (n + 1)) <$> l.*2)) pre (concat l.*1) (utf8_fix <$> names) ∧ zlen (concat l.*1) mod 4 = 0 ∧ length l = length names.
Proof.
  revert l pre. induction names as [|v names IH]; intros l pre Hl Hu; cbn [marshal_services] in Hl.
  { injection Hl as <-. split_and!; [apply parses_ret|done|done]. }
  destruct (marshalDelegationWChars v) as [[e n]| |] eqn:Hm; [|done|done]. cbn [res_bind] in Hl.
  destruct (marshal_services names) as [l'| |]; [|done|done]. cbn [res_bind] in Hl. injection Hl as <-.
  cbn [fmap list_fmap concat fst snd] in Hu |- *. inversion Hu as [|? ? Hn Hu']; subst.
  destruct (wchars_ok v e n pre Hm) as (Hp & Hnu & _ & Hz). destruct (IH l' (pre ++ e) eq_refl Hu') as (IH1 & IH2 & IH3). cbn [read_services].
  split_and!; [|rewrite zlen_app, Z.add_mod, Hz by done; by rewrite IH2|cbn; congruence].
  eapply parses_bind; [done|]. eapply parses_bind0.
  { apply parses_check. unfold utf8_fix. rewrite to_of_runes by apply to_runes_scalar. pose proof (utf16_at_least (to_runes v)).
    pose proof (zlen_nonneg (to_runes v)). unfold u32. rewrite Z.mod_small by lia. rewrite (proj2 (Z.ltb_ge _ _)); [done|]. Z.to_euclidean_division_equations. lia. }
  eapply parses_last; [apply IH1|]. apply parses_ret.
Qed.
Lemma marshal_services_units names l : marshal_services names = Ok l → l.*2 = (λ v, zlen (utf16_Encode (to_runes v))) <$> names.
Proof.
  revert l. induction names as [|v names IH]; intros l Hl; cbn [marshal_services] in Hl; [by injection Hl as <-|].
  destruct (marshalDelegationWChars v) as [[e n]| |] eqn:Hm; [|done|done]. cbn [res_bind] in Hl.
  destruct (marshal_services names) as [l'| |]; [|done|done]. cbn [res_bind] in Hl. injection Hl as <-.
  destruct (wchars_ok v e n [] Hm) as (_ & -> & _). cbn [fmap list_fmap snd]. f_equal. by apply IH.
Qed.
Lemma zlen_service_headers units k : zlen (service_headers units k) = 8 * zlen units.
Proof.
  revert k. induction units as [|n units IH]; intros k; [done|]. cbn [service_headers]. unfold string_header, delegationPointer.
  rewrite !zlen_app, !zlen_le_bytes, IH, zlen_cons. lia.
Qed.
Lemma delegation_body_ok d proxy units l pre :
  marshalDelegationWChars (d_ProxyTarget d) = Ok (proxy, units) → marshal_services (d_TransitedServices d) = Ok l →
  Forall (λ n, 0 <= n <= 0x7ffe) l.*2 → zlen (d_TransitedServices d) < 2 ^ 29 →
  parses delegation_body pre
    (delegationPointer 0 ++ string_header units ++ delegationPointer 1 ++ le_bytes 4 (u32 (zlen (d_TransitedServices d))) ++
     delegationPointer 2 ++ proxy ++ le_bytes 4 (u32 (zlen (d_TransitedServices d))) ++ service_headers l.*2 3 ++ concat l.*1)
    (mkDelegation (utf8_fix (d_ProxyTarget d)) (utf8_fix <$> d_TransitedServices d)).
Proof.
  intros Hp Hm Hu Hn. set (n := zlen (d_TransitedServices d)) in *. assert (0 <= n) by apply zlen_nonneg.
  assert (Hl : length l.*2 = length (d_TransitedServices d)).
  { rewrite (marshal_services_units _ _ Hm). by rewrite length_fmap. }
  assert (Hun : u32 n = n) by (unfold u32; apply Z.mod_small; lia). rewrite !Hun.
  unfold delegation_body, d_u16, d_u32, string_header, delegationPointer. rewrite <- !app_assoc. do 5 parse_step. apply parses_room.
  { intros m Hm'. rewrite !zlen_app, zlen_service_headers, !zlen_le_bytes in Hm'. pose proof (zlen_nonneg proxy). pose proof (zlen_nonneg (concat l.*1)).
    assert (zlen l.*2 = n) by (unfold n, zlen; by rewrite Hl). unfold u32. rewrite !Z.mod_small by (Z.to_euclidean_division_equations; lia).
    rewrite (proj2 (Z.ltb_ge _ _)); [done|]. Z.to_euclidean_division_equations. lia. }
  parse_step. eapply parses_bind; [by apply (wchars_ok _ _ _ _ Hp)|].
  eapply parses_bind; [apply parses_or, (parses_le _ 4); [lia|done]|]. eapply parses_bind0; [apply parses_check, Z.eqb_refl|].
  replace (Z.to_nat n) with (length l.*2) by (unfold n, zlen; lia).
  eapply parses_bind; [by apply service_headers_ok|]. eapply parses_last; [apply (read_services_ok _ _ _ Hm Hu)|]. apply parses_ret.
Qed.
Definition delegation_wf (d : DelegationInfo) : Prop :=
  Forall (λ s, zlen (utf16_Encode (to_runes s)) <= 0x7ffe) (d_TransitedServices d).
Lemma delegation_roundtrip d e : delegation_wf d → delegation_MarshalBinary d = Ok e → zlen e < 2 ^ 32 →
  ParseDelegationInfo e = Ok (mkDelegation (utf8_fix (d_ProxyTarget d)) (utf8_fix <$> d_TransitedServices d)).
Proof.
  intros Hw. unfold delegation_MarshalBinary. destruct (marshalDelegationWChars (d_ProxyTarget d)) as [[proxy units]| |] eqn:Hp; [|done|done]. cbn [res_bind].
  destruct (marshal_services (d_TransitedServices d)) as [l| |] eqn:Hm; [|done|done]. cbn [res_bind].
  destruct (2 ^ 32 - 1 <? _); [done|]. set (body := delegationPointer 0 ++ _). set (pad := if negb ((16 + zlen body) mod 8 =? 0) then le_bytes 4 0 else []).
  replace (if negb ((16 + zlen body) mod 8 =? 0) then body ++ le_bytes 4 0 else body) with (body ++ pad) by (unfold pad; case_match; by rewrite ?app_nil_r).
  set (head := [Byte.x01; Byte.x10; Byte.x08; Byte.x00] ++ le_bytes 4 0xcccccccc ++ le_bytes 4 (u32 (zlen (body ++ pad))) ++ le_bytes 4 0).
  intros He Hz. assert (e = head ++ body ++ pad) as -> by (unfold head; rewrite <- !app_assoc in *; congruence). clear He.
  assert (Hu : Forall (λ n, 0 <= n <= 0x7ffe) l.*2).
  { rewrite (marshal_services_units _ _ Hm). apply Forall_fmap, (Forall_impl _ _ _ Hw). intros s Hs. cbn. pose proof (zlen_nonneg (utf16_Encode (to_runes s))). lia. }
  destruct (wchars_ok _ _ _ [] Hp) as (_ & _ & _ & Hz4). destruct (read_services_ok _ _ [] Hm Hu) as (_ & Hs4 & Hll).
  assert (Hh : zlen head = 16) by (unfold head; rewrite !zlen_app, !zlen_le_bytes; done).
  assert (Hbz : zlen body = 28 + zlen proxy - 4 + 8 * zlen l.*2 + zlen (concat l.*1)).
  { unfold body, string_header, delegationPointer. rewrite !zlen_app, zlen_service_headers, !zlen_le_bytes. lia. }
  assert (Hpad : zlen pad = 0 ∨ pad = zeros 4).
  { unfold pad. case_match; [by right|by left]. }
  assert (H8 : (16 + zlen (body ++ pad)) mod 8 = 0).
  { rewrite zlen_app. unfold pad. destruct (Z.eqb_spec ((16 + zlen body) mod 8) 0) as [E|E]; cbn [negb]; rewrite ?zlen_le_bytes, ?zlen_nil;
      Z.to_euclidean_division_equations; lia. }
  assert (Hn : zlen (d_TransitedServices d) < 2 ^ 29).
  { replace (zlen (d_TransitedServices d)) with (zlen l.*2) by (unfold zlen; rewrite length_fmap; lia).
    rewrite !zlen_app in Hz. pose proof (zlen_nonneg proxy). pose proof (zlen_nonneg (concat l.*1)). pose proof (zlen_nonneg pad). lia. }
  pose proof (delegation_body_ok d proxy units l head Hp Hm Hu Hn pad Hz) as Hb. fold body in Hb. rewrite Hh in Hb.
  unfold ParseDelegationInfo. assert (Hze : zlen (head ++ body ++ pad) = 16 + zlen (body ++ pad)) by (rewrite zlen_app; lia).
  rewrite Hze, H8, (proj2 (Z.ltb_ge _ 16)) by (pose proof (zlen_nonneg (body ++ pad)); lia). cbn [negb orb Z.eqb].
  replace (16 + zlen (body ++ pad) - 16) with (zlen (body ++ pad)) by lia.
  assert (H1 : slice_at (head ++ body ++ pad) 0 2 = [Byte.x01; Byte.x10]) by done. assert (H2 : u16_at (head ++ body ++ pad) 2 = 8) by done.
  assert (H3 : u32_at (head ++ body ++ pad) 8 = u32 (zlen (body ++ pad))).
  { unfold head, u32_at. rewrite <- !app_assoc, (app_assoc [_; _; _; _]), slice_at_app by (rewrite ?zlen_app, ?zlen_le_bytes; done).
    apply le_value_bytes, u32_range. }
  rewrite H1, H2, H3, Hb, bytes_eqb_refl, (Z.eqb_refl (u32 _)). cbn [res_bind negb orb Z.eqb].
  rewrite app_assoc. replace (Z.to_nat (zlen (head ++ body))) with (length (head ++ body)) by (unfold zlen; lia).
  rewrite drop_app_length. destruct Hpad as [Hpad| ->].
  - rewrite !zlen_app, Hpad, Hh. rewrite (proj2 (Z.eqb_eq (16 + zlen body) (16 + (zlen body + 0)))) by lia. done.
  - by rewrite bytes_eqb_refl, andb_false_r.
Qed.

(** ** KERB_VALIDATION_INFO *)

Lemma land_ones_neg z : Z.land (- z) (4 - 1) = (- z) mod 4.
Proof. change (4 - 1) with (Z.ones 2). by rewrite Z.land_ones by done. Qed.
Definition pad_to4 (n : Z) : bytes := zeros (Z.to_nat ((- n) mod 4)).
Lemma zlen_pad_to4 n : zlen (pad_to4 n) = (- n) mod 4.
Proof. unfold pad_to4, zlen, zeros. rewrite length_replicate, Z2Nat.id; [done|]. by apply Z.mod_pos_bound. Qed.
Lemma parses_align pre : parses (n_align 4) pre (pad_to4 (zlen pre)) tt.
Proof.
  intros post Hl. unfold n_align. change (4 - 1) with 3. change (Z.ldiff (zlen pre + 4 - 1) 3) with (Z.ldiff (zlen pre + 4 - 1) (Z.ones 2)).
  rewrite Z.ldiff_ones_r, Z.shiftl_mul_pow2, Z.shiftr_div_pow2 by done. change (2 ^ 2) with 4. rewrite !zlen_app, zlen_pad_to4.
  pose proof (zlen_nonneg post). pose proof (zlen_nonneg pre).
  rewrite (proj2 (Z.ltb_ge _ _)) by (Z.to_euclidean_division_equations; lia). do 2 f_equal. Z.to_euclidean_division_equations. lia.
Qed.
Lemma w_align_buf w : w_buf (w_align w 4) = w_buf w ++ pad_to4 (zlen (w_buf w)).
Proof. unfold w_align. cbn [w_buf w_write]. by rewrite land_ones_neg. Qed.

Definition ptr_bytes (k : Z) : bytes := le_bytes 4 (u32 (ndrPointerValue + u32 (k + 1))).
Lemma parses_ptr k pre : 0 <= k < 2 ^ 30 → parses n_pointer pre (ptr_bytes k) true.
Proof.
  intros Hk. unfold n_pointer, ptr_bytes, n_u32. eapply parses_last; [apply (parses_le _ 4); [apply u32_range|done]|].
  unfold u32, ndrPointerValue. rewrite (Z.mod_small (k + 1)), Z.mod_small by lia. rewrite (proj2 (Z.eqb_neq _ 0)) by lia. apply parses_ret.
Qed.
Lemma parses_null pre : parses n_pointer pre (le_bytes 4 0) false.
Proof. unfold n_pointer, n_u32. eapply parses_last; [apply (parses_le _ 4); [lia|done]|]. apply parses_ret. Qed.

(** A step of the writer: the bytes it adds, the referents it defers. *)
Record step (w w' : ndrWriter) (e : bytes) (rs : list referent) : Prop := mkStep {
  st_buf : w_buf w' = w_buf w ++ e;
  st_deferred : w_deferred w' = w_deferred w ++ rs;
  st_ref : w_nextRef w <= w_nextRef w' <= w_nextRef w + 1;
}.
Lemma w_pointer_step w r : 0 <= w_nextRef w < 100 →
  ∃ e, step w (w_pointer w r) e (option_list r) ∧ ∀ pre, parses n_pointer pre e (bool_decide (is_Some r)).
Proof.
  intros Hw. destruct r as [r|]; cbn [w_pointer option_list].
  - exists (ptr_bytes (w_nextRef w)). split; [|intros pre; rewrite bool_decide_eq_true_2 by eauto; apply parses_ptr; lia].
    split; cbn; [done|done|]. unfold u32. rewrite Z.mod_small; lia.
  - exists (le_bytes 4 0). split; [|intros pre; rewrite bool_decide_eq_false_2 by (by intros []); apply parses_null].
    split; cbn; [done|by rewrite app_nil_r|lia].
Qed.
Lemma w_unicode_step w v w' : 0 <= w_nextRef w < 100 → w_unicode w v = Ok w' →
  ∃ e data, encodeUTF16 v = Ok data ∧ step w w' e [RUnicode data] ∧ ∀ pre, parses unicodeDescriptor pre e (zlen data, true).
Proof.
  intros Hw. unfold w_unicode. destruct (encodeUTF16 v) as [data| |] eqn:Hd; [|done|done]. cbn [res_bind].
  destruct (encodeUTF16_ok _ _ Hd) as (_ & Hz & Hl). pose proof (zlen_nonneg (utf16_Encode (to_runes v))).
  rewrite (proj2 (Z.ltb_ge 0xffff _)) by lia. intros Hx. set (lens := le_bytes 2 (zlen data) ++ le_bytes 2 (zlen data)) in Hx.
  exists (lens ++ ptr_bytes (w_nextRef w)), data. split; [done|]. assert (w' = w_pointer (w_write w lens) (Some (RUnicode data))) as -> by congruence. split.
  - split; cbn [w_pointer w_defer w_ref w_write w_buf w_deferred w_nextRef]; [by rewrite <- app_assoc|done|]. unfold u32. rewrite Z.mod_small; lia.
  - intros pre. unfold unicodeDescriptor, lens, n_u16. rewrite <- app_assoc. do 2 parse_step. eapply parses_last; [apply parses_ptr; lia|]. apply parses_ret.
Qed.
Lemma w_unicodes_step w vs w' : 0 <= w_nextRef w → w_nextRef w + zlen vs <= 100 → w_unicodes w vs = Ok w' →
  ∃ e datas, Forall2 (λ v d, encodeUTF16 v = Ok d) vs datas ∧
    w_buf w' = w_buf w ++ e ∧ w_deferred w' = w_deferred w ++ (RUnicode <$> datas) ∧ w_nextRef w <= w_nextRef w' <= w_nextRef w + zlen vs ∧
    ∀ pre, parses (rd_list (length vs) unicodeDescriptor) pre e ((λ d, (zlen d, true)) <$> datas).
Proof.
  revert w. induction vs as [|v vs IH]; intros w Hw Hb Hx; cbn [w_unicodes] in Hx.
  { injection Hx as <-. exists [], []. rewrite !app_nil_r, zlen_nil. split_and!; [apply List.Forall2_nil|done|done|lia|lia|intros pre; apply parses_ret]. }
  rewrite zlen_cons in Hb. pose proof (zlen_nonneg vs). destruct (w_unicode w v) as [w1| |] eqn:H1; [|done|done]. cbn [res_bind] in Hx.
  destruct (w_unicode_step w v w1 ltac:(lia) H1) as (e1 & d1 & Hd1 & [B1 D1 R1] & P1).
  destruct (IH w1 ltac:(lia) ltac:(lia) Hx) as (e2 & ds & Hf & B2 & D2 & R2 & P2).
  exists (e1 ++ e2), (d1 :: ds). rewrite zlen_cons. split_and!; [by constructor| |..|lia|].
  - by rewrite B2, B1, <- app_assoc.
  - by rewrite D2, D1, <- app_assoc.
  - lia.
  - intros pre. cbn [length rd_list fmap list_fmap]. eapply parses_bind; [apply P1|]. eapply parses_last; [apply P2|]. apply parses_ret.
Qed.

(** What writing referents adds, and how it is read. *)
Definition refers {A} (rs : list referent) (p : rd A) (a : A) : Prop :=
  ∀ w w', (∀ l, rs = [RExtra l] → 0 <= w_nextRef w < 100) → w_referents w rs = Ok w' →
  ∃ e, w_buf w' = w_buf w ++ e ∧ (w_nextRef w' = w_nextRef w ∨ ∃ l, rs = [RExtra l]) ∧
       ∀ pre, zlen pre = zlen (w_buf w) → parses p pre e a.
Lemma unicode_refers v data : encodeUTF16 v = Ok data → refers [RUnicode data] (readUnicode (zlen data, true)) (utf8_fix v).
Proof.
  intros Hd w w' Hw Hr. cbn [w_referents w_referent res_bind] in Hr. destruct (encodeUTF16_ok _ _ Hd) as (Hdec & Hz & Hl).
  assert (Hu : zlen data / 2 = zlen (utf16_Encode (to_runes v))) by (Z.to_euclidean_division_equations; lia).
  set (n := zlen (utf16_Encode (to_runes v))) in *. assert (0 <= n) by apply zlen_nonneg. rewrite Hu in Hr.
  set (e := le_bytes 4 n ++ le_bytes 4 0 ++ le_bytes 4 n ++ data) in Hr. exists (pad_to4 (zlen (w_buf w)) ++ e).
  assert (w' = w_write (w_align w 4) e) as -> by congruence. split_and!; [|by left|].
  - cbn [w_buf w_write]. by rewrite w_align_buf, <- app_assoc.
  - intros pre Hp. unfold readUnicode. cbn [snd fst negb]. rewrite <- Hp. eapply parses_bind; [apply parses_align|]. unfold e, n_u32. do 2 parse_step.
    eapply parses_bind; [apply parses_or, (parses_le _ 4); [lia|done]|]. eapply parses_bind0.
    { apply parses_check. rewrite Hu, Z.eqb_refl, Z.ltb_irrefl. done. }
    eapply parses_last; [apply parses_bytes; lia|]. by apply parses_pure.
Qed.
Lemma unicodes_refers vs datas w w' :
  Forall2 (λ v d, encodeUTF16 v = Ok d) vs datas → w_referents w (RUnicode <$> datas) = Ok w' →
  ∃ e, w_buf w' = w_buf w ++ e ∧ w_nextRef w' = w_nextRef w ∧
       ∀ pre, zlen pre = zlen (w_buf w) → parses (read_unicodes ((λ d, (zlen d, true)) <$> datas)) pre e (utf8_fix <$> vs).
Proof.
  intros Hf. revert w. induction Hf as [|v d vs datas Hd _ IH]; intros w Hr; cbn [fmap list_fmap w_referents] in Hr.
  { injection Hr as <-. exists []. rewrite app_nil_r. split_and!; [done|done|]. intros pre _. apply parses_ret. }
  destruct (w_referent w (RUnicode d)) as [w1| |] eqn:H1; [|done|done]. cbn [res_bind] in Hr.
  destruct (unicode_refers v d Hd w w1 ltac:(by intros ? [=])) as (e1 & B1 & R1 & P1); [cbn [w_referents]; by rewrite H1|].
  assert (Hn1 : w_nextRef w1 = w_nextRef w) by (by destruct R1 as [|[? [=]]]).
  destruct (IH w1 Hr) as (e2 & B2 & R2 & P2). exists (e1 ++ e2). split_and!.
  - by rewrite B2, B1, <- app_assoc.
  - lia.
  - intros pre Hp. cbn [fmap list_fmap read_unicodes]. eapply parses_bind; [by apply parses_wrap, P1|].
    eapply parses_last; [apply P2; rewrite B1, !zlen_app; lia|]. apply parses_ret.
Qed.

Lemma parses_words subs pre : Forall (λ u, 0 <= u < 2 ^ 32) subs → parses (rd_list (length subs) n_u32) pre (concat (le_bytes 4 <$> subs)) subs.
Proof. intros Hs. apply parses_list. apply (Forall_impl _ _ _ Hs). intros u Hu pre'. apply (parses_le _ 4); [lia|done]. Qed.
(** The body of an identifier at an aligned place. *)
Lemma w_sid_ok w s w' : sid_wf s → w_sid w s = Ok w' →
  ∃ e, w_buf w' = w_buf w ++ e ∧ w_nextRef w' = w_nextRef w ∧ w_deferred w' = w_deferred w ∧
       ∀ pre, zlen pre = zlen (w_buf w) → parses (n_sid true) pre e (Some s).
Proof.
  intros Hs. pose proof Hs as (_ & _ & Hsub & Hc). unfold w_sid. destruct (sid_binary s Hs) as (d & -> & _ & Hd & _). cbn [res_bind]. intros Hx.
  destruct (sid_head_ok s [] Hs) as (H0 & H1 & H2 & Hh). rewrite app_nil_r in H0, H1, H2.
  assert (Ht : take 8 d = sid_head s) by (rewrite Hd; apply take_app_length'; unfold zlen in Hh; lia). rewrite Ht in Hx.
  set (e := le_bytes 4 (zlen (s_SubAuthorities s)) ++ sid_head s ++ concat (le_bytes 4 <$> s_SubAuthorities s)) in Hx.
  exists (pad_to4 (zlen (w_buf w)) ++ e). assert (w' = w_write (w_align w 4) e) as -> by congruence. pose proof (zlen_nonneg (s_SubAuthorities s)).
  split_and!; [cbn [w_buf w_write]; by rewrite w_align_buf, <- app_assoc|done|done|].
  intros pre Hp. unfold n_sid. cbn [negb]. rewrite <- Hp. eapply parses_bind; [apply parses_align|]. unfold e.
  eapply parses_bind; [apply parses_or, (parses_le _ 4); [lia|done]|]. eapply parses_bind0; [apply parses_check; rewrite (proj2 (Z.ltb_ge 15 _)) by done; done|].
  eapply parses_bind; [by apply parses_bytes|]. eapply parses_bind0; [apply parses_check; rewrite H1; apply Z.eqb_refl|].
  rewrite H0, H2. replace (Z.to_nat (zlen (s_SubAuthorities s))) with (length (s_SubAuthorities s)) by (unfold zlen; lia).
  eapply parses_last; [by apply parses_words|]. destruct s. apply parses_ret.
Qed.
Lemma sid_refers (s : option SID) : match s with Some s => sid_wf s | None => True end →
  refers (option_list (RSid <$> s)) (n_sid (bool_decide (is_Some (RSid <$> s)))) s.
Proof.
  intros Hs w w' Hw Hr. destruct s as [s|].
  - change (option_list (RSid <$> Some s)) with [RSid s] in Hr. cbn [w_referents w_referent] in Hr. destruct (w_sid w s) as [w1| |] eqn:H1; [|done|done]. cbn [res_bind] in Hr. injection Hr as <-.
    destruct (w_sid_ok w s w1 Hs H1) as (e & B & R & _ & P). exists e. rewrite bool_decide_eq_true_2 by eauto. split_and!; [done|by left|done].
  - change (option_list (RSid <$> None)) with (@nil referent) in Hr. injection Hr as <-. exists []. rewrite app_nil_r, bool_decide_eq_false_2 by (by intros []). split_and!; [done|by left|]. intros pre _. apply parses_ret.
Qed.

Definition group_wf (g : GroupMembership) : Prop := 0 <= g_RelativeID g < 2 ^ 32 ∧ 0 <= g_Attributes g < 2 ^ 32.
Definition group_bytes (g : GroupMembership) : bytes := le_bytes 4 (g_RelativeID g) ++ le_bytes 4 (g_Attributes g).
Definition groups_pointer (l : list GroupMembership) : option referent := match l with [] => None | _ => Some (RGroups l) end.
Lemma u32_small z : 0 <= z < 2 ^ 32 → u32 z = z.
Proof. apply Z.mod_small. Qed.
Lemma zlen_concat_const {A} (f : A → bytes) k l : (∀ x, zlen (f x) = k) → zlen (concat (f <$> l)) = k * zlen l.
Proof. intros Hf. induction l as [|x l IH]; [change (0 = k * 0); lia|]. cbn [fmap list_fmap concat]. rewrite zlen_app, zlen_cons, Hf, IH. lia. Qed.
Lemma room_ok n k m : 8 * n <= k → k <= m < 2 ^ 32 → negb (u32 (m / 8) <? n) = true.
Proof.
  intros Hk Hm. destruct (decide (0 <= m)); [|rewrite (proj2 (Z.ltb_ge _ _)); [done|unfold u32; pose proof (Z.mod_pos_bound (m / 8) (2 ^ 32) ltac:(done)); lia]].
  rewrite u32_small by (Z.to_euclidean_division_equations; lia). rewrite (proj2 (Z.ltb_ge _ _)); [done|]. Z.to_euclidean_division_equations. lia.
Qed.
Lemma groups_refers l : Forall group_wf l → zlen l < 2 ^ 29 →
  refers (option_list (groups_pointer l)) (n_groups (bool_decide (is_Some (groups_pointer l)))) l.
Proof.
  intros Hg Hl w w' Hw Hr. destruct l as [|g l].
  { injection Hr as <-. exists []. rewrite app_nil_r. split_and!; [done|by left|]. intros pre _. apply parses_ret. }
  set (gs := g :: l) in *. change (groups_pointer gs) with (Some (RGroups gs)) in Hr |- *. rewrite bool_decide_eq_true_2 by eauto.
  change (option_list (Some (RGroups gs))) with [RGroups gs] in Hr. cbn [w_referents w_referent res_bind] in Hr. pose proof (zlen_nonneg gs). rewrite u32_small in Hr by lia.
  change (λ g, le_bytes 4 (g_RelativeID g) ++ le_bytes 4 (g_Attributes g)) with group_bytes in Hr.
  set (e := le_bytes 4 (zlen gs) ++ concat (group_bytes <$> gs)) in Hr. exists (pad_to4 (zlen (w_buf w)) ++ e).
  assert (w' = w_write (w_align w 4) e) as -> by congruence. split_and!; [cbn [w_buf w_write]; by rewrite w_align_buf, <- app_assoc|by left|].
  intros pre Hp. unfold n_groups. cbn [negb]. rewrite <- Hp. eapply parses_bind; [apply parses_align|]. unfold e.
  eapply parses_bind; [apply parses_or, (parses_le _ 4); [lia|done]|]. apply parses_room.
  { intros m. apply room_ok. rewrite (zlen_concat_const _ 8); [lia|]. intros x. unfold group_bytes. by rewrite zlen_app, !zlen_le_bytes. }
  replace (Z.to_nat (zlen gs)) with (length gs) by (unfold zlen; lia). apply parses_list. apply (Forall_impl _ _ _ Hg).
  intros x [Hx1 Hx2] pre'. unfold n_group, group_bytes, n_u32. parse_step. eapply parses_last; [apply (parses_le _ 4); [lia|done]|]. destruct x. apply parses_ret.
Qed.

Definition extra_wf (x : SIDAndAttributes) : Prop := sid_wf (sa_SID x) ∧ 0 <= sa_Attributes x < 2 ^ 32.
Definition extra_pointer (l : list SIDAndAttributes) : option referent := match l with [] => None | _ => Some (RExtra l) end.
Lemma extra_entries_ok l w : Forall extra_wf l → 0 <= w_nextRef w → w_nextRef w + zlen l < 2 ^ 30 →
  let w' := foldl (λ w x, w_write (w_ref w) (le_bytes 4 (sa_Attributes x))) w l in
  ∃ e, w_buf w' = w_buf w ++ e ∧ zlen e = 8 * zlen l ∧
       ∀ pre, parses (rd_list (length l) extra_entry) pre e ((λ x, (true, sa_Attributes x)) <$> l).
Proof.
  intros Hf. revert w. induction Hf as [|x l [_ Hx] _ IH]; intros w Hw Hb; cbn [foldl].
  { exists []. rewrite app_nil_r. split_and!; [done|done|]. intros pre. apply parses_ret. }
  rewrite zlen_cons in Hb. pose proof (zlen_nonneg l). set (w1 := w_write (w_ref w) _).
  assert (Hn : w_nextRef w1 = w_nextRef w + 1) by (cbn; apply u32_small; lia).
  destruct (IH w1 ltac:(lia) ltac:(lia)) as (e & B & Z1 & P). exists ((ptr_bytes (w_nextRef w) ++ le_bytes 4 (sa_Attributes x)) ++ e). split_and!.
  - rewrite B. unfold w1. cbn [w_buf w_write w_ref]. unfold ptr_bytes. by rewrite <- !app_assoc.
  - rewrite !zlen_app, Z1, zlen_cons. unfold ptr_bytes. rewrite !zlen_le_bytes. lia.
  - intros pre. cbn [length rd_list fmap list_fmap]. eapply parses_bind.
    + unfold extra_entry. eapply parses_bind; [apply parses_ptr; lia|]. eapply parses_last; [apply (parses_le _ 4); [lia|done]|]. apply parses_ret.
    + eapply parses_last; [apply P|]. apply parses_ret.
Qed.
Lemma extra_sids_ok l w w' : Forall extra_wf l → w_sids w l = Ok w' →
  ∃ e, w_buf w' = w_buf w ++ e ∧
       ∀ pre, zlen pre = zlen (w_buf w) → parses (read_extra ((λ x, (true, sa_Attributes x)) <$> l)) pre e l.
Proof.
  intros Hf. revert w. induction Hf as [|x l [Hx _] _ IH]; intros w Hr; cbn [w_sids] in Hr.
  { injection Hr as <-. exists []. rewrite app_nil_r. split; [done|]. intros pre _. apply parses_ret. }
  destruct (w_sid w (sa_SID x)) as [w1| |] eqn:H1; [|done|done]. cbn [res_bind] in Hr.
  destruct (w_sid_ok w _ w1 Hx H1) as (e1 & B1 & _ & _ & P1). destruct (IH w1 Hr) as (e2 & B2 & P2). exists (e1 ++ e2). split.
  - by rewrite B2, B1, <- app_assoc.
  - intros pre Hp. cbn [fmap list_fmap read_extra]. eapply parses_bind; [by apply parses_wrap, P1|]. cbv beta iota.
    eapply parses_last; [apply P2; rewrite B1, !zlen_app; lia|]. destruct x. apply parses_ret.
Qed.
Lemma extra_refers l : Forall extra_wf l → zlen l < 2 ^ 29 →
  refers (option_list (extra_pointer l)) (n_extraSIDs (bool_decide (is_Some (extra_pointer l))) (zlen l)) l.
Proof.
  intros Hg Hl w w' Hw Hr. destruct l as [|x l].
  { injection Hr as <-. exists []. rewrite app_nil_r. split_and!; [done|by left|]. intros pre _. apply parses_ret. }
  set (xs := x :: l) in *. change (extra_pointer xs) with (Some (RExtra xs)) in Hr, Hw |- *. rewrite bool_decide_eq_true_2 by eauto.
  change (option_list (Some (RExtra xs))) with [RExtra xs] in Hr, Hw. specialize (Hw xs eq_refl). cbn [w_referents w_referent] in Hr. pose proof (zlen_nonneg xs). rewrite u32_small in Hr by lia.
  set (w1 := w_write (w_align w 4) (le_bytes 4 (zlen xs))) in Hr. destruct (extra_entries_ok xs w1 Hg) as (e1 & B1 & Z1 & P1); [cbn; lia|cbn; lia|].
  cbv zeta in B1. set (w2 := foldl _ w1 xs) in *. destruct (w_sids w2 xs) as [w3| |] eqn:H3; [|done|done]. cbn [res_bind] in Hr. injection Hr as <-.
  destruct (extra_sids_ok xs w2 w3 Hg H3) as (e2 & B2 & P2).
  exists (pad_to4 (zlen (w_buf w)) ++ le_bytes 4 (zlen xs) ++ e1 ++ e2). split_and!; [|right; by exists xs|].
  - rewrite B2, B1. unfold w1. cbn [w_buf w_write]. by rewrite w_align_buf, <- !app_assoc.
  - intros pre Hp. unfold n_extraSIDs. cbn [negb]. rewrite <- Hp. eapply parses_bind; [apply parses_align|].
    eapply parses_bind; [apply parses_or, (parses_le _ 4); [lia|done]|]. eapply parses_bind0; [apply parses_check, Z.eqb_refl|]. apply parses_room.
    { intros m. apply room_ok. rewrite zlen_app, Z1. pose proof (zlen_nonneg e2). lia. }
    replace (Z.to_nat (zlen xs)) with (length xs) by (unfold zlen; lia). eapply parses_bind; [apply P1|]. apply P2.
    rewrite B1. unfold w1. cbn [w_buf w_write]. rewrite w_align_buf, !zlen_app, Hp. lia.
Qed.

Record logon_wf (l : LogonInfo) : Prop := mkLogonWf {
  lw_times : Forall (λ t, 0 <= t < 2 ^ 64) [l_LogonTime l; l_LogoffTime l; l_KickOffTime l; l_PasswordLastSet l; l_PasswordCanChange l;
                                            l_PasswordMustChange l; l_LastSuccessfulILogon l; l_LastFailedILogon l];
  lw_u16 : Forall (λ t, 0 <= t < 2 ^ 16) [l_LogonCount l; l_BadPasswordCount l];
  lw_u32 : Forall (λ t, 0 <= t < 2 ^ 32) [l_UserID l; l_PrimaryGroupID l; l_UserFlags l; (l_Reserved1 l).1; (l_Reserved1 l).2;
                                          l_UserAccountControl l; l_SubAuthStatus l; l_FailedILogonCount l; l_Reserved3 l];
  lw_key : zlen (l_UserSessionKey l) = 16;
  lw_groups : Forall group_wf (l_GroupIDs l) ∧ zlen (l_GroupIDs l) < 2 ^ 29;
  lw_domain : match l_LogonDomainID l with Some s => sid_wf s | None => True end;
  lw_extra : Forall extra_wf (l_ExtraSIDs l) ∧ zlen (l_ExtraSIDs l) < 2 ^ 29;
  lw_resource : match l_ResourceGroupDomainSID l with Some s => sid_wf s | None => True end;
  lw_resources : Forall group_wf (l_ResourceGroupIDs l) ∧ zlen (l_ResourceGroupIDs l) < 2 ^ 29;
}.
(** What the flags of the user let through. *)
Definition sent_extra (l : LogonInfo) : list SIDAndAttributes := if has_flag (l_UserFlags l) LogonInfoExtraSids then l_ExtraSIDs l else [].
Definition sent_domain (l : LogonInfo) : option SID := if has_flag (l_UserFlags l) LogonInfoResourceGroups then l_ResourceGroupDomainSID l else None.
Definition sent_resources (l : LogonInfo) : list GroupMembership := if has_flag (l_UserFlags l) LogonInfoResourceGroups then l_ResourceGroupIDs l else [].
Definition logon_read_back (l : LogonInfo) : LogonInfo :=
  mkLogon (l_LogonTime l) (l_LogoffTime l) (l_KickOffTime l) (l_PasswordLastSet l) (l_PasswordCanChange l) (l_PasswordMustChange l)
    (utf8_fix (l_EffectiveName l)) (utf8_fix (l_FullName l)) (utf8_fix (l_LogonScript l)) (utf8_fix (l_ProfilePath l))
    (utf8_fix (l_HomeDirectory l)) (utf8_fix (l_HomeDirectoryDrive l))
    (l_LogonCount l) (l_BadPasswordCount l) (l_UserID l) (l_PrimaryGroupID l) (l_GroupIDs l) (l_UserFlags l) (l_UserSessionKey l)
    (utf8_fix (l_LogonServer l)) (utf8_fix (l_LogonDomainName l)) (l_LogonDomainID l) (l_Reserved1 l) (l_UserAccountControl l) (l_SubAuthStatus l)
    (l_LastSuccessfulILogon l) (l_LastFailedILogon l) (l_FailedILogonCount l) (l_Reserved3 l)
    (zlen (sent_extra l)) (sent_extra l) (sent_domain l) (zlen (sent_resources l)) (sent_resources l).

Abbreviation ndr_head := ([Byte.x01; Byte.x10; Byte.x08; Byte.x00] ++ le_bytes 4 0xcccccccc ++ le_bytes 4 0 ++ le_bytes 4 0).
Abbreviation name_list l := ([l_EffectiveName l; l_FullName l; l_LogonScript l; l_ProfilePath l; l_HomeDirectory l; l_HomeDirectoryDrive l]).
(** The writer before the referents. *)
Definition logon_fixed (l : LogonInfo) : res ndrWriter :=
  let w := w_write (mkWriter [] 0 []) ndr_head in
  let w := w_write (w_ref w) (concat (le_bytes 8 <$> [l_LogonTime l; l_LogoffTime l; l_KickOffTime l; l_PasswordLastSet l;
                                                     l_PasswordCanChange l; l_PasswordMustChange l])) in
  res_bind (w_unicodes w (name_list l)) (λ w,
  let w := w_write w (le_bytes 2 (l_LogonCount l) ++ le_bytes 2 (l_BadPasswordCount l) ++
                      le_bytes 4 (l_UserID l) ++ le_bytes 4 (l_PrimaryGroupID l) ++ le_bytes 4 (u32 (zlen (l_GroupIDs l)))) in
  let w := w_write (w_groups w (l_GroupIDs l)) (le_bytes 4 (l_UserFlags l) ++ l_UserSessionKey l) in
  res_bind (w_unicodes w [l_LogonServer l; l_LogonDomainName l]) (λ w,
  let w := w_write (w_sidPointer w (l_LogonDomainID l))
             (le_bytes 4 (l_Reserved1 l).1 ++ le_bytes 4 (l_Reserved1 l).2 ++ le_bytes 4 (l_UserAccountControl l) ++
              le_bytes 4 (l_SubAuthStatus l) ++ le_bytes 8 (l_LastSuccessfulILogon l) ++ le_bytes 8 (l_LastFailedILogon l)) in
  let w := w_write w (le_bytes 4 (l_FailedILogonCount l) ++ le_bytes 4 (l_Reserved3 l) ++ le_bytes 4 (u32 (zlen (sent_extra l)))) in
  let w := w_extraSIDs w (sent_extra l) in
  let w := w_sidPointer w (sent_domain l) in
  Ok (w_groups (w_write w (le_bytes 4 (u32 (zlen (sent_resources l))))) (sent_resources l)))).
Lemma logon_Marshal_fixed l : logon_MarshalBinary l =
  res_bind (logon_fixed l) (λ w, res_bind (w_referents w (w_deferred w)) (λ w,
  let out := w_buf w in Ok (write_at out 8 (le_bytes 4 (u32 (zlen out - 16)))))).
Proof.
  unfold logon_MarshalBinary, logon_fixed. cbv zeta. destruct (w_unicodes _ (name_list l)) as [w1| |]; [|done|done]. cbn [res_bind].
  destruct (w_unicodes _ [l_LogonServer l; l_LogonDomainName l]) as [w2| |]; [|done|done]. reflexivity.
Qed.

(** The fixed part as it is read. *)
Definition desc_of (data : bytes) : Z * bool := (zlen data, true).
Definition fixed_of (l : LogonInfo) (names : list bytes) (server domain : bytes) : fixed_part :=
  mkFixed [l_LogonTime l; l_LogoffTime l; l_KickOffTime l; l_PasswordLastSet l; l_PasswordCanChange l; l_PasswordMustChange l]
    (desc_of <$> names) (l_LogonCount l) (l_BadPasswordCount l) (l_UserID l) (l_PrimaryGroupID l) (u32 (zlen (l_GroupIDs l)))
    (bool_decide (is_Some (groups_pointer (l_GroupIDs l)))) (l_UserFlags l) (l_UserSessionKey l) (desc_of server) (desc_of domain)
    (bool_decide (is_Some (RSid <$> l_LogonDomainID l))) ((l_Reserved1 l).1, (l_Reserved1 l).2) (l_UserAccountControl l) (l_SubAuthStatus l)
    (l_LastSuccessfulILogon l) (l_LastFailedILogon l) (l_FailedILogonCount l) (l_Reserved3 l) (u32 (zlen (sent_extra l)))
    (bool_decide (is_Some (extra_pointer (sent_extra l)))) (bool_decide (is_Some (RSid <$> sent_domain l)))
    (u32 (zlen (sent_resources l))) (bool_decide (is_Some (groups_pointer (sent_resources l)))).
Definition deferred_of (l : LogonInfo) (names : list bytes) (server domain : bytes) : list referent :=
  (RUnicode <$> names) ++ option_list (groups_pointer (l_GroupIDs l)) ++ [RUnicode server] ++ [RUnicode domain] ++
  option_list (RSid <$> l_LogonDomainID l) ++ option_list (extra_pointer (sent_extra l)) ++ option_list (RSid <$> sent_domain l) ++
  option_list (groups_pointer (sent_resources l)).
Lemma fixed_parses l names server domain ks e6 e2a e2b eg ed ee er eq pre :
  logon_wf l → 0 <= ks < 100 →
  (∀ pre, parses (rd_list 6 unicodeDescriptor) pre e6 (desc_of <$> names)) →
  (∀ pre, parses unicodeDescriptor pre e2a (desc_of server)) → (∀ pre, parses unicodeDescriptor pre e2b (desc_of domain)) →
  (∀ pre, parses n_pointer pre eg (bool_decide (is_Some (groups_pointer (l_GroupIDs l))))) →
  (∀ pre, parses n_pointer pre ed (bool_decide (is_Some (RSid <$> l_LogonDomainID l)))) →
  (∀ pre, parses n_pointer pre ee (bool_decide (is_Some (extra_pointer (sent_extra l))))) →
  (∀ pre, parses n_pointer pre er (bool_decide (is_Some (RSid <$> sent_domain l)))) →
  (∀ pre, parses n_pointer pre eq (bool_decide (is_Some (groups_pointer (sent_resources l))))) →
  parses read_fixed pre
    (ptr_bytes ks ++ concat (le_bytes 8 <$> [l_LogonTime l; l_LogoffTime l; l_KickOffTime l; l_PasswordLastSet l;
                                             l_PasswordCanChange l; l_PasswordMustChange l]) ++ e6 ++
     (le_bytes 2 (l_LogonCount l) ++ le_bytes 2 (l_BadPasswordCount l) ++
      le_bytes 4 (l_UserID l) ++ le_bytes 4 (l_PrimaryGroupID l) ++ le_bytes 4 (u32 (zlen (l_GroupIDs l)))) ++ eg ++
     (le_bytes 4 (l_UserFlags l) ++ l_UserSessionKey l) ++ e2a ++ e2b ++ ed ++
     (le_bytes 4 (l_Reserved1 l).1 ++ le_bytes 4 (l_Reserved1 l).2 ++ le_bytes 4 (l_UserAccountControl l) ++
      le_bytes 4 (l_SubAuthStatus l) ++ le_bytes 8 (l_LastSuccessfulILogon l) ++ le_bytes 8 (l_LastFailedILogon l)) ++
     (le_bytes 4 (l_FailedILogonCount l) ++ le_bytes 4 (l_Reserved3 l) ++ le_bytes 4 (u32 (zlen (sent_extra l)))) ++ ee ++ er ++
     le_bytes 4 (u32 (zlen (sent_resources l))) ++ eq)
    (fixed_of l names server domain).
Proof.
  intros [Ht H16 H32 Hk _ _ _ _ _] Hks P6 Pa Pb Pg Pd Pe Pr Pq. repeat match goal with H : Forall _ (_ :: _) |- _ => apply Forall_cons in H as [? H] end. rewrite <- !app_assoc.
  unfold read_fixed, n_u16, n_u32, n_u64. eapply parses_bind; [apply parses_or, parses_ptr; lia|]. eapply parses_bind0; [by apply parses_check|].
  eapply parses_bind.
  { apply (parses_list _ (le_bytes 8)). repeat (apply Forall_cons; split; [intros ?; apply (parses_le _ 8); [lia|done]|]). by apply Forall_nil. }
  eapply parses_bind; [apply P6|]. do 5 parse_step. eapply parses_bind; [apply Pg|]. parse_step. eapply parses_bind; [by apply parses_bytes|].
  eapply parses_bind; [apply Pa|]. eapply parses_bind; [apply Pb|]. eapply parses_bind; [apply Pd|]. do 9 parse_step.
  eapply parses_bind; [apply Pe|]. eapply parses_bind; [apply Pr|]. parse_step. eapply parses_last; [apply Pq|]. apply parses_ret.
Qed.
Lemma fixed_ok l w : logon_wf l → logon_fixed l = Ok w →
  ∃ e names server domain, Forall2 (λ v d, encodeUTF16 v = Ok d) (name_list l) names ∧
    encodeUTF16 (l_LogonServer l) = Ok server ∧ encodeUTF16 (l_LogonDomainName l) = Ok domain ∧
    w_buf w = ndr_head ++ e ∧ w_deferred w = deferred_of l names server domain ∧ 0 <= w_nextRef w < 100 ∧
    ∀ pre, parses read_fixed pre e (fixed_of l names server domain).
Proof.
  intros Hwf Hf. unfold logon_fixed in Hf. cbv zeta in Hf. set (w1 := w_write (w_ref _) _) in Hf.
  destruct (w_unicodes w1 (name_list l)) as [w2| |] eqn:H2; [|done|done]. cbn [res_bind] in Hf.
  destruct (w_unicodes_step w1 (name_list l) w2) as (e6 & names & F6 & B6 & D6 & R6 & P6); [done|done|done|].
  change (zlen (name_list l)) with 6 in R6. change (w_nextRef w1) with 1 in R6.
  set (w3 := w_write w2 _) in Hf. destruct (w_pointer_step w3 (groups_pointer (l_GroupIDs l))) as (eg & [Bg Dg Rg] & Pg); [cbn; lia|].
  change (w_groups w3 (l_GroupIDs l)) with (w_pointer w3 (groups_pointer (l_GroupIDs l))) in Hf. set (w4 := w_pointer w3 _) in *.
  change (w_nextRef w3) with (w_nextRef w2) in Rg. set (w5 := w_write w4 _) in Hf. cbn [w_unicodes] in Hf.
  destruct (w_unicode w5 (l_LogonServer l)) as [w6| |] eqn:H6; [|done|done]. cbn [res_bind] in Hf.
  destruct (w_unicode_step w5 _ w6 ltac:(cbn; lia) H6) as (ea & server & Ea & [Ba Da Ra] & Pa). change (w_nextRef w5) with (w_nextRef w4) in Ra.
  destruct (w_unicode w6 (l_LogonDomainName l)) as [w7| |] eqn:H7; [|done|done]. cbn [res_bind] in Hf.
  destruct (w_unicode_step w6 _ w7 ltac:(lia) H7) as (eb & domain & Eb & [Bb Db Rb] & Pb).
  destruct (w_pointer_step w7 (RSid <$> l_LogonDomainID l)) as (ed & [Bd Dd Rd] & Pd); [lia|]. unfold w_sidPointer in Hf.
  set (w8 := w_pointer w7 _) in *. set (w9 := w_write w8 _) in Hf. set (w10 := w_write w9 _) in Hf.
  destruct (w_pointer_step w10 (extra_pointer (sent_extra l))) as (ee & [Be De Re] & Pe); [cbn; lia|]. change (w_nextRef w10) with (w_nextRef w8) in Re.
  change (w_extraSIDs w10 (sent_extra l)) with (w_pointer w10 (extra_pointer (sent_extra l))) in Hf. set (w11 := w_pointer w10 _) in *.
  destruct (w_pointer_step w11 (RSid <$> sent_domain l)) as (er & [Br Dr Rr] & Pr); [lia|]. set (w12 := w_pointer w11 _) in *.
  set (w13 := w_write w12 _) in Hf. destruct (w_pointer_step w13 (groups_pointer (sent_resources l))) as (eq & [Bq Dq Rq] & Pq); [cbn; lia|].
  change (w_nextRef w13) with (w_nextRef w12) in Rq.
  assert (w = w_pointer w13 (groups_pointer (sent_resources l))) as ->.
  { change (w_groups w13 (sent_resources l)) with (w_pointer w13 (groups_pointer (sent_resources l))) in Hf. congruence. }
  eexists _, names, server, domain. split_and!; [done|done|done| | |lia|lia|].
  2:{ rewrite Dq. change (w_deferred w13) with (w_deferred w12). rewrite Dr, De. change (w_deferred w10) with (w_deferred w8).
      rewrite Dd, Db, Da. change (w_deferred w5) with (w_deferred w4). rewrite Dg. change (w_deferred w3) with (w_deferred w2). rewrite D6.
      unfold deferred_of. cbn [w_deferred w1 w_write w_ref]. by rewrite <- !app_assoc. }
  2:{ intros pre. apply (fixed_parses l names server domain 0 e6 ea eb eg ed ee er eq); [done|lia|done..]. }
  rewrite Bq. unfold w13. cbn [w_buf w_write]. rewrite Br, Be. unfold w10, w9. cbn [w_buf w_write]. rewrite Bd, Bb, Ba.
  unfold w5. cbn [w_buf w_write]. rewrite Bg. unfold w3. cbn [w_buf w_write]. rewrite B6. unfold w1. cbn [w_buf w_write w_ref w_nextRef].
  change (le_bytes 4 (u32 (ndrPointerValue + u32 (0 + 1)))) with (ptr_bytes 0). by rewrite <- !app_assoc.
Qed.
Lemma w_referents_app w rs1 rs2 w' : w_referents w (rs1 ++ rs2) = Ok w' → ∃ w1, w_referents w rs1 = Ok w1 ∧ w_referents w1 rs2 = Ok w'.
Proof.
  revert w. induction rs1 as [|r rs1 IH]; intros w Hw; [by exists w|]. cbn [w_referents app] in *.
  destruct (w_referent w r) as [w1| |]; [|done|done]. cbn [res_bind] in *. by apply IH.
Qed.
(** A group of referents before the rest. *)
Definition not_extra (rs : list referent) : Prop := ∀ l, rs ≠ [RExtra l].
Lemma not_extra_groups l : not_extra (option_list (groups_pointer l)).
Proof. by destruct l. Qed.
Lemma not_extra_sid s : not_extra (option_list (RSid <$> s)).
Proof. by destruct s. Qed.
Lemma refers_next {A} rs1 rs2 (p : rd A) a w w' : refers rs1 p a → not_extra rs1 → w_referents w (rs1 ++ rs2) = Ok w' →
  ∃ w1 e, w_referents w1 rs2 = Ok w' ∧ w_buf w1 = w_buf w ++ e ∧ w_nextRef w1 = w_nextRef w ∧
          ∀ pre, zlen pre = zlen (w_buf w) → parses p pre e a.
Proof.
  intros Hr Hn Hw. destruct (w_referents_app _ _ _ _ Hw) as (w1 & H1 & H2). destruct (Hr w w1) as (e & B & R & P); [intros l Hl; by destruct (Hn l)|done|].
  exists w1, e. split_and!; [done|done| |done]. destruct R as [|[l Hl]]; [done|by destruct (Hn l)].
Qed.
Lemma sent_extra_wf l : logon_wf l → Forall extra_wf (sent_extra l) ∧ zlen (sent_extra l) < 2 ^ 29.
Proof. intros Hl. unfold sent_extra. destruct (has_flag _ _); [apply (lw_extra l Hl)|]. split; [by apply Forall_nil|done]. Qed.
Lemma sent_resources_wf l : logon_wf l → Forall group_wf (sent_resources l) ∧ zlen (sent_resources l) < 2 ^ 29.
Proof. intros Hl. unfold sent_resources. destruct (has_flag _ _); [apply (lw_resources l Hl)|]. split; [by apply Forall_nil|done]. Qed.
Lemma sent_domain_wf l : logon_wf l → match sent_domain l with Some s => sid_wf s | None => True end.
Proof. intros Hl. unfold sent_domain. destruct (has_flag _ _); [apply (lw_resource l Hl)|done]. Qed.

Lemma body_parses l w w' efixed names server domain :
  logon_wf l → Forall2 (λ v d, encodeUTF16 v = Ok d) (name_list l) names →
  encodeUTF16 (l_LogonServer l) = Ok server → encodeUTF16 (l_LogonDomainName l) = Ok domain → 0 <= w_nextRef w < 100 →
  (∀ pre, parses read_fixed pre efixed (fixed_of l names server domain)) →
  w_referents w (deferred_of l names server domain) = Ok w' →
  ∃ e, w_buf w' = w_buf w ++ e ∧
       ∀ pre, zlen (pre ++ efixed) = zlen (w_buf w) → parses logon_body pre (efixed ++ e) (logon_read_back l).
Proof.
  intros Hl Hn Hs Hd Hw Pf Hr. unfold deferred_of in Hr.
  destruct (sent_extra_wf l Hl) as [Hex Hexl]. destruct (sent_resources_wf l Hl) as [Hrs Hrsl]. destruct (lw_groups l Hl) as [Hg Hgl].
  destruct (w_referents_app _ _ _ _ Hr) as (w1 & R1 & Hr1). destruct (unicodes_refers _ _ _ _ Hn R1) as (e1 & B1 & N1 & P1).
  destruct (refers_next _ _ _ _ _ _ (groups_refers _ Hg Hgl) (not_extra_groups _) Hr1) as (w2 & e2 & Hr2 & B2 & N2 & P2).
  destruct (refers_next _ _ _ _ _ _ (unicode_refers _ _ Hs) ltac:(done) Hr2) as (w3 & e3 & Hr3 & B3 & N3 & P3).
  destruct (refers_next _ _ _ _ _ _ (unicode_refers _ _ Hd) ltac:(done) Hr3) as (w4 & e4 & Hr4 & B4 & N4 & P4).
  destruct (refers_next _ _ _ _ _ _ (sid_refers _ (lw_domain l Hl)) (not_extra_sid _) Hr4) as (w5 & e5 & Hr5 & B5 & N5 & P5).
  destruct (w_referents_app _ _ _ _ Hr5) as (w6 & R6 & Hr6). destruct (extra_refers _ Hex Hexl w5 w6 ltac:(lia) R6) as (e6 & B6 & _ & P6).
  destruct (refers_next _ _ _ _ _ _ (sid_refers _ (sent_domain_wf l Hl)) (not_extra_sid _) Hr6) as (w7 & e7 & Hr7 & B7 & N7 & P7).
  destruct (groups_refers _ Hrs Hrsl w7 w') as (e8 & B8 & _ & P8); [intros x Hx; by destruct (not_extra_groups _ x Hx)|done|].
  exists (e1 ++ e2 ++ e3 ++ e4 ++ e5 ++ e6 ++ e7 ++ e8). split; [rewrite B8, B7, B6, B5, B4, B3, B2, B1; by rewrite <- !app_assoc|].
  intros pre Hp. unfold logon_body. eapply parses_bind; [apply Pf|].
  assert (Hlen : ∀ (a b x e : bytes), zlen a = zlen x → b = x ++ e → zlen (a ++ e) = zlen b) by (intros a b x e Ha ->; rewrite !zlen_app; lia).
  pose proof (zlen_nonneg (sent_extra l)). pose proof (zlen_nonneg (sent_resources l)).
  assert (L1 := Hlen _ _ _ _ Hp B1). assert (L2 := Hlen _ _ _ _ L1 B2). assert (L3 := Hlen _ _ _ _ L2 B3). assert (L4 := Hlen _ _ _ _ L3 B4).
  assert (L5 := Hlen _ _ _ _ L4 B5). assert (L6 := Hlen _ _ _ _ L5 B6). assert (L7 := Hlen _ _ _ _ L6 B7).
  eapply parses_bind; [by apply P1|]. eapply parses_bind; [by apply parses_wrap, P2|]. eapply parses_bind0; [apply parses_check, Z.eqb_refl|].
  eapply parses_bind; [by apply parses_wrap, P3|]. eapply parses_bind; [by apply parses_wrap, P4|]. eapply parses_bind; [by apply parses_wrap, P5|].
  cbn [fixed_of fp_extraPresent fp_SidCount]. rewrite (u32_small (zlen (sent_extra l))) by lia.
  eapply parses_bind; [by apply P6|]. eapply parses_bind; [by apply parses_wrap, P7|]. eapply parses_last; [by apply parses_or, P8|].
  eapply parses_bind0; [apply parses_check, Z.eqb_refl|]. cbn [fixed_of fp_times fmap list_fmap fp_ResourceGroupCount].
  rewrite (u32_small (zlen (sent_resources l))) by lia. unfold logon_read_back. rewrite (surjective_pairing (l_Reserved1 l)). apply parses_ret.
Qed.

Abbreviation ndr_front := ([Byte.x01; Byte.x10; Byte.x08; Byte.x00] ++ le_bytes 4 0xcccccccc).
Lemma write_front (x rest : bytes) : zlen x = 4 → write_at (ndr_head ++ rest) 8 x = (ndr_front ++ x ++ le_bytes 4 0) ++ rest.
Proof.
  intros Hx. unfold write_at, zlen in *. change (Z.to_nat 8) with 8%nat. replace (length x) with 4%nat by lia.
  rewrite <- !app_assoc. reflexivity.
Qed.
Lemma read_fixed_room data off r : read_fixed data off = Ok r → off + 4 <= zlen data.
Proof.
  unfold read_fixed, rd_bind at 1, rd_or, n_pointer, n_u32, rd_le, rd_bind at 1 2, rd_bytes.
  destruct (_ || _) eqn:Hb; [done|]. apply orb_false_iff in Hb as [_ Hb]. apply Z.ltb_ge in Hb. intros _. lia.
Qed.
Lemma logon_roundtrip l e : logon_wf l → logon_MarshalBinary l = Ok e → zlen e < 2 ^ 32 → ParseLogonInfo e = Ok (logon_read_back l).
Proof.
  intros Hl. rewrite logon_Marshal_fixed. destruct (logon_fixed l) as [w| |] eqn:Hf; [|done|done]. cbn [res_bind].
  destruct (fixed_ok l w Hl Hf) as (ef & names & server & domain & Hn & Hs & Hd & B & D & R & P). rewrite D.
  destruct (w_referents w _) as [w'| |] eqn:Hr; [|done|done]. cbn [res_bind].
  destruct (body_parses l w w' ef names server domain Hl Hn Hs Hd R P Hr) as (e' & B' & P'). rewrite B', B, <- app_assoc.
  set (n := u32 _). rewrite write_front by apply zlen_le_bytes. set (head := ndr_front ++ le_bytes 4 n ++ le_bytes 4 0).
  intros He Hz. assert (e = head ++ ef ++ e') as -> by congruence. clear He.
  assert (Hh : zlen head = 16) by (unfold head; rewrite !zlen_app, !zlen_le_bytes; done).
  assert (Hnz : n = zlen (head ++ ef ++ e') - 16).
  { unfold n. rewrite (zlen_app ndr_head), (zlen_app head), Hh in *. rewrite (zlen_app ef) in *. change (zlen ndr_head) with 16. pose proof (zlen_nonneg ef). pose proof (zlen_nonneg e'). rewrite u32_small; lia. }
  assert (Hb := P' head ltac:(rewrite B, !zlen_app, Hh; done) [] ltac:(by rewrite app_nil_r)). rewrite app_nil_r, Hh in Hb.
  assert (He4 : 4 <= zlen ef).
  { assert (Hx := P head e' Hz). apply read_fixed_room in Hx. pose proof (P head [] ltac:(rewrite app_nil_r, !zlen_app in *; pose proof (zlen_nonneg e'); lia)) as Hy.
    apply read_fixed_room in Hy. rewrite app_nil_r, zlen_app in Hy. lia. }
  assert (H3 : u32_at (head ++ ef ++ e') 8 = n).
  { unfold head, u32_at. rewrite <- !app_assoc, (app_assoc [_; _; _; _]), slice_at_app by (rewrite ?zlen_app, ?zlen_le_bytes; done).
    apply le_value_bytes, u32_range. }
  assert (H4 : u32_at (head ++ ef ++ e') 12 = 0).
  { unfold head, u32_at. rewrite <- !app_assoc, (app_assoc [_; _; _; _]), (app_assoc (_ ++ _)), slice_at_app by (rewrite ?zlen_app, ?zlen_le_bytes; done). done. }
  unfold ParseLogonInfo. rewrite H3, H4, Hb, Hnz, (Z.eqb_refl (zlen _ - 16)). cbn [res_bind]. rewrite (Z.eqb_refl (zlen _)).
  rewrite (proj2 (Z.ltb_ge _ 20)) by (rewrite !zlen_app; pose proof (zlen_nonneg e'); lia). reflexivity.
Qed.

(** ** Claims *)

(** A well-formed KERB_VALIDATION_INFO survives the NDR encoding: whatever
    [LogonInfo.MarshalBinary] writes, [ParseLogonInfo] reads back in full -- the
    times, the counted arrays, every deferred string, group array and SID at the
    alignment and in the order of its pointer -- with two changes the code
    makes: ill-formed UTF-8 is replaced, and the extra SIDs and the resource
    groups are present exactly when the user flags announce them. *)
Theorem logon_info_roundtrip l e :
  logon_wf l → logon_MarshalBinary l = Ok e → zlen e < 2 ^ 32 → ParseLogonInfo e = Ok (logon_read_back l).
Proof. apply logon_roundtrip. Qed.

(** The other contents of PAC buffers are read back as written: a SID from
    its text and from its binary form (with the number of bytes used), a
    UPN_DNS_INFO with or without its extension, an encrypted-credential
    envelope, and a delegation record with its list of services. *)
Theorem pac_buffers_roundtrip :
  (∀ s, sid_wf s → ParseSID (sid_String s) = Ok s ∧
        ∃ d, sid_MarshalBinary s = Ok d ∧ ParseSIDBinary d = Ok (s, zlen d)) ∧
  (∀ u d, upn_wf u → upn_MarshalBinary u = Ok d → ParseUPNDNSInfo d = Ok (upn_read_back u)) ∧
  (∀ c d, - 2 ^ 31 <= c_EncryptionType c < 2 ^ 31 → cred_MarshalBinary c = Ok d → ParseCredentialInfo d = Ok c) ∧
  (∀ d e, delegation_wf d → delegation_MarshalBinary d = Ok e → zlen e < 2 ^ 32 →
          ParseDelegationInfo e = Ok (mkDelegation (utf8_fix (d_ProxyTarget d)) (utf8_fix <$> d_TransitedServices d))).
Proof.
  split_and!.
  - intros s Hs. split; [by apply sid_text|]. destruct (sid_binary s Hs) as (d & Hd & Hp & _). by exists d.
  - apply upn_roundtrip.
  - apply cred_roundtrip.
  - apply delegation_roundtrip.
Qed.

Module PacDataExample.
Definition domain_sid : SID := mkSID 1 5 [21; 1; 2; 3].
Definition alice_info : LogonInfo :=
  mkLogon 1 2 3 4 5 6 (str "alice") (str "Alice A") [] [] (str "home") [] 7 8 1001 513 [mkGroup 513 7; mkGroup 514 7]
    0x220 (zeros 16) (str "DC1") (str "EXAMPLE") (Some domain_sid) (0, 0) 16 0 9 10 0 0
    1 [mkSidAttr (mkSID 1 18 [1]) 7] (Some domain_sid) 1 [mkGroup 600 7].
#[local] Ltac forall_wf tac := repeat (apply Forall_cons; split; [tac|]); apply Forall_nil; exact I.
#[local] Ltac range := vm_compute; match goal with |- _ ∧ _ => split; [discriminate|reflexivity] | |- _ = _ => reflexivity | |- _ => discriminate end.
Lemma domain_sid_wf : sid_wf domain_sid.
Proof. split; [range|split; [range|split; [forall_wf range|range]]]. Qed.
Lemma system_sid_wf : sid_wf (mkSID 1 18 [1]).
Proof. split; [range|split; [range|split; [forall_wf range|range]]]. Qed.
Lemma alice_info_wf : logon_wf alice_info.
Proof.
  split; [forall_wf range|forall_wf range|forall_wf range|reflexivity| |exact domain_sid_wf| |exact domain_sid_wf|];
    (split; [|reflexivity]); forall_wf ltac:(split; [first [exact system_sid_wf|range]|range]).
Qed.
#[local] Abbreviation alice_run := (logon_MarshalBinary alice_info).
Lemma small_result (r : res bytes) : match r with Ok e => zlen e <? 2 ^ 32 | _ => false end = true → ∃ e, r = Ok e ∧ zlen e < 2 ^ 32.
Proof. destruct r as [e| |]; [|done|done]. intros He. exists e. split; [done|by apply Z.ltb_lt]. Qed.
Lemma alice_run_ok : ∃ e, alice_run = Ok e ∧ zlen e < 2 ^ 32.
Proof. apply small_result. vm_compute. reflexivity. Qed.
Lemma logon_info_roundtrip_witness : ∃ e, alice_run = Ok e ∧ ParseLogonInfo e = Ok (logon_read_back alice_info).
Proof.
  destruct alice_run_ok as [e [He Hz]]. exact (ex_intro _ e (conj He (logon_info_roundtrip alice_info e alice_info_wf He Hz))).
Defined.
Lemma pac_buffers_roundtrip_witness : ParseSID (sid_String domain_sid) = Ok domain_sid ∧
  ParseDelegationInfo (match delegation_MarshalBinary (mkDelegation (str "http/web") [str "imap/mail"]) with Ok e => e | _ => [] end) =
    Ok (mkDelegation (str "http/web") [str "imap/mail"]).
Proof.
  split; [apply (proj1 (proj1 pac_buffers_roundtrip domain_sid domain_sid_wf))|].
  apply (proj2 (proj2 (proj2 pac_buffers_roundtrip)) (mkDelegation (str "http/web") [str "imap/mail"])); [|reflexivity|reflexivity].
  apply Forall_cons; split; [vm_compute; discriminate|by apply Forall_nil].
Defined.
End PacDataExample.
