(* ===== verification/KdcPolicy.v ===== *)
(** * The policies of the KDC (src/krb5/kdc/policy.go, parts of kdc.go, as.go, policy_plugins.go)

    Clock skew and the replay cache of authenticators, account lockout, the
    validity of presented tickets, the lifetimes and flags of issued ones, and
    the choice of keys.  The principal store is an interface; the database of
    [Kdb] implements it.  The clock is an argument.  Instants and durations are
    nanoseconds; sums of them are not bounded, and [Sub] saturates as in Go. *)

From S2P Require Import Prelude Principal GoStrings Crypto Ulog Kdb Protocol Cammac.
Local Open Scope Z_scope.

(** ** The store *)

(** [kdb.Store] with the optional interfaces that [kdb.Database] has. *)
Class Store (D : Type) := {
  st_Lookup : D → Principal → res (option PrincipalRecord);
  st_ResolveAlias : D → Principal → res (option Principal);
  st_GetPolicy : D → bytes → res PolicyRecord;
  st_UpdateLockout : D → Principal → Z → Z → Z → Z → res D;
  st_RecordAuthFailure : D → Principal → Z → Z → Z → res (Z * D);
  st_ResetAuthFailures : D → Principal → Z → Z → res D;
  st_RecordAuthSuccess : D → Principal → Z → Z → res D;
}.
#[export] Instance database_store : Store Database := {|
  st_Lookup db name := Ok (Lookup db name);
  st_ResolveAlias db name := Ok (ResolveAlias db name);
  st_GetPolicy db name := GetPolicy db name;
  st_UpdateLockout db name failCount lastFailed lastSuccess clock :=
    UpdateLockout db name failCount lastFailed lastSuccess clock;
  st_RecordAuthFailure db name now interval clock := RecordAuthFailure db name now interval clock;
  st_ResetAuthFailures db name lastFailed clock := ResetAuthFailures db name lastFailed clock;
  st_RecordAuthSuccess db name now clock := RecordAuthSuccess db name now clock;
|}.

(** ** The server *)

Record Policy := mkFlagPolicy { AllowForwardable : bool; AllowRenewable : bool; AllowProxiable : bool }.
(** The settings of [Server] that the modelled code reads. *)
Record Server := mkServer {
  s_Realm : bytes;
  s_ClockSkew : Z;
  s_MaxTicketLife : Z;
  s_DefaultTicketLife : Z;
  s_MaxRenewableLife : Z;
  s_DefaultRenewableLife : Z;
  s_Policy : option Policy;
  s_Capaths : gmap bytes (gmap bytes (list bytes));
  s_RejectBadTransit : bool;
  s_RejectBadTransitSet : bool;
  s_RestrictAnonymousToTGT : bool;
  s_HostBasedServices : list bytes;
  s_NoHostReferral : list bytes;
  s_EnablePAC : bool;
  s_DisablePAC : bool;
  s_DisablePreauth : bool;
  s_EnableSPAKE : bool;
  s_SPAKEGroups : list Z;
  s_EncryptedChallengeIndicator : bytes;
  s_SPAKEPreauthIndicators : list bytes;
  s_PKINITIndicators : list bytes;
  s_OTPIndicators : list bytes;
  s_PKINITRequireFreshness : bool;
  s_MaxDatagramReplySize : Z;
}.
(** [Server{Realm: realm}]. *)
Definition default_server (realm : bytes) : Server :=
  mkServer realm 0 0 0 0 0 None ∅ false false false [] [] false false false false [] [] [] [] [] false 0.

Definition minute : Z := 60 * second.
Definition hour : Z := 60 * minute.
Definition time_sub (a b : Z) : Z := Z.max (- 2 ^ 63) (Z.min (2 ^ 63 - 1) (a - b)).
(** [Truncate(time.Second)]; the zero time is a whole second. *)
Definition truncate_s (t : Z) : Z := t - (t - zero_time) mod second.

Definition skew (s : Server) : Z :=
  let skew := s_ClockSkew s in
  let skew := if skew <? 0 then i64 (- skew) else skew in
  if skew =? 0 then 5 * minute else skew.
Definition withinSkew (s : Server) (now value : Z) : bool :=
  let difference := time_sub value now in
  let difference := if difference <? 0 then i64 (- difference) else difference in
  difference <=? skew s.

(** ** The replay cache *)

Definition maxReplayEntries : Z := 10000.
Abbreviation replays := (gmap bytes Z).

(** The entry with the earliest expiry; the ranging order decides among equals. *)
Definition oldest_entry (r : replays) : option (bytes * Z) :=
  foldl (λ oldest p, match oldest with
                     | None => Some p
                     | Some o => if p.2 <? o.2 then Some p else oldest
                     end) None (map_to_list r).
(** [replayed]: the verdict on a key and the new cache. *)
Definition replayed (s : Server) (now : Z) (key : bytes) (r : replays) : bool * replays :=
  let expires := now + skew s in
  let r := filter (λ p : bytes * Z, now < p.2) r in
  match r !! key with
  | Some expiry => if now <? expiry then (true, r) else (false, <[key := expires]> r)
  | None =>
      let r := if maxReplayEntries <=? Z.of_nat (size r)
               then match oldest_entry r with
                    | Some (oldestKey, _) => if zlen oldestKey =? 0 then r else delete oldestKey r
                    | None => r
                    end
               else r in
      (false, <[key := expires]> r)
  end.

(** ** Keys *)

Definition set_enctype (k : Key) (enctype : Z) : Key := mkKey enctype (Key_KVNO k) (Key_Key k) (Key_Salt k).

Fixpoint selectServiceKey (enctypes : list Z) (service : PrincipalRecord) : option (Z * Key) :=
  match enctypes with
  | [] => None
  | enctype :: enctypes =>
      match p_Keys service !! enctype with
      | Some key => Some (enctype, set_enctype key enctype)
      | None => selectServiceKey enctypes service
      end
  end.

Fixpoint select_historical (history : list keyset) (enctype kvno : Z) : option Key :=
  match history with
  | [] => None
  | historical :: history =>
      match historical !! enctype with
      | Some key => if Key_KVNO key =? kvno then Some (set_enctype key enctype)
                    else select_historical history enctype kvno
      | None => select_historical history enctype kvno
      end
  end.
Definition selectKVNO (record : PrincipalRecord) (enctype : Z) (kvno : option Z) : option Key :=
  let historical :=
    match kvno with
    | Some v => select_historical (p_PasswordHistory record) enctype v
    | None => None
    end in
  match p_Keys record !! enctype with
  | Some key =>
      if match kvno with None => true | Some v => Key_KVNO key =? v end
      then Some (set_enctype key enctype) else historical
  | None => historical
  end.

Fixpoint selectASKeys (enctypes : list Z) (client service : PrincipalRecord) : option (Z * Key * Key) :=
  match enctypes with
  | [] => None
  | enctype :: enctypes =>
      match p_Keys client !! enctype, p_Keys service !! enctype with
      | Some clientKey, Some serviceKey =>
          Some (enctype, set_enctype clientKey enctype, set_enctype serviceKey enctype)
      | _, _ => selectASKeys enctypes client service
      end
  end.

(** ** Lockout *)

Section lockout.
Context {D : Type} `{Store D}.

Definition passwordPolicy (db : D) (record : PrincipalRecord) : option PolicyRecord :=
  if zlen (p_Policy record) =? 0 then None
  else match st_GetPolicy db (p_Policy record) with Ok policy => Some policy | _ => None end.

(** A store operation whose error is ignored. *)
Definition or_same (db : D) (r : res D) : D := match r with Ok db' => db' | _ => db end.

(** [lockedOut]: the verdict, the record as updated in memory and the store. *)
Definition lockedOut (db : D) (now clock : Z) (name : Principal) (record : PrincipalRecord)
    : bool * PrincipalRecord * D :=
  match passwordPolicy db record with
  | None => (false, record, db)
  | Some policy =>
      let '(record, db) :=
        if (0 <? pol_FailureCountInterval policy) && negb (IsZero (p_LastFailed record)) &&
           (p_LastFailed record + seconds (pol_FailureCountInterval policy) <=? now)
        then (set_lockout record 0 (p_LastFailed record) (p_LastSuccess record),
              or_same db (st_ResetAuthFailures db name (p_LastFailed record) clock))
        else (record, db) in
      let locked :=
        if (pol_MaxFailure policy =? 0) || (p_FailAuthCount record <? pol_MaxFailure policy) then false
        else if pol_LockoutDuration policy =? 0 then true
        else now <? p_LastFailed record + seconds (pol_LockoutDuration policy) in
      (locked, record, db)
  end.

Definition failure_interval (policy : option PolicyRecord) : Z :=
  match policy with
  | Some policy => if 0 <? pol_FailureCountInterval policy then seconds (pol_FailureCountInterval policy) else 0
  | None => 0
  end.
Definition recordPreauthFailure (db : D) (now clock : Z) (name : Principal) (record : PrincipalRecord)
    : PrincipalRecord * D :=
  let interval := failure_interval (passwordPolicy db record) in
  match st_RecordAuthFailure db name now interval clock with
  | Ok (count, db) => (set_lockout record count now (p_LastSuccess record), db)
  | _ =>
      let count := if (0 <? interval) && negb (IsZero (p_LastFailed record)) && (p_LastFailed record + interval <=? now)
                   then 0 else p_FailAuthCount record in
      let record := set_lockout record (u32 (count + 1)) now (p_LastSuccess record) in
      (record, or_same db (st_UpdateLockout db name (p_FailAuthCount record) (p_LastFailed record)
                             (p_LastSuccess record) clock))
  end.
Definition recordPreauthSuccess (db : D) (now clock : Z) (name : Principal) (record : PrincipalRecord)
    : PrincipalRecord * D :=
  let updated := set_lockout record 0 (p_LastFailed record) now in
  match st_RecordAuthSuccess db name now clock with
  | Ok db => (updated, db)
  | _ => (updated, or_same db (st_UpdateLockout db name (p_FailAuthCount updated) (p_LastFailed updated)
                                 (p_LastSuccess updated) clock))
  end.
End lockout.

(** ** Accounts *)

Definition kdcErrNameExpired : Z := 1.
Definition kdcErrServiceExpired : Z := 2.
Definition kdcErrSPrincipal : Z := 7.
Definition kdcErrCannotPostdate : Z := 10.
Definition kdcErrPolicy : Z := 12.
Definition kdcErrBadOption : Z := 13.
Definition kdcErrClientRevoked : Z := 18.
Definition kdcErrKeyExpired : Z := 23.
Definition kdcErrMustUseUser2User : Z := 27.
Definition krbAPErrTktExpired : Z := 32.
Definition krbAPErrTktNYV : Z := 33.

Definition passwordExpired (now : Z) (record : PrincipalRecord) : bool :=
  negb (IsZero (p_PasswordExpiration record)) && negb (now <? p_PasswordExpiration record).
Definition passwordExpiredForService (now : Z) (client service : PrincipalRecord) : bool :=
  passwordExpired now client && negb (has (p_Flags service) PWChangeService).
Definition expired (now : Z) (record : PrincipalRecord) : bool :=
  negb (IsZero (p_Expiration record)) && (p_Expiration record <? now).

(** Zero for an account that may be used. *)
Definition validateASAccount (now : Z) (client service : PrincipalRecord) (options : Z) : Z :=
  if expired now client then kdcErrNameExpired
  else if passwordExpiredForService now client service then kdcErrKeyExpired
  else if expired now service then kdcErrServiceExpired
  else if has (p_Flags client) DisallowAllTickets then kdcErrClientRevoked
  else if has (p_Flags service) DisallowAllTickets then kdcErrSPrincipal
  else if has (p_Flags service) DisallowServer then kdcErrMustUseUser2User
  else if has (p_Flags client) RequiresPWChange && negb (has (p_Flags service) PWChangeService)
  then kdcErrKeyExpired
  else if has options (with_flags KDCAllowPostdate KDCPostdated) &&
          (has (p_Flags client) DisallowPostdated || has (p_Flags service) DisallowPostdated)
  then kdcErrCannotPostdate
  else 0.
Definition validateS4UClient (now : Z) (client : PrincipalRecord) : Z :=
  if expired now client then kdcErrNameExpired
  else if has (p_Flags client) DisallowAllTickets then kdcErrClientRevoked
  else 0.

(** ** Presented tickets *)

(** The error code, or nothing for a ticket that is usable now. *)
Definition ticketValidityWithInvalidMode (s : Server) (now : Z) (ticket : EncTicketPart) (allowInvalid : bool)
    : option Z :=
  if negb allowInvalid && has (tp_Flags ticket) TicketInvalid then Some krbAPErrTktNYV
  else if match tp_StartTime ticket with
          | Some start => Present start && (now + skew s <? Time start)
          | None => false
          end then Some krbAPErrTktNYV
  else if Present (tp_EndTime ticket) && (Time (tp_EndTime ticket) <? now - skew s) then Some krbAPErrTktExpired
  else None.
Definition ticketValidity (s : Server) (now : Z) (ticket : EncTicketPart) : option Z :=
  ticketValidityWithInvalidMode s now ticket false.
Definition ticketValidityWithInvalid (s : Server) (now : Z) (ticket : EncTicketPart) : option Z :=
  ticketValidityWithInvalidMode s now ticket true.

(** ** The times of issued tickets *)

Definition ticketTillSet (till : KerberosTime) : bool := Present till && negb (Time till =? 0).

(** The lower of a limit and that of a record, if it has one. *)
Definition limit_by (limit : Z) (value : option Z) : Z :=
  match value with
  | Some v => if (0 <? v) && (v <? limit) then v else limit
  | None => limit
  end.
Definition ticketEndFromRecords (s : Server) (till : KerberosTime) (start : Z)
    (client service : option PrincipalRecord) : KerberosTime :=
  let maxLife := if s_MaxTicketLife s <=? 0 then 10 * hour else s_MaxTicketLife s in
  let maxLife := limit_by maxLife (p_MaxLife <$> client) in
  let maxLife := limit_by maxLife (p_MaxLife <$> service) in
  let end_ := start + maxLife in
  let end_ :=
    if negb (ticketTillSet till) then
      if (0 <? s_DefaultTicketLife s) && (s_DefaultTicketLife s <? maxLife)
      then start + s_DefaultTicketLife s else end_
    else if Time till <? end_ then Time till else end_ in
  let end_ := if end_ <? start then start else end_ in
  at_time (truncate_s end_).

Definition renewTillRecords (s : Server) (options : Z) (requested : option KerberosTime) (till : KerberosTime)
    (start end_ : Z) (client service : option PrincipalRecord) : option KerberosTime :=
  let renewable := has options KDCRenewable in
  let hasTill := ticketTillSet till in
  if negb renewable && (negb (has options KDCRenewableOK) || (hasTill && (Time till <=? end_))) then None else
  let target :=
    if renewable then
      match requested with
      | Some r => if ticketTillSet r then Time r
                  else if 0 <? s_DefaultRenewableLife s then start + s_DefaultRenewableLife s
                  else if hasTill then Time till else start + s_MaxRenewableLife s
      | None => if 0 <? s_DefaultRenewableLife s then start + s_DefaultRenewableLife s
                else if hasTill then Time till else start + s_MaxRenewableLife s
      end
    else if hasTill then Time till
    else if 0 <? s_DefaultRenewableLife s then start + s_DefaultRenewableLife s
    else start + s_MaxRenewableLife s in
  if (target <=? end_) && negb renewable then None else
  let maxRenewableLife := limit_by (s_MaxRenewableLife s) (p_MaxRenew <$> client) in
  let maxRenewableLife := limit_by maxRenewableLife (p_MaxRenew <$> service) in
  if maxRenewableLife <=? 0 then None else
  let capTime := start + maxRenewableLife in
  let target := if capTime <? target then capTime else target in
  if (target <=? end_) && negb renewable then None else
  if target <=? start then None else
  Some (at_time (truncate_s target)).

(** ** The flags of issued tickets *)

Definition applyFlagPolicy (s : Server) (flags : Z) : Z :=
  match s_Policy s with
  | None => flags
  | Some policy =>
      let flags := if negb (AllowForwardable policy) then without flags TicketForwardable else flags in
      let flags := if negb (AllowProxiable policy) then without flags TicketProxiable else flags in
      if negb (AllowRenewable policy) then without flags TicketRenewable else flags
  end.
Definition record_denies (record : option PrincipalRecord) (flag : Z) : bool :=
  match record with Some r => has (p_Flags r) flag | None => false end.
Definition applyPrincipalFlagPolicy (flags : Z) (client service : option PrincipalRecord) : Z :=
  let flags := if record_denies client DisallowForwardable then without flags TicketForwardable else flags in
  let flags := if record_denies service DisallowForwardable then without flags TicketForwardable else flags in
  let flags := if record_denies client DisallowProxiable then without flags TicketProxiable else flags in
  let flags := if record_denies service DisallowProxiable then without flags TicketProxiable else flags in
  let flags := if record_denies client DisallowRenewable then without flags TicketRenewable else flags in
  if record_denies service DisallowRenewable then without flags TicketRenewable else flags.

(** ** Policy modules *)

Record KDCPolicyResult := mkPolicyResult { Lifetime : Z; RenewLifetime : Z }.
Definition constrainTicketTimes (now : Z) (result : KDCPolicyResult) (endTime : KerberosTime)
    (renewTill : option KerberosTime) : KerberosTime * option KerberosTime :=
  let limited life (t : KerberosTime) :=
    let limit := now + life in
    if limit <? Time t then mkKTime limit (Microseconds t) (Present t) else t in
  (if negb (Lifetime result =? 0) then limited (Lifetime result) endTime else endTime,
   if negb (RenewLifetime result =? 0) then limited (RenewLifetime result) <$> renewTill else renewTill).
(** The error of a module or hook: a Kerberos code if it has one, and its text. *)
Record HookError := mkHookError { he_Code : option Z; he_Text : bytes }.
Definition policyErrorCode (err : HookError) : Z :=
  match he_Code err with
  | Some candidate => if (0 <=? candidate) && (candidate <=? 128) then candidate else kdcErrPolicy
  | None => kdcErrPolicy
  end.
(** The modules in order; each gives constraints or an error. *)
Fixpoint apply_policies (now : Z) (modules : list (KDCPolicyResult + HookError)) (endTime : KerberosTime)
    (renewTill : option KerberosTime) : HookError + (KerberosTime * option KerberosTime) :=
  match modules with
  | [] => inr (endTime, renewTill)
  | inr err :: _ => inl err
  | inl result :: modules =>
      let '(endTime, renewTill) := constrainTicketTimes now result endTime renewTill in
      apply_policies now modules endTime renewTill
  end.

(** ** Lifetimes *)

Lemma limit_by_le limit value : limit_by limit value <= limit.
Proof. unfold limit_by. destruct value as [v|]; [|lia]. destruct (_ && _)%bool eqn:E; [|lia]. bool_cases. lia. Qed.
Lemma limit_by_value limit v : 0 < v → limit_by limit (Some v) <= v.
Proof. intros Hv. unfold limit_by. destruct (Z.ltb_spec 0 v), (Z.ltb_spec v limit); cbn [andb]; lia. Qed.
Lemma limit_by_pos limit value : 0 < limit → 0 < limit_by limit value.
Proof. intros Hl. unfold limit_by. destruct value as [v|]; [|lia]. destruct (_ && _)%bool eqn:E; [|lia]. bool_cases. lia. Qed.
Lemma truncate_s_le t : t - second < truncate_s t <= t.
Proof. unfold truncate_s. pose proof (Z.mod_pos_bound (t - zero_time) second ltac:(done)). lia. Qed.
Lemma truncate_s_mono a b : a <= b → truncate_s a <= truncate_s b.
Proof.
  intros Hab. unfold truncate_s.
  pose proof (Z.div_mod (a - zero_time) second ltac:(done)). pose proof (Z.div_mod (b - zero_time) second ltac:(done)).
  pose proof (Z.div_le_mono (a - zero_time) (b - zero_time) second ltac:(done) ltac:(lia)). unfold second in *. lia.
Qed.

(** The longest life of a ticket of the two principals. *)
Definition max_life (s : Server) (client service : option PrincipalRecord) : Z :=
  limit_by (limit_by (if s_MaxTicketLife s <=? 0 then 10 * hour else s_MaxTicketLife s) (p_MaxLife <$> client))
    (p_MaxLife <$> service).

Lemma limit_records base (f : PrincipalRecord → Z) client service r :
  client = Some r ∨ service = Some r → 0 < f r →
  limit_by (limit_by base (f <$> client)) (f <$> service) <= f r.
Proof.
  intros [-> | ->] Hr; [|by apply limit_by_value]. etransitivity; [apply limit_by_le|by apply limit_by_value].
Qed.

(** The end before it is cut to the second. *)
Lemma ticket_end_spec s till start client service :
  ∃ e, Time (ticketEndFromRecords s till start client service) = truncate_s e ∧
    start <= e <= start + max_life s client service ∧
    (ticketTillSet till = true → start <= Time till → e <= Time till).
Proof.
  assert (Hpos : 0 < max_life s client service).
  { apply limit_by_pos, limit_by_pos. destruct (Z.leb_spec (s_MaxTicketLife s) 0); [done|lia]. }
  eexists. split; [reflexivity|]. fold (max_life s client service).
  destruct (ticketTillSet till); cbn [negb]; repeat case_match; bool_cases; split; try lia; try (intros; lia).
Qed.

Lemma renew_till_spec s options requested till start end_ client service t :
  renewTillRecords s options requested till start end_ client service = Some t →
  ∃ target, Time t = truncate_s target ∧ start < target ∧
    target <= start + limit_by (limit_by (s_MaxRenewableLife s) (p_MaxRenew <$> client)) (p_MaxRenew <$> service) ∧
    has options KDCRenewable || has options KDCRenewableOK = true.
Proof.
  unfold renewTillRecords. cbv zeta.
  destruct (negb (has options KDCRenewable) && _) eqn:Hopt; [done|].
  set (target := if has options KDCRenewable then _ else _). clearbody target.
  set (life := limit_by (limit_by _ _) _).
  destruct ((target <=? end_) && negb (has options KDCRenewable)); [done|].
  destruct (Z.leb_spec life 0); [done|].
  set (cap := start + life). set (target' := if cap <? target then cap else target).
  destruct ((target' <=? end_) && negb (has options KDCRenewable)); [done|]. destruct (Z.leb_spec target' start) as [|Hs]; [done|]. intros [= <-].
  exists target'. split_and!; [done|done| |].
  - unfold target'. destruct (Z.ltb_spec cap target); lia.
  - destruct (has options KDCRenewable); [done|]. destruct (has options KDCRenewableOK); done.
Qed.


(** ** Replays *)

(** A series of requests: the clock and the key of each. *)
Definition replay_run (s : Server) (r : replays) (calls : list (Z * bytes)) : replays :=
  foldl (λ r c, (replayed s c.1 c.2 r).2) r calls.

Lemma filter_size_le (now : Z) (r : replays) :
  (size (filter (λ p : bytes * Z, (now < p.2)%Z) r) <= size r)%nat.
Proof. apply map_subseteq_size, map_filter_subseteq. Qed.

Lemma replayed_size s now key r : (size (replayed s now key r).2 <= S (size r))%nat.
Proof.
  pose proof (filter_size_le now r) as Hf. unfold replayed. set (r' := filter _ r) in *.
  destruct (r' !! key) as [e|] eqn:Hk.
  - destruct (now <? e); cbn; [lia|]. rewrite map_size_insert, Hk. unfold id. lia.
  - cbn. set (r'' := if _ <=? _ then _ else r'). assert (Hs : (size r'' <= size r')%nat).
    { unfold r''. repeat case_match; try lia. rewrite map_size_delete. case_match; unfold id; lia. }
    rewrite map_size_insert. case_match; unfold id; lia.
Qed.

(** A live entry survives another request while there is room. *)
Lemma replayed_keeps s now key r k e :
  r !! k = Some e → now < e → Z.of_nat (size r) < maxReplayEntries →
  k ≠ key → (replayed s now key r).2 !! k = Some e.
Proof.
  intros Hk He Hsz Hne. pose proof (filter_size_le now r) as Hf. unfold replayed. set (r' := filter _ r) in *.
  assert (Hk' : r' !! k = Some e) by (by apply map_lookup_filter_Some).
  rewrite (proj2 (Z.leb_gt _ _)) by lia.
  destruct (r' !! key); [destruct (now <? z)|]; cbn; rewrite ?lookup_insert_ne by done; done.
Qed.
Lemma replayed_again s now key r e :
  r !! key = Some e → now < e → replayed s now key r = (true, filter (λ p : bytes * Z, now < p.2) r).
Proof.
  intros Hk He. unfold replayed. rewrite (proj2 (map_lookup_filter_Some _ _ _ _)) by (split; [exact Hk|exact He]).
  by rewrite (proj2 (Z.ltb_lt _ _) He).
Qed.

Lemma replay_run_keeps s calls : ∀ r key e,
  r !! key = Some e → Forall (λ c, c.1 < e) calls → Z.of_nat (size r) + zlen calls < maxReplayEntries →
  replay_run s r calls !! key = Some e.
Proof.
  induction calls as [|[now k] calls IH]; intros r key e Hk Hc Hsz; [done|].
  apply Forall_cons in Hc as [Hnow Hc]. cbn in Hnow. rewrite zlen_cons in Hsz. pose proof (zlen_nonneg calls).
  cbn [replay_run foldl]. apply IH; [|done|pose proof (replayed_size s now k r); cbn; lia].
  cbn [fst snd]. destruct (decide (k = key)) as [->|Hne]; [|apply replayed_keeps; [done|done|lia|done]].
  rewrite (replayed_again s now key r e) by done. cbn. by apply map_lookup_filter_Some.
Qed.

(** An accepted key is in the cache until a skew later. *)
Lemma replayed_records s now key r r' : replayed s now key r = (false, r') → r' !! key = Some (now + skew s).
Proof.
  unfold replayed. destruct (filter _ r !! key) as [e|]; [destruct (now <? e); [done|]|];
    injection 1 as <-; apply lookup_insert_eq.
Qed.

(** C24: once an authenticator is accepted, the same one is refused for as long
    as the clock skew lasts, whatever other requests come in between, while the
    cache has room for them. *)
Theorem authenticator_replay_detected s r key now calls now' :
  (replayed s now key r).1 = false → let r1 := (replayed s now key r).2 in
  Forall (λ c, c.1 < now + skew s) calls → Z.of_nat (size r) + zlen calls + 1 < maxReplayEntries →
  now' < now + skew s → (replayed s now' key (replay_run s r1 calls)).1 = true.
Proof.
  intros Hnew r1 Hcalls Hsz Hnow'.
  assert (Hr1 : r1 !! key = Some (now + skew s)).
  { apply (replayed_records s now key r). unfold r1. by destruct (replayed s now key r) as [[] ?]. }
  rewrite (replayed_again s now' key _ (now + skew s)); [done| |done].
  apply replay_run_keeps; [done|done|]. pose proof (replayed_size s now key r). unfold r1. lia.
Qed.

(** C36: an authenticator stamped ahead of the clock outlives its entry: it is
    accepted a skew before its time stamp, and accepted again at its time stamp,
    when the entry has just expired. *)
Theorem future_authenticator_replayed s r key ctime :
  0 < skew s < 2 ^ 63 → r !! key = None →
  let early := ctime - skew s in
  withinSkew s early ctime = true ∧ (replayed s early key r).1 = false ∧
  withinSkew s ctime ctime = true ∧ (replayed s ctime key (replayed s early key r).2).1 = false.
Proof.
  intros Hskew Hk early.
  assert (Hw : ∀ d, 0 <= d <= skew s → withinSkew s (ctime - d) ctime = true).
  { intros d Hd. unfold withinSkew, time_sub. replace (ctime - (ctime - d)) with d by lia.
    rewrite (proj2 (Z.ltb_ge _ 0)) by lia. apply Z.leb_le. lia. }
  assert (Hf : ∀ now (m : replays), m !! key = None → filter (λ p : bytes * Z, now < p.2) m !! key = None)
    by (intros; apply map_lookup_filter_None; by left).
  split_and!; [apply Hw; lia| |replace ctime with (ctime - 0) at 1 by lia; apply Hw; lia|].
  - unfold replayed. by rewrite Hf.
  - assert (He : (replayed s early key r).2 !! key = Some ctime).
    { unfold replayed. rewrite Hf by done. cbn. rewrite lookup_insert_eq. f_equal. unfold early. lia. }
    unfold replayed at 1. rewrite (proj2 (map_lookup_filter_None _ _ _)); [done|].
    right. intros x Hx. rewrite He in Hx. injection Hx as <-. cbn. lia.
Qed.

Definition test_server : Server :=
  default_server (str "R").
Lemma authenticator_replay_detected_witness :
  (replayed test_server 0 (str "k") ∅).1 = false ∧
  (replayed test_server 7 (str "k") (replay_run test_server (replayed test_server 0 (str "k") ∅).2 [(3, str "j")])).1 = true.
Proof.
  split; [vm_compute; reflexivity|].
  apply (authenticator_replay_detected test_server ∅ (str "k") 0 [(3, str "j")] 7);
    [vm_compute; reflexivity|repeat constructor|vm_compute; reflexivity|vm_compute; reflexivity].
Defined.
Lemma future_authenticator_replayed_witness :
  let s := test_server in
  withinSkew s (0 - skew s) 0 = true ∧ (replayed s (0 - skew s) (str "k") ∅).1 = false ∧
  withinSkew s 0 0 = true ∧ (replayed s 0 (str "k") (replayed s (0 - skew s) (str "k") ∅).2).1 = false.
Proof.
  apply (future_authenticator_replayed test_server ∅ (str "k") 0); [vm_compute; split; reflexivity|vm_compute; reflexivity].
Defined.

(** ** Account lockout *)

(** Failed attempts at the times given, each on the record the store has then. *)
Definition fail_once (name : Principal) (db : Database) (now : Z) : Database :=
  match Lookup db name with
  | Some record => (recordPreauthFailure db now now name record).2
  | None => db
  end.
Definition fail_all (name : Principal) (db : Database) (times : list Z) : Database :=
  foldl (fail_once name) db times.

(** Each attempt comes before the count of the one before it is forgotten. *)
Fixpoint close_attempts (interval : Z) (times : list Z) : Prop :=
  match times with
  | t :: ((t' :: _) as rest) => (0 < interval → t' < t + interval) ∧ close_attempts interval rest
  | _ => True
  end.

(** The policy a record is under. *)
Definition under_policy (db : Database) (r : PrincipalRecord) (policy : PolicyRecord) : Prop :=
  passwordPolicy db r = Some policy.

Lemma seconds_small n : 0 <= n < 2 ^ 32 → seconds n = n * second.
Proof.
  intros Hn. unfold seconds, i64, signed. unfold second. rewrite Z.mod_small by lia.
  by rewrite (proj2 (Z.ltb_lt _ _)) by lia.
Qed.

Lemma under_policy_store db key r r' now policy :
  under_policy db r policy → p_Policy r' = p_Policy r → under_policy (store_record db key r' now) r' policy.
Proof.
  unfold under_policy, passwordPolicy. intros Hp ->. destruct (_ =? 0); [done|].
  cbn [st_GetPolicy database_store] in *. unfold GetPolicy in *.
  replace (db_policies (store_record db key r' now)) with (db_policies db); [done|].
  unfold store_record, recordUpdateLocked. by destruct (db_UpdateLog _).
Qed.

Lemma fail_once_spec db name now r policy :
  Lookup db name = Some r → under_policy db r policy →
  let count := next_fail_count r now (failure_interval (Some policy)) in
  let r' := set_lockout r count now (p_LastSuccess r) in
  Lookup (fail_once name db now) name = Some r' ∧ under_policy (fail_once name db now) r' policy.
Proof.
  intros Hr Hp. cbv zeta. unfold fail_once. rewrite Hr. unfold recordPreauthFailure. rewrite Hp. cbn [st_RecordAuthFailure database_store].
  unfold RecordAuthFailure, with_record. unfold Lookup in Hr. rewrite Hr. cbn [snd].
  split; [|by eapply under_policy_store].
  unfold Lookup, store_record. rewrite recordUpdate_principals. apply lookup_insert_eq.
Qed.

Lemma fail_all_count name policy times : ∀ db r,
  Lookup db name = Some r → under_policy db r policy →
  0 <= p_FailAuthCount r → p_FailAuthCount r + zlen times < 2 ^ 32 →
  close_attempts (failure_interval (Some policy)) (p_LastFailed r :: times) →
  ∃ r', Lookup (fail_all name db times) name = Some r' ∧ under_policy (fail_all name db times) r' policy ∧
    p_FailAuthCount r' = p_FailAuthCount r + zlen times ∧
    p_LastFailed r' = default (p_LastFailed r) (last times).
Proof.
  induction times as [|t times IH]; intros db r Hr Hp H0 Hlt Hc.
  - exists r. split_and!; [done|done|change (zlen []) with 0; lia|done].
  - rewrite zlen_cons in *. pose proof (zlen_nonneg times). destruct Hc as [Hgap Hc].
    destruct (fail_once_spec db name t r policy Hr Hp) as [Hr' Hp'].
    assert (Hcount : next_fail_count r t (failure_interval (Some policy)) = p_FailAuthCount r + 1).
    { unfold next_fail_count. destruct (_ && _ && _) eqn:E; [|apply Z.mod_small; lia].
      bool_cases. specialize (Hgap ltac:(lia)). lia. }
    rewrite Hcount in Hr', Hp'. eapply IH in Hr' as (r' & H1 & H2 & H3 & H4); [|done|cbn; lia|cbn; lia|exact Hc].
    exists r'. cbn [fail_all foldl]. split_and!; [done|done|rewrite H3; cbn; lia|]. rewrite H4, last_cons. cbn [p_LastFailed set_lockout].
    by destruct (last times).
Qed.

(** An account whose failed attempts start from nothing and come within the
    counting interval is locked exactly when their number reaches the limit of
    its policy, for as long as the policy says. *)
Theorem lockout_enforced db name r policy first times now clock r' :
  Lookup db name = Some r → under_policy db r policy → p_FailAuthCount r = 0 →
  0 < pol_MaxFailure policy → 0 <= pol_FailureCountInterval policy < 2 ^ 32 → zlen (first :: times) < 2 ^ 32 →
  close_attempts (failure_interval (Some policy)) (first :: times) →
  let db' := fail_all name db (first :: times) in
  let latest := default first (last times) in
  Lookup db' name = Some r' → latest <= now →
  (0 < failure_interval (Some policy) → now < latest + failure_interval (Some policy)) →
  (pol_LockoutDuration policy = 0 ∨ now < latest + seconds (pol_LockoutDuration policy)) →
  (lockedOut db' now clock name r').1.1 = (pol_MaxFailure policy <=? zlen (first :: times)).
Proof.
  intros Hr Hp H0 Hmax Hfci Hlen Hclose db' latest Hr' Hnow Hint Hdur.
  destruct (fail_once_spec db name first r policy Hr Hp) as [Hr1 Hp1].
  assert (Hcount : next_fail_count r first (failure_interval (Some policy)) = 1)
    by (unfold next_fail_count; rewrite H0; by destruct (_ && _ && _)).
  rewrite Hcount in Hr1, Hp1. rewrite zlen_cons in *.
  eapply (fail_all_count name policy times) in Hr1 as (r2 & Hr2 & Hp2 & Hc2 & Hl2); [|done|cbn; lia|change (1 + zlen times < 2 ^ 32); lia|exact Hclose].
  change (fail_all name (fail_once name db first) times) with db' in Hr2, Hp2.
  assert (r2 = r') as -> by congruence. cbn [p_FailAuthCount p_LastFailed set_lockout] in Hc2, Hl2. fold latest in Hl2.
  unfold lockedOut. rewrite Hp2, Hl2.
  replace ((0 <? pol_FailureCountInterval policy) && _ && _) with false.
  2: { symmetry. apply not_true_is_false. intros [[Hi _]%andb_true_iff Hle]%andb_true_iff.
       unfold failure_interval in Hint. rewrite Hi in Hint. bool_cases.
       rewrite seconds_small in * by lia. unfold second in *. specialize (Hint ltac:(lia)). lia. }
  cbn [fst]. rewrite (proj2 (Z.eqb_neq _ 0)) by lia. cbn [orb].
  destruct (Z.ltb_spec (p_FailAuthCount r') (pol_MaxFailure policy)) as [Hlt|Hge].
  - symmetry. apply Z.leb_gt. lia.
  - rewrite (proj2 (Z.leb_le _ _)) by lia. destruct Hdur as [->|Hdur]; [done|]. destruct (_ =? 0); [done|].
    rewrite Hl2. by apply Z.ltb_lt.
Qed.

Definition lock_policy : PolicyRecord := mkPolicy (str "p") 0 0 0 0 0 2 60 0 0 0 0 [].
Definition lock_record : PrincipalRecord := set_policy (empty_record name_a ∅ 1 0) (str "p") 0 0 zero_time.
Definition lock_db : Database :=
  with_policies (put_principal (NewDatabase (str "R")) (canonical name_a) lock_record) {[ str "p" := lock_policy ]}.
Lemma lockout_enforced_witness :
  let db' := fail_all name_a lock_db [5; 9] in
  (lockedOut db' 11 11 name_a (default lock_record (Lookup db' name_a))).1.1 = true.
Proof.
  intros db'.
  apply (lockout_enforced lock_db name_a lock_record lock_policy 5 [9] 11 11 (default lock_record (Lookup db' name_a)));
    [vm_compute; reflexivity|vm_compute; reflexivity|vm_compute; reflexivity|vm_compute; reflexivity
    |vm_compute; split; [discriminate|reflexivity]|vm_compute; reflexivity|split; [intros _; vm_compute; reflexivity|exact I]
    |vm_compute; reflexivity|vm_compute; discriminate|intros _; vm_compute; reflexivity|left; vm_compute; reflexivity].
Defined.
