(* ===== verification/KdcCommon.v ===== *)
(** * What the exchanges of the KDC share (src/krb5/kdc/kdc.go, pac.go, fast.go, policy.go, pkinit_freshness.go)

    The errors of the handlers and the messages they become, names, the keys of
    the realm, aliases, authorization data: the CAMMAC container and the MS-PAC
    of an issued ticket, and the FAST wrapping of replies and errors.

    The principal store, the configured hooks, random bytes and the clock are
    arguments. *)

From S2P Require Import Prelude Principal GoStrings Crypto Ulog Kdb Protocol Asn1 Wire Cammac Pac PacData Transited KdcPolicy.
Local Open Scope Z_scope.

(** ** Errors *)

Record fastContext := mkFast { fc_etype : EType; fc_key : bytes; fc_nonce : Z; fc_cookie : option PAData }.
(** The code of a KRB-ERROR, its e-data and text, and the armor that protects it. *)
Record kdc_error := mkError { ke_armor : option fastContext; ke_code : Z; ke_data : bytes; ke_text : bytes }.

Declare Scope kdc_scope.
(** An error reply, or the panic of a nil pointer, which nothing recovers. *)
Inductive failure := ErrorReply (e : kdc_error) | Crash.
(** Results of the handler: a failure, or a value. *)
Definition E (A : Type) : Type := failure + A.
Definition e_bind {A B} (c : E A) (k : A → E B) : E B := match c with inl e => inl e | inr a => k a end.
Notation "'do' x ':=' c 'in' k" := (e_bind c (λ x, k)) (at level 10, x name, c at level 100, k at level 200) : kdc_scope.
Notation "'do' ' p ':=' c 'in' k" := (e_bind c (λ x, match x with p => k end))
  (at level 10, p pattern, c at level 100, k at level 200) : kdc_scope.
Local Open Scope kdc_scope.
Definition fail {A} (armor : option fastContext) (code : Z) : E A := inl (ErrorReply (mkError armor code [] [])).
(** Fail with a code unless the condition holds. *)
Definition require (armor : option fastContext) (b : bool) (code : Z) : E unit :=
  if b then inr tt else fail armor code.
(** A fallible call whose error becomes a code. *)
Definition orelse {A} (armor : option fastContext) (code : Z) (r : res A) : E A :=
  match r with Ok a => inr a | _ => fail armor code end.
(** [*p] of a pointer. *)
Definition deref {A} (r : option A) : E A := match r with Some a => inr a | None => inl Crash end.
Definition orelse_some {A} (armor : option fastContext) (code : Z) (r : option A) : E A :=
  match r with Some a => inr a | None => fail armor code end.

(** The code of an unusable ticket. *)
Definition check_validity (armor : option fastContext) (validity : option Z) : E unit :=
  match validity with Some code => fail armor code | None => inr tt end.

(** *** Inversion of successful handlers *)

Lemma e_bind_inr {A B} (c : E A) (k : A → E B) b : e_bind c k = inr b → ∃ a, c = inr a ∧ k a = inr b.
Proof. destruct c; [done|]. by eexists. Qed.
Lemma require_inr armor b code x : require armor b code = inr x → b = true.
Proof. by destruct b. Qed.
Lemma orelse_inr {A} armor code (r : res A) a : orelse armor code r = inr a → r = Ok a.
Proof. destruct r; cbn; [|done..]. by intros [= ->]. Qed.
Lemma orelse_some_inr {A} armor code (r : option A) a : orelse_some armor code r = inr a → r = Some a.
Proof. destruct r; cbn; [|done]. by intros [= ->]. Qed.
Lemma deref_inr {A} (r : option A) a : deref r = inr a → r = Some a.
Proof. destruct r; cbn; [|done]. by intros [= ->]. Qed.
Lemma check_validity_inr armor v x : check_validity armor v = inr x → v = None.
Proof. by destruct v. Qed.

(** Split the steps of a handler that succeeded. *)
Ltac inv_e :=
  repeat match goal with
  | Hx : e_bind _ _ = inr _ |- _ => apply e_bind_inr in Hx as (? & ? & Hx)
  | Hx : require _ _ _ = inr _ |- _ => apply require_inr in Hx
  | Hx : orelse _ _ _ = inr _ |- _ => apply orelse_inr in Hx
  | Hx : orelse_some _ _ _ = inr _ |- _ => apply orelse_some_inr in Hx
  | Hx : deref _ = inr _ |- _ => apply deref_inr in Hx
  | Hx : check_validity _ _ = inr _ |- _ => apply check_validity_inr in Hx
  | Hx : fail _ _ = inr _ |- _ => discriminate Hx
  | Hx : inl _ = inr _ |- _ => discriminate Hx
  | Hx : inr ?a = inr ?b |- _ => assert (a = b) by congruence; clear Hx
  | Hx : context [match ?p with (_, _) => _ end] |- _ => is_var p; destruct p
  end.

Definition kdcErrCPrincipal : Z := 6.
Definition kdcErrServiceUnknown : Z := 7.
Definition kdcErrETypeNoSupp : Z := 14.
Definition kdcErrPreauthFailed : Z := 24.
Definition kdcErrServerNoMatch : Z := 26.
Definition krbAPErrBadIntegrity : Z := 31.
Definition krbAPErrRepeat : Z := 34.
Definition krbAPErrSkew : Z := 37.
Definition krbAPErrInKeyUsage : Z := 44.
Definition kdcErrGeneric : Z := 60.

(** ** Names *)

Definition principalFromProtocol (value : PrincipalName) (realm : bytes) : Principal :=
  mkPrincipal realm (NameType_ value) (NameString value).
Definition protocolPrincipal (value : Principal) : PrincipalName := mkPName (NameType value) (Components value).
Definition sameProtocolPrincipal (left right : PrincipalName) : bool :=
  (NameType_ left =? NameType_ right) && bool_decide (NameString left = NameString right).
Definition samePrincipalIdentity (left right : Principal) : bool :=
  bytes_eqb (Realm left) (Realm right) && (NameType left =? NameType right) &&
  bool_decide (Components left = Components right).
Definition krbtgt : bytes := str "krbtgt".
Definition local_tgt (s : Server) : Principal := mkPrincipal (s_Realm s) NTSrvInstance [krbtgt; s_Realm s].
Definition isAnonymousPrincipal (p : Principal) : bool :=
  (NameType p =? NTWellKnown) && bool_decide (Components p = [str "WELLKNOWN"; str "ANONYMOUS"]).
Definition rejectBadTransit (s : Server) : bool :=
  if negb (s_RejectBadTransitSet s) then true else s_RejectBadTransit s.
Definition restrictAnonymous (s : Server) (client service : Principal) : bool :=
  if negb (s_RestrictAnonymousToTGT s) || negb (isAnonymousPrincipal client) then false
  else negb (bytes_eqb (Realm service) (s_Realm s)) || negb (NameType service =? NTSrvInstance) ||
       negb (bool_decide (Components service = [krbtgt; s_Realm s])).
Definition listContains (values : list bytes) (item : bytes) : bool := bool_decide (item ∈ values).
Definition referralAllowed (s : Server) (service : Principal) (canonicalize encTktInSKey : bool) : bool :=
  match Components service with
  | [first; _] =>
      if negb canonicalize || encTktInSKey then false
      else if (NameType service =? NTUnknown) && negb (listContains (s_HostBasedServices s) first) &&
              negb (listContains (s_HostBasedServices s) (str "*")) then false
      else let host := (NameType service =? NTUnknown) || (NameType service =? NTSrvHst) ||
                       (NameType service =? NTSrvInstance) in
           if host && (listContains (s_NoHostReferral s) first || listContains (s_NoHostReferral s) (str "*"))
           then false else host
  | _ => false
  end.

Definition mandatoryChecksumType (etype : Z) : Z :=
  match checksumType etype with Ok t => t | _ => 0 end.

Definition paTGSReq : Z := 1.
Definition PAFXCookie : Z := 133.
Definition PAFXFast : Z := 136.
Definition UsageReqChecksum : Z := 50.
Definition UsageReq : Z := 51.
Definition findPA (data : MethodData) (kind : Z) : option PAData :=
  List.find (λ pa, PADataType pa =? kind) data.

Section common.
Context `{GoCrypto} (fips : bool) {D : Type} `{Store D} (s : Server) (db : D).

Definition lookup_record (armor : option fastContext) (code : Z) (name : Principal) : E (option PrincipalRecord) :=
  orelse armor code (st_Lookup db name).

Definition lookupAlias (name : Principal) : res (option (PrincipalRecord * Principal)) :=
  res_bind (st_ResolveAlias db name) (λ alias,
  match alias with
  | None => Ok None
  | Some canonicalName =>
      if (zlen (Realm canonicalName) =? 0) || (zlen (Components canonicalName) =? 0)
      then Err "alias resolver returned invalid canonical principal"
      else res_bind (st_Lookup db canonicalName) (λ record,
           match record with
           | None => Ok None
           | Some record =>
               Ok (Some (record, if negb (zlen (Realm (p_Name record)) =? 0) && (0 <? zlen (Components (p_Name record)))
                                 then p_Name record else canonicalName))
           end)
  end).

(** The first key of the list whose type is supported. *)
Definition first_key (enctypes : list Z) (keys : keyset) : option Key :=
  head (omap (λ enctype, key ← keys !! enctype;
                         if is_ok (Registry_Get fips enctype) then Some (set_enctype key enctype) else None) enctypes).
Definition freshnessKey (enctypes : list Z) : option Key :=
  let enctypes := if zlen enctypes =? 0
                  then [EnctypeAES256SHA1; EnctypeAES128SHA1; EnctypeAES256SHA384; EnctypeAES128SHA256;
                        EnctypeCamellia128; EnctypeCamellia256] else enctypes in
  match st_Lookup db (local_tgt s) with
  | Ok (Some record) =>
      match first_key enctypes (p_Keys record) with
      | Some key => Some key
      | None => first_key (merge_sort Z.le (map_to_list (p_Keys record)).*1) (p_Keys record)
      end
  | _ => None
  end.
Definition pacPrivsvrKey : option Key :=
  match st_Lookup db (local_tgt s) with
  | Ok (Some record) =>
      first_key (merge_sort Z.le (map_to_list
        (filter (λ p : Z * Key, Key_KVNO p.2 = 0 ∨ p_KVNO record = 0 ∨ Key_KVNO p.2 = p_KVNO record) (p_Keys record))).*1)
        (p_Keys record)
  | _ => None
  end.

Definition encryptWithKey (confounder : res bytes) (key : Key) (usage : Z) (plaintext : bytes) : res bytes :=
  res_bind (Registry_Get fips (Key_Enctype key)) (λ etype,
  etype_Encrypt etype confounder (Key_Key key) usage plaintext).

(** ** The CAMMAC of a ticket *)

(** The two loops of [stripCAMMAC]. *)
Fixpoint stripCAMMAC (data : AuthorizationData) : res AuthorizationData :=
  match data with
  | [] => Ok []
  | outer :: data =>
      if negb (ADType outer =? ADIfRelevant) then res_bind (stripCAMMAC data) (λ out, Ok (outer :: out)) else
      res_bind (wrap_err "CAMMAC IF-RELEVANT: " (Unmarshal (ADData outer))) (λ inner : AuthorizationData,
      let filtered := filter (λ entry, ADType entry ≠ ADCAMMAC) inner in
      res_bind
        (if zlen filtered =? zlen inner then Ok [outer]
         else if zlen filtered =? 0 then Ok []
         else res_bind (wrap_err "CAMMAC IF-RELEVANT: " (Marshal filtered)) (λ encoded,
              Ok [mkAD ADIfRelevant encoded])) (λ kept,
      res_bind (stripCAMMAC data) (λ out, Ok (kept ++ out))))
  end.

Definition encryption_key (k : Key) : EncryptionKey := mkEKey (Key_Enctype k) (Key_Key k).

Fixpoint authIndicatorsFromElements (elements : AuthorizationData) : res (list bytes) :=
  match elements with
  | [] => Ok []
  | element :: elements =>
      if negb (ADType element =? ADAuthIndicator) then authIndicatorsFromElements elements else
      res_bind (wrap_err "auth indicators: " (Unmarshal (ADData element))) (λ values : list bytes,
      res_bind (authIndicatorsFromElements elements) (λ rest, Ok (values ++ rest)))
  end.

(** [strings.Fields]. *)
Fixpoint fields_loop (rs : list (Z * bytes)) (field : bytes) : list bytes :=
  let flush rest := if zlen field =? 0 then rest else field :: rest in
  match rs with
  | [] => flush []
  | (r, b) :: rs => if is_space r then flush (fields_loop rs []) else fields_loop rs (field ++ b)
  end.
Definition Fields (value : bytes) : list bytes := fields_loop (runes value) [].
Definition requireAuthError (armor : option fastContext) (record : PrincipalRecord) (indicators : list bytes) : E unit :=
  let required := TrimSpace (default [] (p_Strings record !! str "require_auth")) in
  if zlen required =? 0 then inr tt
  else if existsb (λ indicator, bool_decide (indicator ∈ indicators)) (Fields required) then inr tt
  else inl (ErrorReply (mkError armor kdcErrPolicy []
              (str "Required auth indicators not present in ticket: " ++ required))).

(** [issueCAMMAC] of pac.go. *)
Definition issueCAMMAC (ticketPart : EncTicketPart) (serviceKey : Key) (verified : option AuthorizationData)
    (assertedIndicators : list bytes) : res EncTicketPart :=
  let wrap (elements : AuthorizationData) :=
    match freshnessKey [] with
    | None => Err "CAMMAC: no usable local krbtgt key"
    | Some kdcKey =>
        res_bind (stripCAMMAC (tp_AuthorizationData ticketPart)) (λ base,
        let ticketPart := set_AuthorizationData ticketPart base in
        res_bind (Cammac_Marshal fips elements ticketPart (encryption_key kdcKey) (encryption_key serviceKey)
                    (Key_KVNO kdcKey)) (λ wrapped,
        Ok (set_AuthorizationData ticketPart (base ++ wrapped))))
    end in
  if 0 <? zlen assertedIndicators then
    res_bind (wrap_err "CAMMAC auth indicators: " (Marshal assertedIndicators)) (λ encodedIndicators,
    wrap [mkAD ADAuthIndicator encodedIndicators])
  else match verified with
  | Some elements => wrap elements
  | None =>
      match ProtectedElements (tp_AuthorizationData ticketPart) with
      | Ok elements => wrap elements
      | Err err => if negb (errors_Is err ErrNotFound) then Err err else Ok ticketPart
      | Panic => Panic
      end
  end.
End common.

(** ** The policy hook *)

(** [authorizationError]: the verdict of the [Authorize] hook. *)
Definition authorizationError (Authorize : Principal → Principal → bool → option HookError) (armor : option fastContext)
    (client service : Principal) (asExchange : bool) : E unit :=
  match Authorize client service asExchange with
  | None => inr tt
  | Some err =>
      let code := match he_Code err with
                  | Some code => if (code <? 0) || (128 <? code) then kdcErrGeneric else code
                  | None => kdcErrPolicy
                  end in
      inl (ErrorReply (mkError armor code [] (he_Text err)))
  end.

(** ** What handlers rely on *)

Lemma sameProtocolPrincipal_eq a b : sameProtocolPrincipal a b = true → a = b.
Proof.
  unfold sameProtocolPrincipal. rewrite andb_true_iff, Z.eqb_eq, bool_decide_eq_true. destruct a, b; cbn. by intros [-> ->].
Qed.

(** A ticket that may be used now. *)
Definition usable (s : Server) (now : Z) (p : EncTicketPart) : Prop :=
  (∀ t, tp_StartTime p = Some t → Present t = true → Time t ≤ now + skew s) ∧
  (Present (tp_EndTime p) = true → now - skew s ≤ Time (tp_EndTime p)).
Lemma ticketValidity_usable s now p mode : ticketValidityWithInvalidMode s now p mode = None →
  usable s now p ∧ (mode = false → has (tp_Flags p) TicketInvalid = false).
Proof.
  unfold ticketValidityWithInvalidMode, usable.
  destruct (negb mode && has _ _) eqn:Hi; [done|]. destruct (match tp_StartTime p with Some _ => _ | None => _ end) eqn:Hs; [done|].
  destruct (Present (tp_EndTime p) && (_ <? _)) eqn:He; [done|]. intros _. split_and!.
  - intros t Ht Hp. rewrite Ht, Hp in Hs. cbn in Hs. lia.
  - intros Hp. rewrite Hp in He. cbn in He. lia.
  - intros ->. done.
Qed.
Lemma handler_result {A B} (P : A → Prop) (x : E A * B) :
  match x.1 with inr a => P a | inl _ => False end → ∃ a b, x = (inr a, b) ∧ P a.
Proof. destruct x as [[|a] b]; [done|]. by exists a, b. Qed.

Section sealed.
Context `{GoCryptoLaws} (fips : bool).

(** A ciphertext that the holder of a key made. *)
Definition sealed (id : Z) (key : bytes) (usage : Z) (plain cipher : bytes) : Prop :=
  ∃ etype conf, Registry_Get fips id = Ok etype ∧ length key = etype_KeySize etype ∧
                etype_Encrypt etype (Ok conf) key usage plain = Ok cipher.

Lemma decrypt_sealed id etype key usage plain cipher :
  Registry_Get fips id = Ok etype → etype_Decrypt etype key usage cipher = Ok plain → sealed id key usage plain cipher.
Proof.
  intros He Hd. destruct (decrypted_is_encryption etype key usage cipher plain) as (Hk & conf & _ & Hc); [by eexists _, _|done|].
  by exists etype, conf.
Qed.
(** The same for a type at hand. *)
Definition sealed_by (etype : EType) (key : bytes) (usage : Z) (plain cipher : bytes) : Prop :=
  ∃ conf, length key = etype_KeySize etype ∧ etype_Encrypt etype (Ok conf) key usage plain = Ok cipher.
Lemma opened_sealed etype key usage plain cipher :
  registered etype → etype_Decrypt etype key usage cipher = Ok plain → sealed_by etype key usage plain cipher.
Proof. intros Hr Hd. destruct (decrypted_is_encryption etype key usage cipher plain Hr Hd) as (Hk & conf & _ & Hc). by exists conf. Qed.

End sealed.

(** ** The MS-PAC of a ticket *)

Record PACIdentity := mkIdentity {
  id_LogonInfo : option LogonInfo; id_UPN : bytes; id_DNSDomainName : bytes; id_SAMName : bytes; id_SID : SID; id_Flags : Z }.
(** The hooks that fill a new PAC. *)
Record pac_hooks := mkHooks {
  GeneratePACIdentity : option (Principal → Principal → res (option PACIdentity));
  GeneratePAC : option (Principal → Principal → res bytes);
  GeneratePACCredentials : option (Principal → Principal → Key → res (bytes * Z));
}.
Definition no_pac_hooks : pac_hooks := mkHooks None None None.

Definition append_buffer (p : PAC) (typ : Z) (data : bytes) : PAC := set_Buffers p (p_Buffers p ++ [mkBuffer typ data]).
Definition upn_of (identity : PACIdentity) : UPNDNSInfoData :=
  mkUPN (id_UPN identity) (id_DNSDomainName identity) (id_Flags identity) (id_SAMName identity)
    (if Z.land (id_Flags identity) UPNDNSInfoHasSAMNameAndSID =? 0 then None else Some (id_SID identity)).

Section pac.
Context `{GoCrypto} (fips : bool) {D : Type} `{Store D} (s : Server) (db : D) (hooks : pac_hooks).

(** The buffers of a PAC that has none. *)
Definition fill_pac (p : PAC) (client service : Principal) : res PAC :=
  if negb (zlen (p_Buffers p) =? 0) then Ok p else
  match GeneratePACIdentity hooks with
  | Some generate =>
      res_bind (generate client service) (λ identity,
      match identity with
      | None => Ok p
      | Some identity =>
          res_bind (match id_LogonInfo identity with
                    | Some l => res_bind (logon_MarshalBinary l) (λ logonInfo, Ok (append_buffer p LogonInfoBuffer logonInfo))
                    | None => Ok p
                    end) (λ p,
          res_bind (upn_MarshalBinary (upn_of identity)) (λ data, Ok (append_buffer p UPNDNSInfo data)))
      end)
  | None =>
      match GeneratePAC hooks with
      | Some generate => res_bind (generate client service) (λ logonInfo, Ok (append_buffer p LogonInfoBuffer logonInfo))
      | None => Ok (append_buffer p LogonInfoBuffer [])
      end
  end.
(** The credentials for a client whose reply key was replaced. *)
Definition add_credentials (p : PAC) (client service : Principal) (replacedReplyKey : option Key) (confounder : res bytes) : res PAC :=
  match replacedReplyKey, GeneratePACCredentials hooks with
  | Some key, Some generate =>
      res_bind (generate client service key) (λ '(plaintext, enctype),
      if negb (enctype =? Key_Enctype key) then Err "PAC: credentials enctype does not match reply key enctype" else
      res_bind (Registry_Get fips enctype) (λ credentialEType,
      res_bind (EncryptCredentialInfo (Some credentialEType) confounder (Key_Key key) plaintext) (λ credentials,
      res_bind (cred_MarshalBinary credentials) (λ data, Ok (SetBuffer p CredentialInfoBuffer data)))))
  | _, _ => Ok p
  end.
(** The record of constrained delegation. *)
Definition add_delegation (p : PAC) (service : Principal) (evidence : option Principal) : res PAC :=
  match evidence with
  | None => Ok p
  | Some evidence =>
      res_bind (match pac_Buffer p DelegationInfoBuffer with
                | Some data => ParseDelegationInfo data
                | None => Ok (mkDelegation [] [])
                end) (λ info,
      let info := mkDelegation (strings_join [slash] (Components service)) (d_TransitedServices info ++ [principal_String evidence]) in
      res_bind (delegation_MarshalBinary info) (λ data, Ok (SetBuffer p DelegationInfoBuffer data)))
  end.

Definition pac_key (etype : EType) (key : Key) : PACKey := mkPACKey (Some etype) (Key_Key key).
(** The key of the KDC signatures. *)
Definition pac_privKey (service : Principal) (serviceKey : Key) : res Key :=
  match pacPrivsvrKey fips s db with
  | Some key => Ok key
  | None =>
      match Components service with
      | [first; _] => if bytes_eqb first krbtgt then Ok serviceKey else Err "PAC: no usable krbtgt key for PAC signatures"
      | _ => Err "PAC: no usable krbtgt key for PAC signatures"
      end
  end.
(** The PAC of the ticket, which must verify, or a new one. *)
Definition found_pac (part : EncTicketPart) (headerKey privKey : PACKey) : res PAC :=
  match FromAuthorizationData (tp_AuthorizationData part) with
  | Ok p => res_bind (pac_Verify p headerKey privKey) (λ _, Ok p)
  | Err err => if errors_Is err pac_ErrNotFound then Ok pac_New else Err err
  | Panic => Panic
  end.
(** The ticket with a dummy PAC, which the ticket signature covers. *)
Definition dummy_ticket (part : EncTicketPart) : res bytes :=
  res_bind (AddDummyAuthorizationData (tp_AuthorizationData part)) (λ data, Ok (marshalDER (set_AuthorizationData part data))).

(** The PAC before it is signed: that of the ticket or a new one, with what the options add. *)
Definition prepare_pac (ticketPart : EncTicketPart) (client service : Principal) (headerKey privKey : PACKey) (replaceClient : bool)
    (replacedReplyKey : option Key) (delegationEvidence : option Principal) (confounder : res bytes) : res PAC :=
  res_bind (found_pac ticketPart headerKey privKey) (λ p,
  res_bind (if replaceClient then SetClientInfo p (Time (tp_AuthTime ticketPart)) client else Ok p) (λ p,
  res_bind (fill_pac p client service) (λ p,
  res_bind (add_credentials p client service replacedReplyKey confounder) (λ p,
  add_delegation p service delegationEvidence)))).
Definition issuePACWithOptions (ticketPart : EncTicketPart) (client service : Principal) (headerKey serviceKey : Key)
    (serviceTicket replaceClient : bool) (replacedReplyKey : option Key) (delegationEvidence : option Principal)
    (pacVerifyKey : option Key) (confounder : res bytes) : res EncTicketPart :=
  if negb (s_EnablePAC s) || s_DisablePAC s then Ok ticketPart else
  res_bind (pac_privKey service serviceKey) (λ privKey,
  res_bind (Registry_Get fips (Key_Enctype privKey)) (λ privEType,
  let verifyKey := default headerKey pacVerifyKey in
  res_bind (Registry_Get fips (Key_Enctype verifyKey)) (λ headerEType,
  res_bind (Registry_Get fips (Key_Enctype serviceKey)) (λ serviceEType,
  let serverPACKey := pac_key serviceEType serviceKey in
  let privPACKey := pac_key privEType privKey in
  res_bind (prepare_pac ticketPart client service (pac_key headerEType verifyKey) privPACKey replaceClient replacedReplyKey
              delegationEvidence confounder) (λ p,
  res_bind (if serviceTicket then dummy_ticket ticketPart else Ok []) (λ dummyTicket,
  res_bind (if negb (zlen dummyTicket =? 0)
            then SignWithTicket p (Time (tp_AuthTime ticketPart)) (Some client) serverPACKey privPACKey dummyTicket
            else Sign p (Time (tp_AuthTime ticketPart)) (Some client) serverPACKey privPACKey serviceTicket) (λ encoded,
  res_bind (AddAuthorizationData (tp_AuthorizationData ticketPart) encoded) (λ authdata,
  Ok (set_AuthorizationData ticketPart authdata))))))))).
End pac.

(** ** Error messages *)

Definition nanosecond (t : Z) : Z := t mod second.
(** [errorResponseWithTextAndData]: the KRB-ERROR. *)
Definition errorResponseWithTextAndData (s : Server) (now code : Z) (service : option PrincipalName) (data text : bytes) : bytes :=
  marshalDER (mkKrbError 5 30 None None (at_time now) (nanosecond now / 1000) code None None (s_Realm s)
    (default (mkPName NTSrvInstance [krbtgt; s_Realm s]) service) (if zlen text =? 0 then None else Some text) data).

Definition PAFXError : Z := 137.
Definition UsageRep : Z := 52.
Definition UsageFinished : Z := 53.
Section fast.
Context `{GoCrypto} (fips : bool) (s : Server).

(** The padata that holds a protected response. *)
Definition fast_padata (armor : fastContext) (responseCipher : bytes) : MethodData :=
  [mkPA PAFXFast (marshalDER (mkFXReply (mkArmoredRep (mkEnc (etype_ID (fc_etype armor)) None responseCipher))))].
(** [fastErrorResponseWithText]. *)
Definition fastErrorResponseWithText (now : Z) (confounder : res bytes) (code : Z) (service : option PrincipalName) (data : bytes)
    (nonce : Z) (armor : fastContext) (text : bytes) : bytes :=
  let inner := match fc_cookie armor with Some cookie => [cookie] | None => [mkPA PAFXCookie (str "MIT")] end in
  let inner := if 0 <? zlen data then match (Unmarshal data : res MethodData) with Ok errorData => inner ++ errorData | _ => inner end
               else inner in
  let inner := inner ++ [mkPA PAFXError (errorResponseWithTextAndData s now code service [] text)] in
  match etype_Encrypt (fc_etype armor) confounder (fc_key armor) UsageRep (marshalDER (mkFastResponse inner None None nonce)) with
  | Ok responseCipher => errorResponseWithTextAndData s now code service (marshalDER (fast_padata armor responseCipher)) []
  | _ => errorResponseWithTextAndData s now code service [] text
  end.
(** The message of an error of a handler. *)
Definition error_message (now : Z) (confounder : res bytes) (service : option PrincipalName) (e : kdc_error) : bytes :=
  match ke_armor e with
  | None => errorResponseWithTextAndData s now (ke_code e) service (ke_data e) (ke_text e)
  | Some armor => fastErrorResponseWithText now confounder (ke_code e) service (ke_data e) (fc_nonce armor) armor (ke_text e)
  end.

(** ** Protected replies *)

(** [wrapFASTASRep] and [wrapFASTTGSRep] before the reply is encoded: its
    encrypted part under the strengthened key, and the protected response. *)
Definition wrapFASTRep (draw : nat → nat → res bytes) (now : Z) (reply : KDCRep) (key : bytes) (usage : Z) (armor : fastContext)
    : res KDCRep :=
  let etype := fc_etype armor in
  res_bind (draw 0%nat (etype_KeySize etype)) (λ strengthenValue,
  res_bind (Registry_Get fips (ed_EType (rep_EncPart reply))) (λ replyEType,
  res_bind (CF2WithKeyEType (Some etype) strengthenValue (Some replyEType) key (str "strengthenkey") (str "replykey")) (λ replyKey,
  res_bind (etype_Decrypt replyEType key usage (ed_Cipher (rep_EncPart reply))) (λ replyPlain,
  res_bind (etype_Encrypt etype (draw 1%nat 16%nat) replyKey usage replyPlain) (λ replyCipher,
  res_bind (Checksum etype (fc_key armor) UsageFinished (marshalDER (rep_Ticket reply))) (λ ticketChecksum,
  let finished := mkFinished (at_time now) (nanosecond now / 1000) (rep_CRealm reply) (rep_CName reply)
                    (mkCksum (mandatoryChecksumType (etype_ID etype)) ticketChecksum) in
  let response := mkFastResponse (option_list (fc_cookie armor) ++ rep_PAData reply)
                    (Some (mkEKey (etype_ID etype) strengthenValue)) (Some finished) (fc_nonce armor) in
  res_bind (etype_Encrypt etype (draw 2%nat 16%nat) (fc_key armor) UsageRep (marshalDER response)) (λ responseCipher,
  Ok (mkRep (rep_PVNO reply) (rep_MsgType reply) (fast_padata armor responseCipher) (rep_CRealm reply) (rep_CName reply)
        (rep_Ticket reply) (mkEnc (etype_ID etype) None replyCipher))))))))).
End fast.

(** ** The PAC that is issued *)

(** A PAC whose buffers are distinct; only their sizes are left open. *)
Definition distinct (p : PAC) : Prop :=
  p_Version p = 0 ∧ NoDup (b_Type <$> p_Buffers p) ∧ Forall (λ b, 0 <= b_Type b < 2 ^ 32) (p_Buffers p) ∧
  (p_raw p = [] ∨ ∃ n, laid_out (p_raw p) n).
Lemma distinct_wf p : distinct p → Forall (λ b, zlen (b_Data b) < 2 ^ 32) (p_Buffers p) → pac_wf p.
Proof. intros (Hv & Hn & Ht & Hr) Hs. split; try done. apply Forall_and. by split. Qed.
Lemma wf_distinct p : pac_wf p → distinct p.
Proof. intros [Hv Hn Hs Hr]. split_and!; try done. apply (Forall_impl _ _ _ Hs). by intros b [? _]. Qed.
Lemma types_range bs bs' : b_Type <$> bs = b_Type <$> bs' → Forall (λ b, 0 <= b_Type b < 2 ^ 32) bs → Forall (λ b, 0 <= b_Type b < 2 ^ 32) bs'.
Proof.
  intros Ht Hb. assert (Hf : Forall (λ t, 0 <= t < 2 ^ 32) (b_Type <$> bs)) by by apply Forall_fmap. rewrite Ht in Hf. by apply Forall_fmap in Hf.
Qed.
Lemma get_none_fresh bs typ : get bs typ = None → typ ∉ b_Type <$> bs.
Proof.
  unfold get. induction bs as [|b bs IH]; intros Hg; [by intros ?%elem_of_nil|]. cbn in *. destruct (Z.eqb_spec (b_Type b) typ); [done|].
  intros [?|?]%elem_of_cons; [congruence|]. by apply IH.
Qed.
Lemma distinct_append p typ data : distinct p → get (p_Buffers p) typ = None → 0 <= typ < 2 ^ 32 → distinct (append_buffer p typ data).
Proof.
  intros (Hv & Hn & Ht & Hr) Hg Hty. split_and!; [done| | |done]; cbn [append_buffer p_Buffers set_Buffers].
  - rewrite fmap_app. apply NoDup_app. split_and!; [done| |apply NoDup_singleton]. intros t Hin ->%list_elem_of_singleton. by apply get_none_fresh in Hg.
  - apply Forall_app. split; [done|]. by apply Forall_singleton.
Qed.
Lemma distinct_setBuffer p typ data : distinct p → 0 <= typ < 2 ^ 32 → distinct (setBuffer p typ data).
Proof.
  intros Hd Hty. unfold setBuffer. destruct (update_buffer (p_Buffers p) typ (λ _, data)) as [bs|] eqn:Hu.
  - assert (bs = upd (p_Buffers p) typ (λ _, data)) as -> by (unfold upd; by rewrite Hu). destruct Hd as (Hv & Hn & Ht & Hr).
    split_and!; cbn [p_Version p_Buffers p_raw set_Buffers]; [done|by rewrite upd_types| |done]. by eapply types_range; [symmetry; apply upd_types|].
  - apply update_none in Hu. by apply distinct_append.
Qed.

(** *** Authorization data and its encoding *)

Definition ad_typed (l : AuthorizationData) : Prop := Forall (λ e, - 2 ^ 31 <= ADType e < 2 ^ 31) l.
Lemma ad_roundtrip (l : AuthorizationData) d : ad_typed l → Marshal l = Ok d → Unmarshal d = Ok l.
Proof.
  intros Hl Hd. assert (Hr : roundtrips (slice authorizationDataEntry_codec)) by (apply codec_roundtrips; vm_compute; reflexivity).
  specialize (Hr l). clear -Hl Hd Hr. change (Marshal l) with (to_der (slice authorizationDataEntry_codec) l) in Hd. rewrite Hd in Hr. apply Hr. clear Hr Hd.
  change (forallb (typed (c_type authorizationDataEntry_codec)) (c_put authorizationDataEntry_codec <$> l) = true).
  induction Hl as [|[t v] l Ht _ IH]; [done|]. cbn [fmap list_fmap forallb]. apply andb_true_intro. split; [|by apply IH]. cbn in Ht.
  assert (fits_int 32 t = true) as Hf by (unfold fits_int; lia). clear -Hf. destruct v; cbn; by rewrite Hf.
Qed.
Lemma ad_decoded data (l : AuthorizationData) : zlen data < 2 ^ 32 → Unmarshal data = Ok l → ad_typed l.
Proof.
  intros Hz Hu. change (of_der (slice authorizationDataEntry_codec) data = Ok l) in Hu. unfold of_der in Hu.
  pose proof (Unmarshal_typed (c_type (slice authorizationDataEntry_codec)) data Hz) as Hs.
  destruct (asn1_Unmarshal _ data) as [v| |]; [|done|done]. cbn [res_bind] in Hu.
  cbn [slice c_get c_type] in Hu, Hs. unfold get_list in Hu. destruct v as [| | | | |[vs|]| |]; try discriminate Hs; [|assert (l = []) as -> by (change (Ok (@nil AuthorizationDataEntry) = Ok l) in Hu; congruence); by apply Forall_nil].
  cbn [default id] in Hu. change (forallb (shape (c_type authorizationDataEntry_codec)) vs = true) in Hs.
  destruct (mapM (c_get authorizationDataEntry_codec) vs) as [es|] eqn:Hm; [|done]. assert (l = es) as -> by congruence. clear Hu.
  apply mapM_Some in Hm. induction Hm as [|v e vs es He _ IH]; [by apply Forall_nil|]. cbn [forallb] in Hs. apply andb_prop in Hs as [Hv Hs].
  apply Forall_cons. split; [|by apply IH].
  destruct v as [| | | | | |fs|]; try discriminate Hv. change (shapes [field "ADType" "tag:0" int32; field "ADData" "tag:1" octets] fs = true) in Hv.
  destruct fs as [|a [|b [|]]]; try discriminate He; cbn in He, Hv. destruct a as [|n| | | | | |]; try discriminate He. cbn in He.
  destruct b as [| | | |o| | |]; try discriminate He. injection He as <-. cbn. apply andb_prop in Hv as [Hv _]. unfold fits_int in Hv. lia.
Qed.
Abbreviation is_pac := (λ entry, ADType entry =? ADWin2KPac).
Lemma replace_pac_spec inner value f h : replace_pac inner value false = (f, h) →
  if h then List.find is_pac f = Some (mkAD ADWin2KPac value) else List.find is_pac inner = None.
Proof.
  revert f h. induction inner as [|e inner IH]; intros f h Hr; [by injection Hr as <- <-|]. cbn [replace_pac List.find] in *.
  destruct (ADType e =? ADWin2KPac) eqn:He.
  - assert (Ht : ∀ l f h, replace_pac l value true = (f, h) → h = true).
    { clear. induction l as [|e l IH]; intros f h Hr; [by injection Hr as _ <-|]. cbn [replace_pac] in Hr.
      destruct (replace_pac l value true) as [f' h']. destruct (_ =? _); injection Hr as _ <-; by eapply IH. }
    destruct (replace_pac inner value true) as [f' h'] eqn:Hr'. rewrite (Ht _ _ _ Hr') in Hr. by injection Hr as <- <-.
  - destruct (replace_pac inner value false) as [f' h']. injection Hr as <- <-. specialize (IH _ _ eq_refl). destruct h'; [|done].
    cbn [List.find]. by rewrite He.
Qed.
Lemma replace_pac_typed inner value ins f h : ad_typed inner → replace_pac inner value ins = (f, h) → ad_typed f.
Proof.
  intros Ht. revert ins f h. induction Ht as [|e inner He _ IH]; intros ins f h Hr; [injection Hr as <- _; by apply Forall_nil|].
  cbn [replace_pac] in Hr. destruct (_ =? _).
  - destruct (replace_pac inner value true) as [f' h'] eqn:Hr'. apply IH in Hr'. injection Hr as <- _. destruct ins; [done|]. by apply Forall_cons.
  - destruct (replace_pac inner value ins) as [f' h'] eqn:Hr'. apply IH in Hr'. injection Hr as <- _. by apply Forall_cons.
Qed.
(** A container that fits in memory. *)
Definition ad_small (l : AuthorizationData) : Prop := Forall (λ e, zlen (ADData e) < 2 ^ 32) l.
Lemma add_loop_from data value q rep out r : ad_small data → pac_Parse value = Ok q → add_loop data value rep = Ok (out, r) →
  (r = true ∧ ∀ tail, FromAuthorizationData (out ++ tail) = Ok q) ∨
  (r = rep ∧ ∀ tail, FromAuthorizationData (out ++ tail) = FromAuthorizationData tail).
Proof.
  intros Hs Hq. revert rep out r. induction Hs as [|o data Ho _ IH]; intros rep out r Ha; cbn [add_loop] in Ha; [injection Ha as <- <-; by right|].
  destruct (ADType o =? ADIfRelevant) eqn:Hty; cbn [negb] in Ha.
  2:{ destruct (add_loop data value rep) as [[out' r']| |] eqn:Hl; [|done|done]. cbn [res_bind] in Ha. injection Ha as <- <-.
      destruct (IH _ _ _ Hl) as [[-> Hx]|[-> Hx]]; [left|right]; (split; [done|]); intros tail; cbn [app FromAuthorizationData]; rewrite Hty; cbn [negb]; apply Hx. }
  destruct (Unmarshal (ADData o)) as [inner| |] eqn:Hu; [|done|done]. cbn [wrap_err res_bind] in Ha.
  pose proof (ad_decoded _ _ Ho Hu) as Htyped. destruct (replace_pac inner value false) as [f h] eqn:Hr. pose proof (replace_pac_spec _ _ _ _ Hr) as Hf. destruct h.
  - destruct (Marshal f) as [d| |] eqn:Hd; [|done|done]. cbn [wrap_err res_bind] in Ha.
    destruct (add_loop data value true) as [[out' r']| |] eqn:Hl; [|done|done]. cbn [res_bind] in Ha. injection Ha as <- <-. left.
    split; [by destruct (IH _ _ _ Hl) as [[-> _]|[-> _]]|]. intros tail. cbn [app FromAuthorizationData ADType ADData]. rewrite Hty. cbn [negb].
    rewrite (ad_roundtrip f d (replace_pac_typed _ _ _ _ _ Htyped Hr) Hd). cbn [wrap_err res_bind]. by rewrite Hf.
  - destruct (add_loop data value rep) as [[out' r']| |] eqn:Hl; [|done|done]. cbn [res_bind] in Ha. injection Ha as <- <-.
    destruct (IH _ _ _ Hl) as [[-> Hx]|[-> Hx]]; [left|right]; (split; [done|]); intros tail; cbn [app FromAuthorizationData]; rewrite Hty, Hu; cbn [negb wrap_err res_bind];
      rewrite Hf; apply Hx.
Qed.
(** What is added is found. *)
Lemma added_found data value q out : ad_small data → pac_Parse value = Ok q → addAuthorizationData data value = Ok out → FromAuthorizationData out = Ok q.
Proof.
  intros Hs Hq Ha. unfold addAuthorizationData in Ha. destruct (add_loop data value false) as [[o r]| |] eqn:Hl; [|done|done]. cbn [res_bind] in Ha.
  destruct (add_loop_from _ _ _ _ _ _ Hs Hq Hl) as [[-> Hx]|[-> Hx]].
  - injection Ha as <-. rewrite <- (app_nil_r o). apply Hx.
  - unfold wrap_pac in Ha. destruct (Marshal _) as [d| |] eqn:Hd; [|done|done]. cbn [wrap_err res_bind] in Ha. injection Ha as <-. rewrite Hx.
    cbn [FromAuthorizationData ADType ADData]. rewrite (ad_roundtrip [mkAD ADWin2KPac value] d); [|by apply Forall_singleton|done]. cbn. done.
Qed.

Section issued.
Context `{GoCrypto, !GoCryptoLaws} (fips : bool) {D : Type} `{Store D} (s : Server) (db : D) (hooks : pac_hooks).

Lemma found_distinct part hk pk p : found_pac part hk pk = Ok p → distinct p.
Proof.
  unfold found_pac. destruct (FromAuthorizationData _) as [q|err|] eqn:Hf; [|destruct (errors_Is _ _); [|done]|done].
  - destruct (pac_Verify q hk pk); [|done|done]. cbn. intros [= <-]. apply wf_distinct. revert Hf.
    induction (tp_AuthorizationData part) as [|o data IH]; [done|]. cbn [FromAuthorizationData]. destruct (negb _); [done|].
    destruct (wrap_err _ _); [|done|done]. cbn [res_bind]. destruct (List.find _ _); [|done]. intros Hq. by apply pac_Parse_wf in Hq as [].
  - intros [= <-]. split_and!; [done|apply NoDup_nil_2|by apply Forall_nil|by left].
Qed.
Lemma fill_distinct p client service q : distinct p → fill_pac hooks p client service = Ok q → distinct q.
Proof.
  intros Hd. unfold fill_pac. destruct (Z.eqb_spec (zlen (p_Buffers p)) 0) as [Hz|]; cbn [negb]; [|by intros [= <-]].
  assert (Hb : p_Buffers p = []) by (destruct (p_Buffers p) as [|b bs]; [done|]; rewrite zlen_cons in Hz; pose proof (zlen_nonneg bs); lia).
  assert (Ha : ∀ typ data, 0 <= typ < 2 ^ 32 → distinct (append_buffer p typ data)) by (intros; apply distinct_append; [done|by rewrite Hb|done]).
  destruct (GeneratePACIdentity hooks) as [g|].
  - destruct (g client service) as [[id|]| |]; [|by intros [= <-]|done|done]. cbn [res_bind]. destruct (id_LogonInfo id) as [l|].
    + destruct (logon_MarshalBinary l); [|done|done]. cbn [res_bind]. destruct (upn_MarshalBinary _); [|done|done]. intros [= <-].
      apply distinct_append; [by apply Ha|cbn; by rewrite Hb|done].
    + destruct (upn_MarshalBinary _); [|done|done]. intros [= <-]. by apply Ha.
  - destruct (GeneratePAC hooks) as [g|]; [destruct (g client service); [|done|done]|]; intros [= <-]; by apply Ha.
Qed.
Lemma prepare_distinct part client service hk pk replace key evidence conf p :
  prepare_pac fips hooks part client service hk pk replace key evidence conf = Ok p → distinct p.
Proof.
  unfold prepare_pac. destruct (found_pac part hk pk) as [p1| |] eqn:E1; [|done|done]. cbn [res_bind]. apply found_distinct in E1.
  destruct (if replace then _ else _) as [p2| |] eqn:E2; [|done|done]. cbn [res_bind].
  assert (Hp2 : distinct p2).
  { destruct replace; [|by injection E2 as <-]. unfold SetClientInfo in E2. destruct (Format client); [|done|done]. cbn [res_bind] in E2.
    destruct (_ <? _); [done|]. injection E2 as <-. by apply distinct_setBuffer. }
  destruct (fill_pac _ _ _ _) as [p3| |] eqn:E3; [|done|done]. cbn [res_bind]. apply fill_distinct in E3; [|done].
  destruct (add_credentials _ _ _ _ _ _ _) as [p4| |] eqn:E4; [|done|done]. cbn [res_bind].
  assert (Hp4 : distinct p4).
  { unfold add_credentials in E4. destruct key, (GeneratePACCredentials hooks) as [g|]; try by injection E4 as <-. destruct (g _ _ _) as [[? ?]| |]; [|done|done].
    cbn [res_bind] in E4. destruct (negb _); [done|]. destruct (Registry_Get _ _); [|done|done]. cbn [res_bind] in E4.
    destruct (EncryptCredentialInfo _ _ _ _); [|done|done]. cbn [res_bind] in E4. destruct (cred_MarshalBinary _); [|done|done]. injection E4 as <-.
    by apply distinct_setBuffer. }
  unfold add_delegation. destruct evidence; [|by intros [= <-]]. destruct (match pac_Buffer _ _ with Some _ => _ | None => _ end); [|done|done].
  cbn [res_bind]. destruct (delegation_MarshalBinary _); [|done|done]. intros [= <-]. by apply distinct_setBuffer.
Qed.
(** A key that made a checksum is a key for its type. *)
Lemma key_Checksum_size etype key data v : key_Checksum (pac_key etype key) data = Ok v → length (Key_Key key) = etype_KeySize etype.
Proof.
  unfold key_Checksum, pac_key. cbn [pk_EType pk_Key]. unfold Checksum, aes_Checksum, camellia_Checksum, validateKey, etype_KeySize.
  destruct etype as [e|e]; [destruct (Nat.eqb_spec (length (Key_Key key)) (ae_keySize e))|destruct (Nat.eqb_spec (length (Key_Key key)) (ce_keySize e))]; done.
Qed.
Lemma res_bind_ok {A B} (r : res A) (k : A → res B) b : res_bind r k = Ok b → ∃ a, r = Ok a ∧ k a = Ok b.
Proof. destruct r; [|done|done]. cbn. by eexists. Qed.
Lemma sign_values_sizes p se sk pe pk full e : sign_values p (pac_key se sk) (pac_key pe pk) full = Ok e →
  length (Key_Key sk) = etype_KeySize se ∧ length (Key_Key pk) = etype_KeySize pe.
Proof.
  unfold sign_values. intros (p1 & _ & (p2 & _ & (p3 & _ & (e1 & _ & (p4 & _ & (e2 & _ & (v & Hv & Hx)%res_bind_ok)%res_bind_ok)%res_bind_ok)%res_bind_ok
    )%res_bind_ok)%res_bind_ok)%res_bind_ok.
  split; [by apply key_Checksum_size in Hv|]. destruct (pac_Buffer _ _); [|done]. apply res_bind_ok in Hx as (v' & Hv' & _). by apply key_Checksum_size in Hv'.
Qed.
Lemma usable_pac_key id etype key : Registry_Get fips id = Ok etype → length (Key_Key key) = etype_KeySize etype →
  ∃ ct, usable_key (pac_key etype key) etype ct.
Proof.
  intros He Hk. assert (Hr : registered etype) by (by exists fips, id). assert (Hp : (0 < etype_KeySize etype)%nat) by (apply registered_cases in Hr; destruct etype; cbn in *; lia).
  assert (Hc : ∃ ct, checksumType (etype_ID etype) = Ok ct).
  { unfold Registry_Get in He. repeat case_match; try discriminate He; injection He as <-; cbn [etype_ID ae_id ce_id];
      match goal with Hx : (id =? _) = true |- _ => apply Z.eqb_eq in Hx as -> end; by eexists. }
  destruct Hc as [ct Hc]. exists ct. split; [done|done|done|]. unfold pac_checksumType, pac_key. cbn [pk_EType pk_Key].
  rewrite (proj2 (Z.eqb_neq _ 0)) by (unfold zlen; lia). by rewrite Hc.
Qed.

(** Buffers that fit their length field, and no full signature from before in a
    PAC for a ticket-granting ticket. *)
Definition pac_fits (serviceTicket : bool) (p : PAC) : Prop :=
  Forall (λ b, zlen (b_Data b) < 2 ^ 32) (p_Buffers p) ∧ (serviceTicket = false → get (p_Buffers p) FullChecksum = None).

End issued.

(** ** A concrete ticket *)

Module PacIssued.
#[local] Existing Instance toy_crypto.
#[local] Existing Instance toy_crypto_laws.

Definition realm : bytes := str "R".
Definition server : Server :=
  mkServer realm 0 0 0 0 0 None ∅ false false false [] [] true false false false [] [] [] [] [] false 0.
Definition tgt_key : Key := mkKey EnctypeAES128SHA1 1 (str "0123456789abcdef") [].
Definition service_key : Key := mkKey EnctypeAES256SHA384 1 (str "0123456789abcdef0123456789abcdef") [].
Definition database : Database :=
  put_principal (NewDatabase realm) (canonical (local_tgt server)) (empty_record (local_tgt server) {[ EnctypeAES128SHA1 := tgt_key ]} 1 0).
Definition alice : Principal := mkPrincipal realm NTPrincipal [str "alice"].
Definition host : Principal := mkPrincipal realm NTSrvHst [str "host"; str "h"].
Definition part : EncTicketPart :=
  mkTicketPart TicketInitial (mkEKey EnctypeAES128SHA1 (str "fedcba9876543210")) realm (protocolPrincipal alice) (mkTransited 0 []) (at_time 0) None
    (at_time (10 * second)) None [] [].
#[local] Abbreviation issue :=
  (issuePACWithOptions false server database no_pac_hooks part alice host tgt_key service_key true false None None None (Err "unused")).
Lemma issued_ok : ∃ p, issue = Ok p.
Proof. apply PacExample.is_ok_result. vm_compute. reflexivity. Qed.
Lemma issued_fits hk pk p :
  prepare_pac false no_pac_hooks part alice host hk pk false None None (Err "unused") = Ok p → pac_fits true p.
Proof. intros Hp. assert (p = append_buffer pac_New LogonInfoBuffer []) as -> by (vm_compute in Hp; injection Hp as <-; reflexivity). split; [by apply Forall_singleton|done]. Qed.
End PacIssued.
