(* ===== verification/KdcTgs.v ===== *)
(** * The ticket-granting service (src/krb5/kdc/tgs.go, authdata.go, parts of kdc.go)

    The handler of TGS requests, from the decoded request to the ticket and the
    reply: authentication of the request, FAST, the checks on options and
    principals, protocol transition and constrained delegation, user-to-user,
    the times and flags of the ticket, its authorization data.

    An error is a value with the code of the KRB-ERROR.  The principal store,
    the configured hooks, random bytes, the clock and the MD5 checksum of the Go
    library are arguments.  Auditing and tracing do not touch the reply and are
    left out. *)

From stdpp Require Import pretty.
From S2P Require Import Prelude Principal GoStrings Crypto Ulog Kdb Protocol Asn1 Wire Cammac Pac PacData Transited KdcPolicy KdcCommon.
Local Open Scope Z_scope.
Local Open Scope kdc_scope.

Section tgs.
Context `{GoCrypto} (fips : bool) {D : Type} `{Store D} (s : Server) (db : D).
(** crypto/md5 and its HMAC, and the text of a time stamp in the replay key. *)
Context (md5_Sum : bytes → bytes) (hmac_md5 : bytes → bytes → bytes) (format_time : Z → bytes).
(** The hooks: [Authorize], [CheckAllowedToDelegate], authorization-data modules. *)
Context (Authorize : Principal → Principal → bool → option HookError).
Context (CheckAllowedToDelegate : option (option Principal → Principal → option Principal → bool)).
Context (authdata_modules : EncTicketPart → EncTicketPart).
Context (hooks : pac_hooks).

(** ** Authentication of the request *)

Record header := mkHeader {
  h_apRequest : APReq;
  h_ticketKey : Key;
  h_ticketPart : EncTicketPart;
  h_authenticator : Authenticator;
}.

Definition tgs_header (request : KDCReq) (raw : bytes) (now : Z) : E header :=
  do _ := require None (negb (negb (r_PVNO request =? 5) || negb (r_MsgType request =? 12) ||
                              (zlen (r_PAData request) =? 0) || negb (bool_decide (is_Some (b_SName (r_ReqBody request)))) ||
                              (zlen (b_Realm (r_ReqBody request)) =? 0))) kdcErrGeneric in
  do pa := orelse_some None kdcErrGeneric (findPA (r_PAData request) paTGSReq) in
  do apRequest := orelse None kdcErrGeneric (Unmarshal (PADataValue pa) : res APReq) in
  do _ := require None ((ap_PVNO apRequest =? 5) && (ap_MsgType apRequest =? 14)) kdcErrGeneric in
  let ticket := ap_Ticket apRequest in
  let tgtName := mkPrincipal (t_Realm ticket) NTSrvInstance (NameString (t_SName ticket)) in
  do tgtRecord := lookup_record db None kdcErrGeneric tgtName in
  do tgtRecord := orelse_some None kdcErrSPrincipal tgtRecord in
  do ticketKey := orelse_some None krbAPErrBadIntegrity
       (selectKVNO tgtRecord (ed_EType (t_EncPart ticket)) (ed_KVNO (t_EncPart ticket))) in
  do ticketEType := orelse None kdcErrETypeNoSupp (Registry_Get fips (Key_Enctype ticketKey)) in
  do ticketPlain := orelse None krbAPErrBadIntegrity
       (etype_Decrypt ticketEType (Key_Key ticketKey) 2 (ed_Cipher (t_EncPart ticket))) in
  do ticketPart := orelse None krbAPErrBadIntegrity (Unmarshal ticketPlain : res EncTicketPart) in
  do sessionEType := orelse None kdcErrETypeNoSupp (Registry_Get fips (KeyType (tp_Key ticketPart))) in
  do authPlain := orelse None krbAPErrBadIntegrity
       (etype_Decrypt sessionEType (KeyValue (tp_Key ticketPart)) 7 (ed_Cipher (ap_Authenticator apRequest))) in
  do authenticator := orelse None krbAPErrBadIntegrity (Unmarshal authPlain : res Authenticator) in
  do _ := require None ((a_VNO authenticator =? 5) && bytes_eqb (a_CRealm authenticator) (tp_CRealm ticketPart) &&
                        sameProtocolPrincipal (a_CName authenticator) (tp_CName ticketPart)) krbAPErrBadIntegrity in
  do _ := require None (withinSkew s now (Time (a_Ctime authenticator))) krbAPErrSkew in
  do checksum := orelse_some None krbAPErrInKeyUsage (a_Checksum authenticator) in
  do _ := require None (ChecksumType checksum =? mandatoryChecksumType (KeyType (tp_Key ticketPart))) krbAPErrInKeyUsage in
  do body := orelse None kdcErrGeneric (FieldContent raw [TagTGSReq; 4]) in
  do _ := orelse None krbAPErrBadIntegrity
       (VerifyChecksum sessionEType (KeyValue (tp_Key ticketPart)) 6 body (cksum checksum)) in
  inr (mkHeader apRequest ticketKey ticketPart authenticator).

(** ** FAST *)

Definition unwrapFASTTGSReq (request : KDCReq) (checksummedData : bytes) (ticketPart : EncTicketPart)
    (authenticator : Authenticator) : E (KDCReq * option fastContext) :=
  match findPA (r_PAData request) PAFXFast with
  | None => inr (request, None)
  | Some pa =>
      do wrapper := orelse None kdcErrPreauthFailed (Unmarshal (PADataValue pa) : res PAFXFastRequest) in
      let wrapper := ArmoredData wrapper in
      do _ := require None (negb (bool_decide (is_Some (ar_Armor wrapper)))) kdcErrPreauthFailed in
      do subKey := orelse_some None kdcErrPreauthFailed (a_SubKey authenticator) in
      do _ := require None (KeyType subKey =? KeyType (tp_Key ticketPart)) kdcErrPreauthFailed in
      do sessionEType := orelse None kdcErrPreauthFailed (Registry_Get fips (KeyType (tp_Key ticketPart))) in
      do _ := require None (Nat.eqb (length (KeyValue subKey)) (etype_KeySize sessionEType)) kdcErrPreauthFailed in
      do armorKey := orelse None kdcErrPreauthFailed
           (CF2 (Some sessionEType) (KeyValue subKey) (KeyValue (tp_Key ticketPart)) (str "subkeyarmor") (str "ticketarmor")) in
      let armor := Some (mkFast sessionEType armorKey 0 None) in
      do _ := require armor ((ed_EType (ar_EncFastReq wrapper) =? etype_ID sessionEType) &&
                (ChecksumType (ar_ReqChecksum wrapper) =? mandatoryChecksumType (etype_ID sessionEType)) &&
                negb (zlen (cksum (ar_ReqChecksum wrapper)) =? 0)) krbAPErrBadIntegrity in
      do plaintext := orelse armor krbAPErrBadIntegrity
           (etype_Decrypt sessionEType armorKey UsageReq (ed_Cipher (ar_EncFastReq wrapper))) in
      do fastRequest := orelse armor krbAPErrBadIntegrity (Unmarshal plaintext : res KrbFastReq) in
      do _ := orelse armor krbAPErrBadIntegrity
           (VerifyChecksum sessionEType armorKey UsageReqChecksum checksummedData (cksum (ar_ReqChecksum wrapper))) in
      inr (mkReq (r_PVNO request) (r_MsgType request) (fr_PAData fastRequest) (fr_ReqBody fastRequest),
           Some (mkFast sessionEType armorKey (b_Nonce (fr_ReqBody fastRequest)) (findPA (fr_PAData fastRequest) PAFXCookie)))
  end.

(** ** Authorization data of the header ticket *)

(** The elements of the header ticket that the KDC vouches for, and the ticket
    without a container that it does not. *)
Definition verify_header_cammac (armor : option fastContext) (ticketPart : EncTicketPart)
    : E (option AuthorizationData * EncTicketPart) :=
  let stripped :=
    do data := orelse armor kdcErrGeneric (stripCAMMAC (tp_AuthorizationData ticketPart)) in
    inr (None, set_AuthorizationData ticketPart data) in
  match ProtectedElements (tp_AuthorizationData ticketPart) with
  | Ok elements =>
      match freshnessKey fips s db [] with
      | Some localKDCKey =>
          match VerifyKDC fips (tp_AuthorizationData ticketPart) ticketPart (encryption_key localKDCKey) with
          | Ok _ => inr (Some elements, ticketPart)
          | Err verifyErr => if negb (errors_Is verifyErr ErrIntegrity) then fail armor kdcErrGeneric else stripped
          | Panic => inl Crash
          end
      | None => stripped
      end
  | Err elementsErr => if negb (errors_Is elementsErr ErrNotFound) then fail armor kdcErrGeneric else inr (None, ticketPart)
  | Panic => inl Crash
  end.

(** ** The checks on the header ticket *)

Definition check_header (armor : option fastContext) (now options : Z) (ticketPart : EncTicketPart) : E unit :=
  if has options KDCRenew then
    do _ := check_validity armor (ticketValidity s now ticketPart) in
    do _ := require armor (has (tp_Flags ticketPart) TicketRenewable) kdcErrBadOption in
    require armor (match tp_RenewTill ticketPart with None => false | Some t => now <=? Time t end) krbAPErrTktExpired
  else if has options KDCValidate then
    do _ := require armor (has (tp_Flags ticketPart) TicketInvalid) kdcErrBadOption in
    do _ := require armor (match tp_StartTime ticketPart with
                           | Some t => negb (Present t && (now <? Time t)) | None => true end) krbAPErrTktNYV in
    check_validity armor (ticketValidityWithInvalid s now ticketPart)
  else check_validity armor (ticketValidity s now ticketPart).

Definition check_client (armor : option fastContext) (now : Z) (client service : Principal) : E unit :=
  do record := lookup_record db armor kdcErrGeneric client in
  do _ := match record with
          | None => inr tt
          | Some record =>
              do _ := require armor (negb (expired now record)) kdcErrNameExpired in
              require armor (negb (has (p_Flags record) DisallowAllTickets)) kdcErrClientRevoked
          end in
  authorizationError Authorize armor client service false.

(** A ticket of another realm has passed through that realm. *)
Definition add_transited (armor : option fastContext) (realm : bytes) (ticketPart : EncTicketPart) : E EncTicketPart :=
  if bytes_eqb realm (s_Realm s) then inr ticketPart else
  let transited := tp_Transited ticketPart in
  do _ := require armor (negb (((TrType transited =? 0) && negb (zlen (Contents transited) =? 0)) ||
                               (negb (TrType transited =? 0) && negb (TrType transited =? 1)))) kdcErrETypeNoSupp in
  do contents := orelse armor krbAPErrBadIntegrity (appendTransited (Contents transited) realm) in
  inr (set_Transited ticketPart (mkTransited 1 contents)).

(** The key of a request in the replay cache. *)
Definition dec (z : Z) : bytes := str (pretty z).
Definition hex_digit (n : Z) : byte := if n <? 10 then z2b (48 + n) else z2b (87 + n).
Definition hex (l : bytes) : bytes := concat ((λ b, [hex_digit (b2z b / 16); hex_digit (b2z b mod 16)]) <$> l).
Definition replay_key (realm : bytes) (name : PrincipalName) (authenticator : Authenticator) : bytes :=
  strings_join [nul]
    ([realm; dec (NameType_ name); dec (a_Cusec authenticator); format_time (Time (a_Ctime authenticator));
      hex (match a_Checksum authenticator with Some c => cksum c | None => [] end)] ++ NameString name).

(** ** The service *)

Definition check_options (armor : option fastContext) (options : Z) (ticketPart : EncTicketPart) : E unit :=
  do _ := require armor (negb (has options KDCPostdated && negb (has options KDCAllowPostdate))) kdcErrCannotPostdate in
  do _ := require armor (negb (has options (with_flags KDCAllowPostdate KDCPostdated) &&
                               negb (has (tp_Flags ticketPart) TicketMayPostdate))) kdcErrBadOption in
  do _ := require armor (negb (has options KDCForwarded && negb (has (tp_Flags ticketPart) TicketForwardable))) kdcErrBadOption in
  require armor (negb (has options KDCProxy && negb (has (tp_Flags ticketPart) TicketProxiable))) kdcErrBadOption.

Definition renew_or_validate (options : Z) : bool := has options (with_flags KDCRenew KDCValidate).

Definition find_service (armor : option fastContext) (options : Z) (ticket : Ticket) (ticketClient requested : Principal)
    (requestRealm : bytes) : E (Principal * PrincipalRecord) :=
  do serviceName :=
    if renew_or_validate options then inr (principalFromProtocol (t_SName ticket) (t_Realm ticket))
    else if negb (bytes_eqb (Realm requested) (s_Realm s)) then
      do _ := require armor (referralAllowed s requested (has options KDCCanonicalize) (has options KDCEncTktInSkey))
                kdcErrServiceUnknown in
      inr (mkPrincipal (s_Realm s) NTSrvInstance [krbtgt; requestRealm])
    else inr requested in
  do _ := require armor (negb (restrictAnonymous s ticketClient serviceName)) kdcErrPolicy in
  do record := lookup_record db armor kdcErrGeneric serviceName in
  match record with
  | Some record => inr (serviceName, record)
  | None =>
      if renew_or_validate options then fail armor kdcErrSPrincipal else
      do alias := orelse armor kdcErrGeneric (lookupAlias db serviceName) in
      match alias with
      | Some (record, canonicalName) =>
          inr (if has options KDCCanonicalize then canonicalName else serviceName, record)
      | None => fail armor kdcErrSPrincipal
      end
  end.

Definition check_service (armor : option fastContext) (now options : Z) (ticket : Ticket) (flags : Z)
    (service : PrincipalRecord) : E unit :=
  do _ := require armor (negb (expired now service)) kdcErrServiceExpired in
  do _ := require armor (negb (has (p_Flags service) DisallowAllTickets)) kdcErrSPrincipal in
  do _ := require armor (negb (has (p_Flags service) DisallowServer && negb (has options KDCEncTktInSkey))) kdcErrMustUseUser2User in
  do _ := require armor (negb (has options KDCRenewable && has (p_Flags service) DisallowRenewable)) kdcErrPolicy in
  do _ := require armor (negb (has options KDCAllowPostdate && has (p_Flags service) DisallowPostdated)) kdcErrCannotPostdate in
  do _ := require armor (negb (has options KDCEncTktInSkey && has (p_Flags service) DisallowDupSkey)) kdcErrPolicy in
  do _ := require armor (negb (has (p_Flags service) DisallowTGTBased &&
             match NameString (t_SName ticket) with first :: _ => bytes_eqb first krbtgt | [] => false end)) kdcErrPolicy in
  do _ := require armor (negb (has (p_Flags service) RequiresHWAuth && negb (has flags TicketHWAuthent))) kdcErrGeneric in
  require armor (negb (has (p_Flags service) RequiresPreAuth && negb (has flags TicketPreAuthent))) kdcErrGeneric.

(** ** Protocol transition *)

Definition checksum_etype (checksumType : Z) : option Z :=
  if checksumType =? ChecksumHMACSHA196AES128 then Some EnctypeAES128SHA1
  else if checksumType =? ChecksumHMACSHA196AES256 then Some EnctypeAES256SHA1
  else if checksumType =? ChecksumHMACSHA256128AES128 then Some EnctypeAES128SHA256
  else if checksumType =? ChecksumHMACSHA384192AES256 then Some EnctypeAES256SHA384
  else if checksumType =? ChecksumCMACCamellia128 then Some EnctypeCamellia128
  else if checksumType =? ChecksumCMACCamellia256 then Some EnctypeCamellia256
  else None.
Definition verifyPAForUserChecksum (key : bytes) (usage : Z) (data expected : bytes) : bool :=
  if negb (Nat.eqb (length expected) 16) || (zlen key =? 0) then false
  else let digest := md5_Sum (le_bytes 4 (u32 usage) ++ data) in
       let signingKey := hmac_md5 key (str "signaturekey" ++ [nul]) in
       bytes_eqb (hmac_md5 signingKey digest) expected.
Definition verifyS4UChecksum (key : bytes) (checksumType usage : Z) (data expected : bytes) : bool :=
  if checksumType =? -138 then (usage =? 17) && verifyPAForUserChecksum key usage data expected
  else match checksum_etype checksumType with
       | None => false
       | Some id =>
           match Registry_Get fips id with
           | Ok etype => is_ok (VerifyChecksum etype key usage data expected)
           | _ => false
           end
       end.
Definition verifyPAForUserChecksumForEType (key : bytes) (checksumType : Z) (data expected : bytes) : bool :=
  if checksumType =? -138 then verifyPAForUserChecksum key 17 data expected
  else verifyS4UChecksum key checksumType 17 data expected.
Definition makeS4UChecksum (key : bytes) (checksumType usage : Z) (data : bytes) : res bytes :=
  match checksum_etype checksumType with
  | None => Err "unsupported S4U checksum type"
  | Some id => res_bind (Registry_Get fips id) (λ etype, Checksum etype key usage data)
  end.

(** The user of an S4U2Self request and the padata of the reply. *)
Definition s4u_request (armor : option fastContext) (request : KDCReq) (ticketPart : EncTicketPart)
    (authenticator : Authenticator) : E (option S4UUserID * option PAData) :=
  match findPA (r_PAData request) PADataS4UX509User with
  | Some pa130 =>
      do value := orelse armor krbAPErrBadIntegrity (Unmarshal (PADataValue pa130) : res PAS4UX509User) in
      let id := x_UserID value in
      do _ := require armor (match u_CName id with
                             | None => false
                             | Some name => negb (zlen (u_CRealm id) =? 0) && (0 <? zlen (NameString name)) &&
                                            (u_Nonce id =? b_Nonce (r_ReqBody request))
                             end) krbAPErrBadIntegrity in
      let userIDDER := match FieldContent (PADataValue pa130) [0] with Ok der => der | _ => marshalDER id end in
      let s4uKey := match a_SubKey authenticator with Some k => k | None => tp_Key ticketPart end in
      do _ := require armor (verifyS4UChecksum (KeyValue s4uKey) (ChecksumType (x_Checksum value)) 26 userIDDER
                               (cksum (x_Checksum value))) krbAPErrBadIntegrity in
      do checksum := orelse armor krbAPErrBadIntegrity
           (makeS4UChecksum (KeyValue s4uKey) (ChecksumType (x_Checksum value)) 27 userIDDER) in
      inr (Some id, Some (mkPA PADataS4UX509User
             (marshalDER (mkX509 id (mkCksum (ChecksumType (x_Checksum value)) checksum)))))
  | None =>
      match findPA (r_PAData request) PADataForUser with
      | None => inr (None, None)
      | Some pa129 =>
          do value := orelse armor krbAPErrBadIntegrity (Unmarshal (PADataValue pa129) : res PAForUser) in
          do _ := require armor (negb (zlen (f_UserRealm value) =? 0) && (0 <? zlen (NameString (f_UserName value))) &&
                                 bytes_eqb (f_AuthPackage value) (str "Kerberos")) krbAPErrBadIntegrity in
          let checksumInput := le_bytes 4 (u32 (NameType_ (f_UserName value))) ++ concat (NameString (f_UserName value)) ++
                               f_UserRealm value ++ f_AuthPackage value in
          do _ := orelse armor krbAPErrBadIntegrity (Registry_Get fips (KeyType (tp_Key ticketPart))) in
          do _ := require armor (verifyPAForUserChecksumForEType (KeyValue (tp_Key ticketPart))
                     (ChecksumType (f_Checksum value)) checksumInput (cksum (f_Checksum value))) krbAPErrBadIntegrity in
          inr (Some (mkS4U 0 (Some (f_UserName value)) (f_UserRealm value) [] None), None)
      end
  end.

(** S4U2Self: the client of the issued ticket, and the flags. *)
Definition s4u_self (armor : option fastContext) (now options : Z) (user : S4UUserID) (requester serviceName : Principal)
    (flags : Z) : E (Principal * Z) :=
  do _ := require armor (bytes_eqb (principal_String serviceName) (principal_String requester) &&
                         negb (has options KDCCNameInAddlTkt)) kdcErrBadOption in
  do name := deref (u_CName user) in
  let user := principalFromProtocol name (u_CRealm user) in
  do _ := require armor (bytes_eqb (Realm user) (s_Realm s)) kdcErrCPrincipal in
  do record := lookup_record db armor kdcErrGeneric user in
  do record := orelse_some armor kdcErrCPrincipal record in
  do _ := require armor (0 <? zlen (Components (p_Name record))) kdcErrCPrincipal in
  do _ := check_validity armor (let code := validateS4UClient now record in if code =? 0 then None else Some code) in
  inr (user, match CheckAllowedToDelegate with
             | None => without flags TicketForwardable
             | Some check => if check None requester None then flags else without flags TicketForwardable
             end).

(** ** Constrained delegation *)

(** What S4U2Proxy gives: the client, the server of the evidence, the key that
    verifies its PAC, the elements it protects and the new header part. *)
Record proxy := mkProxy {
  px_client : Principal;
  px_evidence : Principal;
  px_pacVerifyKey : Key;
  px_elements : option AuthorizationData;
  px_ticketPart : EncTicketPart;
}.

Definition decrypt_ticket (armor : option fastContext) (record : PrincipalRecord) (ticket : Ticket)
    (etypeCode partCode : Z) : E (Key * EType * EncTicketPart) :=
  do key := orelse_some armor krbAPErrBadIntegrity
       (selectKVNO record (ed_EType (t_EncPart ticket)) (ed_KVNO (t_EncPart ticket))) in
  do etype := orelse armor etypeCode (Registry_Get fips (Key_Enctype key)) in
  do plain := orelse armor krbAPErrBadIntegrity (etype_Decrypt etype (Key_Key key) 2 (ed_Cipher (t_EncPart ticket))) in
  do part := orelse armor partCode (Unmarshal plain : res EncTicketPart) in
  inr (key, etype, part).

Definition s4u_proxy (armor : option fastContext) (now options : Z) (request : KDCReq) (requester serviceName : Principal)
    (verified : option AuthorizationData) (ticketPart : EncTicketPart) : E proxy :=
  do check := orelse_some armor kdcErrBadOption CheckAllowedToDelegate in
  do _ := require armor ((zlen (b_AdditionalTickets (r_ReqBody request)) =? 1) &&
            negb (has options (with_flags KDCRenew (with_flags KDCValidate (with_flags KDCForwarded
                                (with_flags KDCProxy KDCEncTktInSkey)))))) kdcErrBadOption in
  do _ := require armor (negb (match Components serviceName with first :: _ => bytes_eqb first krbtgt | [] => false end))
            kdcErrPolicy in
  do evidence := orelse_some armor kdcErrBadOption (head (b_AdditionalTickets (r_ReqBody request))) in
  do requesterRecord := lookup_record db armor kdcErrPolicy requester in
  do requesterRecord := orelse_some armor kdcErrPolicy requesterRecord in
  do '(evidenceKey, evidenceEType, evidencePart) := decrypt_ticket armor requesterRecord evidence
       krbAPErrBadIntegrity kdcErrBadOption in
  do _ := require armor (bytes_eqb (t_Realm evidence) (Realm requester) &&
            sameProtocolPrincipal (t_SName evidence) (protocolPrincipal requester) &&
            has (tp_Flags evidencePart) TicketForwardable) kdcErrBadOption in
  do _ := check_validity armor (ticketValidity s now evidencePart) in
  let kdcKey := match freshnessKey fips s db [] with Some key => encryption_key key | None => mkEKey 0 [] end in
  do verified :=
    match VerifyKDC fips (tp_AuthorizationData evidencePart) evidencePart kdcKey with
    | Ok _ => do elements := orelse armor krbAPErrBadIntegrity (ProtectedElements (tp_AuthorizationData evidencePart)) in
              inr (Some elements)
    | Err verifyErr => if negb (errors_Is verifyErr ErrNotFound) then fail armor krbAPErrBadIntegrity else inr verified
    | Panic => inl Crash
    end in
  do privKey := orelse_some armor krbAPErrBadIntegrity (pacPrivsvrKey fips s db) in
  do privEType := orelse armor krbAPErrBadIntegrity (Registry_Get fips (Key_Enctype privKey)) in
  do evidencePAC :=
    match FromTicket evidencePart (pac_key evidenceEType evidenceKey) (Some (pac_key privEType privKey)) with
    | Ok p => inr p
    | Err err => fail armor (if errors_Is err pac_ErrNotFound then kdcErrBadOption else krbAPErrBadIntegrity)
    | Panic => inl Crash
    end in
  do '(_, clientName) := orelse armor krbAPErrBadIntegrity (pac_ClientInfo evidencePAC) in
  do client := orelse armor krbAPErrBadIntegrity (Parse clientName) in
  do clientRecord := lookup_record db armor kdcErrGeneric client in
  do _ := match clientRecord with
          | Some record => let code := validateS4UClient now record in
                           check_validity armor (if code =? 0 then None else Some code)
          | None => inr tt
          end in
  do _ := require armor (check (Some client) requester (Some serviceName)) kdcErrBadOption in
  let ticketPart := set_Flags ticketPart (tp_Flags evidencePart) in
  let ticketPart := if 0 <? zlen (tp_AuthorizationData evidencePart)
                    then set_AuthorizationData ticketPart (tp_AuthorizationData evidencePart) else ticketPart in
  inr (mkProxy client (principalFromProtocol (t_SName evidence) (t_Realm evidence)) evidenceKey verified ticketPart).

(** ** User to user *)

Definition user_to_user (armor : option fastContext) (now : Z) (request : KDCReq) (serviceRecord : PrincipalRecord)
    : E Key :=
  do second := deref (head (b_AdditionalTickets (r_ReqBody request))) in
  do _ := require armor (bytes_eqb (t_Realm second) (s_Realm s) && (NameType_ (t_SName second) =? NTSrvInstance) &&
            bool_decide (NameString (t_SName second) = [krbtgt; s_Realm s])) kdcErrPolicy in
  do localTGTRecord := lookup_record db armor kdcErrPolicy (local_tgt s) in
  do localTGTRecord := orelse_some armor kdcErrPolicy localTGTRecord in
  do '(_, _, secondPart) := decrypt_ticket armor localTGTRecord second kdcErrETypeNoSupp krbAPErrBadIntegrity in
  do _ := check_validity armor (ticketValidity s now secondPart) in
  let secondClient := principalFromProtocol (tp_CName secondPart) (tp_CRealm secondPart) in
  do secondRecord := lookup_record db armor kdcErrPolicy secondClient in
  do secondRecord := match secondRecord with
                     | Some record => inr (Some record)
                     | None => do alias := orelse armor kdcErrPolicy (lookupAlias db secondClient) in inr (fst <$> alias)
                     end in
  do _ := require armor (match secondRecord with
                         | Some record => samePrincipalIdentity (p_Name record) (p_Name serviceRecord)
                         | None => false
                         end) kdcErrServerNoMatch in
  do _ := require armor (is_ok (Registry_Get fips (KeyType (tp_Key secondPart))) &&
                         negb (zlen (KeyValue (tp_Key secondPart)) =? 0)) kdcErrETypeNoSupp in
  inr (mkKey (KeyType (tp_Key secondPart)) 0 (KeyValue (tp_Key secondPart)) []).

(** ** Authorization data of the request and of the ticket *)

Definition decrypt_authdata (encrypted : EncryptedData) (key : EncryptionKey) (usage : Z) : res AuthorizationData :=
  res_bind (wrap_err "TGS request authorization-data enctype: " (Registry_Get fips (KeyType key))) (λ etype,
  if zlen (KeyValue key) =? 0 then Err "TGS request authorization-data key is empty" else
  res_bind (wrap_err "TGS request authorization-data decrypt: "
              (etype_Decrypt etype (KeyValue key) usage (ed_Cipher encrypted))) (λ plain,
  wrap_err "TGS request authorization-data decode: " (Unmarshal plain))).
Definition decryptTGSRequestAuthData (request : KDCReq) (sessionKey : EncryptionKey) (subKey : option EncryptionKey)
    : res AuthorizationData :=
  match b_EncAuthorizationData (r_ReqBody request) with
  | None => Ok []
  | Some encrypted =>
      if zlen (ed_Cipher encrypted) =? 0 then Ok [] else
      match decrypt_authdata encrypted sessionKey 4 with
      | Ok result => Ok result
      | err => match subKey with Some key => decrypt_authdata encrypted key 5 | None => err end
      end
  end.

(** [hasMandatoryKDCAuthData]; what is decoded from an element is shorter than
    the element, so its length bounds the nesting. *)
Fixpoint mandatory_loop (fuel : nat) (data : AuthorizationData) : bool :=
  match fuel with
  | O => false
  | S fuel =>
      existsb (λ entry,
        if ADType entry =? ADMandatoryForKDC then true
        else if negb (ADType entry =? ADIfRelevant) then false
        else match (Unmarshal (ADData entry) : res AuthorizationData) with
             | Ok inner => mandatory_loop fuel inner
             | _ => false
             end) data
  end.
Definition hasMandatoryKDCAuthData (data : AuthorizationData) : bool :=
  mandatory_loop (S (foldr (λ entry n, n + length (ADData entry))%nat 0%nat data)) data.

(** ** The times and flags of the ticket *)

Record times := mkTimes {
  ti_flags : Z; ti_start : option KerberosTime; ti_end : KerberosTime; ti_renew : option KerberosTime }.

Definition tgs_times (armor : option fastContext) (body : KDCReqBody) (ticketPart : EncTicketPart) (now : Z)
    (authTime : KerberosTime) (client : option PrincipalRecord) (service : PrincipalRecord) : E times :=
  let options := b_KDCOptions body in
  let flags := tp_Flags ticketPart in
  if has options KDCValidate then
    inr (mkTimes (without flags TicketInvalid) (tp_StartTime ticketPart) (tp_EndTime ticketPart) (tp_RenewTill ticketPart))
  else if has options KDCRenew then
    let start := match tp_StartTime ticketPart with
                 | Some t => if Present t then Time t else Time authTime
                 | None => Time authTime
                 end in
    let lifetime := time_sub (Time (tp_EndTime ticketPart)) start in
    let end_ := now + lifetime in
    let end_ := match tp_RenewTill ticketPart with
                | Some t => if Time t <? end_ then Time t else end_
                | None => end_
                end in
    inr (mkTimes flags (Some (at_time now)) (at_time (truncate_s end_)) (tp_RenewTill ticketPart))
  else
    let flags := without flags TicketRenewable in
    do '(startTime, start, flags) :=
      if has options KDCPostdated then
        match b_From body with
        | Some from =>
            if negb (Present from) || (Time from <=? now) || (Present (b_Till body) && (Time (b_Till body) <=? Time from))
            then fail armor kdcErrCannotPostdate
            else inr (Some from, Time from, with_flags flags (with_flags TicketPostdated TicketInvalid))
        | None => fail armor kdcErrCannotPostdate
        end
      else inr (None, now, flags) in
    let endTime := ticketEndFromRecords s (b_Till body) start client (Some service) in
    let renewTill := renewTillRecords s options (b_RTime body) (b_Till body) start (Time endTime) client (Some service) in
    let renewTill :=
      if has options (with_flags KDCRenewable KDCRenewableOK) then
        match tp_RenewTill ticketPart, renewTill with
        | None, _ => None
        | Some limit, Some t => if Time limit <? Time t then Some limit else Some t
        | Some _, None => None
        end
      else renewTill in
    let flags := if bool_decide (is_Some renewTill) then with_flags flags TicketRenewable else flags in
    inr (mkTimes flags startTime endTime renewTill).

(** The restrictions of the server, of the principals and of the policy modules. *)
Definition restrict_times (armor : option fastContext) (modules : list (KDCPolicyResult + HookError)) (now : Z)
    (client : option PrincipalRecord) (service : PrincipalRecord) (t : times) : E times :=
  let renewTill := match s_Policy s with
                   | Some policy => if AllowRenewable policy then ti_renew t else None
                   | None => ti_renew t
                   end in
  let flags := applyPrincipalFlagPolicy (applyFlagPolicy s (ti_flags t)) client (Some service) in
  let denied := record_denies client DisallowRenewable || has (p_Flags service) DisallowRenewable in
  let flags := if denied then without flags TicketRenewable else flags in
  let renewTill := if denied then None else renewTill in
  match apply_policies now modules (ti_end t) renewTill with
  | inl err => inl (ErrorReply (mkError armor (policyErrorCode err) [] (he_Text err)))
  | inr (endTime, renewTill) => inr (mkTimes flags (ti_start t) endTime renewTill)
  end.

(** ** The reply *)

(** What the checks decide about the ticket to issue. *)
Record grant := mkGrant {
  g_request : KDCReq;
  g_armor : option fastContext;
  g_ticketPart : EncTicketPart;
  g_headerTicket : Ticket;
  g_headerKey : Key;
  g_serviceName : Principal;
  g_serviceRecord : PrincipalRecord;
  g_etypeID : Z;
  g_serviceKey : Key;
  g_replyKey : EncryptionKey;
  g_replyUsage : Z;
  g_issuedClient : option Principal;
  g_replyPA : option PAData;
  g_evidence : option Principal;
  g_verified : option AuthorizationData;
  g_pacVerifyKey : option Key;
  g_u2uTicketKey : option Key;
  g_subKey : option EncryptionKey;
}.

(** The ticket before it is encrypted, the key it is encrypted with, and the
    encrypted part of the reply. *)
Record issued := mkIssued {
  i_ticketPart : EncTicketPart; i_key : Key; i_repPart : EncKDCRepPart; i_reply : KDCRep;
  i_armor : option fastContext; i_replyKey : EncryptionKey; i_replyUsage : Z }.

(** [Name] of a cross-realm ticket-granting service. *)
Definition cross_realm (name : Principal) : bool :=
  match Components name with
  | [first; realm] => bytes_eqb first krbtgt && negb (bytes_eqb realm (s_Realm s))
  | _ => false
  end.
Definition is_tgs_name (name : Principal) : bool :=
  match Components name with [first; _] => bytes_eqb first krbtgt | _ => false end.

(** The client of the ticket. *)
Definition grant_client (g : grant) : Principal :=
  match g_issuedClient g with
  | Some client => client
  | None => principalFromProtocol (tp_CName (g_ticketPart g)) (tp_CRealm (g_ticketPart g))
  end.

(** The ticket part before and after its authorization data is added, up to
    that of the KDC, and the indicators of the client. *)
Definition new_ticket_part (g : grant) (sessionValue : bytes) (modules : list (KDCPolicyResult + HookError)) (clock : Z)
    : E (EncTicketPart * EncTicketPart * list bytes) :=
  let armor := g_armor g in
  let body := r_ReqBody (g_request g) in
  let ticketPart := g_ticketPart g in
  let now := truncate_s clock in
  do clientRecord := lookup_record db armor kdcErrGeneric (grant_client g) in
  do authIndicators := orelse armor kdcErrGeneric (authIndicatorsFromElements (default [] (g_verified g))) in
  let authTime := if Present (tp_AuthTime ticketPart) then tp_AuthTime ticketPart else at_time now in
  do t := tgs_times armor body ticketPart now authTime clientRecord (g_serviceRecord g) in
  do t := restrict_times armor modules now clientRecord (g_serviceRecord g) t in
  let addresses := if has (b_KDCOptions body) (with_flags KDCForwarded KDCProxy)
                   then b_Addresses body else tp_CAddr ticketPart in
  do requestAuthData := orelse armor kdcErrGeneric
       (decryptTGSRequestAuthData (g_request g) (tp_Key ticketPart) (g_subKey g)) in
  do _ := require armor (negb (hasMandatoryKDCAuthData requestAuthData)) kdcErrPolicy in
  let client := grant_client g in
  let crossRealmTGT := cross_realm (g_serviceName g) in
  let transited := tp_Transited ticketPart in
  let transited := if negb (bytes_eqb (Realm client) (s_Realm s)) || crossRealmTGT
                   then mkTransited 1 (Contents transited) else transited in
  do flags :=
    if negb crossRealmTGT && (0 <? zlen (Contents transited)) then
      if negb (transitedPermitted (Contents transited) (Realm client) (Realm (g_serviceName g)) (s_Capaths s))
      then do _ := require armor (negb (rejectBadTransit s)) kdcErrPolicy in inr (ti_flags t)
      else inr (with_flags (ti_flags t) TicketTransited)
    else inr (ti_flags t) in
  let part := mkTicketPart flags (mkEKey (g_etypeID g) sessionValue) (Realm client) (protocolPrincipal client)
                transited authTime (ti_start t) (ti_end t) (ti_renew t) addresses requestAuthData in
  let full := if has flags TicketAnonymous then part else authdata_modules part in
  inr (part, set_AuthorizationData full (tp_AuthorizationData full ++ tp_AuthorizationData ticketPart), authIndicators).

Definition buildTGSRep (g : grant) (draw : nat → nat → res bytes) (modules : list (KDCPolicyResult + HookError)) (clock : Z)
    : E issued :=
  let armor := g_armor g in
  let body := r_ReqBody (g_request g) in
  do etype := orelse armor kdcErrETypeNoSupp (Registry_Get fips (g_etypeID g)) in
  do sessionValue := orelse None kdcErrGeneric (draw 0%nat (etype_KeySize etype)) in
  do '(basePart, ticketPart, authIndicators) := new_ticket_part g sessionValue modules clock in
  let ticketEncryptionKey := match g_u2uTicketKey g with Some key => key | None => g_serviceKey g end in
  let ticketKVNO := match g_u2uTicketKey g with Some _ => None | None => Some (Key_KVNO (g_serviceKey g)) end in
  do _ := match findPA (r_PAData (g_request g)) PADataForUser, findPA (r_PAData (g_request g)) PADataS4UX509User with
          | None, None => requireAuthError armor (g_serviceRecord g) authIndicators
          | _, _ => inr tt
          end in
  do ticketPart := orelse armor kdcErrGeneric (issueCAMMAC fips s db ticketPart ticketEncryptionKey (g_verified g) []) in
  do ticketPart := orelse armor kdcErrGeneric
       (issuePACWithOptions fips s db hooks ticketPart (principalFromProtocol (tp_CName ticketPart) (tp_CRealm ticketPart)) (g_serviceName g)
          (g_headerKey g) (g_serviceKey g) (negb (is_tgs_name (g_serviceName g)))
          (bool_decide (is_Some (g_issuedClient g)))
          None (if cross_realm (g_serviceName g) then None else g_evidence g) (g_pacVerifyKey g) (draw 3%nat 16%nat)) in
  do ticketCipher := orelse armor kdcErrGeneric
       (encryptWithKey fips (draw 1%nat 16%nat) ticketEncryptionKey 2 (marshalDER ticketPart)) in
  let keepName := renew_or_validate (b_KDCOptions body) in
  let sname := if keepName then t_SName (g_headerTicket g) else protocolPrincipal (g_serviceName g) in
  let srealm := if keepName then t_Realm (g_headerTicket g) else Realm (g_serviceName g) in
  let ticket := mkTicket 5 srealm sname (mkEnc (Key_Enctype ticketEncryptionKey) ticketKVNO ticketCipher) in
  let part := mkRepPart (mkEKey (g_etypeID g) sessionValue) [mkLastReq 0 (at_time (truncate_s clock))] (b_Nonce body) None
                (tp_Flags basePart) (tp_AuthTime basePart) (tp_StartTime basePart) (tp_EndTime basePart)
                (tp_RenewTill basePart)
                srealm sname [] in
  do replyCipher := orelse armor kdcErrGeneric
       (encryptWithKey fips (draw 2%nat 16%nat) (mkKey (KeyType (g_replyKey g)) 0 (KeyValue (g_replyKey g)) [])
          (g_replyUsage g) (marshalDER (H := enc_tgs_rep_part_der) part)) in
  let reply := mkRep 5 13 (match g_replyPA g with Some pa => [pa] | None => [] end)
                 (tp_CRealm ticketPart) (tp_CName ticketPart) ticket
                 (mkEnc (KeyType (g_replyKey g)) None replyCipher) in
  inr (mkIssued ticketPart ticketEncryptionKey part reply armor (g_replyKey g) (g_replyUsage g)).

(** ** The handler *)

(** The request once it is authenticated: before the replay cache is asked. *)
Record authenticated := mkAuth {
  au_header : header;
  au_request : KDCReq;
  au_armor : option fastContext;
  au_requested : Principal;
  au_verified : option AuthorizationData;
  au_ticketPart : EncTicketPart;
}.

Definition authenticate (request : KDCReq) (raw : bytes) (now : Z) : E authenticated :=
  do h := tgs_header request raw now in
  do pa := orelse_some None kdcErrGeneric (findPA (r_PAData request) paTGSReq) in
  do '(request, armor) := unwrapFASTTGSReq request (PADataValue pa) (h_ticketPart h) (h_authenticator h) in
  let body := r_ReqBody request in
  do sname := deref (b_SName body) in
  let requested := principalFromProtocol sname (b_Realm body) in
  do '(verified, ticketPart) := verify_header_cammac armor (h_ticketPart h) in
  let options := b_KDCOptions body in
  do _ := require armor (negb (has options KDCEncTktInSkey &&
            (negb (zlen (b_AdditionalTickets body) =? 1) ||
             has options (with_flags KDCRenew (with_flags KDCValidate (with_flags KDCForwarded
                            (with_flags KDCProxy KDCCNameInAddlTkt)))) ||
             negb (bytes_eqb (Realm requested) (s_Realm s))))) kdcErrBadOption in
  do _ := check_header armor now options ticketPart in
  let ticketClient := principalFromProtocol (tp_CName ticketPart) (tp_CRealm ticketPart) in
  do _ := check_client armor now ticketClient requested in
  do ticketPart := add_transited armor (t_Realm (ap_Ticket (h_apRequest h))) ticketPart in
  inr (mkAuth h request armor requested verified ticketPart).

(** The decision on an authenticated request that is not a replay. *)
Definition decide_grant (a : authenticated) (now : Z) : E grant :=
  let armor := au_armor a in
  let request := au_request a in
  let body := r_ReqBody request in
  let options := b_KDCOptions body in
  let ticket := ap_Ticket (h_apRequest (au_header a)) in
  let authenticator := h_authenticator (au_header a) in
  let ticketPart := au_ticketPart a in
  let requester := principalFromProtocol (tp_CName ticketPart) (tp_CRealm ticketPart) in
  do _ := check_options armor options ticketPart in
  do '(serviceName, serviceRecord) := find_service armor options ticket requester (au_requested a) (b_Realm body) in
  do _ := check_service armor now options ticket (tp_Flags ticketPart) serviceRecord in
  do '(s4uUser, replyPA) := s4u_request armor request ticketPart authenticator in
  do '(issuedClient, ticketPart) :=
    match s4uUser with
    | None => inr (None, ticketPart)
    | Some user =>
        do '(client, flags) := s4u_self armor now options user requester serviceName (tp_Flags ticketPart) in
        inr (Some client, set_Flags ticketPart flags)
    end in
  do '(issuedClient, evidence, pacVerifyKey, verified, ticketPart) :=
    if has options KDCCNameInAddlTkt then
      do px := s4u_proxy armor now options request requester serviceName (au_verified a) ticketPart in
      inr (Some (px_client px), Some (px_evidence px), Some (px_pacVerifyKey px), px_elements px, px_ticketPart px)
    else inr (issuedClient, None, None, au_verified a, ticketPart) in
  do u2uTicketKey :=
    if has options KDCEncTktInSkey then do key := user_to_user armor now request serviceRecord in inr (Some key)
    else inr None in
  do ticketPart :=
    if has options KDCForwarded then
      do _ := require armor (bool_decide (Components serviceName = [krbtgt; b_Realm body]) &&
                             has (tp_Flags ticketPart) TicketForwardable) kdcErrBadOption in
      inr (set_Flags ticketPart (with_flags (tp_Flags ticketPart) TicketForwarded))
    else inr ticketPart in
  let selected := selectServiceKey (b_EType body) serviceRecord in
  let '(etypeID, serviceKey) := default (0, mkKey 0 0 [] []) selected in
  do etypeID :=
    match u2uTicketKey with
    | Some key =>
        do _ := require armor (negb (negb (bool_decide (is_Some selected)) && s_EnablePAC s)) kdcErrETypeNoSupp in
        inr (if bool_decide (Key_Enctype key ∈ b_EType body) then Key_Enctype key else etypeID)
    | None => do _ := require armor (bool_decide (is_Some selected)) kdcErrETypeNoSupp in inr etypeID
    end in
  let '(replyKey, replyUsage) :=
    match a_SubKey authenticator with Some key => (key, 9) | None => (tp_Key ticketPart, 8) end in
  inr (mkGrant request armor ticketPart ticket (h_ticketKey (au_header a)) serviceName serviceRecord etypeID serviceKey
         replyKey replyUsage issuedClient replyPA evidence verified pacVerifyKey u2uTicketKey (a_SubKey authenticator)).

(** [handleTGSReqCore]: the reply and the replay cache after it. *)
Definition handleTGSReqCore (request : KDCReq) (raw : bytes) (now : Z) (draw : nat → nat → res bytes)
    (modules : list (KDCPolicyResult + HookError)) (r : replays) : E issued * replays :=
  match authenticate request raw now with
  | inl e => (inl e, r)
  | inr a =>
      let ticketPart := au_ticketPart a in
      let '(replay, r) :=
        replayed s now (replay_key (tp_CRealm ticketPart) (tp_CName ticketPart) (h_authenticator (au_header a))) r in
      if replay then (fail (au_armor a) krbAPErrRepeat, r)
      else (do g := decide_grant a now in buildTGSRep g draw modules now, r)
  end.

(** The request as the error replies name it: the protected one once it is unwrapped. *)
Definition named_request (request : KDCReq) (raw : bytes) (now : Z) : KDCReq :=
  match (do h := tgs_header request raw now in
         do pa := orelse_some None kdcErrGeneric (findPA (r_PAData request) paTGSReq) in
         unwrapFASTTGSReq request (PADataValue pa) (h_ticketPart h) (h_authenticator h)) with
  | inr (inner, _) => inner
  | inl _ => request
  end.
(** [handleTGSReq]: the message sent, if the process lives. *)
Definition handleTGSReq (request : KDCReq) (raw : bytes) (now : Z) (draw : nat → nat → res bytes)
    (modules : list (KDCPolicyResult + HookError)) (r : replays) : option bytes * replays :=
  let '(result, r) := handleTGSReqCore request raw now draw modules r in
  (match result with
   | inl Crash => None
   | inl (ErrorReply e) =>
       Some (error_message s now (draw 4%nat 16%nat) (b_SName (r_ReqBody (named_request request raw now))) e)
   | inr i =>
       match i_armor i with
       | None => Some (marshalDER (H := tgs_rep_der) (i_reply i))
       | Some armor =>
           match wrapFASTRep fips (λ n, draw (n + 5)%nat) now (i_reply i) (KeyValue (i_replyKey i)) (i_replyUsage i) armor with
           | Ok reply => Some (marshalDER (H := tgs_rep_der) reply)
           | _ => Some (errorResponseWithTextAndData s now kdcErrGeneric (Some (t_SName (rep_Ticket (i_reply i)))) [] [])
           end
       end
   end, r).

(** ** What a reply implies *)

(** The ticket is sealed with a key the database has for its server; the
    authenticator is sealed with the session key of the ticket, for its client
    and this time, and holds the checksum of the body of the request. *)
Record authentic (request : KDCReq) (raw : bytes) (now : Z) (h : header) : Prop := {
  authentic_request : ∃ pa, findPA (r_PAData request) paTGSReq = Some pa ∧ Unmarshal (PADataValue pa) = Ok (h_apRequest h);
  authentic_key : let ticket := ap_Ticket (h_apRequest h) in
    ∃ record, st_Lookup db (mkPrincipal (t_Realm ticket) NTSrvInstance (NameString (t_SName ticket))) = Ok (Some record) ∧
              selectKVNO record (ed_EType (t_EncPart ticket)) (ed_KVNO (t_EncPart ticket)) = Some (h_ticketKey h);
  authentic_ticket : ∃ plain, Unmarshal plain = Ok (h_ticketPart h) ∧
    sealed fips (Key_Enctype (h_ticketKey h)) (Key_Key (h_ticketKey h)) 2 plain (ed_Cipher (t_EncPart (ap_Ticket (h_apRequest h))));
  authentic_authenticator : let key := tp_Key (h_ticketPart h) in
    ∃ plain, Unmarshal plain = Ok (h_authenticator h) ∧
             sealed fips (KeyType key) (KeyValue key) 7 plain (ed_Cipher (ap_Authenticator (h_apRequest h)));
  authentic_client : a_CRealm (h_authenticator h) = tp_CRealm (h_ticketPart h) ∧
                     a_CName (h_authenticator h) = tp_CName (h_ticketPart h);
  authentic_time : withinSkew s now (Time (a_Ctime (h_authenticator h))) = true;
  authentic_body : let key := tp_Key (h_ticketPart h) in
    ∃ etype body checksum, Registry_Get fips (KeyType key) = Ok etype ∧ FieldContent raw [TagTGSReq; 4] = Ok body ∧
      a_Checksum (h_authenticator h) = Some checksum ∧ Checksum etype (KeyValue key) 6 body = Ok (cksum checksum);
}.

(** What the checks leave of the header ticket. *)
Definition same_grant (p q : EncTicketPart) : Prop :=
  ∃ data transited, p = set_Transited (set_AuthorizationData q data) transited.
Lemma same_grant_data p q data : same_grant p q → same_grant (set_AuthorizationData p data) q.
Proof. intros (d & t & ->). by exists data, t. Qed.
Lemma same_grant_refl p : same_grant p p.
Proof. exists (tp_AuthorizationData p), (tp_Transited p). by destruct p. Qed.

Lemma verify_header_cammac_same armor p v q : verify_header_cammac armor p = inr (v, q) → same_grant q p.
Proof.
  unfold verify_header_cammac. intros Hv.
  repeat case_match; inv_e; simplify_eq; auto using same_grant_data, same_grant_refl.
Qed.
Lemma add_transited_same armor realm p q r : add_transited armor realm p = inr q → same_grant p r → same_grant q r.
Proof.
  unfold add_transited. intros Ht (d & t & ->). destruct (bytes_eqb _ _); inv_e; subst; [by exists d, t|].
  by eexists d, _.
Qed.

Lemma check_header_usable armor now options p x :
  check_header armor now options p = inr x →
  usable s now p ∧ (has (tp_Flags p) TicketInvalid = true → has options KDCValidate = true ∧ has options KDCRenew = false) ∧
  (has options KDCRenew = true → has (tp_Flags p) TicketRenewable = true ∧ ∃ t, tp_RenewTill p = Some t ∧ now ≤ Time t).
Proof.
  unfold check_header. intros Hc. destruct (has options KDCRenew); [|destruct (has options KDCValidate)]; inv_e.
  - match goal with Hx : ticketValidity _ _ _ = None |- _ => apply ticketValidity_usable in Hx as [Hu Hi] end.
    split_and!; [done|by rewrite Hi|]. intros _. split; [done|]. destruct (tp_RenewTill p) as [t|]; [|done].
    exists t. split; [done|lia].
  - match goal with Hx : ticketValidityWithInvalid _ _ _ = None |- _ => apply ticketValidity_usable in Hx as [Hu _] end.
    by split_and!.
  - apply ticketValidity_usable in Hc as [Hu Hi]. split_and!; [done|by rewrite Hi|done].
Qed.

Lemma authenticate_part request raw now a :
  authenticate request raw now = inr a →
  tgs_header request raw now = inr (au_header a) ∧ same_grant (au_ticketPart a) (h_ticketPart (au_header a)) ∧
  ∃ p, same_grant p (h_ticketPart (au_header a)) ∧
       check_header (au_armor a) now (b_KDCOptions (r_ReqBody (au_request a))) p = inr tt.
Proof.
  unfold authenticate. intros Ha. inv_e. subst. cbn. split; [done|].
  match goal with Hx : verify_header_cammac _ _ = inr _ |- _ => apply verify_header_cammac_same in Hx as Hs end.
  split; [by eapply add_transited_same|]. eexists. split; [done|]. by repeat match goal with x : unit |- _ => destruct x end.
Qed.

Section authentic.
Context `{!GoCryptoLaws}.

Lemma tgs_header_authentic request raw now h : tgs_header request raw now = inr h → authentic request raw now h.
Proof.
  unfold tgs_header, lookup_record. intros Hh. inv_e. subst.
  match goal with Hx : _ && _ && _ = true |- _ => apply andb_prop in Hx as [[_ Hr%bytes_eqb_true]%andb_prop Hn%sameProtocolPrincipal_eq] end.
  match goal with Hx : VerifyChecksum _ _ _ _ _ = Ok _ |- _ => unfold VerifyChecksum in Hx; rename Hx into Hc end.
  destruct (Checksum _ _ _ _) as [sum| |] eqn:Hsum in Hc; cbn in Hc; try done.
  destruct (bytes_eqb sum _) eqn:Hs in Hc; [|done]. apply bytes_eqb_true in Hs as ->.
  constructor; cbn [h_apRequest h_ticketPart h_ticketKey h_authenticator]; eauto 10 using decrypt_sealed.
Qed.

(** C3: a reply is given only to the holder of the session key. When the
    handler answers with a ticket, the header ticket was sealed with a key the
    database holds for its server, the authenticator was sealed with the session
    key of that ticket, names its client, has a time stamp within the skew and
    holds the checksum of the request body; the header ticket may be used now,
    an invalid one only to be validated and a renewal only of a renewable one
    before its renewal limit; and the request was not in the replay cache, and
    is when the handler returns. *)
Theorem tgs_reply_authentic request raw now draw modules r i r' :
  handleTGSReqCore request raw now draw modules r = (inr i, r') →
  ∃ a, let h := au_header a in
       let part := h_ticketPart h in
       let options := b_KDCOptions (r_ReqBody (au_request a)) in
       let key := replay_key (tp_CRealm part) (tp_CName part) (h_authenticator h) in
    authenticate request raw now = inr a ∧ authentic request raw now h ∧ usable s now part ∧
    (has (tp_Flags part) TicketInvalid = true → has options KDCValidate = true ∧ has options KDCRenew = false) ∧
    (has options KDCRenew = true →
     has (tp_Flags part) TicketRenewable = true ∧ ∃ t, tp_RenewTill part = Some t ∧ now ≤ Time t) ∧
    (∀ expiry, r !! key = Some expiry → expiry ≤ now) ∧ r' !! key = Some (now + skew s).
Proof.
  unfold handleTGSReqCore. intros Hh. destruct (authenticate request raw now) as [e|a] eqn:Ha; [done|].
  exists a. destruct (authenticate_part _ _ _ _ Ha) as (Hhd & (d & t & Hp) & p & (d' & t' & ->) & Hc).
  rewrite Hp in Hh. cbn in Hh.
  apply check_header_usable in Hc. cbn in Hc. destruct Hc as (Hu & Hi & Hr).
  destruct (replayed s now _ r) as [replay r''] eqn:Hrep. destruct replay; [done|]. injection Hh as _ <-.
  split_and!; [done|by apply tgs_header_authentic|done|done|done| |].
  - intros expiry Hx. destruct (decide (now < expiry)) as [Hlt|]; [|lia].
    rewrite (replayed_again s now _ r expiry) in Hrep by done. done.
  - by apply replayed_records in Hrep.
Qed.
End authentic.
End tgs.

(** ** A concrete run *)

Module Example.
#[local] Existing Instance toy_crypto.
#[local] Existing Instance toy_crypto_laws.

Definition realm : bytes := str "R".
Definition server : Server := default_server realm.
Definition tgt_key : Key := mkKey EnctypeAES128SHA1 1 (str "0123456789abcdef") [].
Definition session : EncryptionKey := mkEKey EnctypeAES128SHA1 (str "fedcba9876543210").
Definition alice : PrincipalName := mkPName NTPrincipal [str "alice"].
Definition krbtgt_name : PrincipalName := mkPName NTSrvInstance [krbtgt; realm].
Definition put (name : PrincipalName) (db : Database) : Database :=
  let p := principalFromProtocol name realm in
  put_principal db (canonical p) (empty_record p {[ EnctypeAES128SHA1 := tgt_key ]} 1 0).
Definition database : Database := put krbtgt_name (put alice (NewDatabase realm)).

Definition seal (key : EncryptionKey) (usage : Z) (plain : bytes) : bytes :=
  match Registry_Get false (KeyType key) with
  | Ok etype => match etype_Encrypt etype (Ok (zeros 16)) (KeyValue key) usage plain with Ok c => c | _ => [] end
  | _ => []
  end.
Definition checksum_of (key : EncryptionKey) (usage : Z) (body : bytes) : bytes :=
  match Registry_Get false (KeyType key) with
  | Ok etype => match Checksum etype (KeyValue key) usage body with Ok c => c | _ => [] end
  | _ => []
  end.

(** A ticket-granting ticket that ends ten seconds after the epoch. *)
Definition tgt_part : EncTicketPart :=
  mkTicketPart (with_flags TicketInitial TicketForwardable) session realm alice (mkTransited 0 []) (at_time 0) None
    (at_time (10 * second)) None [] [].
Definition tgt : Ticket :=
  mkTicket 5 realm krbtgt_name (mkEnc EnctypeAES128SHA1 (Some 1) (seal (encryption_key tgt_key) 2 (marshalDER tgt_part))).
Definition body_for (sname : option PrincipalName) : KDCReqBody :=
  mkBody 0 None realm sname None (at_time (3600 * second)) None 7 [EnctypeAES128SHA1] [] None [].
Definition body : KDCReqBody := body_for (Some krbtgt_name).
Definition authenticator : Authenticator :=
  mkAuthenticator 5 realm alice (Some (mkCksum ChecksumHMACSHA196AES128 (checksum_of session 6 (marshalDER body)))) 0
    (at_time (5 * second)) (Some (mkEKey EnctypeAES128SHA1 (str "the subsession k"))) None [].
Definition ap_req : bytes :=
  marshalDER (mkAPReq 5 14 0 tgt (mkEnc EnctypeAES128SHA1 None (seal session 7 (marshalDER authenticator)))).
Definition request : KDCReq := mkReq 5 12 [mkPA paTGSReq ap_req] body.

(** An armored request whose inner body names no server. *)
Definition armor_key : EncryptionKey :=
  mkEKey EnctypeAES128SHA1
    match Registry_Get false EnctypeAES128SHA1 with
    | Ok etype => match CF2 (Some etype) (str "the subsession k") (KeyValue session) (str "subkeyarmor") (str "ticketarmor") with
                  | Ok key => key | _ => [] end
    | _ => []
    end.
Definition armored : PAFXFastRequest :=
  mkFXRequest (mkArmored None (mkCksum ChecksumHMACSHA196AES128 (checksum_of armor_key UsageReqChecksum ap_req))
    (mkEnc EnctypeAES128SHA1 None (seal armor_key UsageReq (marshalDER (mkFastReq 0 [] (body_for None)))))).
Definition fast_request : KDCReq := mkReq 5 12 [mkPA paTGSReq ap_req; mkPA PAFXFast (marshalDER armored)] body.

#[local] Abbreviation handle request now r :=
  (handleTGSReqCore false server database (λ l, l) (λ k l, l) (λ z, dec z) (λ _ _ _, None) None (λ p, p) no_pac_hooks
    request (marshalDER (H := tgs_req_der) request) now (λ _ n, Ok (zeros n)) [] r).

#[local] Abbreviation run := (handle request (5 * second) (∅ : replays)).
(** It issues a ticket. *)
Lemma run_issues :
  ∃ i r, run = (inr i, r) ∧ Time (tp_EndTime (i_ticketPart i)) = 3600 * second ∧
         has (tp_Flags (i_ticketPart i)) TicketInitial = true.
Proof. apply handler_result. vm_compute. split; reflexivity. Qed.

Lemma tgs_reply_authentic_witness :
  ∃ a, authentic false server database request (marshalDER (H := tgs_req_der) request) (5 * second) (au_header a) ∧
       usable server (5 * second) (h_ticketPart (au_header a)).
Proof.
  destruct run_issues as (i & r & Hi & _).
  apply tgs_reply_authentic in Hi as (a & _ & Ha & Hu & _); [|exact toy_crypto_laws].
  exact (ex_intro _ a (conj Ha Hu)).
Defined.


End Example.
