(* ===== verification/KdcPreauth.v ===== *)
(** * Pre-authentication in the KDC (src/krb5/kdc/preauth.go, pkinit_freshness.go, parts of kdc.go)

    The registered pre-authentication modules, the cookie that holds the state
    of a SPAKE exchange, and freshness tokens.  The modules are code of the
    application: records of functions, of the facts the KDC shows them. *)

From S2P Require Import Prelude Principal GoStrings Crypto Ulog Kdb Protocol Asn1 Wire Pac Transited KdcPolicy KdcCommon Spake Preauth.
Local Open Scope Z_scope.

(** ** Modules *)

Definition PAHardware : Z := 0x4.
Definition PARequired : Z := 0x8.
Definition PASufficient : Z := 0x10.
Definition PAReplacesKey : Z := 0x20.
Definition PAPseudo : Z := 0x80.
Definition PADataPKASReq : Z := 16.

Record PreauthRock := mkRock {
  rk_Client : Principal;
  rk_Service : Principal;
  rk_ClientEntry : PrincipalRecord;
  rk_ClientKeys : list Key;
  rk_Request : KDCReq;
  rk_RequestBody : bytes;
  rk_ArmorKey : option EncryptionKey;
}.
Record VerifyResult := mkVerify {
  vr_Authenticated : bool;
  vr_HardwareAuthenticated : bool;
  vr_AuthIndicators : list bytes;
  vr_AuthorizationData : AuthorizationData;
  vr_ReplacedReplyKey : option Key;
  vr_PreauthType : bytes;
}.
(** The interface of a module, and [ReturnPadata] if it has that too. *)
Record KDCPreauthModule := mkModule {
  pm_Name : bytes;
  pm_PATypes : list Z;
  pm_Flags : Z → Z;
  pm_Edata : PreauthRock → Z → res PAData;
  pm_Verify : PreauthRock → PAData → res (option VerifyResult);
  pm_ReturnPadata : option (PreauthRock → VerifyResult → res MethodData);
}.

Definition kdcBuiltinPAType (paType : Z) : bool :=
  bool_decide (paType ∈ [PADataEncryptedTimestamp; PADataEncryptedChallenge; PADataSPAKE; PADataRequest; PADataPKASReq]).
Definition claimsPAType (values : list Z) (typ : Z) : bool := bool_decide (typ ∈ values).

Section modules.
(** [PreauthModules]; a nil module is left out of the list. *)
Context (modules : list KDCPreauthModule).

Definition module_required (m : KDCPreauthModule) : bool := existsb (λ paType, has (pm_Flags m paType) PARequired) (pm_PATypes m).
Definition customPreauthRequired : bool := existsb module_required modules.

Definition preauthModuleHints (rock : PreauthRock) : MethodData :=
  modules ≫= λ m, pm_PATypes m ≫= λ paType,
    if kdcBuiltinPAType paType || has (pm_Flags m paType) PAPseudo then []
    else match pm_Edata m rock paType with
         | Ok hint => if PADataType hint =? paType then [hint] else []
         | _ => []
         end.

(** What the loop has collected: the aggregate, the modules that succeeded, and
    the names of the required modules among them. *)
Record verified := mkVerified {
  ve_aggregate : VerifyResult;
  ve_successes : list (KDCPreauthModule * VerifyResult);
  ve_required : list bytes;
}.
Definition no_result : VerifyResult := mkVerify false false [] [] None [].
Definition nothing_verified : verified := mkVerified no_result [] [].

(** One authenticated result joins the aggregate. *)
Definition join_result (v : verified) (m : KDCPreauthModule) (flags : Z) (result : VerifyResult) : verified :=
  let a := ve_aggregate v in
  mkVerified
    (mkVerify true (vr_HardwareAuthenticated a || vr_HardwareAuthenticated result) (vr_AuthIndicators a ++ vr_AuthIndicators result)
       (vr_AuthorizationData a ++ vr_AuthorizationData result)
       (match vr_ReplacedReplyKey result with Some key => Some key | None => vr_ReplacedReplyKey a end)
       (if vr_Authenticated a then vr_PreauthType a else vr_PreauthType result))
    (ve_successes v ++ [(m, result)])
    (if has flags PARequired then pm_Name m :: ve_required v else ve_required v).

(** The elements of the request with the modules that claim them, in order.  A
    sufficient module ends both loops. *)
Fixpoint verify_loop (rock : PreauthRock) (l : list (PAData * KDCPreauthModule)) (v : verified) : res verified :=
  match l with
  | [] => Ok v
  | (pa, m) :: l =>
      res_bind (pm_Verify m rock pa) (λ result,
      match result with
      | Some result =>
          if negb (vr_Authenticated result) then verify_loop rock l v else
          let flags := pm_Flags m (PADataType pa) in
          let result := mkVerify true (has flags PAHardware || vr_HardwareAuthenticated result) (vr_AuthIndicators result)
                          (vr_AuthorizationData result) (vr_ReplacedReplyKey result)
                          (if zlen (vr_PreauthType result) =? 0 then pm_Name m else vr_PreauthType result) in
          if bool_decide (is_Some (vr_ReplacedReplyKey result)) &&
             (negb (has flags PAReplacesKey) || bool_decide (is_Some (vr_ReplacedReplyKey (ve_aggregate v))))
          then Err "preauth module supplied an invalid replacement reply key"
          else
            let v := join_result v m flags result in
            if has flags PASufficient then Ok v else verify_loop rock l v
      | None => verify_loop rock l v
      end)
  end.
Definition verifyPreauthModules (rock : PreauthRock) (data : MethodData) : res verified :=
  verify_loop rock (data ≫= λ pa, if kdcBuiltinPAType (PADataType pa) then []
                                   else (λ m, (pa, m)) <$> filter (λ m, claimsPAType (pm_PATypes m) (PADataType pa) = true) modules)
    nothing_verified.

(** Every required module has succeeded. *)
Definition customPreauthSatisfied (v : verified) : bool :=
  forallb (λ m, negb (module_required m) || bool_decide (pm_Name m ∈ ve_required v)) modules.
Definition customPreauthFailure (v : verified) (armor : option fastContext) : E unit :=
  require armor (negb customPreauthRequired || customPreauthSatisfied v) kdcErrPreauthFailed.
End modules.

(** ** SPAKE *)

Section spake.
Context `{GoCrypto} `{SpakeGroups} (s : Server).

Definition spake_message (pa : option PAData) : option PASPAKE :=
  pa ≫= λ pa, if negb (PADataType pa =? PADataSPAKE) then None
              else match (Unmarshal (PADataValue pa) : res PASPAKE) with Ok msg => Some msg | _ => None end.
(** [isSPAKESupport], with the message. *)
Definition spake_support (pa : option PAData) : option SPAKESupport := spake_message pa ≫= sp_Support.
Definition isSPAKESupport (pa : option PAData) : bool := bool_decide (is_Some (spake_support pa)).
Definition supportsSPAKEGroup (pa : option PAData) (group : Z) : bool :=
  match spake_support pa with Some support => bool_decide (group ∈ ss_Groups support) | None => false end.
Definition spakeGroups : list Z := match s_SPAKEGroups s with [] => [GroupEdwards25519] | groups => groups end.
Definition permitsSPAKEGroup (group : Z) : bool := bool_decide (group ∈ spakeGroups).
(** Zero for none. *)
Definition selectSPAKEGroup (pa : option PAData) : Z :=
  if negb (s_EnableSPAKE s) then 0
  else match spake_support pa with
       | Some support => default 0 (List.find (λ offered, permitsSPAKEGroup offered && is_ok (GroupInfo offered)) (ss_Groups support))
       | None => 0
       end.

(** The key of the cookies, made when it is first needed; [random] are 32 bytes. *)
Definition spakeKey (key : bytes) (random : res bytes) : res bytes := match key with [] => random | _ => Ok key end.
Definition spakeCookieLifetime : Z := 10 * minute.

(** The contents of a cookie before its MAC. *)
Definition cookie_data (now group : Z) (private transcript : bytes) : bytes :=
  be_bytes 2 1 ++ be_bytes 2 0 ++ be_bytes 8 (u64 (unix now)) ++ be_bytes 4 (u32 group) ++
  be_bytes 4 (u32 (zlen private)) ++ private ++ be_bytes 4 (u32 (zlen transcript)) ++ transcript.
(** The cookie and the key it is made with. *)
Definition makeSPAKECookie (now group : Z) (private transcript : bytes) (key : bytes) (random : res bytes) : res (bytes * bytes) :=
  match GroupInfo group with
  | Ok (_, privateLen, _, _) =>
      if negb (length private =? privateLen)%nat || (zlen transcript =? 0) then Err "invalid SPAKE cookie state"
      else
        let data := cookie_data now group private transcript in
        res_bind (spakeKey key random) (λ key, Ok (data ++ hmac_sum SHA256 key data, key))
  | Err _ => Err "invalid SPAKE cookie state"
  | Panic => Panic
  end.

Definition at_pos (data : bytes) (pos n : Z) : bytes := take (Z.to_nat n) (drop (Z.to_nat pos) data).
Definition be_at (data : bytes) (pos n : Z) : Z := be_value (at_pos data pos n).
(** The group, the private key and the transcript of a cookie; the key it is
    checked with, if one is made. *)
Definition parse_cookie (now : Z) (data : bytes) (macStart : Z) : option (Z * bytes * bytes) :=
  if negb (be_at data 0 2 =? 1) || negb (be_at data 2 2 =? 0) || (macStart <? 12) then None
  else if i64 (i64 (be_at data 4 8) + spakeCookieLifetime / second) <? unix now then None
  else
    let group := i32 (be_at data 12 4) in
    match GroupInfo group with
    | Ok (_, expectedPrivateLen, _, _) =>
        if macStart <? 20 then None
        else
          let privateLen := be_at data 16 4 in
          if negb (privateLen =? Z.of_nat expectedPrivateLen) || (macStart <? 20 + privateLen + 4) then None
          else
            let transcriptLen := be_at data (20 + privateLen) 4 in
            let pos := 24 + privateLen in
            if (transcriptLen =? 0) || negb (pos + transcriptLen =? macStart) then None
            else Some (group, at_pos data 20 privateLen, at_pos data pos transcriptLen)
    | _ => None
    end.
Definition parseSPAKECookie (now : Z) (pa : option PAData) (key : bytes) (random : res bytes) : option (Z * bytes * bytes) * bytes :=
  match pa with
  | None => (None, key)
  | Some pa =>
      let data := PADataValue pa in
      if zlen data <? 24 + 32 then (None, key)
      else
        let macStart := zlen data - 32 in
        match spakeKey key random with
        | Ok key =>
            (if negb (bytes_eqb (hmac_sum SHA256 key (at_pos data 0 macStart)) (at_pos data macStart 32)) then None
             else parse_cookie now data macStart, key)
        | _ => (None, key)
        end
  end.
End spake.

(** *** The cookie of a SPAKE exchange *)

Lemma at_pos_app (a b c : bytes) pos n : pos = zlen a → n = zlen b → at_pos (a ++ b ++ c) pos n = b.
Proof.
  intros -> ->. unfold at_pos, zlen. rewrite !Nat2Z.id, drop_app_length. apply take_app_length.
Qed.
Lemma at_pos_skip (a d : bytes) pos n : zlen a <= pos → at_pos (a ++ d) pos n = at_pos d (pos - zlen a) n.
Proof.
  intros Hp. unfold at_pos. f_equal. rewrite drop_app_ge by (unfold zlen in Hp; lia). f_equal. unfold zlen in *. lia.
Qed.
Lemma be_at_skip (a d : bytes) pos n : zlen a <= pos → be_at (a ++ d) pos n = be_at d (pos - zlen a) n.
Proof. intros Hp. unfold be_at. by rewrite at_pos_skip. Qed.
Lemma at_pos_here (b c : bytes) n : n = zlen b → at_pos (b ++ c) 0 n = b.
Proof. intros ->. apply (at_pos_app [] b c); done. Qed.
Lemma be_at_here k z (c : bytes) n : n = Z.of_nat k → be_at (be_bytes k z ++ c) 0 n = z mod 256 ^ Z.of_nat k.
Proof. intros ->. unfold be_at. rewrite at_pos_here; [apply be_value_bytes|]. unfold zlen. by rewrite length_be_bytes. Qed.

Section cookie.
Context `{GoCryptoLaws} `{SpakeGroups}.

Lemma makeSPAKECookie_spec now group private transcript key random cookie key' :
  makeSPAKECookie now group private transcript key random = Ok (cookie, key') →
  length private = scalar_len group ∧ transcript ≠ [] ∧ is_ok (GroupInfo group) = true ∧ spakeKey key random = Ok key' ∧
  cookie = cookie_data now group private transcript ++ hmac_sum SHA256 key' (cookie_data now group private transcript).
Proof.
  unfold makeSPAKECookie, scalar_len. destruct (GroupInfo group) as [[[[name n] e] h]| |]; [|done..].
  destruct (length private =? n)%nat eqn:Hn; [|done]. destruct (Z.eqb_spec (zlen transcript) 0) as [|Ht]; [done|]. cbn [negb orb].
  destruct (spakeKey key random) as [k| |]; [|done..]. cbn [res_bind]. intros Hx. apply Ok_inj, pair_equal_spec in Hx as [<- <-].
  apply Nat.eqb_eq in Hn. split_and!; [done| |done..]. by intros ->.
Qed.

(** The fields of a cookie, and of what precedes its MAC. *)
Lemma cookie_fields now group private transcript (m : bytes) :
  let d := cookie_data now group private transcript ++ m in
  be_at d 0 2 = 1 ∧ be_at d 2 2 = 0 ∧ be_at d 4 8 = u64 (unix now) ∧ be_at d 12 4 = u32 group ∧ be_at d 16 4 = u32 (zlen private) ∧
  at_pos d 20 (zlen private) = private ∧ be_at d (20 + zlen private) 4 = u32 (zlen transcript) ∧
  at_pos d (24 + zlen private) (zlen transcript) = transcript.
Proof.
  cbn zeta. unfold cookie_data. rewrite <- !app_assoc. pose proof (zlen_nonneg private).
  assert (Hu : ∀ z, (u64 z) mod 256 ^ Z.of_nat 8 = u64 z ∧ (u32 z) mod 256 ^ Z.of_nat 4 = u32 z)
    by (intros z; split; apply Z.mod_small, Z.mod_pos_bound; lia).
  split_and!; repeat (rewrite ?at_pos_skip, ?be_at_skip by (rewrite ?zlen_be_bytes; lia); rewrite ?zlen_be_bytes);
    match goal with |- context [?f _ ?p _] => replace p with 0 by lia end;
    [rewrite be_at_here by done; first [done|apply Hu]..|by apply at_pos_here|rewrite be_at_here by done; apply Hu|by apply at_pos_here].
Qed.

(** The state comes back from the cookie, with the key it was made with and for
    ten minutes. *)
Lemma spake_cookie_roundtrip now now' group private transcript key random random' cookie key' kind :
  makeSPAKECookie now group private transcript key random = Ok (cookie, key') → key' ≠ [] →
  - 2 ^ 31 <= group < 2 ^ 31 → zlen private < 2 ^ 32 → zlen transcript < 2 ^ 32 → 0 <= unix now < 2 ^ 62 →
  parseSPAKECookie now' (Some (mkPA kind cookie)) key' random' =
    (if unix now + 600 <? unix now' then None else Some (group, private, transcript), key').
Proof.
  intros (Hl & Ht & Hg & _ & ->)%makeSPAKECookie_spec Hk' Hgroup Hpl Htl Hnow. unfold parseSPAKECookie. cbn [PADataValue].
  set (data := cookie_data now group private transcript). set (m := hmac_sum SHA256 key' data).
  assert (Hm : zlen m = 32) by (unfold m, zlen; by rewrite length_hmac).
  assert (Hd : zlen data = 24 + zlen private + zlen transcript) by (unfold data, cookie_data; rewrite !zlen_app, !zlen_be_bytes; lia).
  pose proof (zlen_nonneg private). pose proof (zlen_nonneg transcript).
  assert (zlen transcript ≠ 0) by (by destruct transcript; [|rewrite zlen_cons; pose proof (zlen_nonneg transcript); lia]).
  rewrite zlen_app, Hm. rewrite (proj2 (Z.ltb_ge _ _)) by lia. replace (zlen data + 32 - 32) with (zlen data) by lia.
  destruct key' as [|k0 ks]; [done|]. cbn [spakeKey]. rewrite at_pos_here by done.
  rewrite (at_pos_skip data m) by lia. replace (zlen data - zlen data) with 0 by lia.
  assert (at_pos m 0 32 = m) as -> by (rewrite <- (app_nil_r m) at 1; by apply at_pos_here). fold m. rewrite bytes_eqb_refl. cbn [negb]. f_equal.
  destruct (cookie_fields now group private transcript m) as (F0 & F2 & F4 & F12 & F16 & F20 & F20' & F24).
  fold data in F0, F2, F4, F12, F16, F20, F20', F24.
  unfold parse_cookie. rewrite F0, F2, F4, F12, F16. cbn [Z.eqb negb orb]. rewrite (proj2 (Z.ltb_ge (zlen data) _)) by lia.
  change (spakeCookieLifetime / second) with 600. rewrite i64_u64, i32_u32, (i64_id (_ + _)) by lia.
  destruct (Z.ltb_spec (unix now + 600) (unix now')); [done|]. unfold scalar_len in Hl.
  destruct (GroupInfo group) as [[[[name n] e] h]| |]; [|done..]. rewrite (proj2 (Z.ltb_ge (zlen data) _)) by lia.
  assert (Hpu : u32 (zlen private) = zlen private) by (by apply Z.mod_small). rewrite Hpu, F20, F20'.
  assert (u32 (zlen transcript) = zlen transcript) as -> by (by apply Z.mod_small). rewrite F24.
  assert (zlen private = Z.of_nat n) as <- by (unfold zlen; by rewrite Hl). rewrite Z.eqb_refl. cbn [negb orb Pos.eqb].
  rewrite (proj2 (Z.ltb_ge _ _)), (proj2 (Z.eqb_neq _ _)), (proj2 (Z.eqb_eq _ _)) by lia. done.
Qed.

(** C33: the cookie of a SPAKE exchange, sent to the client in the clear, holds
    the private key of the KDC: whoever reads it computes the public key of the
    challenge from a guess of the password, and so tests guesses without asking
    the KDC. *)
Theorem spake_cookie_discloses now group w draw private public transcript key random cookie key' :
  Keygen group w true draw = Ok (private, public) →
  makeSPAKECookie now group private transcript key random = Ok (cookie, key') →
  KeygenWithPrivate group w (at_pos cookie 20 (Z.of_nat (scalar_len group))) true = Ok public.
Proof.
  intros [Hk Hl]%Keygen_private (_ & _ & _ & _ & ->)%makeSPAKECookie_spec.
  replace (cookie_data _ _ _ _ ++ _) with
    ((be_bytes 2 1 ++ be_bytes 2 0 ++ be_bytes 8 (u64 (unix now)) ++ be_bytes 4 (u32 group) ++ be_bytes 4 (u32 (zlen private))) ++
     private ++ (be_bytes 4 (u32 (zlen transcript)) ++ transcript ++ hmac_sum SHA256 key' (cookie_data now group private transcript)))
    by (unfold cookie_data at 2; by rewrite <- !app_assoc).
  rewrite at_pos_app; [done|unfold zlen; by rewrite !length_app, !length_be_bytes|unfold zlen; by rewrite <- Hl].
Qed.
End cookie.

Module CookieExample.
#[local] Existing Instance toy_crypto.
#[local] Existing Instance toy_crypto_laws.
#[local] Existing Instance SpakeExample.toy_groups.

#[local] Abbreviation keygen := (Keygen GroupEdwards25519 (zeros 32) true (λ n, Ok (repeat Byte.x01 n))).
Lemma toy_keygen : ∃ private public, keygen = Ok (private, public).
Proof. destruct keygen as [[private public]| |] eqn:Hk; [by exists private, public|vm_compute in Hk; discriminate Hk..]. Qed.

Lemma spake_cookie_discloses_witness :
  ∃ public cookie, KeygenWithPrivate GroupEdwards25519 (zeros 32) (at_pos cookie 20 (Z.of_nat (scalar_len GroupEdwards25519))) true = Ok public.
Proof.
  destruct toy_keygen as (private & public & Hk). destruct (Keygen_private _ _ _ _ _ _ Hk) as [_ Hl].
  assert (Hc : ∃ cookie, makeSPAKECookie 0 GroupEdwards25519 private [Byte.x00] [Byte.x01] (Ok []) = Ok (cookie, [Byte.x01])).
  { unfold makeSPAKECookie. change (GroupInfo GroupEdwards25519) with (Ok ("edwards25519"%string, 32%nat, 32%nat, 32%nat) : res _). rewrite Hl. by eexists. }
  destruct Hc as [cookie Hc]. exact (ex_intro _ public (ex_intro _ cookie (spake_cookie_discloses _ _ _ _ _ _ _ _ _ _ _ Hk Hc))).
Defined.
End CookieExample.

(** ** Freshness tokens *)

Definition freshnessKeyUsage : Z := 514.

Section freshness.
Context `{GoCrypto} (fips : bool) {D : Type} `{Store D} (s : Server) (db : D).

Definition selectPKINITServiceKey (enctypes : list Z) (service : PrincipalRecord) : option (Z * Key) :=
  head (omap (λ enctype, if negb (is_ok (Registry_Get fips enctype)) then None
                         else key ← p_Keys service !! enctype; Some (enctype, set_enctype key enctype)) enctypes).

Definition makeFreshnessToken (now : Z) (enctypes : list Z) : option bytes :=
  key ← freshnessKey fips s db enctypes;
  match Registry_Get fips (Key_Enctype key) with
  | Ok etype =>
      let now := u32 (unix now) in
      match Checksum etype (Key_Key key) freshnessKeyUsage (be_bytes 4 now) with
      | Ok checksum => Some (be_bytes 4 now ++ be_bytes 4 (u32 (Key_KVNO key)) ++ checksum)
      | _ => None
      end
  | _ => None
  end.

Definition verifyFreshnessToken (now : Z) (token : bytes) : bool :=
  if zlen token <=? 8 then false
  else
    let timestamp := be_at token 0 4 in
    let tokenKVNO := be_at token 4 4 in
    let now := u32 (unix now) in
    if (timestamp <? now) && (10 * 60 <? now - timestamp) then false
    else match st_Lookup db (local_tgt s) with
         | Ok (Some record) =>
             existsb (λ '(enctype, key),
               (Key_KVNO key =? tokenKVNO) &&
               match Registry_Get fips enctype with
               | Ok etype => is_ok (VerifyChecksum etype (Key_Key key) freshnessKeyUsage (take 4 token) (drop 8 token))
               | _ => false
               end) (map_to_list (p_Keys record))
         | _ => false
         end.
End freshness.
