(* ===== verification/KdcAs.v ===== *)
(** * The authentication service (src/krb5/kdc/as.go)

    The handler of AS requests, from the decoded request to the message sent:
    FAST, the principals and their accounts, the choice of keys, every
    pre-authentication mechanism (modules, one-time passwords, encrypted
    challenge, SPAKE, PKINIT, encrypted time stamp), the hints sent to a client that
    has not authenticated, and the ticket with its reply.

    The handler runs on the principal store, which counts failed attempts, and on
    the key of the SPAKE cookies.  The hooks, modules, random bytes and clocks are
    arguments; [draw i n] are the [n] bytes of the [i]-th read.  Of the package
    pkinit the handler calls [pkinit_ops].  Auditing is left out. *)

From S2P Require Import Prelude Principal GoStrings Crypto Ulog Kdb Protocol Asn1 Wire Cammac Pac PacData Transited KdcPolicy KdcCommon Spake Preauth KdcPreauth.
Local Open Scope Z_scope.
Local Open Scope kdc_scope.

Definition kdcErrPreauthRequired : Z := 25.
Definition kdcErrDHKeyParameters : Z := 65.
Definition kdcErrClientNotTrusted : Z := 62.
Definition kdcErrPreauthExpired : Z := 90.
Definition kdcErrMorePreauth : Z := 91.
Definition keyUsagePAPKINITKX : Z := 44.
Definition PADataTDHParameters : Z := 109.
Definition ArmorTypeAPReq : Z := 1.

(** ** State *)

Record as_state (D : Type) := mkState { as_db : D; as_spakeKey : bytes }.
Arguments mkState {D}.
Arguments as_db {D}.
Arguments as_spakeKey {D}.

(** Steps that may fail and change the state; a failure keeps the changes. *)
Definition SE (D A : Type) : Type := as_state D → E A * as_state D.
Section se.
Context {D : Type}.
Definition s_ret {A} (a : A) : SE D A := λ st, (inr a, st).
Definition s_lift {A} (c : E A) : SE D A := λ st, (c, st).
Definition s_bind {A B} (c : SE D A) (k : A → SE D B) : SE D B :=
  λ st, match c st with (inl e, st) => (inl e, st) | (inr a, st) => k a st end.
Definition s_get : SE D (as_state D) := λ st, (inr st, st).
Definition s_put (st : as_state D) : SE D unit := λ _, (inr tt, st).
Lemma s_bind_inr {A B} (c : SE D A) (k : A → SE D B) st b st' :
  s_bind c k st = (inr b, st') → ∃ a st1, c st = (inr a, st1) ∧ k a st1 = (inr b, st').
Proof. unfold s_bind. destruct (c st) as [[e|a] st1]; [done|]. eauto. Qed.
Lemma s_lift_inr {A} (c : E A) st a st' : s_lift c st = (inr a, st') → c = inr a ∧ st' = st.
Proof. unfold s_lift. destruct c; [done|]. by intros [= -> ->]. Qed.
End se.
Notation "'doS' x ':=' c 'in' k" := (s_bind c (λ x, k)) (at level 10, x name, c at level 100, k at level 200) : kdc_scope.
Notation "'doS' ' p ':=' c 'in' k" := (s_bind c (λ x, match x with p => k end))
  (at level 10, p pattern, c at level 100, k at level 200) : kdc_scope.

(** Split the steps that succeeded. *)
Ltac inv_s :=
  repeat match goal with
  | Hx : s_bind _ _ _ = (inr _, _) |- _ => apply s_bind_inr in Hx as (? & ? & ? & Hx)
  | Hx : s_lift _ _ = (inr _, _) |- _ => apply s_lift_inr in Hx as [? ->]
  | Hx : s_get ?st = (inr _, _) |- _ => unfold s_get in Hx; injection Hx as <- <-
  | Hx : s_put _ _ = (inr _, _) |- _ => unfold s_put in Hx; injection Hx as <- <-
  | Hx : s_ret _ _ = (inr _, _) |- _ => unfold s_ret in Hx; injection Hx as <- <-
  | Hx : (inr _, _) = (inr _, _) |- _ => injection Hx as <- <-
  | Hx : context [match ?p with (_, _) => _ end] |- _ => is_var p; destruct p
  end; inv_e.

(** ** The hooks and the calls into pkinit *)

Record otp_hooks := mkOTP {
  OTPVerifier : option (Principal → bytes → res (list bytes));
  OTPValidator : option (Principal → bytes → bool);
  OTPTokenInfoHook : option (Principal → list OTPTokenInfo);
}.
Definition no_otp : otp_hooks := mkOTP None None None.

(** What the handler reads of a verified PA-PK-AS-REQ. *)
Record pk_verified := mkPKVerified {
  pk_Nonce : Z; pk_CTime : Z; pk_FreshnessToken : bytes; pk_Signed : bool; pk_SupportedKDFs : list bytes; pk_contents : bytes }.
(** The server's own configuration, the verification of a request, of the trust
    in a client certificate, of its use for a principal ([authorizeCertificate] of
    certauth.go: hardware flag and indicators), and the reply: padata and reply
    key, or the group policy error with its parameters. *)
Record pkinit_ops := mkPKINIT {
  pk_configured : bool;
  pk_clientCAs : bool;
  VerifyPAASReqForKDC : bytes → bytes → res pk_verified;
  VerifyClientCertificateTrust : pk_verified → bool;
  authorizeCertificate : pk_verified → Principal → PrincipalRecord → HookError + (bool * bool * list bytes);
  BuildPAASRep : pk_verified → Z → Z → Principal → Principal → bytes → (option bytes) + (PAData * bytes);
}.
Definition no_pkinit : pkinit_ops :=
  mkPKINIT false false (λ _ _, Err "unused") (λ _, false) (λ _ _ _, inr (false, false, [])) (λ _ _ _ _ _ _, inl None).

Definition configuredIndicator (indicator : bytes) : list bytes := match indicator with [] => [] | _ => [indicator] end.
Definition anonymousPrincipal : Principal := mkPrincipal (str "WELLKNOWN:ANONYMOUS") NTWellKnown [str "WELLKNOWN"; str "ANONYMOUS"].
Definition no_key : Key := mkKey 0 0 [] [].
Definition principalSalt (key : Key) (name : Principal) : bytes :=
  match Key_Salt key with [] => Realm name ++ strings_join [] (Components name) | salt => salt end.

Definition is_ok_inr {A} (r : E A) : bool := match r with inr _ => true | inl _ => false end.

Record TypedDataEntry := mkTyped { td_DataType : Z; td_DataValue : bytes }.
Definition typedDataEntry_codec : codec TypedDataEntry.
Proof.
  refine (mkCodec (TStruct None
      [field "DataType" "tag:0" int32;
       field "DataValue" "tag:1,optional" octets])
    (λ x, VStruct
      [c_put int32 (td_DataType x);
       c_put octets (td_DataValue x)])
    (λ v, match v with
          | VStruct [a; b] =>
              a ← c_get int32 a;
              b ← c_get octets b; Some (mkTyped a b)
          | _ => None
          end) _ _); [struct_codec|total_codec].
Defined.

#[export] Instance typed_data_der : Der (list TypedDataEntry) := codec_der (slice typedDataEntry_codec).

Section as_exchange.
Context `{GoCrypto} `{SpakeGroups} (fips : bool) {D : Type} `{Store D} (s : Server).
Context (Authorize : Principal → Principal → bool → option HookError).
Context (authdata_modules : EncTicketPart → EncTicketPart).
Context (hooks : pac_hooks) (preauth_modules : list KDCPreauthModule) (otp : otp_hooks) (pkinit : pkinit_ops).

(** ** FAST *)

(** [unwrapFASTASReq]. *)
Definition unwrapFASTASReq (db : D) (request : KDCReq) (raw : bytes) (now : Z) : E (KDCReq * option fastContext) :=
  match findPA (r_PAData request) PAFXFast with
  | None => inr (request, None)
  | Some pa =>
      do wrapper := orelse None kdcErrPreauthFailed (Unmarshal (PADataValue pa) : res PAFXFastRequest) in
      let wrapper := ArmoredData wrapper in
      do fastArmor := orelse_some None kdcErrPreauthFailed (ar_Armor wrapper) in
      do _ := require None (fa_Type fastArmor =? ArmorTypeAPReq) kdcErrPreauthFailed in
      do apRequest := orelse None kdcErrPreauthFailed (Unmarshal (fa_Value fastArmor) : res APReq) in
      let ticket := ap_Ticket apRequest in
      do _ := require None ((ap_PVNO apRequest =? 5) && (ap_MsgType apRequest =? 14) && bytes_eqb (t_Realm ticket) (s_Realm s) &&
                bool_decide (NameString (t_SName ticket) = [krbtgt; s_Realm s])) kdcErrPreauthFailed in
      let tgtName := mkPrincipal (t_Realm ticket) NTSrvInstance (NameString (t_SName ticket)) in
      do tgtRecord := lookup_record db None kdcErrPreauthFailed tgtName in
      do tgtRecord := orelse_some None kdcErrPreauthFailed tgtRecord in
      do ticketKey := orelse_some None kdcErrPreauthFailed
           (selectKVNO tgtRecord (ed_EType (t_EncPart ticket)) (ed_KVNO (t_EncPart ticket))) in
      do ticketEType := orelse None kdcErrPreauthFailed (Registry_Get fips (Key_Enctype ticketKey)) in
      do ticketPlain := orelse None kdcErrPreauthFailed
           (etype_Decrypt ticketEType (Key_Key ticketKey) 2 (ed_Cipher (t_EncPart ticket))) in
      do ticketPart := orelse None kdcErrPreauthFailed (Unmarshal ticketPlain : res EncTicketPart) in
      do _ := check_validity None (ticketValidity s now ticketPart) in
      do _ := require None (ed_EType (ap_Authenticator apRequest) =? KeyType (tp_Key ticketPart)) kdcErrPreauthFailed in
      do sessionEType := orelse None kdcErrPreauthFailed (Registry_Get fips (KeyType (tp_Key ticketPart))) in
      do authPlain := orelse None kdcErrPreauthFailed
           (etype_Decrypt sessionEType (KeyValue (tp_Key ticketPart)) 11 (ed_Cipher (ap_Authenticator apRequest))) in
      do authenticator := orelse None kdcErrPreauthFailed (Unmarshal authPlain : res Authenticator) in
      do _ := require None ((a_VNO authenticator =? 5) && bytes_eqb (a_CRealm authenticator) (tp_CRealm ticketPart) &&
                sameProtocolPrincipal (a_CName authenticator) (tp_CName ticketPart) && Present (a_Ctime authenticator) &&
                withinSkew s now (Time (a_Ctime authenticator))) kdcErrPreauthFailed in
      do subKey := orelse_some None kdcErrPreauthFailed (a_SubKey authenticator) in
      do _ := require None (KeyType subKey =? KeyType (tp_Key ticketPart)) kdcErrPreauthFailed in
      do _ := require None (Nat.eqb (length (KeyValue subKey)) (etype_KeySize sessionEType)) kdcErrPreauthFailed in
      do armorKey := orelse None kdcErrPreauthFailed
           (CF2 (Some sessionEType) (KeyValue subKey) (KeyValue (tp_Key ticketPart)) (str "subkeyarmor") (str "ticketarmor")) in
      let armor := Some (mkFast sessionEType armorKey 0 None) in
      do body := orelse armor kdcErrPreauthFailed (FieldContent raw [TagASReq; 4]) in
      do _ := require armor ((ed_EType (ar_EncFastReq wrapper) =? etype_ID sessionEType) &&
                (ChecksumType (ar_ReqChecksum wrapper) =? mandatoryChecksumType (etype_ID sessionEType)) &&
                negb (zlen (cksum (ar_ReqChecksum wrapper)) =? 0)) krbAPErrBadIntegrity in
      do plaintext := orelse armor krbAPErrBadIntegrity
           (etype_Decrypt sessionEType armorKey UsageReq (ed_Cipher (ar_EncFastReq wrapper))) in
      do fastRequest := orelse armor krbAPErrBadIntegrity (Unmarshal plaintext : res KrbFastReq) in
      do _ := orelse armor krbAPErrBadIntegrity
           (VerifyChecksum sessionEType armorKey UsageReqChecksum body (cksum (ar_ReqChecksum wrapper))) in
      inr (mkReq (r_PVNO request) (r_MsgType request) (fr_PAData fastRequest) (fr_ReqBody fastRequest),
           Some (mkFast sessionEType armorKey (b_Nonce (fr_ReqBody fastRequest)) (findPA (fr_PAData fastRequest) PAFXCookie)))
  end.

(** ** The principals *)

(** What the handler knows when pre-authentication begins. *)
Record as_context := mkCtx {
  cx_request : KDCReq;
  cx_armor : option fastContext;
  cx_anonymous : bool;
  cx_requestName : Principal;
  cx_clientName : Principal;
  cx_clientRecord : PrincipalRecord;
  cx_serviceName : Principal;
  cx_serviceRecord : PrincipalRecord;
  cx_etypeID : Z;
  cx_clientKey : Key;
  cx_serviceKey : Key;
}.

(** The request, with that protected by FAST in its place.  The components of a
    decoded name are never nil. *)
Definition as_request (db : D) (request : KDCReq) (raw : bytes) (now : Z) : E (KDCReq * option fastContext) :=
  let body := r_ReqBody request in
  do _ := require None ((r_PVNO request =? 5) && (r_MsgType request =? 10) && bool_decide (is_Some (b_CName body)) &&
            negb (zlen (b_Realm body) =? 0) &&
            bool_decide (is_Some (b_SName body))) kdcErrGeneric in
  unwrapFASTASReq db request raw now.

Definition find_client (db : D) (request : KDCReq) (anonymousRequest : bool) (clientName : Principal) : E (Principal * PrincipalRecord) :=
  if anonymousRequest then inr (anonymousPrincipal, empty_record anonymousPrincipal ∅ 0 zero_time)
  else
    do found := lookup_record db None kdcErrGeneric clientName in
    match found with
    | Some record => inr (clientName, record)
    | None =>
        if has (b_KDCOptions (r_ReqBody request)) KDCCanonicalize then
          do alias := orelse None kdcErrGeneric (lookupAlias db clientName) in
          match alias with
          | Some (record, name) => inr (name, record)
          | None => fail None kdcErrCPrincipal
          end
        else fail None kdcErrCPrincipal
    end.

Definition otpEnabled : bool := bool_decide (is_Some (OTPValidator otp)) || bool_decide (is_Some (OTPVerifier otp)).
Definition pkinit_full : bool := pk_configured pkinit && pk_clientCAs pkinit.

(** The encryption type and the keys of the client and of the service. *)
Definition select_keys (request : KDCReq) (anonymousRequest : bool) (client service : PrincipalRecord) : option (Z * Key * Key) :=
  let etypes := b_EType (r_ReqBody request) in
  let service_only := '(etypeID, serviceKey) ← selectPKINITServiceKey fips etypes service; Some (etypeID, no_key, serviceKey) in
  if bool_decide (is_Some (findPA (r_PAData request) PADataPKASReq)) || anonymousRequest || otpEnabled then service_only
  else match selectASKeys etypes client service with
       | Some keys => Some keys
       | None => if (0 <? zlen preauth_modules) || pkinit_full then service_only else None
       end.

Definition as_principals (request : KDCReq) (armor : option fastContext) (now clock : Z) : SE D as_context :=
  let body := r_ReqBody request in
  let anonymousRequest := has (b_KDCOptions body) KDCRequestAnonymous in
  doS cname := s_lift (deref (b_CName body)) in
  let requestName := principalFromProtocol cname (b_Realm body) in
  doS _ := s_lift (require None (negb (anonymousRequest && negb (isAnonymousPrincipal requestName))) kdcErrBadOption) in
  doS st := s_get in
  doS '(clientName, clientRecord) := s_lift (find_client (as_db st) request anonymousRequest requestName) in
  doS clientRecord :=
    if anonymousRequest then s_ret clientRecord
    else
      let '(locked, record, db) := lockedOut (as_db st) now clock clientName clientRecord in
      doS _ := s_put (mkState db (as_spakeKey st)) in
      doS _ := s_lift (require None (negb locked) kdcErrClientRevoked) in
      s_ret record in
  doS st := s_get in
  doS sname := s_lift (deref (b_SName body)) in
  let serviceName := principalFromProtocol sname (b_Realm body) in
  doS _ := s_lift (require None (negb (restrictAnonymous s clientName serviceName)) kdcErrPolicy) in
  doS serviceRecord := s_lift (lookup_record (as_db st) None kdcErrGeneric serviceName) in
  doS serviceRecord := s_lift (orelse_some None kdcErrSPrincipal serviceRecord) in
  let code := validateASAccount now clientRecord serviceRecord (b_KDCOptions body) in
  doS _ := s_lift (require None (code =? 0) code) in
  doS '(etypeID, clientKey, serviceKey) :=
    s_lift (orelse_some None kdcErrETypeNoSupp (select_keys request anonymousRequest clientRecord serviceRecord)) in
  s_ret (mkCtx request armor anonymousRequest requestName clientName clientRecord serviceName serviceRecord etypeID clientKey serviceKey).

(** What the modules see: the selected key first, then those of the other types asked for. *)
Fixpoint other_keys (etypes : list Z) (keys : keyset) (seen : list Z) : list Key :=
  match etypes with
  | [] => []
  | etype :: etypes =>
      match keys !! etype with
      | Some key => if bool_decide (etype ∈ seen) then other_keys etypes keys seen
                    else set_enctype key etype :: other_keys etypes keys (etype :: seen)
      | None => other_keys etypes keys seen
      end
  end.
Definition make_rock (cx : as_context) : PreauthRock :=
  let first := if Key_Enctype (cx_clientKey cx) =? 0 then [] else [cx_clientKey cx] in
  mkRock (cx_clientName cx) (cx_serviceName cx) (cx_clientRecord cx)
    (first ++ other_keys (b_EType (r_ReqBody (cx_request cx))) (p_Keys (cx_clientRecord cx)) (Key_Enctype <$> first))
    (cx_request cx) (marshalDER (r_ReqBody (cx_request cx)))
    ((λ armor, mkEKey (etype_ID (fc_etype armor)) (fc_key armor)) <$> cx_armor cx).

(** ** Pre-authentication *)

(** What pre-authentication decides about the ticket to issue: the arguments of
    [buildASRepWithPreauth], and the mechanism ([auditState.PreauthType]). *)
Record as_grant := mkASGrant {
  ag_context : as_context;
  ag_etypeID : Z;
  ag_clientKey : Key;
  ag_preauthenticated : bool;
  ag_replyEncryptionKey : option Key;
  ag_replyPAs : MethodData;
  ag_indicators : list bytes;
  ag_hwAuthenticated : bool;
  ag_authData : AuthorizationData;
  ag_preauthType : bytes;
}.

Definition set_clientRecord (cx : as_context) (record : PrincipalRecord) : as_context :=
  mkCtx (cx_request cx) (cx_armor cx) (cx_anonymous cx) (cx_requestName cx) (cx_clientName cx) record (cx_serviceName cx)
    (cx_serviceRecord cx) (cx_etypeID cx) (cx_clientKey cx) (cx_serviceKey cx).

Section decide.
Context (now clock : Z) (draw : nat → nat → res bytes) (cx : as_context) (v : verified).
Let request := cx_request cx.
Let body := r_ReqBody request.
Let armor := cx_armor cx.
Let clientName := cx_clientName cx.
Let serviceName := cx_serviceName cx.
Let serviceRecord := cx_serviceRecord cx.
Let pa_of (kind : Z) : option PAData := findPA (r_PAData request) kind.

Definition requiresHWAuth : bool := has (p_Flags (cx_clientRecord cx)) RequiresHWAuth.
Definition preauthRequired : bool :=
  negb (s_DisablePreauth s) || customPreauthRequired preauth_modules ||
  has (p_Flags (cx_clientRecord cx)) (with_flags RequiresPreAuth RequiresHWAuth).

(** The counters of the account, in the store and in the record at hand. *)
Definition record_success : SE D as_context :=
  λ st, let '(record, db) := recordPreauthSuccess (as_db st) now clock clientName (cx_clientRecord cx) in
        (inr (set_clientRecord cx record), mkState db (as_spakeKey st)).
Definition record_failure {A} (e : E A) : SE D A :=
  λ st, let '(_, db) := recordPreauthFailure (as_db st) now clock clientName (cx_clientRecord cx) in
        (e, mkState db (as_spakeKey st)).
Definition authorize : E unit := authorizationError Authorize armor clientName serviceName true.
(** The client is told which mechanisms it can use. *)
Definition hint {A} (armor : option fastContext) (code : Z) (methodData : MethodData) : E A :=
  inl (ErrorReply (mkError armor code (marshalDER methodData) [])).
Definition etype_info : MethodData :=
  if Key_Enctype (cx_clientKey cx) =? 0 then []
  else [mkPA PADataETypeInfo2 (marshalDER [mkEInfo2 (cx_etypeID cx) (Some (principalSalt (cx_clientKey cx) clientName)) []])].
Definition freshness_hint (db : D) : MethodData :=
  if bool_decide (is_Some (pa_of PADataASFreshness)) then
    match makeFreshnessToken fips s db now (b_EType body) with Some token => [mkPA PADataASFreshness token] | None => [] end
  else [].

(** *** Modules *)

Definition return_padata : res MethodData :=
  foldr (λ '(m, result) rest,
    match pm_ReturnPadata m with
    | None => rest
    | Some return_ => res_bind (return_ (make_rock cx) result) (λ data, res_bind rest (λ more, Ok (data ++ more)))
    end) (Ok []) (ve_successes v).
Definition by_modules : SE D as_grant :=
  let result := ve_aggregate v in
  doS _ := s_lift (customPreauthFailure preauth_modules v armor) in
  doS _ := s_lift (require armor (negb (requiresHWAuth && negb (vr_HardwareAuthenticated result))) kdcErrPreauthFailed) in
  doS _ := s_lift authorize in
  doS _ := s_lift (require armor (negb ((Key_Enctype (cx_clientKey cx) =? 0) && negb (bool_decide (is_Some (vr_ReplacedReplyKey result)))))
                     kdcErrPreauthFailed) in
  doS cx' := record_success in
  doS replyPAs := s_lift (orelse armor kdcErrPreauthFailed return_padata) in
  s_ret (mkASGrant cx' (cx_etypeID cx) (cx_clientKey cx) true (vr_ReplacedReplyKey result) replyPAs (vr_AuthIndicators result)
           (vr_HardwareAuthenticated result) (vr_AuthorizationData result) (vr_PreauthType result)).

(** *** One-time passwords *)

Definition any_token : OTPTokenInfo := mkToken 0 None [] (Some (-1)) (Some (-1)) [] None [] (Some (-1)).
Definition otp_hint : E as_grant :=
  match armor with
  | None => fail None kdcErrPreauthFailed
  | Some fast =>
      do nonce := orelse None kdcErrGeneric (NewNonce now (etype_KeySize (fc_etype fast)) (draw 8%nat)) in
      let tokenInfo := match OTPTokenInfoHook otp with
                       | Some hook => match hook clientName with [] => [any_token] | l => l end
                       | None => [any_token]
                       end in
      do cookie := orelse None kdcErrGeneric (draw 9%nat 16%nat) in
      hint armor kdcErrPreauthRequired
        [mkPA PADataChallenge (marshalDER (mkOTPChallenge nonce None tokenInfo None [])); mkPA PAFXCookie cookie]
  end.
(** The indicators of an accepted value. *)
Definition verify_otp (value : bytes) : option (list bytes) :=
  match OTPVerifier otp, OTPValidator otp with
  | Some verifier, _ => match verifier clientName value with Ok indicators => Some indicators | _ => None end
  | None, Some validator => if validator clientName value then Some (s_OTPIndicators s) else None
  | None, None => None
  end.
Definition by_otp (otpPA : PAData) : SE D as_grant :=
  doS fast := s_lift (orelse_some None kdcErrPreauthFailed armor) in
  doS _ := s_lift (require None otpEnabled kdcErrPreauthFailed) in
  let etype := fc_etype fast in
  doS otpRequest := s_lift (orelse armor kdcErrPreauthFailed (Unmarshal (PADataValue otpPA) : res PAOTPRequest)) in
  doS _ := s_lift (require armor (ed_EType (or_EncData otpRequest) =? etype_ID etype) kdcErrPreauthFailed) in
  doS nonce := s_lift (orelse armor kdcErrPreauthFailed (DecryptNonce (Some etype) (fc_key fast) (or_EncData otpRequest))) in
  doS _ := s_lift (orelse armor kdcErrPreauthFailed (ValidateNonce nonce (etype_KeySize etype) now (skew s))) in
  match verify_otp (or_OTPValue otpRequest) with
  | None => record_failure (fail armor kdcErrPreauthFailed)
  | Some indicators =>
      doS _ := s_lift (require armor (negb requiresHWAuth) kdcErrPreauthFailed) in
      doS cx' := record_success in
      doS _ := s_lift authorize in
      doS _ := s_lift (customPreauthFailure preauth_modules v armor) in
      s_ret (mkASGrant cx' (etype_ID etype) (cx_clientKey cx) true (Some (mkKey (etype_ID etype) 0 (fc_key fast) [])) [] indicators
               false [] (str "otp"))
  end.

(** *** Encrypted challenge *)

(** The keys of the client, those of the types asked for first; the others in
    the order of the map. *)
Definition candidate_keys : list Key :=
  let keys := p_Keys (cx_clientRecord cx) in
  omap (λ etype, (λ key, set_enctype key etype) <$> keys !! etype) (b_EType body) ++
  omap (λ '(etype, key), if bool_decide (etype ∈ b_EType body) then None else Some (set_enctype key etype)) (map_to_list keys).
(** The first key that opens the challenge, its type and the time in it. *)
Fixpoint match_challenge (fast : fastContext) (data : bytes) (candidates : list Key) : option (Key * EType * Z) :=
  match candidates with
  | [] => None
  | candidate :: candidates =>
      match Registry_Get fips (Key_Enctype candidate) with
      | Ok etype =>
          match DecryptEncryptedChallengeWithKeyEType (Some (fc_etype fast)) (fc_key fast) (Some etype) (Key_Key candidate) data with
          | Ok timestamp => Some (candidate, etype, timestamp)
          | _ => match_challenge fast data candidates
          end
      | _ => match_challenge fast data candidates
      end
  end.
Definition by_challenge (challengePA : PAData) : SE D as_grant :=
  doS fast := s_lift (orelse_some None kdcErrPreauthFailed armor) in
  match match_challenge fast (PADataValue challengePA) candidate_keys with
  | None => record_failure (fail armor kdcErrPreauthFailed)
  | Some (key, etype, timestamp) =>
      doS _ := s_lift (require armor (withinSkew s now timestamp) krbAPErrSkew) in
      doS _ := s_lift (require armor (negb (passwordExpiredForService now (cx_clientRecord cx) serviceRecord)) kdcErrKeyExpired) in
      doS _ := s_lift authorize in
      doS _ := s_lift (require armor (negb requiresHWAuth) kdcErrPreauthFailed) in
      doS cx' := record_success in
      doS _ := s_lift (customPreauthFailure preauth_modules v armor) in
      doS replyPA := s_lift (orelse armor kdcErrGeneric
        (BuildEncryptedChallengeReplyWithKeyEType (Some (fc_etype fast)) (fc_key fast) (Some etype) (Key_Key key) now (draw 12%nat 16%nat))) in
      s_ret (mkASGrant cx' (cx_etypeID cx) key true None [replyPA] (configuredIndicator (s_EncryptedChallengeIndicator s))
               false [] (str "enc-challenge"))
  end.

(** *** SPAKE *)

Definition spake_hint : E as_grant :=
  hint armor kdcErrPreauthRequired
    ([mkPA PADataEncryptedTimestamp []; mkPA PADataSPAKE []] ++ etype_info ++ preauthModuleHints preauth_modules (make_rock cx)).
Definition with_spake_key (st : as_state D) (key : bytes) : as_state D := mkState (as_db st) key.
Definition spake_challenge (spakePA : PAData) (group : Z) : SE D as_grant :=
  let refuse {A} (r : res A) : SE D A := s_lift (orelse None kdcErrPreauthFailed r) in
  doS etype := refuse (Registry_Get fips (cx_etypeID cx)) in
  doS w := refuse (DeriveW (Some etype) (Key_Key (cx_clientKey cx)) group) in
  doS '(private, public) := refuse (Keygen group w true (draw 10%nat)) in
  doS challenge := refuse (EncodeChallenge group public) in
  doS st := s_get in
  doS '(cookie, key) := refuse (makeSPAKECookie now group private (TranscriptForGroup group [] (PADataValue spakePA) challenge)
                                  (as_spakeKey st) (draw 11%nat 32%nat)) in
  doS _ := s_put (with_spake_key st key) in
  s_lift (hint armor (if bool_decide (is_Some armor) then kdcErrPreauthRequired else kdcErrMorePreauth)
    ([mkPA PADataSPAKE challenge] ++ etype_info ++ preauthModuleHints preauth_modules (make_rock cx) ++ [mkPA PAFXCookie cookie])).
Definition by_spake (response : SPAKEResponse) : SE D as_grant :=
  let refuse {A} (r : res A) : SE D A := s_lift (orelse None kdcErrPreauthFailed r) in
  doS st := s_get in
  let '(cookie, key) := parseSPAKECookie now (pa_of PAFXCookie) (as_spakeKey st) (draw 11%nat 32%nat) in
  doS _ := s_put (with_spake_key st key) in
  doS '(group, private, transcript) := s_lift (orelse_some None kdcErrPreauthFailed cookie) in
  doS _ := s_lift (require None (permitsSPAKEGroup s group) kdcErrPreauthFailed) in
  doS etype := refuse (Registry_Get fips (cx_etypeID cx)) in
  let clientKey := Key_Key (cx_clientKey cx) in
  doS w := refuse (DeriveW (Some etype) clientKey group) in
  let transcript := TranscriptForGroup group transcript (sr_PubKey response) [] in
  doS result := refuse (Result group w private (sr_PubKey response) false) in
  doS bodyDER := refuse (Marshal body) in
  doS k1 := refuse (DeriveKey (Some etype) clientKey w result transcript bodyDER group 1) in
  doS _ := s_lift (require None (ed_EType (sr_Factor response) =? cx_etypeID cx) kdcErrPreauthFailed) in
  match etype_Decrypt etype k1 spake_KeyUsage (ed_Cipher (sr_Factor response)) with
  | Ok factorPlain =>
      match (Unmarshal factorPlain : res SPAKESecondFactor) with
      | Ok factor =>
          if negb (sf_Type factor =? FactorNone) then record_failure (fail armor kdcErrPreauthFailed) else
          doS k0 := refuse (DeriveKey (Some etype) clientKey w result transcript bodyDER group 0) in
          doS _ := s_lift (require None (negb (passwordExpiredForService now (cx_clientRecord cx) serviceRecord)) kdcErrKeyExpired) in
          doS _ := s_lift authorize in
          doS _ := s_lift (require None (negb requiresHWAuth) kdcErrPreauthFailed) in
          doS cx' := record_success in
          doS _ := s_lift (customPreauthFailure preauth_modules v armor) in
          s_ret (mkASGrant cx' (cx_etypeID cx) (cx_clientKey cx) true (Some (mkKey (cx_etypeID cx) 0 k0 [])) []
                   (s_SPAKEPreauthIndicators s) false [] (str "spake"))
      | _ => record_failure (fail armor kdcErrPreauthFailed)
      end
  | _ => record_failure (fail armor kdcErrPreauthFailed)
  end.

(** *** PKINIT *)

Definition pkinitFreshnessError {A} (db : D) (code : Z) : E A :=
  match makeFreshnessToken fips s db now (b_EType body) with
  | None => fail armor code
  | Some token => hint armor code [mkPA PADataPKASReq []; mkPA PADataASFreshness token]
  end.
(** The hardware flag and the indicators of an authenticated client. *)
Definition pkinit_client (signed : pk_verified) : E (bool * list bytes) :=
  if cx_anonymous cx then do _ := require None (negb (pk_Signed signed)) kdcErrPreauthFailed in inr (false, [])
  else
    do _ := require None (pk_Signed signed) kdcErrPreauthFailed in
    do _ := require None (VerifyClientCertificateTrust pkinit signed) kdcErrClientNotTrusted in
    match authorizeCertificate pkinit signed (cx_requestName cx) (cx_clientRecord cx) with
    | inl err => fail None (default kdcErrClientNotTrusted (he_Code err))
    | inr (accepted, hwauth, certIndicators) =>
        do _ := require None accepted kdcErrClientNotTrusted in
        inr (hwauth, s_PKINITIndicators s ++ certIndicators)
    end.
Definition by_pkinit (raw : bytes) (pkinitPA : PAData) : SE D as_grant :=
  doS _ := s_lift (require None (pk_configured pkinit && (cx_anonymous cx || pk_clientCAs pkinit)) kdcErrPreauthFailed) in
  doS bodyDER := s_lift (orelse None kdcErrPreauthFailed (FieldContent raw [TagASReq; 4])) in
  doS signed := s_lift (orelse None kdcErrPreauthFailed (VerifyPAASReqForKDC pkinit (PADataValue pkinitPA) bodyDER)) in
  doS _ := s_lift (require None ((pk_Nonce signed =? b_Nonce body) && negb (IsZero (pk_CTime signed)) && withinSkew s now (pk_CTime signed))
                     kdcErrPreauthFailed) in
  doS st := s_get in
  doS _ := s_lift (if negb (zlen (pk_FreshnessToken signed) =? 0) then
                     if negb (verifyFreshnessToken fips s (as_db st) now (pk_FreshnessToken signed))
                     then pkinitFreshnessError (as_db st) kdcErrPreauthExpired else inr tt
                   else if s_PKINITRequireFreshness s && negb (cx_anonymous cx)
                   then pkinitFreshnessError (as_db st) kdcErrPreauthFailed else inr tt) in
  doS '(hwauth, indicators) := s_lift (pkinit_client signed) in
  doS _ := s_lift (require None (negb (requiresHWAuth && negb hwauth)) kdcErrPreauthFailed) in
  doS _ := s_lift (require None (negb (passwordExpiredForService now (cx_clientRecord cx) serviceRecord)) kdcErrKeyExpired) in
  doS cx' := record_success in
  doS _ := s_lift authorize in
  doS requestDER := s_lift (orelse None kdcErrPreauthFailed (Marshal (Der := as_req_der) request)) in
  let kdfClientName := if cx_anonymous cx then anonymousPrincipal else cx_requestName cx in
  doS '(paRep, replyKey) := s_lift
    (match BuildPAASRep pkinit signed (cx_etypeID cx) (b_Nonce body) kdfClientName serviceName requestDER with
     | inr reply => inr reply
     | inl (Some td) => inl (ErrorReply (mkError None kdcErrDHKeyParameters (marshalDER [mkTyped PADataTDHParameters td]) []))
     | inl None => fail None kdcErrPreauthFailed
     end) in
  doS _ := s_lift (customPreauthFailure preauth_modules v armor) in
  s_ret (mkASGrant cx' (cx_etypeID cx) (cx_clientKey cx) true (Some (mkKey (cx_etypeID cx) 0 replyKey [])) [paRep] indicators hwauth []
           (str "pkinit")).

(** *** No pre-authentication, and the encrypted time stamp *)

Definition pkinit_hint (db : D) : MethodData :=
  if pkinit_full then [mkPA PADataPKASReq []] ++ freshness_hint db else [].
Definition without_preauth : SE D as_grant :=
  if negb preauthRequired then
    doS _ := s_lift (require None (negb (passwordExpiredForService now (cx_clientRecord cx) serviceRecord)) kdcErrKeyExpired) in
    doS _ := s_lift authorize in
    s_ret (mkASGrant cx (cx_etypeID cx) (cx_clientKey cx) false None [] [] false [] [])
  else
    doS st := s_get in
    s_lift (hint armor kdcErrPreauthRequired
      ((if bool_decide (is_Some armor) then [] else [mkPA PADataEncryptedTimestamp []]) ++ etype_info ++
       (if bool_decide (is_Some armor) && negb (Key_Enctype (cx_clientKey cx) =? 0) then [mkPA PADataEncryptedChallenge []] else []) ++
       pkinit_hint (as_db st) ++ preauthModuleHints preauth_modules (make_rock cx))).

(** The ciphertext may be wrapped in EncryptedData. *)
Definition timestamp_cipher (value : bytes) : bytes :=
  match (Unmarshal value : res EncryptedData) with
  | Ok encrypted => if (ed_EType encrypted =? cx_etypeID cx) && (0 <? zlen (ed_Cipher encrypted)) then ed_Cipher encrypted else value
  | _ => value
  end.
Definition by_timestamp (timestampPA : PAData) : SE D as_grant :=
  doS etype := s_lift (orelse None kdcErrETypeNoSupp (Registry_Get fips (cx_etypeID cx))) in
  match etype_Decrypt etype (Key_Key (cx_clientKey cx)) 1 (timestamp_cipher (PADataValue timestampPA)) with
  | Ok timestampPlain =>
      doS timestamp := s_lift (orelse armor krbAPErrSkew (Unmarshal timestampPlain : res EncTimestamp)) in
      doS _ := s_lift (require armor (Present (ts_PATimestamp timestamp) && withinSkew s now (Time (ts_PATimestamp timestamp))) krbAPErrSkew) in
      doS _ := s_lift (require armor (negb (passwordExpiredForService now (cx_clientRecord cx) serviceRecord)) kdcErrKeyExpired) in
      doS _ := s_lift authorize in
      doS _ := s_lift (require armor (negb requiresHWAuth) kdcErrPreauthFailed) in
      doS cx' := record_success in
      doS _ := s_lift (customPreauthFailure preauth_modules v armor) in
      s_ret (mkASGrant cx' (cx_etypeID cx) (cx_clientKey cx) true None [] [] false [] (str "enc-timestamp"))
  | _ => record_failure (fail armor kdcErrPreauthFailed)
  end.

(** *** The choice among the mechanisms *)

(** The mechanisms after one-time passwords and the encrypted challenge. *)
Definition after_spake (raw : bytes) : SE D as_grant :=
  match pa_of PADataPKASReq with
  | Some pkinitPA => by_pkinit raw pkinitPA
  | None => match pa_of PADataEncryptedTimestamp with
            | Some timestampPA => by_timestamp timestampPA
            | None => without_preauth
            end
  end.
Definition spake_or_after (raw : bytes) : SE D as_grant :=
  let timestampPA := pa_of PADataEncryptedTimestamp in
  let pkinitPA := pa_of PADataPKASReq in
  let absent {A} (o : option A) := negb (bool_decide (is_Some o)) in
  match pa_of PADataSPAKE with
  | None =>
      if negb (cx_anonymous cx) && negb requiresHWAuth && s_EnableSPAKE s && absent timestampPA && absent pkinitPA && preauthRequired
      then s_lift spake_hint else after_spake raw
  | Some spakePA =>
      let group := selectSPAKEGroup s (Some spakePA) in
      if negb (cx_anonymous cx) && negb requiresHWAuth && negb (group =? 0) && absent timestampPA && absent pkinitPA &&
         negb (s_DisablePreauth s)
      then spake_challenge spakePA group
      else
        doS msg := s_lift (orelse None kdcErrPreauthFailed (spake_Decode (PADataValue spakePA))) in
        match sp_Response msg with
        | Some response => by_spake response
        | None => after_spake raw
        end
  end.
Definition decide (raw : bytes) : SE D as_grant :=
  let absent {A} (o : option A) := negb (bool_decide (is_Some o)) in
  if vr_Authenticated (ve_aggregate v) then by_modules
  else if cx_anonymous cx && absent (pa_of PADataPKASReq) then
    doS st := s_get in
    s_lift (do _ := require None (pk_configured pkinit) kdcErrBadOption in
            hint armor kdcErrPreauthRequired ([mkPA PADataPKASReq []] ++ freshness_hint (as_db st)))
  else if otpEnabled && negb requiresHWAuth && negb (cx_anonymous cx) && absent (pa_of PADataPKASReq) &&
          absent (pa_of PADataEncryptedTimestamp) && absent (pa_of PADataSPAKE) && absent (pa_of PADataRequest) && preauthRequired
  then s_lift otp_hint
  else match pa_of PADataRequest with
       | Some otpPA => by_otp otpPA
       | None =>
           if otpEnabled && negb requiresHWAuth && absent armor && negb (cx_anonymous cx) then s_lift (fail None kdcErrPreauthFailed)
           else match pa_of PADataEncryptedChallenge with
                | Some challengePA => by_challenge challengePA
                | None => spake_or_after raw
                end
       end.
End decide.

(** ** The reply *)

Record as_issued := mkASIssued {
  ai_ticketPart : EncTicketPart; ai_serviceKey : Key; ai_repPart : EncKDCRepPart; ai_reply : KDCRep;
  ai_armor : option fastContext; ai_replyKey : Key }.

Definition flag_if (b : bool) (flag flags : Z) : Z := if b then with_flags flags flag else flags.

(** The flags and times of the ticket, as asked for and as the policy allows. *)
Definition as_times (g : as_grant) (modules : list (KDCPolicyResult + HookError)) (clock : Z)
    : E (Z * KerberosTime * KerberosTime * option KerberosTime) :=
  let cx := ag_context g in
  let body := r_ReqBody (cx_request cx) in
  let options := b_KDCOptions body in
  let client := Some (cx_clientRecord cx) in
  let service := Some (cx_serviceRecord cx) in
  let now := truncate_s clock in
  let flags := flag_if (has options KDCProxiable) TicketProxiable (flag_if (has options KDCForwardable) TicketForwardable
                 (flag_if (has options KDCRequestAnonymous) TicketAnonymous (flag_if (ag_hwAuthenticated g) TicketHWAuthent
                 (flag_if (ag_preauthenticated g) TicketPreAuthent TicketInitial)))) in
  let flags := applyPrincipalFlagPolicy (applyFlagPolicy s flags) client service in
  let flags := flag_if (has options KDCAllowPostdate) TicketMayPostdate flags in
  do '(startTime, flags) :=
    if has options KDCPostdated then
      match b_From body with
      | Some from =>
          if negb (Present from) || (Time from <=? now) || (Present (b_Till body) && (Time (b_Till body) <=? Time from)) ||
             negb (has options KDCAllowPostdate)
          then fail None kdcErrCannotPostdate
          else inr (from, with_flags flags (with_flags TicketPostdated TicketInvalid))
      | None => fail None kdcErrCannotPostdate
      end
    else inr (at_time now, flags) in
  let endTime := ticketEndFromRecords s (b_Till body) (Time startTime) client service in
  let renewTill := renewTillRecords s options (b_RTime body) (b_Till body) (Time startTime) (Time endTime) client service in
  match apply_policies now modules endTime renewTill with
  | inl err => inl (ErrorReply (mkError (cx_armor cx) (policyErrorCode err) [] (he_Text err)))
  | inr (endTime, renewTill) =>
      let renewTill := match s_Policy s with
                       | Some policy => if AllowRenewable policy then renewTill else None
                       | None => renewTill
                       end in
      let denied := has (p_Flags (cx_clientRecord cx)) DisallowRenewable || has (p_Flags (cx_serviceRecord cx)) DisallowRenewable in
      let flags := if denied then without flags TicketRenewable else flags in
      let renewTill := if denied then None else renewTill in
      inr (flag_if (bool_decide (is_Some renewTill)) TicketRenewable flags, startTime, endTime, renewTill)
  end.

(** The key of an anonymous session is derived from the reply key; the KDC's
    contribution to it is sent along. *)
Definition as_session (g : as_grant) (etype : EType) (sessionValue : bytes) : E (bytes * option (bytes * Key)) :=
  match ag_replyEncryptionKey g with
  | Some key =>
      if has (b_KDCOptions (r_ReqBody (cx_request (ag_context g)))) KDCRequestAnonymous then
        do derived := orelse None kdcErrGeneric (CF2 (Some etype) sessionValue (Key_Key key) (str "PKINIT") (str "KEYEXCHANGE")) in
        inr (derived, Some (sessionValue, key))
      else inr (sessionValue, None)
  | None => inr (sessionValue, None)
  end.
Definition contribution (g : as_grant) (etype : EType) (c : option (bytes * Key)) (conf : res bytes) : E MethodData :=
  match c with
  | None => inr []
  | Some (contributionKey, key) =>
      do cipher := orelse None kdcErrGeneric
           (etype_Encrypt etype conf (Key_Key key) keyUsagePAPKINITKX (marshalDER (mkEKey (ag_etypeID g) contributionKey))) in
      inr [mkPA 147 (marshalDER (mkEnc (ag_etypeID g) None cipher))]
  end.

(** The ticket part with the authorization data of modules, pre-authentication
    and the KDC. *)
Definition as_ticket_part (db : D) (g : as_grant) (sessionValue : bytes) (t : Z * KerberosTime * KerberosTime * option KerberosTime)
    (clock : Z) (conf : res bytes) : E EncTicketPart :=
  let cx := ag_context g in
  let '(flags, startTime, endTime, renewTill) := t in
  let part := mkTicketPart flags (mkEKey (ag_etypeID g) sessionValue) (Realm (cx_clientName cx)) (protocolPrincipal (cx_clientName cx))
                (mkTransited 0 []) (at_time (truncate_s clock)) (Some startTime) endTime renewTill [] [] in
  let part := if has flags TicketAnonymous then part else authdata_modules part in
  let part := set_AuthorizationData part (tp_AuthorizationData part ++ ag_authData g) in
  do part := orelse None kdcErrGeneric (issueCAMMAC fips s db part (cx_serviceKey cx) None (ag_indicators g)) in
  orelse None kdcErrGeneric
    (issuePACWithOptions fips s db hooks part (cx_clientName cx) (cx_serviceName cx) (cx_serviceKey cx) (cx_serviceKey cx) false false
       (ag_replyEncryptionKey g) None None conf).

(** [buildASRepWithPreauth], up to the encoding of the reply. *)
Definition buildASRepWithPreauth (db : D) (g : as_grant) (draw : nat → nat → res bytes) (modules : list (KDCPolicyResult + HookError))
    (clock : Z) : E as_issued :=
  let cx := ag_context g in
  let armor := cx_armor cx in
  let body := r_ReqBody (cx_request cx) in
  do _ := requireAuthError armor (cx_serviceRecord cx) (ag_indicators g) in
  do etype := orelse None kdcErrETypeNoSupp (Registry_Get fips (ag_etypeID g)) in
  do sessionValue := orelse None kdcErrGeneric (draw 0%nat (etype_KeySize etype)) in
  do t := as_times g modules clock in
  do '(sessionValue, contributed) := as_session g etype sessionValue in
  do ticketPart := as_ticket_part db g sessionValue t clock (draw 3%nat 16%nat) in
  do ticketCipher := orelse None kdcErrGeneric (encryptWithKey fips (draw 1%nat 16%nat) (cx_serviceKey cx) 2 (marshalDER ticketPart)) in
  do sname := deref (b_SName body) in
  let ticket := mkTicket 5 (b_Realm body) sname (mkEnc (ag_etypeID g) (Some (Key_KVNO (cx_serviceKey cx))) ticketCipher) in
  do more := contribution g etype contributed (draw 13%nat 16%nat) in
  let '(flags, startTime, endTime, renewTill) := t in
  let now := at_time (truncate_s clock) in
  let part := mkRepPart (mkEKey (ag_etypeID g) sessionValue) [mkLastReq 0 now] (b_Nonce body) None flags now (Some startTime) endTime
                renewTill (b_Realm body) sname [] in
  do replyKey := match ag_replyEncryptionKey g with
                 | Some key => do _ := require None (is_ok (Registry_Get fips (Key_Enctype key))) kdcErrPreauthFailed in inr key
                 | None => inr (ag_clientKey g)
                 end in
  do replyCipher := orelse None kdcErrGeneric
       (encryptWithKey fips (draw 2%nat 16%nat) replyKey 3 (marshalDER (H := enc_as_rep_part_der) part)) in
  let reply := mkRep 5 11 (ag_replyPAs g ++ more) (Realm (cx_clientName cx)) (protocolPrincipal (cx_clientName cx)) ticket
                 (mkEnc (Key_Enctype replyKey) None replyCipher) in
  inr (mkASIssued ticketPart (cx_serviceKey cx) part reply armor replyKey).

(** ** The handler *)

(** The request and what is known of its principals. *)
Definition as_prepare (request : KDCReq) (raw : bytes) (now clock : Z) : SE D as_context :=
  doS st := s_get in
  doS '(request, armor) := s_lift (as_request (as_db st) request raw now) in
  as_principals request armor now clock.
(** Everything before the reply. *)
Definition as_decide (request : KDCReq) (raw : bytes) (now clock : Z) (draw : nat → nat → res bytes) : SE D as_grant :=
  doS cx := as_prepare request raw now clock in
  doS v := s_lift (orelse (cx_armor cx) kdcErrPreauthFailed
                     (verifyPreauthModules preauth_modules (make_rock cx) (r_PAData (cx_request cx)))) in
  decide now clock draw cx v raw.
(** [handleASReqCore]. *)
Definition handleASReqCore (request : KDCReq) (raw : bytes) (now clock : Z) (draw : nat → nat → res bytes)
    (modules : list (KDCPolicyResult + HookError)) : SE D as_issued :=
  doS g := as_decide request raw now clock draw in
  doS st := s_get in
  s_lift (buildASRepWithPreauth (as_db st) g draw modules now).

(** The request as the error replies name it. *)
Definition as_named_request (db : D) (request : KDCReq) (raw : bytes) (now : Z) : KDCReq :=
  match as_request db request raw now with inr (inner, _) => inner | inl _ => request end.
(** [handleASReq]: the message sent, if the process lives. *)
Definition handleASReq (request : KDCReq) (raw : bytes) (now clock : Z) (draw : nat → nat → res bytes)
    (modules : list (KDCPolicyResult + HookError)) (st : as_state D) : option bytes * as_state D :=
  let '(result, st') := handleASReqCore request raw now clock draw modules st in
  (match result with
   | inl Crash => None
   | inl (ErrorReply e) =>
       Some (error_message s now (draw 4%nat 16%nat) (b_SName (r_ReqBody (as_named_request (as_db st) request raw now))) e)
   | inr i =>
       match ai_armor i with
       | None => Some (marshalDER (H := as_rep_der) (ai_reply i))
       | Some armor =>
           match wrapFASTRep fips (λ n, draw (n + 5)%nat) now (ai_reply i) (Key_Key (ai_replyKey i)) 3 armor with
           | Ok reply => Some (marshalDER (H := as_rep_der) reply)
           | _ => Some (errorResponseWithTextAndData s now kdcErrGeneric (Some (t_SName (rep_Ticket (ai_reply i)))) [] [])
           end
       end
   end, st').

(** ** What a reply implies *)

(** How the client has proved who it is. *)
Inductive as_evidence (cx : as_context) (raw : bytes) (now : Z) (spakeKey : bytes) (fresh : res bytes) : Prop :=
| ev_module m pa result :
    m ∈ preauth_modules → pa ∈ r_PAData (cx_request cx) → pm_Verify m (make_rock cx) pa = Ok (Some result) →
    vr_Authenticated result = true → as_evidence cx raw now spakeKey fresh
| ev_otp fast pa otpRequest plain nonce indicators :
    cx_armor cx = Some fast → findPA (r_PAData (cx_request cx)) PADataRequest = Some pa → Unmarshal (PADataValue pa) = Ok otpRequest →
    sealed_by (fc_etype fast) (fc_key fast) KeyUsageRequest plain (ed_Cipher (or_EncData otpRequest)) → Unmarshal plain = Ok (mkOTPEnc nonce) →
    ValidateNonce nonce (etype_KeySize (fc_etype fast)) now (skew s) = Ok tt →
    verify_otp cx (or_OTPValue otpRequest) = Some indicators → as_evidence cx raw now spakeKey fresh
| ev_challenge fast pa etypeID key etype encrypted challengeKey plain timestamp :
    cx_armor cx = Some fast → findPA (r_PAData (cx_request cx)) PADataEncryptedChallenge = Some pa → Unmarshal (PADataValue pa) = Ok encrypted →
    p_Keys (cx_clientRecord cx) !! etypeID = Some key → Registry_Get fips etypeID = Ok etype →
    challenge_key (fc_etype fast) (fc_key fast) (Some etype) (Key_Key key) client_pepper = Ok challengeKey →
    sealed_by (fc_etype fast) challengeKey encryptedChallengeClientUsage plain (ed_Cipher encrypted) → Unmarshal plain = Ok timestamp →
    withinSkew s now (Time (ts_PATimestamp timestamp)) = true → as_evidence cx raw now spakeKey fresh
| ev_spake pa msg response etype group w private transcript result k1 plain factor :
    findPA (r_PAData (cx_request cx)) PADataSPAKE = Some pa → spake_Decode (PADataValue pa) = Ok msg → sp_Response msg = Some response →
    fst (parseSPAKECookie now (findPA (r_PAData (cx_request cx)) PAFXCookie) spakeKey fresh) = Some (group, private, transcript) →
    permitsSPAKEGroup s group = true → Registry_Get fips (cx_etypeID cx) = Ok etype → DeriveW (Some etype) (Key_Key (cx_clientKey cx)) group = Ok w →
    Result group w private (sr_PubKey response) false = Ok result →
    DeriveKey (Some etype) (Key_Key (cx_clientKey cx)) w result (TranscriptForGroup group transcript (sr_PubKey response) [])
      (marshalDER (r_ReqBody (cx_request cx))) group 1 = Ok k1 →
    sealed_by etype k1 spake_KeyUsage plain (ed_Cipher (sr_Factor response)) → Unmarshal plain = Ok factor → sf_Type factor = FactorNone →
    as_evidence cx raw now spakeKey fresh
| ev_pkinit pa body signed :
    findPA (r_PAData (cx_request cx)) PADataPKASReq = Some pa → FieldContent raw [TagASReq; 4] = Ok body →
    VerifyPAASReqForKDC pkinit (PADataValue pa) body = Ok signed → pk_Nonce signed = b_Nonce (r_ReqBody (cx_request cx)) →
    withinSkew s now (pk_CTime signed) = true → is_ok_inr (pkinit_client cx signed) = true → as_evidence cx raw now spakeKey fresh
| ev_timestamp pa etype plain timestamp :
    findPA (r_PAData (cx_request cx)) PADataEncryptedTimestamp = Some pa → Registry_Get fips (cx_etypeID cx) = Ok etype →
    sealed_by etype (Key_Key (cx_clientKey cx)) 1 plain (timestamp_cipher cx (PADataValue pa)) → Unmarshal plain = Ok timestamp →
    withinSkew s now (Time (ts_PATimestamp timestamp)) = true → as_evidence cx raw now spakeKey fresh.

Section evidence.
Context `{!GoCryptoLaws}.
Context (cx : as_context) (raw : bytes) (now clock : Z) (draw : nat → nat → res bytes) (v : verified) (sk : bytes).
Context (Harmor : ∀ fast, cx_armor cx = Some fast → registered (fc_etype fast)).

Lemma verify_loop_evidence rock l v0 v1 :
  verify_loop rock l v0 = Ok v1 → vr_Authenticated (ve_aggregate v0) = false → vr_Authenticated (ve_aggregate v1) = true →
  ∃ pa m result, (pa, m) ∈ l ∧ pm_Verify m rock pa = Ok (Some result) ∧ vr_Authenticated result = true.
Proof.
  revert v0. induction l as [|[pa m] l IH]; intros v0; cbn [verify_loop]; [intros [= ->]; congruence|].
  destruct (pm_Verify m rock pa) as [[result|]| |] eqn:Hv; cbn [res_bind]; [|by intros Hl N0 N1; destruct (IH _ Hl N0 N1) as (pa' & m' & r & Hin & Hr); exists pa', m', r; split; [by right|]|done..].
  destruct (vr_Authenticated result) eqn:Ha; cbn [negb].
  - intros _ _ _. exists pa, m, result. split; [left|done].
  - intros Hl N0 N1. destruct (IH _ Hl N0 N1) as (pa' & m' & r & Hin & Hr). exists pa', m', r. split; [by right|done].
Qed.
Lemma modules_evidence :
  verifyPreauthModules preauth_modules (make_rock cx) (r_PAData (cx_request cx)) = Ok v → vr_Authenticated (ve_aggregate v) = true →
  as_evidence cx raw now sk (draw 11%nat 32%nat).
Proof.
  intros Hv Ha. destruct (verify_loop_evidence _ _ _ _ Hv eq_refl Ha) as (pa & m & result & Hin & Hr & Hau).
  apply list_elem_of_bind in Hin as (pa' & Hin & Hpa). case_match; [by apply elem_of_nil in Hin|].
  apply list_elem_of_fmap in Hin as (m' & [= -> ->] & [_ Hm]%list_elem_of_filter). by eapply ev_module.
Qed.

Lemma record_failure_inr {A} (e : E A) st a st' : record_failure now clock cx e st = (inr a, st') → e = inr a.
Proof. unfold record_failure. destruct (recordPreauthFailure _ _ _ _ _). by intros [= ->]. Qed.

Lemma by_otp_evidence pa st g st' : findPA (r_PAData (cx_request cx)) PADataRequest = Some pa →
  by_otp now clock cx v pa st = (inr g, st') → as_evidence cx raw now sk (draw 11%nat 32%nat) ∧ requiresHWAuth cx = false.
Proof.
  intros Hpa Hb. unfold by_otp in Hb. inv_s.
  destruct (verify_otp cx _) as [indicators|] eqn:Hv; [|by apply record_failure_inr in Hb]. inv_s.
  match goal with Hx : DecryptNonce _ _ _ = Ok _ |- _ => rename Hx into Hd end. cbn [DecryptNonce] in Hd. case_match; [done|].
  destruct (etype_Decrypt _ _ _ _) as [plain| |] eqn:Hp; cbn [res_bind] in Hd; [|done..].
  destruct (Unmarshal plain) as [value| |] eqn:Hu; cbn [res_bind] in Hd; [|done..]. injection Hd as <-. destruct value as [nonce].
  split; [|by apply negb_true_iff].
  match goal with x : unit |- _ => idtac end.
  eapply ev_otp; eauto using opened_sealed. repeat match goal with x : unit |- _ => destruct x end. done.
Qed.

Lemma match_challenge_spec fast data candidates key etype timestamp :
  match_challenge fast data candidates = Some (key, etype, timestamp) →
  key ∈ candidates ∧ Registry_Get fips (Key_Enctype key) = Ok etype ∧
  DecryptEncryptedChallengeWithKeyEType (Some (fc_etype fast)) (fc_key fast) (Some etype) (Key_Key key) data = Ok timestamp.
Proof.
  induction candidates as [|c candidates IH]; cbn [match_challenge]; [done|]. intros Hm.
  destruct (Registry_Get fips (Key_Enctype c)) as [e| |] eqn:He.
  2, 3: by destruct (IH Hm) as (Hin & ?); split; [right|].
  destruct (DecryptEncryptedChallengeWithKeyEType (Some (fc_etype fast)) (fc_key fast) (Some e) (Key_Key c) data) as [t| |] eqn:Hd.
  2, 3: by destruct (IH Hm) as (Hin & ?); split; [right|].
  injection Hm as -> -> ->. split_and!; [left|done|done].
Qed.
Lemma candidate_keys_spec key : key ∈ candidate_keys cx →
  ∃ stored, p_Keys (cx_clientRecord cx) !! Key_Enctype key = Some stored ∧ Key_Key stored = Key_Key key.
Proof.
  unfold candidate_keys. intros [Hin|Hin]%elem_of_app.
  - apply list_elem_of_omap in Hin as (e & _ & Hk). destruct (_ !! e) as [k|] eqn:Hl; [|done]. injection Hk as <-. exists k. by destruct k.
  - apply list_elem_of_omap in Hin as ([e k] & Hin%elem_of_map_to_list & Hk). case_match; [done|]. injection Hk as <-. exists k. by destruct k.
Qed.
Lemma by_challenge_evidence pa st g st' : findPA (r_PAData (cx_request cx)) PADataEncryptedChallenge = Some pa →
  by_challenge now clock draw cx v pa st = (inr g, st') → as_evidence cx raw now sk (draw 11%nat 32%nat) ∧ requiresHWAuth cx = false.
Proof.
  intros Hpa Hb. unfold by_challenge in Hb. inv_s.
  destruct (match_challenge _ _ _) as [[[key etype] timestamp]|] eqn:Hm; [|by apply record_failure_inr in Hb]. inv_s.
  apply match_challenge_spec in Hm as (Hk & He & Hd). apply candidate_keys_spec in Hk as (stored & Hk & Hs). rewrite <- Hs in Hd.
  unfold DecryptEncryptedChallengeWithKeyEType, open_challenge in Hd.
  destruct (Unmarshal (PADataValue pa)) as [encrypted| |] eqn:Hu; cbn [wrap_err res_bind] in Hd; [|done..]. case_match; [done|].
  destruct (challenge_key _ _ _ _ _) as [challengeKey| |] eqn:Hck; cbn [wrap_err res_bind] in Hd; [|done..].
  destruct (etype_Decrypt _ _ _ _) as [plain| |] eqn:Hp; cbn [wrap_err res_bind] in Hd; [|done..].
  destruct (Unmarshal plain) as [ts| |] eqn:Ht; cbn [res_bind] in Hd; [|done..]. case_match; [done|]. injection Hd as <-.
  split; [|by apply negb_true_iff]. eapply ev_challenge; eauto using opened_sealed.
Qed.

Lemma by_spake_evidence pa msg response st g st' : findPA (r_PAData (cx_request cx)) PADataSPAKE = Some pa →
  spake_Decode (PADataValue pa) = Ok msg → sp_Response msg = Some response → as_spakeKey st = sk →
  by_spake now clock draw cx v response st = (inr g, st') → as_evidence cx raw now sk (draw 11%nat 32%nat) ∧ requiresHWAuth cx = false.
Proof.
  intros Hpa Hmsg Hresp Hsk Hb. unfold by_spake in Hb. inv_s. destruct (parseSPAKECookie _ _ _ _) as [cookie key] eqn:Hcook. inv_s.
  destruct (etype_Decrypt _ _ _ _) as [plain| |] eqn:Hp; [|by apply record_failure_inr in Hb..].
  destruct (Unmarshal plain) as [factor| |] eqn:Hu; [|by apply record_failure_inr in Hb..].
  destruct (sf_Type factor =? FactorNone) eqn:Hf; cbn [negb] in Hb; [|by apply record_failure_inr in Hb]. inv_s.
  split; [|by apply negb_true_iff].
  match goal with
  | Hpg : permitsSPAKEGroup _ _ = true, Hm : Marshal _ = Ok ?b, He : Registry_Get _ _ = Ok _, Hw : DeriveW _ _ _ = Ok _, Hr : Result _ _ _ _ _ = Ok _, Hk : DeriveKey _ _ _ _ _ ?b _ 1 = Ok _ |- _ =>
      refine (ev_spake cx raw now sk _ _ _ _ _ _ _ _ _ _ _ _ _ Hpa Hmsg Hresp _ Hpg He Hw Hr _ (opened_sealed _ _ _ _ _ (ex_intro _ _ (ex_intro _ _ He)) Hp) Hu _);
      [by rewrite <- Hsk, Hcook|unfold marshalDER; rewrite Hm; exact Hk|by apply Z.eqb_eq]
  end.
Qed.

Lemma by_pkinit_evidence pa st g st' : findPA (r_PAData (cx_request cx)) PADataPKASReq = Some pa →
  by_pkinit now clock cx v raw pa st = (inr g, st') →
  as_evidence cx raw now sk (draw 11%nat 32%nat) ∧ (requiresHWAuth cx = true → ag_hwAuthenticated g = true).
Proof.
  intros Hpa Hb. unfold by_pkinit in Hb. inv_s.
  match goal with Hx : _ && _ && _ = true |- _ => apply andb_prop in Hx as [[Hn _]%andb_prop Ht] end.
  match goal with Hx : pkinit_client _ _ = inr _ |- _ => rename Hx into Hc end.
  split; [eapply ev_pkinit; try eassumption; [lia|by rewrite Hc]|].
  cbn [ag_hwAuthenticated]. intros Hw. match goal with Hx : negb (_ && negb ?b) = true |- _ => rewrite Hw in Hx; by destruct b end.
Qed.

Lemma by_timestamp_evidence pa st g st' : findPA (r_PAData (cx_request cx)) PADataEncryptedTimestamp = Some pa →
  by_timestamp now clock cx v pa st = (inr g, st') → as_evidence cx raw now sk (draw 11%nat 32%nat) ∧ requiresHWAuth cx = false.
Proof.
  intros Hpa Hb. unfold by_timestamp in Hb. inv_s.
  destruct (etype_Decrypt _ _ _ _) as [plain| |] eqn:Hp; [|by apply record_failure_inr in Hb..]. inv_s.
  split; [|by apply negb_true_iff].
  match goal with Hx : _ && withinSkew _ _ _ = true |- _ => apply andb_prop in Hx as [_ Ht] end.
  eapply ev_timestamp; try eassumption. eapply opened_sealed; [|eassumption]. by eexists _, _.
Qed.

Ltac split_if Hx := match type of Hx with (if ?b then _ else _) _ = _ => destruct b eqn:? end.
Lemma decide_evidence st g st' : as_spakeKey st = sk →
  verifyPreauthModules preauth_modules (make_rock cx) (r_PAData (cx_request cx)) = Ok v →
  decide now clock draw cx v raw st = (inr g, st') →
  (preauthRequired cx = true → as_evidence cx raw now sk (draw 11%nat 32%nat)) ∧ (requiresHWAuth cx = true → ag_hwAuthenticated g = true).
Proof.
  intros Hsk Hv Hd.
  assert (Hno : as_evidence cx raw now sk (draw 11%nat 32%nat) ∧ requiresHWAuth cx = false →
    (preauthRequired cx = true → as_evidence cx raw now sk (draw 11%nat 32%nat)) ∧ (requiresHWAuth cx = true → ag_hwAuthenticated g = true))
    by (intros [He Hw]; split; [done|by rewrite Hw]).
  assert (Hafter : ∀ st, after_spake now clock cx v raw st = (inr g, st') →
    (preauthRequired cx = true → as_evidence cx raw now sk (draw 11%nat 32%nat)) ∧ (requiresHWAuth cx = true → ag_hwAuthenticated g = true)).
  { intros st1 Ha. unfold after_spake in Ha. destruct (findPA _ PADataPKASReq) eqn:Hp; [edestruct by_pkinit_evidence; eauto|].
    destruct (findPA _ PADataEncryptedTimestamp) eqn:Ht; [by eapply Hno, by_timestamp_evidence|].
    unfold without_preauth in Ha. destruct (preauthRequired cx) eqn:Hr; cbn [negb] in Ha; inv_s; [done|]. split; [done|].
    unfold preauthRequired in Hr. intros Hw. unfold requiresHWAuth in Hw. by rewrite has_mask, Hw, !orb_true_r in Hr. }
  unfold decide in Hd. destruct (vr_Authenticated (ve_aggregate v)) eqn:Hau.
  { split; [intros _; by eapply modules_evidence|]. unfold by_modules in Hd. inv_s. cbn [ag_hwAuthenticated]. intros Hw.
    match goal with Hx : negb (_ && negb ?b) = true |- _ => rewrite Hw in Hx; by destruct b end. }
  unfold otp_hint, hint in *. split_if Hd; [inv_s|]. split_if Hd; [inv_s; destruct (cx_armor cx); inv_e|].
  destruct (findPA _ PADataRequest) eqn:Hp; [by eapply Hno, by_otp_evidence|]. split_if Hd; [inv_s|].
  destruct (findPA _ PADataEncryptedChallenge) eqn:Hc; [by eapply Hno, by_challenge_evidence|]. unfold spake_or_after, spake_challenge, spake_hint, hint in Hd.
  destruct (findPA _ PADataSPAKE) eqn:Hs; [|split_if Hd; [inv_s|by eapply Hafter]].
  split_if Hd; [inv_s|]. inv_s. destruct (sp_Response _) eqn:Hr; [by eapply Hno, by_spake_evidence|by eapply Hafter].
Qed.
(** The ticket is for the principals found. *)
Lemma record_success_inr st cx' st' : record_success now clock cx st = (inr cx', st') → ∃ record, cx' = set_clientRecord cx record.
Proof. unfold record_success. destruct (recordPreauthSuccess _ _ _ _ _) as [record db]. intros [= <- <-]. by exists record. Qed.
Lemma set_clientRecord_same : ∃ record, cx = set_clientRecord cx record.
Proof. exists (cx_clientRecord cx). by destruct cx. Qed.
Lemma decide_context st g st' : decide now clock draw cx v raw st = (inr g, st') → ∃ record, ag_context g = set_clientRecord cx record.
Proof.
  unfold decide, by_modules, by_otp, by_challenge, spake_or_after, spake_challenge, by_spake, after_spake, by_pkinit, by_timestamp,
    without_preauth, otp_hint, spake_hint, hint. intros Hd.
  repeat (inv_s; match goal with
  | Hx : (if ?b then _ else _) _ = (inr _, _) |- _ => destruct b
  | Hx : match ?b with _ => _ end _ = (inr _, _) |- _ => destruct b eqn:?
  | Hx : match ?b with _ => _ end = inr _ |- _ => destruct b eqn:?
  | Hx : record_failure _ _ _ _ _ = (inr _, _) |- _ => apply record_failure_inr in Hx
  | Hx : record_success _ _ _ _ = (inr _, _) |- _ => apply record_success_inr in Hx as [? ->]
  end); inv_s; cbn [ag_context]; eauto using set_clientRecord_same.
Qed.
End evidence.

(** ** The reply *)

Lemma flag_if_keeps b flag flags m : has flags m = true → has (flag_if b flag flags) m = true.
Proof. intros Hf. unfold flag_if. destruct b; [|done]. by rewrite has_with, Hf. Qed.
Lemma without_keeps_hw (b : bool) flag flags :
  has flag TicketHWAuthent = false → has flags TicketHWAuthent = true → has (if b then without flags flag else flags) TicketHWAuthent = true.
Proof. intros Hn Hf. destruct b; [|done]. unfold TicketHWAuthent in *. by rewrite has_without_bit, Hf, Hn by done. Qed.
Lemma as_times_hw g modules clock flags startTime endTime renewTill :
  as_times g modules clock = inr (flags, startTime, endTime, renewTill) → ag_hwAuthenticated g = true → has flags TicketHWAuthent = true.
Proof.
  unfold as_times. intros Ht Hg. rewrite Hg in Ht. unfold applyFlagPolicy, applyPrincipalFlagPolicy in Ht.
  set (f0 := flag_if (has _ KDCAllowPostdate) _ _) in Ht.
  assert (Hf : has f0 TicketHWAuthent = true).
  { apply flag_if_keeps. repeat apply without_keeps_hw; try done.
    destruct (s_Policy s); [repeat apply without_keeps_hw; try done|]; do 3 apply flag_if_keeps; unfold flag_if; by rewrite has_with, orb_true_r. }
  clearbody f0. inv_e.
  match goal with Hx : _ = inr (?t, ?f) |- _ => assert (Hf' : has f TicketHWAuthent = true) end.
  { repeat case_match; simplify_eq; by rewrite ?has_with, ?Hf. }
  destruct (apply_policies _ _ _ _) as [err|[endTime' renewTill']]; [done|]. injection Ht as <- _ _ _.
  by apply flag_if_keeps, without_keeps_hw.
Qed.

Lemma as_armor_registered db request raw now inner fast :
  as_request db request raw now = inr (inner, Some fast) → registered (fc_etype fast).
Proof.
  unfold as_request, unwrapFASTASReq. intros Hr. inv_e. destruct (findPA _ _); inv_e; simplify_eq.
  cbn [fc_etype]. by eexists _, _.
Qed.

(** The keys are those of the principals; a client without one is given none. *)
Lemma select_keys_spec request anonymous client service id clientKey serviceKey :
  select_keys request anonymous client service = Some (id, clientKey, serviceKey) →
  (clientKey = no_key ∨ ∃ key, p_Keys client !! id = Some key ∧ clientKey = set_enctype key id) ∧
  ∃ key, p_Keys service !! id = Some key ∧ serviceKey = set_enctype key id.
Proof.
  assert (Hs : ('(etypeID, serviceKey) ← selectPKINITServiceKey fips (b_EType (r_ReqBody request)) service;
                Some (etypeID, no_key, serviceKey)) = Some (id, clientKey, serviceKey) →
    (clientKey = no_key ∨ ∃ key, p_Keys client !! id = Some key ∧ clientKey = set_enctype key id) ∧
    ∃ key, p_Keys service !! id = Some key ∧ serviceKey = set_enctype key id).
  { intros ([id' key] & Hp & Hx)%bind_Some. simplify_eq. split; [by left|]. unfold selectPKINITServiceKey in Hp.
    apply head_Some_elem_of, list_elem_of_omap in Hp as (id' & _ & Hp). case_match; [done|].
    apply bind_Some in Hp as (key' & ? & ?). simplify_eq. eauto. }
  unfold select_keys. case_match; [done|]. destruct (selectASKeys _ _ _) as [[[id' ck] sk]|] eqn:Hk; [|case_match; done].
  intros ?. simplify_eq. clear Hs. revert Hk. generalize (b_EType (r_ReqBody request)). intros etypes.
  induction etypes as [|e etypes IH]; cbn [selectASKeys]; intros Hk; [done|].
  destruct (p_Keys client !! e) eqn:?, (p_Keys service !! e) eqn:?; [simplify_eq; eauto 10|by apply IH..].
Qed.

(** The principals of a request that may be served: the client is in the
    database and not locked out, or anonymous, the service is in the database,
    both accounts are usable, and the keys are theirs. *)
Record admitted (now clock : Z) (db : D) (cx : as_context) (db' : D) : Prop := mkAdmitted {
  adm_client : cx_anonymous cx = false → ∃ record,
    find_client db (cx_request cx) false (cx_requestName cx) = inr (cx_clientName cx, record) ∧
    lockedOut db now clock (cx_clientName cx) record = (false, cx_clientRecord cx, db');
  adm_anonymous : cx_anonymous cx = true → cx_clientName cx = anonymousPrincipal ∧ isAnonymousPrincipal (cx_requestName cx) = true;
  adm_service : st_Lookup db' (cx_serviceName cx) = Ok (Some (cx_serviceRecord cx));
  adm_account : validateASAccount now (cx_clientRecord cx) (cx_serviceRecord cx) (b_KDCOptions (r_ReqBody (cx_request cx))) = 0;
  adm_clientKey : cx_clientKey cx = no_key ∨
    ∃ key, p_Keys (cx_clientRecord cx) !! cx_etypeID cx = Some key ∧ cx_clientKey cx = set_enctype key (cx_etypeID cx);
  adm_serviceKey : ∃ key, p_Keys (cx_serviceRecord cx) !! cx_etypeID cx = Some key ∧ cx_serviceKey cx = set_enctype key (cx_etypeID cx);
}.

Lemma as_prepare_spec request raw now clock st cx st' :
  as_prepare request raw now clock st = (inr cx, st') →
  admitted now clock (as_db st) cx (as_db st') ∧ as_spakeKey st' = as_spakeKey st ∧
  ∀ fast, cx_armor cx = Some fast → registered (fc_etype fast).
Proof.
  unfold as_prepare, as_principals, lookup_record. intros Hp. inv_s.
  match goal with Hx : as_request _ _ _ _ = inr (_, ?a) |- _ =>
    assert (Hreg : ∀ fast, a = Some fast → registered (fc_etype fast)) by (intros fast ->; by eapply as_armor_registered) end.
  destruct (has _ KDCRequestAnonymous) eqn:Hanon in *; inv_s; [|destruct (lockedOut _ _ _ _ _) as [[locked record] db'] eqn:Hl; inv_s];
    match goal with Hx : select_keys _ _ _ _ = Some _ |- _ => apply select_keys_spec in Hx as [? ?] end.
  - split; [|done]. subst. constructor; cbn; try done; [|lia|eauto..]. intros _.
    unfold find_client in *. simplify_eq/=. split; [done|]. by destruct (isAnonymousPrincipal _).
  - split; [|done]. subst. constructor; cbn; try done; [|lia|eauto..]. intros _. destruct locked; [done|]. eauto.
Qed.

(** [plain] encrypted with [key]. *)
Definition encrypted_with (key : Key) (usage : Z) (plain cipher : bytes) : Prop := ∃ conf, encryptWithKey fips conf key usage plain = Ok cipher.

(** What the reply holds. *)
Definition reply_for (cx : as_context) (i : as_issued) : Prop :=
  let body := r_ReqBody (cx_request cx) in
  let reply := ai_reply i in
  rep_CRealm reply = Realm (cx_clientName cx) ∧ rep_CName reply = protocolPrincipal (cx_clientName cx) ∧
  t_Realm (rep_Ticket reply) = b_Realm body ∧ b_SName body = Some (t_SName (rep_Ticket reply)) ∧
  ep_Nonce (ai_repPart i) = b_Nonce body ∧
  encrypted_with (cx_serviceKey cx) 2 (marshalDER (ai_ticketPart i)) (ed_Cipher (t_EncPart (rep_Ticket reply))) ∧
  encrypted_with (ai_replyKey i) 3 (marshalDER (H := enc_as_rep_part_der) (ai_repPart i)) (ed_Cipher (rep_EncPart reply)).

Lemma build_reply db g draw modules clock i cx record :
  buildASRepWithPreauth db g draw modules clock = inr i → ag_context g = set_clientRecord cx record →
  reply_for cx i ∧ (ag_hwAuthenticated g = true → has (ep_Flags (ai_repPart i)) TicketHWAuthent = true).
Proof.
  unfold buildASRepWithPreauth. intros Hb Hc. inv_e. subst i. rewrite !Hc in *. split; [|by eapply as_times_hw]. unfold reply_for, encrypted_with. cbn in *. split_and!; eauto.
Qed.


End as_exchange.

(** ** A concrete run *)

Module AsExample.
#[local] Existing Instance toy_crypto.
#[local] Existing Instance toy_crypto_laws.
#[local] Existing Instance SpakeExample.toy_groups.

Definition realm : bytes := str "R".
Definition server : Server := default_server realm.
Definition key_of (value : bytes) : Key := mkKey EnctypeAES128SHA1 1 value [].
Definition alice : PrincipalName := mkPName NTPrincipal [str "alice"].
Definition alice_key : Key := key_of (str "alice's long key").
Definition krbtgt_name : PrincipalName := mkPName NTSrvInstance [krbtgt; realm].
Definition put (name : PrincipalName) (key : Key) (db : Database) : Database :=
  let p := principalFromProtocol name realm in
  put_principal db (canonical p) (empty_record p {[ EnctypeAES128SHA1 := key ]} 1 0).
Definition database : Database := put krbtgt_name (key_of (str "0123456789abcdef")) (put alice alice_key (NewDatabase realm)).
Definition body_of (cname sname : option PrincipalName) : KDCReqBody :=
  mkBody 0 cname realm sname None (at_time (3600 * second)) None 7 [EnctypeAES128SHA1] [] None [].
Definition body : KDCReqBody := body_of (Some alice) (Some krbtgt_name).
Definition aes : option EType := match Registry_Get false EnctypeAES128SHA1 with Ok etype => Some etype | _ => None end.
Definition stamp : MethodData :=
  match BuildEncryptedTimestamp aes (Key_Key alice_key) (4 * second) 0 (Ok (zeros 16)) with Ok pa => [pa] | _ => [] end.
Definition request : KDCReq := mkReq 5 10 stamp body.

#[local] Abbreviation handle otp request now :=
  (handleASReqCore false server (λ _ _ _, None) (λ p, p) no_pac_hooks [] otp no_pkinit
    request (marshalDER (H := as_req_der) request) now now (λ _ n, Ok (zeros n)) [] (mkState database [])).
#[local] Abbreviation run := (handle no_otp request (5 * second)).
Lemma as_run_issues : ∃ i st, run = (inr i, st) ∧ has (ep_Flags (ai_repPart i)) TicketPreAuthent = true.
Proof. apply handler_result. vm_compute. reflexivity. Qed.

(** Requests under the armor of a ticket with a session key of 32 bytes. *)
Definition seal (key : EncryptionKey) (usage : Z) (plain : bytes) : bytes :=
  match Registry_Get false (KeyType key) with
  | Ok etype => match etype_Encrypt etype (Ok (zeros 16)) (KeyValue key) usage plain with Ok c => c | _ => [] end
  | _ => []
  end.
Definition session : EncryptionKey := mkEKey EnctypeAES256SHA1 (str "the session key of the armor tgt").
Definition subkey : bytes := str "the subkey of the authenticator!".
Definition armor_ticket : Ticket :=
  mkTicket 5 realm krbtgt_name (mkEnc EnctypeAES128SHA1 (Some 1) (seal (mkEKey EnctypeAES128SHA1 (str "0123456789abcdef")) 2
    (marshalDER (mkTicketPart TicketInitial session realm alice (mkTransited 0 []) (at_time 0) None (at_time (10 * second)) None [] [])))).
Definition armor_ap_req : bytes :=
  marshalDER (mkAPReq 5 14 0 armor_ticket (mkEnc EnctypeAES256SHA1 None (seal session 11
    (marshalDER (mkAuthenticator 5 realm alice None 0 (at_time (5 * second)) (Some (mkEKey EnctypeAES256SHA1 subkey)) None []))))).
Definition armor_key : EncryptionKey :=
  mkEKey EnctypeAES256SHA1
    match Registry_Get false EnctypeAES256SHA1 with
    | Ok etype => match CF2 (Some etype) subkey (KeyValue session) (str "subkeyarmor") (str "ticketarmor") with Ok key => key | _ => [] end
    | _ => []
    end.
Definition sum_of (key : EncryptionKey) (usage : Z) (data : bytes) : bytes :=
  match Registry_Get false (KeyType key) with
  | Ok etype => match Checksum etype (KeyValue key) usage data with Ok c => c | _ => [] end
  | _ => []
  end.
Definition armored (inner : KrbFastReq) : KDCReq :=
  mkReq 5 10 [mkPA PAFXFast (marshalDER (mkFXRequest (mkArmored (Some (mkFArmor ArmorTypeAPReq armor_ap_req))
    (mkCksum ChecksumHMACSHA196AES256 (sum_of armor_key UsageReqChecksum (marshalDER body)))
    (mkEnc EnctypeAES256SHA1 None (seal armor_key UsageReq (marshalDER inner))))))] body.


(** A one-time password that the application accepts. *)
Definition otp_nonce : bytes := match NewNonce (4 * second) 32 (λ n, Ok (zeros n)) with Ok nonce => nonce | _ => [] end.
Definition otp_data : MethodData :=
  [mkPA PADataRequest (marshalDER (mkOTPRequest 0 [] (mkEnc EnctypeAES256SHA1 None (seal armor_key KeyUsageRequest (marshalDER (mkOTPEnc otp_nonce))))
     None None (str "123456") None [] None [] None [] None None))].
Definition any_otp : otp_hooks := mkOTP None (Some (λ _ value, bytes_eqb value (str "123456"))) None.

End AsExample.
