(* ===== verification/KdcServer.v ===== *)
(** * The KDC's messages (src/krb5/kdc/kdc.go)

    What the server does with a message, from the bytes received to the bytes
    sent: the choice of the handler, the cache of replies and the limit on
    datagrams.  A message is handled at one reading of the clock.  The state is
    what the handlers keep: the principal store, the key of the SPAKE cookies, the
    replay cache, and the cache of replies.  A handler that crashes takes the
    process down, and nothing is sent. *)

From S2P Require Import Prelude Principal GoStrings Lookaside Crypto Ulog Kdb Protocol Asn1 Wire Transited Pac PacData KdcPolicy KdcCommon KdcTgs Spake Preauth KdcPreauth KdcAs.
Local Open Scope Z_scope.

Definition ResponseTooBigCode : Z := 52.
Definition defaultMaxDatagramSize : Z := 65536.

Record kdc_state (D : Type) := mkKdcState { ks_as : as_state D; ks_replays : replays; ks_lookaside : lookasideCache }.
Arguments mkKdcState {D}.
Arguments ks_as {D}.
Arguments ks_replays {D}.
Arguments ks_lookaside {D}.

(** What a message meets besides the state: the clocks, the random bytes and the
    verdicts of the policy modules. *)
Record moment := mkMoment {
  mo_now : Z; mo_clock : Z; mo_draw : nat → nat → res bytes; mo_modules : list (KDCPolicyResult + HookError) }.

Section server.
Context `{GoCrypto} `{SpakeGroups} (fips : bool) {D : Type} `{Store D} (s : Server).
Context (md5_Sum : bytes → bytes) (hmac_md5 : bytes → bytes → bytes) (format_time : Z → bytes).
Context (Authorize : Principal → Principal → bool → option HookError).
Context (CheckAllowedToDelegate : option (option Principal → Principal → option Principal → bool)).
Context (authdata_modules : EncTicketPart → EncTicketPart).
Context (hooks : pac_hooks) (preauth_modules : list KDCPreauthModule) (otp : otp_hooks) (pkinit : pkinit_ops).

(** [errorResponse] without a service. *)
Definition plain_error (t : moment) (code : Z) : bytes := errorResponseWithTextAndData s (mo_now t) code None [] [].

(** [handleMessage]: the answer, if the process lives. *)
Definition handleMessage (data : bytes) (t : moment) (st : kdc_state D) : option bytes * kdc_state D :=
  if zlen (s_Realm s) =? 0 then (Some (plain_error t kdcErrGeneric), st)
  else match data with
  | [] => (Some (plain_error t kdcErrGeneric), st)
  | tag :: _ =>
      if b2z tag =? 0x6a then
        match (Unmarshal (Der := as_req_der) data : res KDCReq) with
        | Ok request =>
            let '(response, as_st) := handleASReq fips s Authorize authdata_modules hooks preauth_modules otp pkinit request data
                                        (mo_now t) (mo_clock t) (mo_draw t) (mo_modules t) (ks_as st) in
            (response, mkKdcState as_st (ks_replays st) (ks_lookaside st))
        | Err _ => (Some (plain_error t kdcErrGeneric), st)
        | Panic => (None, st)
        end
      else if b2z tag =? 0x6c then
        match (Unmarshal (Der := tgs_req_der) data : res KDCReq) with
        | Ok request =>
            let '(response, r) := handleTGSReq fips s (as_db (ks_as st)) md5_Sum hmac_md5 format_time Authorize CheckAllowedToDelegate
                                    authdata_modules hooks request data (mo_now t) (mo_draw t) (mo_modules t) (ks_replays st) in
            (response, mkKdcState (ks_as st) r (ks_lookaside st))
        | Err _ => (Some (plain_error t kdcErrGeneric), st)
        | Panic => (None, st)
        end
      else (Some (plain_error t kdcErrGeneric), st)
  end.

Definition maxDatagramReplySize : Z := if 0 <? s_MaxDatagramReplySize s then s_MaxDatagramReplySize s else defaultMaxDatagramSize.
Definition limitDatagramReply (t : moment) (response : bytes) (isTCP : bool) : bytes :=
  if isTCP || (zlen response <=? maxDatagramReplySize) then response else plain_error t ResponseTooBigCode.

Definition with_lookaside (st : kdc_state D) (cache : lookasideCache) : kdc_state D := mkKdcState (ks_as st) (ks_replays st) cache.
(** [dispatchWithRemote]: [Some []] is a nil answer, which is not sent. *)
Definition dispatchWithRemote (request : bytes) (isTCP : bool) (t : moment) (st : kdc_state D) : option bytes * kdc_state D :=
  match begin kdc_variant (ks_lookaside st) request (mo_now t) with
  | ((cached, true), cache) =>
      (Some (match cached with
             | None | Some [] => []
             | Some response => limitDatagramReply t response isTCP
             end), with_lookaside st cache)
  | ((_, false), cache) =>
      let '(response, st) := handleMessage request t (with_lookaside st cache) in
      match response with
      | None => (None, st)
      | Some response =>
          (Some (limitDatagramReply t response isTCP),
           with_lookaside st (complete kdc_variant (ks_lookaside st) request (Some response) (mo_now t)))
      end
  end.

(** Messages served one after the other, with the bytes they can add to the
    cache of replies; [None] if the process has crashed. *)
Definition reply_to (request : bytes) (t : moment) (st : kdc_state D) : option bytes :=
  fst (handleMessage request t (with_lookaside st (begin kdc_variant (ks_lookaside st) request (mo_now t)).2)).
Fixpoint serve (messages : list (bytes * bool * moment)) (st : kdc_state D) : option (Z * kdc_state D) :=
  match messages with
  | [] => Some (0, st)
  | (request, isTCP, t) :: messages =>
      match dispatchWithRemote request isTCP t st with
      | (None, _) => None
      | (Some _, st') => '(n, st'') ← serve messages st'; Some (zlen request + rlen (reply_to request t st) + n, st'')
      end
  end.

(** ** Retransmissions *)

Lemma handler_lookaside request t st : ks_lookaside (handleMessage request t st).2 = ks_lookaside st.
Proof.
  unfold handleMessage. destruct (zlen _ =? 0); [done|]. destruct request as [|tag request]; [done|].
  destruct (b2z tag =? 0x6a); [|destruct (b2z tag =? 0x6c)]; [| |done]; destruct (Unmarshal _); try done.
  - by destruct (handleASReq _ _ _ _ _ _ _ _ _ _ _ _ _ _ _).
  - by destruct (handleTGSReq _ _ _ _ _ _ _ _ _ _ _ _ _ _ _ _).
Qed.

(** The reply [resp] to [r] is remembered, with room for [m] more bytes. *)
Definition remembers (st : kdc_state D) (r resp : bytes) (t0 m : Z) : Prop :=
  cache_ok (ks_lookaside st) ∧ holds (abs (ks_lookaside st)) (mkA r (Some resp) t0) m.

Lemma kdc_variant_ok : variant_ok kdc_variant.
Proof. apply variants_ok. by left. Qed.

Lemma holds_weaken a e m m' : holds a e m → 0 <= m' <= m → holds a e m'.
Proof. intros (Hn & Hmax & _ & q1 & q2 & Hq & Hle) Hm. split_and!; [done..|lia|]. exists q1, q2. split; [done|lia]. Qed.
Lemma serve_nonneg messages st n st' : serve messages st = Some (n, st') → 0 <= n.
Proof.
  revert st n. induction messages as [|[[request isTCP] t] messages IH]; intros st n; cbn [serve]; [by intros [= <- _]|].
  destruct (dispatchWithRemote request isTCP t st) as [[response|] st1]; [|done]. intros ([k st2] & Hs & Heq)%bind_Some. injection Heq as <- ->.
  apply IH in Hs. pose proof (zlen_nonneg request). pose proof (rlen_nonneg (reply_to request t st)). lia.
Qed.

Lemma dispatch_keeps request isTCP t st r resp t0 m response st' :
  0 <= m → remembers st r resp t0 (m + (zlen request + rlen (reply_to request t st))) → request ≠ r →
  mo_now t < t0 + kdcLookasideStaleTime → dispatchWithRemote request isTCP t st = (Some response, st') → remembers st' r resp t0 m.
Proof.
  intros Hm [Hok Hh] Hne Ht. unfold dispatchWithRemote, reply_to in *.
  assert (Hfr : v_fresh kdc_variant (mo_now t) t0 = true) by (by apply Z.ltb_lt).
  destruct (begin_refines _ kdc_variant_ok (ks_lookaside st) request (mo_now t) Hok) as [Hok1 Ha1].
  set (n := rlen _) in Hh. assert (Hn : 0 <= n) by apply rlen_nonneg.
  replace (m + (zlen request + n)) with ((m + n) + op_cost (OBegin request (mo_now t))) in Hh by (cbn; lia).
  apply (survive_step kdc_variant) in Hh; [|lia|done|done|done]. cbn [a_step] in Hh. rewrite Ha1 in Hh. cbn [snd] in Hh.
  destruct (begin _ _ _ _) as [[cached hit] cache] eqn:Hb. cbn [fst snd] in *. destruct hit.
  - intros [= _ <-]. split; [done|]. cbn [ks_lookaside with_lookaside]. apply (holds_weaken _ _ (m + n)); [done|lia].
  - pose proof (handler_lookaside request t (with_lookaside st cache)) as Hl. subst n.
    destruct (handleMessage request t (with_lookaside st cache)) as [[answer|] st1]; [|done]. cbn [fst snd rlen] in *. intros [= _ <-].
    rewrite Hl. cbn [ks_lookaside with_lookaside]. destruct (complete_refines _ kdc_variant_ok cache request (Some answer) (mo_now t) Hok1) as [Hok2 Ha2].
    split; [done|]. cbn [ks_lookaside with_lookaside]. rewrite <- Ha2.
    apply (survive_step kdc_variant _ _ _ (OComplete request (Some answer) (mo_now t))); [done|done|done|by apply bool_decide_eq_false|].
    replace (abs cache) with (a_begin kdc_variant (abs (ks_lookaside st)) request (mo_now t)).2 by (by rewrite Ha1).
    apply begin_clean. rewrite Ha1. cbn [fst]. f_equal.
    pose proof (f_equal fst Ha1) as Hf. unfold a_begin in Hf. case_match; cbn in Hf; by simplify_eq.
Qed.

Lemma serve_keeps messages st n st' r resp t0 m :
  serve messages st = Some (n, st') → 0 <= m → remembers st r resp t0 (m + n) →
  Forall (λ '(request, _, t), request ≠ r ∧ mo_now t < t0 + kdcLookasideStaleTime) messages → remembers st' r resp t0 m.
Proof.
  revert st n. induction messages as [|[[request isTCP] t] messages IH]; intros st n; cbn [serve]; intros Hs Hm Hr Hall.
  - injection Hs as <- <-. by rewrite Z.add_0_r in Hr.
  - apply Forall_cons in Hall as [[Hne Ht] Hall]. destruct (dispatchWithRemote request isTCP t st) as [[response|] st1] eqn:Hd; [|done].
    apply bind_Some in Hs as ([k st2] & Hs & Heq). injection Heq as <- <-. apply (IH _ _ Hs Hm); [|done].
    assert (Hk : 0 <= k) by (by eapply serve_nonneg).
    eapply dispatch_keeps; [|by replace (m + (zlen request + rlen (reply_to request t st) + k)) with ((m + k) + (zlen request + rlen (reply_to request t st))) in Hr by lia|done|done|done]. lia.
Qed.

Lemma answer_remembered r tcp t st resp out st1 n :
  cache_ok (ks_lookaside st) → 0 < c_maxSize (ks_lookaside st) → c_size (ks_lookaside st) = a_total (abs_queue (ks_lookaside st)) →
  (begin kdc_variant (ks_lookaside st) r (mo_now t)).1 = (None, false) → reply_to r t st = Some resp → resp ≠ [] →
  dispatchWithRemote r tcp t st = (out, st1) → 0 <= n → zlen r + zlen resp + n <= c_maxSize (ks_lookaside st) →
  remembers st1 r resp (mo_now t) (0 + n).
Proof.
  intros Hok Hmax Hsize Hmiss Hreply Hne Hd Hn Hfit. unfold dispatchWithRemote, reply_to in *. pose proof (zlen_nonneg resp).
  destruct (begin_refines _ kdc_variant_ok (ks_lookaside st) r (mo_now t) Hok) as [Hok1 Ha1].
  assert (Hh : holds (abs (begin kdc_variant (ks_lookaside st) r (mo_now t)).2) (mkA r None (mo_now t)) (n + rlen (Some resp))).
  { replace (abs (begin kdc_variant (ks_lookaside st) r (mo_now t)).2) with (a_begin kdc_variant (abs (ks_lookaside st)) r (mo_now t)).2 by (by rewrite Ha1).
    apply begin_miss_holds; [by rewrite Ha1, Hmiss|by apply ok_requests_nodup|done|cbn; lia|]. cbn [abs a_extra a_max rlen]. lia. }
  destruct (begin _ _ _ _) as [o cache] eqn:Hb. cbn [fst snd] in *. subst o. pose proof (handler_lookaside r t (with_lookaside st cache)) as Hl.
  destruct (handleMessage r t (with_lookaside st cache)) as [answer st']. cbn [fst snd] in *. subst answer. injection Hd as _ <-. rewrite Hl.
  cbn [ks_lookaside with_lookaside]. destruct (complete_refines _ kdc_variant_ok cache r (Some resp) (mo_now t) Hok1) as [Hok2 Ha2].
  split; [done|]. cbn [ks_lookaside with_lookaside]. rewrite <- Ha2.
  apply (complete_holds kdc_variant _ (mkA r None (mo_now t))); [lia|done|done|by destruct resp|]. cbn. apply Z.ltb_lt.
  assert (0 < kdcLookasideStaleTime) by done. lia.
Qed.


Lemma dispatch_miss r tcp t st resp :
  (begin kdc_variant (ks_lookaside st) r (mo_now t)).1 = (None, false) → reply_to r t st = Some resp →
  dispatchWithRemote r tcp t st = (Some (limitDatagramReply t resp tcp), (dispatchWithRemote r tcp t st).2).
Proof.
  intros Hm Hr. unfold dispatchWithRemote, reply_to in *. destruct (begin kdc_variant (ks_lookaside st) r (mo_now t)) as [o cache]. cbn [fst snd] in *. subst o.
  destruct (handleMessage r t (with_lookaside st cache)) as [answer st1]. cbn [fst] in Hr. by subst answer.
Qed.
End server.

Module ServerExample.
#[local] Existing Instance toy_crypto.
#[local] Existing Instance SpakeExample.toy_groups.

Definition at_second (n : Z) : moment := mkMoment (n * second) (n * second) (λ _ n, Ok (zeros n)) [].
Definition start : kdc_state Database := mkKdcState (mkState AsExample.database []) ∅ newLookasideCache.
Definition message : bytes := marshalDER (H := as_req_der) AsExample.request.
#[local] Abbreviation dispatched := (dispatchWithRemote false AsExample.server id (λ _ _, []) (λ _, []) (λ _ _ _, None) None (λ p, p) no_pac_hooks [] no_otp no_pkinit).
#[local] Abbreviation answer := (reply_to false AsExample.server id (λ _ _, []) (λ _, []) (λ _ _ _, None) None (λ p, p) no_pac_hooks [] no_otp no_pkinit message (at_second 5) start).
#[local] Abbreviation after := (serve false AsExample.server id (λ _ _, []) (λ _, []) (λ _ _ _, None) None (λ p, p) no_pac_hooks [] no_otp no_pkinit
  [(str "x", false, at_second 6)] (dispatched message true (at_second 5) start).2).

Lemma other_length (a b : bytes) : (length a =? length b)%nat = false → a ≠ b.
Proof. intros Hl ->. by rewrite Nat.eqb_refl in Hl. Qed.
Lemma both_answered {X} (a : option bytes) (b : option (Z * X)) k :
  match a, b with Some (x :: resp), Some (n, _) => k + zlen (x :: resp) + n <=? kdcLookasideMaxSize | _, _ => false end = true →
  ∃ resp n st2, a = Some resp ∧ resp ≠ [] ∧ b = Some (n, st2) ∧ k + zlen resp + n <= kdcLookasideMaxSize.
Proof. destruct a as [[|x resp]|], b as [[n st2]|]; try done. intros Hr%Z.leb_le. by exists (x :: resp), n, st2. Qed.
Lemma answered : ∃ resp n st2, answer = Some resp ∧ resp ≠ [] ∧ after = Some (n, st2) ∧ zlen message + zlen resp + n <= kdcLookasideMaxSize.
Proof. apply both_answered. vm_compute. reflexivity. Qed.

End ServerExample.
