(* ===== verification/Fast.v ===== *)
(** * The client side of FAST (src/krb5/fast/fast.go)

    The armor a client makes of a ticket-granting ticket, the requests it wraps
    and the replies it unwraps.  Random bytes are arguments. *)

From S2P Require Import Prelude Principal Crypto Protocol Asn1 Wire Cammac KdcPolicy KdcCommon.
Local Open Scope Z_scope.

Definition fast_ArmorTypeAPReq : Z := 1.

Record TGT := mkTGT { tgt_Ticket : bytes; tgt_Client : Principal; tgt_Key : EncryptionKey }.
(** The fields EType, Key and APReq of [Armor]; a nil type is None. *)
Record Armor := mkArmor { am_EType : option EType; am_Key : bytes; am_APReq : bytes }.
Record Reply := mkReply {
  fp_PAData : MethodData; fp_StrengthenKey : option EncryptionKey; fp_Finished : option KrbFastFinished; fp_Nonce : Z }.

Definition principalProtocol (value : Principal) : PrincipalName := mkPName (NameType value) (Components value).

(** [ChecksumType]: the mandatory checksum of an encryption type, 0 if there is none. *)
Definition fast_ChecksumType (id : Z) : Z :=
  if id =? EnctypeAES128SHA1 then ChecksumHMACSHA196AES128
  else if id =? EnctypeAES256SHA1 then ChecksumHMACSHA196AES256
  else if id =? EnctypeAES128SHA256 then ChecksumHMACSHA256128AES128
  else if id =? EnctypeAES256SHA384 then ChecksumHMACSHA384192AES256
  else if id =? EnctypeCamellia128 then ChecksumCMACCamellia128
  else if id =? EnctypeCamellia256 then ChecksumCMACCamellia256
  else 0.

Section fast.
Context `{GoCrypto} (fips : bool).

(** [NewArmor]; [subkey n] are the [n] bytes of the subkey, [conf] the confounder. *)
Definition NewArmor (tgt : TGT) (now : Z) (subkey : nat → res bytes) (conf : res bytes) : res Armor :=
  let key := KeyValue (tgt_Key tgt) in
  let kind := KeyType (tgt_Key tgt) in
  if (zlen (tgt_Ticket tgt) =? 0) || (zlen key =? 0) then Err "FAST armor: incomplete TGT"
  else
    res_bind (wrap_err "FAST armor: " (Registry_Get fips kind)) (λ etype,
    if negb (length key =? etype_KeySize etype)%nat then Err "FAST armor: invalid TGT key"
    else
      res_bind (wrap_err "FAST armor ticket: " (Unmarshal (tgt_Ticket tgt) : res Ticket)) (λ ticket,
      res_bind (wrap_err "FAST armor subkey: " (subkey (etype_KeySize etype))) (λ subkeyValue,
      let usec := nanosecond now / 1000 in
      res_bind (wrap_err "FAST armor authenticator: " (Marshal (mkAuthenticator 5 (Realm (tgt_Client tgt)) (principalProtocol (tgt_Client tgt))
                  None usec (mkKTime now usec true) (Some (mkEKey kind subkeyValue)) None []))) (λ authenticator,
      res_bind (wrap_err "FAST armor authenticator encryption: " (etype_Encrypt etype conf key 11 authenticator)) (λ encrypted,
      res_bind (wrap_err "FAST armor AP-REQ: " (Marshal (mkAPReq 5 14 0 ticket (mkEnc kind None encrypted)))) (λ apReq,
      res_bind (wrap_err "FAST armor key: " (CF2 (Some etype) subkeyValue key (str "subkeyarmor") (str "ticketarmor"))) (λ armorKey,
      Ok (mkArmor (Some etype) armorKey apReq)))))))).

(** [NewTGSArmor]: the armor implied by the subkey of a TGS authenticator. *)
Definition NewTGSArmor (tgt : TGT) (subkey : EncryptionKey) : res Armor :=
  let key := KeyValue (tgt_Key tgt) in
  if (zlen key =? 0) || (zlen (KeyValue subkey) =? 0) then Err "FAST TGS armor: incomplete key"
  else if negb (KeyType (tgt_Key tgt) =? KeyType subkey) then Err "FAST TGS armor: enctype mismatch"
  else
    res_bind (wrap_err "FAST TGS armor: " (Registry_Get fips (KeyType (tgt_Key tgt)))) (λ etype,
    if negb (length key =? etype_KeySize etype)%nat || negb (length (KeyValue subkey) =? etype_KeySize etype)%nat
    then Err "FAST TGS armor: invalid key"
    else
      res_bind (wrap_err "FAST TGS armor key: " (CF2 (Some etype) (KeyValue subkey) key (str "subkeyarmor") (str "ticketarmor")))
        (λ armorKey, Ok (mkArmor (Some etype) armorKey []))).

(** The padata of a wrapped request; [checksummed] is what its checksum covers. *)
Definition wrap_request (label : string) (armor : Armor) (etype : EType) (carried : option KrbFastArmor) (body : KDCReqBody) (inner : MethodData)
    (checksummed : bytes) (conf : res bytes) : res PAData :=
  res_bind (wrap_err (label ++ ": ")%string (Marshal (mkFastReq 0 inner body))) (λ innerDER,
  res_bind (wrap_err (label ++ " encryption: ")%string (etype_Encrypt etype conf (am_Key armor) UsageReq innerDER)) (λ cipher,
  res_bind (wrap_err (label ++ " checksum: ")%string (Checksum etype (am_Key armor) UsageReqChecksum checksummed)) (λ checksum,
  res_bind (wrap_err (label ++ " armor: ")%string (Marshal (mkFXRequest (mkArmored carried
              (mkCksum (fast_ChecksumType (etype_ID etype)) checksum) (mkEnc (etype_ID etype) None cipher))))) (λ armored,
  Ok (mkPA PAFXFast armored))))).
Definition WrapASReq (armor : Armor) (body : KDCReqBody) (inner : MethodData) (conf : res bytes) : res PAData :=
  match am_EType armor with
  | Some etype =>
      if (zlen (am_Key armor) =? 0) || (zlen (am_APReq armor) =? 0) then Err "FAST request: incomplete armor"
      else
        res_bind (wrap_err "FAST request body: " (Marshal body)) (λ bodyDER,
        wrap_request "FAST request" armor etype (Some (mkFArmor fast_ArmorTypeAPReq (am_APReq armor))) body inner bodyDER conf)
  | None => Err "FAST request: incomplete armor"
  end.
Definition WrapTGSReq (armor : Armor) (body : KDCReqBody) (inner : MethodData) (checksummedData : bytes) (conf : res bytes) : res PAData :=
  match am_EType armor with
  | Some etype =>
      if zlen (am_Key armor) =? 0 then Err "FAST TGS request: incomplete armor"
      else if zlen checksummedData =? 0 then Err "FAST TGS request: missing checksum data"
      else wrap_request "FAST TGS request" armor etype None body inner checksummedData conf
  | None => Err "FAST TGS request: incomplete armor"
  end.

(** [UnwrapReply]. *)
Definition UnwrapReply (armor : Armor) (padata : MethodData) (ticket : bytes) (nonce : Z) : res Reply :=
  match am_EType armor with
  | Some etype =>
      if zlen (am_Key armor) =? 0 then Err "FAST reply: incomplete armor"
      else
        let value := match findPA padata PAFXFast with Some pa => PADataValue pa | None => [] end in
        if zlen value =? 0 then Err "FAST reply: missing PA-FX-FAST"
        else
          res_bind (wrap_err "FAST reply armor: " (Unmarshal value : res PAFXFastReply)) (λ wrapper,
          let encrypted := ar_EncFastRep (ArmoredRep wrapper) in
          if negb (ed_EType encrypted =? etype_ID etype) then Err "FAST reply enctype: unsupported kerberos encryption type"
          else
            res_bind (wrap_err "FAST reply decrypt: " (etype_Decrypt etype (am_Key armor) UsageRep (ed_Cipher encrypted))) (λ plaintext,
            res_bind (wrap_err "FAST response: " (Unmarshal plaintext : res KrbFastResponse)) (λ response,
            if negb (fs_Nonce response =? nonce) then Err "FAST reply: nonce mismatch"
            else
              res_bind (match fs_Finished response with
                        | None => if 0 <? zlen ticket then Err "FAST reply: missing finished message" else Ok tt
                        | Some finished =>
                            wrap_err "FAST reply finished: "
                              (VerifyChecksum etype (am_Key armor) UsageFinished ticket (cksum (ff_TicketChecksum finished)))
                        end) (λ _,
              Ok (mkReply (fs_PAData response) (fs_StrengthenKey response) (fs_Finished response) (fs_Nonce response))))))
  | None => Err "FAST reply: incomplete armor"
  end.

(** [ReplyKey]. *)
Definition ReplyKey (armor : Armor) (reply : EncryptionKey) (strengthen : option EncryptionKey) : res EncryptionKey :=
  match strengthen with
  | None => Ok reply
  | Some strengthen =>
      match am_EType armor with
      | None => Panic
      | Some etype =>
          if negb (KeyType strengthen =? etype_ID etype) then Err "FAST reply: strengthen key enctype mismatch"
          else
            res_bind (wrap_err "FAST reply key enctype: " (Registry_Get fips (KeyType reply))) (λ replyEType,
            res_bind (wrap_err "FAST reply key: " (CF2WithKeyEType (Some etype) (KeyValue strengthen) (Some replyEType) (KeyValue reply)
                        (str "strengthenkey") (str "replykey"))) (λ key,
            Ok (mkEKey (etype_ID etype) key)))
      end
  end.
End fast.
