(* ===== verification/ClientAs.v ===== *)
(** * The client's AS exchanges (src/krb5/client/as.go, client.go)

    The requests the client builds, the replies it accepts, and the exchanges:
    with a password or a keytab entry, for the ticket-granting service or another
    one, with SPAKE, encrypted time stamps, FAST and one-time passwords, and with
    pre-authentication modules of the application.

    The transport is the function [Exchange], which runs on a state of its own: the
    hook of that name, or the network.  What is read of the configuration is in
    [ClientConfig].  The clock and the random bytes are arguments; [draw i n] are
    the [n] bytes of the [i]-th read. *)

From S2P Require Import Prelude Principal GoStrings Crypto Protocol Asn1 Wire Cammac KdcPolicy KdcCommon Spake Preauth KdcPreauth Fast.
Local Open Scope Z_scope.

Declare Scope client_scope.
Delimit Scope client_scope with client.

(** ** Errors and the network *)

(** The errors returned: a KRB-ERROR of the KDC, or another one. *)
Inductive client_error := CKrb (e : KRBError) | CErr (message : string) | CPanic.
Definition of_res {A} (r : res A) : client_error + A :=
  match r with Ok a => inr a | Err e => inl (CErr e) | Panic => inl CPanic end.

Definition NE (W A : Type) : Type := W → (client_error + A) * W.
Section ne.
Context {W : Type}.
Definition n_ret {A} (a : A) : NE W A := λ w, (inr a, w).
Definition n_fail {A} (e : client_error) : NE W A := λ w, (inl e, w).
Definition n_res {A} (r : res A) : NE W A := λ w, (of_res r, w).
Definition n_bind {A B} (c : NE W A) (k : A → NE W B) : NE W B :=
  λ w, match c w with (inr a, w') => k a w' | (inl e, w') => (inl e, w') end.
Definition n_require (b : bool) (message : string) : NE W unit := if b then n_ret tt else n_fail (CErr message).
End ne.
Notation "'doN' x ':=' c 'in' k" := (n_bind c (λ x, k)) (at level 10, x name, c at level 100, k at level 200) : client_scope.
Notation "'doN' '_' ':=' c 'in' k" := (n_bind c (λ _, k)) (at level 10, c at level 100, k at level 200) : client_scope.
Notation "'doN' ' p ':=' c 'in' k" := (n_bind c (λ x, match x with p => k end))
  (at level 10, p pattern, c at level 100, k at level 200) : client_scope.
Local Open Scope client_scope.

(** ** The client *)

(** What is read of the configuration: the fields, and the values of the
    options that depend on the realm ([defaultKDCOptions], [requestAddresses] and
    the preferred types of [sortPreferredPadata]). *)
Record ClientConfig := mkConfig {
  cf_TicketLifetime : Z;
  cf_Forwardable : bool;
  cf_Canonicalize : bool;
  cf_DefaultTKTEnctypes : list Z;
  cf_PermittedEnctypes : list Z;
  cf_ClockSkew : Z;
  cf_defaultKDCOptions : bytes → Z;
  cf_requestAddresses : bytes → HostAddresses;
  cf_preferredPreauthTypes : bytes → list Z;
}.

(** [ClientRequestContext], with the state [X] that the modules keep in it. *)
Record ClientRequestContext := mkClientContext {
  cc_Client : Principal;
  cc_Request : KDCReq;
  cc_RequestBody : bytes;
  cc_EType : Z;
  cc_ArmorKey : option EncryptionKey;
  cc_ASKey : EncryptionKey;
  cc_HasASKey : bool;
}.
Record ClientPreauthModule (X : Type) := mkClientModule {
  cm_PATypes : list Z;
  cm_Flags : Z → Z;
  cm_Process : ClientRequestContext * X → PAData → KRBError → res MethodData * (ClientRequestContext * X);
}.
Arguments mkClientModule {X}.
Arguments cm_PATypes {X}.
Arguments cm_Flags {X}.
Arguments cm_Process {X}.

Record Client (X : Type) := mkClient {
  c_Config : option ClientConfig;
  c_SPAKEGroups : list Z;
  c_Canonicalize : bool;
  c_PreauthModules : list (ClientPreauthModule X);
}.
Arguments mkClient {X}.
Arguments c_Config {X}.
Arguments c_SPAKEGroups {X}.
Arguments c_Canonicalize {X}.
Arguments c_PreauthModules {X}.

(** [Credentials], without the fields an AS exchange leaves empty. *)
Record Credentials := mkCredentials {
  cr_Client : Principal;
  cr_Server : Principal;
  cr_Key : EncryptionKey;
  cr_Flags : Z;
  cr_AuthTime : KerberosTime;
  cr_StartTime : option KerberosTime;
  cr_EndTime : KerberosTime;
  cr_RenewTill : option KerberosTime;
  cr_Ticket : bytes;
}.

Definition defaultRequestEnctypes : list Z :=
  [EnctypeAES256SHA1; EnctypeAES128SHA1; EnctypeAES256SHA384; EnctypeAES128SHA256; EnctypeCamellia128; EnctypeCamellia256].
Definition randomNonce (value : bytes) : Z := Z.land (be_value value) 0x7fffffff.
Definition client_protocolPrincipal (value : Principal) : PrincipalName := mkPName (NameType value) (Components value).
Definition samePrincipal (value : PrincipalName) (expected : Principal) : bool :=
  (NameType_ value =? NameType expected) && bool_decide (NameString value = Components expected).
Definition krbtgt_of (realm : bytes) : Principal := mkPrincipal realm NTSrvInstance [krbtgt; realm].
Definition decodeKRBError (data : bytes) : option KRBError :=
  match (Unmarshal data : res KRBError) with Ok e => Some e | _ => None end.
Definition validTimes (auth : KerberosTime) (start : option KerberosTime) (end_ : KerberosTime) (now skew : Z) : bool :=
  let startTime := match start with Some t => if Present t then Time t else Time auth | None => Time auth end in
  Present auth && Present end_ && negb (now + skew <? startTime) && negb (Time end_ <? now - skew).
Definition errorMethodData (e : KRBError) : MethodData :=
  if zlen (err_EData e) =? 0 then [] else match Unmarshal (err_EData e) with Ok data => data | _ => [] end.

(** The first element of a type moves to the end of the sorted prefix. *)
Fixpoint take_first (kind : Z) (data : MethodData) : option (PAData * MethodData) :=
  match data with
  | [] => None
  | pa :: data => if PADataType pa =? kind then Some (pa, data)
                  else match take_first kind data with Some (found, rest) => Some (found, pa :: rest) | None => None end
  end.
Fixpoint sort_padata (preferred : list Z) (data : MethodData) : MethodData :=
  match preferred with
  | [] => data
  | kind :: preferred => match take_first kind data with
                         | Some (found, rest) => found :: sort_padata preferred rest
                         | None => sort_padata preferred data
                         end
  end.

Definition PAInfo : Z := 2.
Definition clientBuiltinPAType (typ : Z) : bool :=
  bool_decide (typ ∈ [PADataEncryptedTimestamp; PADataEncryptedChallenge; PADataSPAKE; PADataRequest; PADataPKASReq]).
Definition appendClientPreauthCookie (data methodData : MethodData) : MethodData :=
  match FindPAData methodData PADataCookie with Some cookie => data ++ [cookie] | None => data end.

Section client.
Context `{GoCrypto} `{SpakeGroups} (fips : bool) {X : Type} (x0 : X) (c : Client X).

Definition canonicalizeEnabled : bool := c_Canonicalize c || match c_Config c with Some cfg => cf_Canonicalize cfg | None => false end.
Definition clockSkew : Z :=
  match c_Config c with Some cfg => if 0 <? cf_ClockSkew cfg then cf_ClockSkew cfg else 5 * minute | None => 5 * minute end.
Definition supportedRequestEnctypes (candidates : list Z) : list Z := filter (λ candidate, is_ok (Registry_Get fips candidate) = true) candidates.
Definition asRequestEnctypes : list Z :=
  supportedRequestEnctypes
    match c_Config c with
    | Some cfg => match cf_DefaultTKTEnctypes cfg, cf_PermittedEnctypes cfg with
                  | [], [] => defaultRequestEnctypes
                  | [], permitted => permitted
                  | defaults, _ => defaults
                  end
    | None => defaultRequestEnctypes
    end.
Definition sortPreferredPadata (realm : bytes) (data : MethodData) : MethodData :=
  let preferred := match c_Config c with Some cfg => cf_preferredPreauthTypes cfg realm | None => [] end in
  sort_padata (match preferred with [] => [17; 16; 15; 14] | _ => preferred end) data.
Definition offered_groups : list Z := match c_SPAKEGroups c with [] => [GroupEdwards25519] | groups => groups end.

(** ** Requests *)

Definition newASReqForService (clientPrincipal service : Principal) (now : Z) (random : res bytes) : res KDCReq :=
  res_bind (wrap_err "AS exchange nonce: " random) (λ nonceBytes,
  let lifetime := match c_Config c with Some cfg => if 0 <? cf_TicketLifetime cfg then cf_TicketLifetime cfg else 10 * hour | None => 10 * hour end in
  let forwardable := match c_Config c with Some cfg => cf_Forwardable cfg | None => true end in
  let realm := Realm clientPrincipal in
  let options := with_flags KDCRenewableOK (match c_Config c with Some cfg => cf_defaultKDCOptions cfg realm | None => 0 end) in
  let options := if forwardable then with_flags options KDCForwardable else options in
  let options := if canonicalizeEnabled then with_flags options KDCCanonicalize else options in
  let addresses := match c_Config c with Some cfg => cf_requestAddresses cfg realm | None => [] end in
  Ok (mkReq 5 10 [] (mkBody options (Some (client_protocolPrincipal clientPrincipal)) (Realm service)
        (Some (mkPName (NameType service) (Components service))) None (at_time (now + lifetime)) None (randomNonce nonceBytes)
        asRequestEnctypes addresses None []))).
Definition newASReq (clientPrincipal : Principal) (now : Z) (random : res bytes) : res KDCReq :=
  newASReqForService clientPrincipal (krbtgt_of (Realm clientPrincipal)) now random.
Definition with_padata (request : KDCReq) (data : MethodData) : KDCReq := mkReq (r_PVNO request) (r_MsgType request) data (r_ReqBody request).

(** The first encryption type of the request that is supported. *)
Definition initial_etype (etypes : list Z) : option (Z * EType) :=
  head (omap (λ id, match Registry_Get fips id with Ok etype => Some (id, etype) | _ => None end) etypes).

(** ** Replies *)

(** A reply part of either kind is read as that of the AS exchange. *)
Definition as_part_tag (data : bytes) : bytes :=
  match data with b :: rest => if bytes_eqb [b] [z2b 0x7a] then z2b 0x79 :: rest else data | [] => [] end.

(** [decodeASRepForService]. *)
Definition decodeASRepForService (data : bytes) (clientPrincipal service : Principal) (nonce etypeID : Z) (key : bytes) (now : Z)
    : client_error + Credentials :=
  let data := as_part_tag data in
  match (Unmarshal (Der := as_rep_der) data : res KDCRep) with
  | Panic => inl CPanic
  | Err e => match decodeKRBError data with Some e => inl (CKrb e) | None => of_res (wrap_err "AS exchange AS-REP: " (Err e)) end
  | Ok reply =>
      of_res
        (if negb (rep_MsgType reply =? 11) then Err "AS exchange: unexpected message type"
         else
           let anonymousReply := (NameType clientPrincipal =? NTWellKnown) &&
             bool_decide (Components clientPrincipal = [str "WELLKNOWN"; str "ANONYMOUS"]) &&
             bytes_eqb (rep_CRealm reply) (str "WELLKNOWN:ANONYMOUS") in
           if (negb (bytes_eqb (rep_CRealm reply) (Realm clientPrincipal)) && negb anonymousReply) ||
              (negb (samePrincipal (rep_CName reply) clientPrincipal) && negb canonicalizeEnabled)
           then Err "AS exchange: AS-REP client principal mismatch"
           else if negb (ed_EType (rep_EncPart reply) =? etypeID) then Err "AS exchange AS-REP enctype: unsupported kerberos encryption type"
           else
             res_bind (Registry_Get fips (ed_EType (rep_EncPart reply))) (λ etype,
             res_bind (wrap_err "AS exchange decrypt AS-REP: " (etype_Decrypt etype key 3 (ed_Cipher (rep_EncPart reply)))) (λ plaintext,
             res_bind (wrap_err "AS exchange EncASRepPart: " (Unmarshal (Der := enc_as_rep_part_der) (as_part_tag plaintext))) (λ part,
             let ticket := rep_Ticket reply in
             if negb (ep_Nonce part =? nonce) then Err "AS exchange: AS-REP nonce mismatch"
             else if negb (bytes_eqb (t_Realm ticket) (Realm service)) || negb (samePrincipal (t_SName ticket) service) ||
                     negb (bytes_eqb (ep_SRealm part) (Realm service)) || negb (samePrincipal (ep_SName part) service)
             then Err "AS exchange: invalid ticket server principal"
             else if negb (validTimes (ep_AuthTime part) (ep_StartTime part) (ep_EndTime part) now clockSkew)
             then Err "AS exchange: kerberos clock skew"
             else
               res_bind (wrap_err "AS exchange ticket: " (Marshal ticket)) (λ ticketDER,
               Ok (mkCredentials (mkPrincipal (rep_CRealm reply) (NameType_ (rep_CName reply)) (NameString (rep_CName reply)))
                     (mkPrincipal (t_Realm ticket) (NameType_ (t_SName ticket)) (NameString (t_SName ticket)))
                     (ep_Key part) (ep_Flags part) (ep_AuthTime part) (ep_StartTime part) (ep_EndTime part) (ep_RenewTill part) ticketDER))))))
  end.
Definition decodeASRep (data : bytes) (clientPrincipal : Principal) (nonce etypeID : Z) (key : bytes) (now : Z) : client_error + Credentials :=
  decodeASRepForService data clientPrincipal (krbtgt_of (Realm clientPrincipal)) nonce etypeID key now.

(** [decodeFASTASRep]: the reply under the armor, with the names of its
    authenticated part in the place of those in the clear. *)
Definition decodeFASTASRep (data : bytes) (clientPrincipal : Principal) (nonce etypeID : Z) (key : bytes) (armor : Armor) (now : Z)
    : client_error + Credentials :=
  match (Unmarshal (Der := as_rep_der) data : res KDCRep) with
  | Panic => inl CPanic
  | Err e => match decodeKRBError data with Some e => inl (CKrb e) | None => of_res (wrap_err "FAST AS exchange AS-REP: " (Err e)) end
  | Ok reply =>
      match
        res_bind (wrap_err "FAST AS exchange ticket: " (Marshal (rep_Ticket reply))) (λ ticket,
        res_bind (UnwrapReply armor (rep_PAData reply) ticket nonce) (λ fastReply,
        res_bind (match FindPAData (fp_PAData fastReply) PADataEncryptedChallenge with
                  | None => Ok tt
                  | Some challengePA =>
                      res_bind (Registry_Get fips etypeID) (λ clientEType,
                      wrap_err "FAST AS exchange encrypted challenge: "
                        (VerifyEncryptedChallengeReplyWithKeyEType (am_EType armor) (am_Key armor) (Some clientEType) key (PADataValue challengePA)))
                  end) (λ _,
        res_bind (ReplyKey fips armor (mkEKey etypeID key) (fp_StrengthenKey fastReply)) (λ replyKey,
        match fp_Finished fastReply with
        | None => Ok (data, clientPrincipal, replyKey)
        | Some finished =>
            let name := mkPrincipal (ff_CRealm finished) (NameType_ (ff_CName finished)) (NameString (ff_CName finished)) in
            res_bind (wrap_err "FAST AS exchange reply: " (Marshal (Der := as_rep_der)
              (mkRep (rep_PVNO reply) (rep_MsgType reply) (rep_PAData reply) (ff_CRealm finished) (ff_CName finished)
                 (rep_Ticket reply) (rep_EncPart reply)))) (λ data,
            Ok (data, name, replyKey))
        end))))
      with
      | Ok (data, name, replyKey) => decodeASRep data name nonce (KeyType replyKey) (KeyValue replyKey) now
      | Err e => inl (CErr e)
      | Panic => inl CPanic
      end
  end.

(** ** Modules *)

(** One phase: the modules that claim an element, those that only give
    information first; an answer of the others ends the search. *)
Definition module_run (infoPhase : bool) (state : ClientRequestContext * X) (answers : MethodData) (pa : PAData)
    (m : ClientPreauthModule X) (previous : KRBError) : res (option EncryptionKey * MethodData) * (ClientRequestContext * X) :=
  if negb (bool_decide (PADataType pa ∈ cm_PATypes m)) ||
     negb (Bool.eqb (negb (Z.land (cm_Flags m (PADataType pa)) PAInfo =? 0)) infoPhase)
  then (Ok (None, answers), state)
  else
    let '(result, state) := cm_Process m state pa previous in
    match result with
    | Err e => (Err e, state)
    | Panic => (Panic, state)
    | Ok result =>
        if negb infoPhase && (0 <? zlen result) then
          (if cc_HasASKey (fst state) then Ok (Some (cc_ASKey (fst state)), answers ++ result) else Err "preauth: AS key is unavailable", state)
        else (Ok (None, answers ++ result), state)
    end.
Fixpoint modules_loop (steps : list (bool * PAData * ClientPreauthModule X)) (state : ClientRequestContext * X) (answers : MethodData)
    (previous : KRBError) : res (option EncryptionKey * MethodData) * (ClientRequestContext * X) :=
  match steps with
  | [] => (Ok (None, answers), state)
  | (infoPhase, pa, m) :: steps =>
      let '(result, state) := module_run infoPhase state answers pa m previous in
      match result with
      | Ok (None, answers) => modules_loop steps state answers previous
      | _ => (result, state)
      end
  end.
(** [processClientPreauthModules]: the answers, whether they complete the
    exchange, and the key to go on with. *)
Definition processClientPreauthModules (request : KDCReq) (methodData : MethodData) (clientPrincipal : Principal) (etypeID : Z) (key : bytes)
    (armorKey : option EncryptionKey) (previous : KRBError) : res (MethodData * bool * EncryptionKey) :=
  match c_PreauthModules c with
  | [] => Ok ([], false, mkEKey etypeID key)
  | modules =>
      res_bind (wrap_err "marshal request body: " (Marshal (r_ReqBody request))) (λ bodyDER,
      let context := mkClientContext clientPrincipal request bodyDER etypeID armorKey (mkEKey etypeID key) true in
      let steps := [true; false] ≫= λ infoPhase,
        filter (λ pa, clientBuiltinPAType (PADataType pa) = false) methodData ≫= λ pa, (λ m, (infoPhase, pa, m)) <$> modules in
      let '(result, state) := modules_loop steps (context, x0) [] previous in
      res_bind result (λ '(updated, answers),
      match updated with
      | Some key => Ok (answers, true, key)
      | None => Ok (answers, false, cc_ASKey (fst state))
      end))
  end.

(** ** Exchanges *)

Section exchanges.
Context {W : Type} (Exchange : bytes → bytes → W → res bytes * W).
Context (now : Z) (draw : nat → nat → res bytes).

Definition roundTrip (realm : bytes) (request : KDCReq) : NE W bytes :=
  doN payload := n_res (wrap_err "AS exchange request: " (Marshal (Der := as_req_der) request)) in
  λ w, let '(response, w) := Exchange realm payload w in (of_res (wrap_err "AS exchange transport: " response), w).
Definition answer (r : client_error + Credentials) : NE W Credentials := λ w, (r, w).

(** The label is that of the exchange in the messages. *)
Definition string_to_key (label : string) (etype : EType) (password salt params : bytes) : res bytes :=
  wrap_err (label ++ " string-to-key: ")%string (StringToKey etype password salt params).
Definition default_salt (clientPrincipal : Principal) : bytes := Realm clientPrincipal ++ strings_join [] (Components clientPrincipal).
Definition valid_client (clientPrincipal : Principal) : bool :=
  negb (zlen (Realm clientPrincipal) =? 0) && negb (zlen (Components clientPrincipal) =? 0).

(** What the client learns of the error that asks for pre-authentication. *)
Definition preauth_data (label : string) (clientPrincipal : Principal) (e : KRBError) : res MethodData :=
  res_bind (wrap_err (label ++ " preauthentication: ")%string (ParseMethodData (err_EData e))) (λ methodData,
  Ok (sortPreferredPadata (Realm clientPrincipal) methodData)).

(** The time stamp, after what the modules answered. *)
Definition with_timestamp (clientPrincipal service : Principal) (request : KDCReq) (modulePA : MethodData) (etypeID : Z) (etype : EType)
    (key : bytes) : NE W Credentials :=
  doN timestamp := n_res (BuildEncryptedTimestamp (Some etype) key now 0 (draw 1%nat 16%nat)) in
  let request := with_padata request (timestamp :: modulePA) in
  doN response := roundTrip (Realm clientPrincipal) request in
  answer (decodeASRepForService response clientPrincipal service (b_Nonce (r_ReqBody request)) etypeID key now).

(** The answer to a SPAKE challenge. *)
Definition with_spake (clientPrincipal : Principal) (request : KDCReq) (support : bytes) (methodData modulePA : MethodData) (challengePA : PAData)
    (challenge : SPAKEChallenge) (etype : EType) (key : bytes) : NE W Credentials :=
  let group := sc_Group challenge in
  doN _ := n_require (existsb (λ factor, sf_Type factor =? FactorNone) (sc_Factors challenge)) "AS exchange SPAKE: challenge has no supported factor" in
  doN _ := n_require (bool_decide (group ∈ offered_groups)) "AS exchange SPAKE: challenge group was not offered" in
  doN w := n_res (DeriveW (Some etype) key group) in
  doN '(private, public) := n_res (Keygen group w false (draw 2%nat)) in
  doN result := n_res (Result group w private (sc_PubKey challenge) true) in
  let transcript := TranscriptForGroup group (TranscriptForGroup group [] support (PADataValue challengePA)) public [] in
  doN bodyDER := n_res (Marshal (r_ReqBody request)) in
  doN k0 := n_res (DeriveKey (Some etype) key w result transcript bodyDER group 0) in
  doN k1 := n_res (DeriveKey (Some etype) key w result transcript bodyDER group 1) in
  doN factorDER := n_res EncodeFactor in
  doN factorCipher := n_res (etype_Encrypt etype (draw 3%nat 16%nat) k1 spake_KeyUsage factorDER) in
  doN responseDER := n_res (EncodeResponse public factorCipher (etype_ID etype)) in
  let request := with_padata request (appendClientPreauthCookie (mkPA PADataSPAKE responseDER :: modulePA) methodData) in
  doN response := roundTrip (Realm clientPrincipal) request in
  answer (decodeASRep response clientPrincipal (b_Nonce (r_ReqBody request)) (etype_ID etype) k0 now).

(** [ASExchange]. *)
Definition ASExchange (clientPrincipal : Principal) (password : bytes) : NE W Credentials :=
  doN _ := n_require (valid_client clientPrincipal) "AS exchange: invalid client principal" in
  doN request := n_res (newASReq clientPrincipal now (draw 0%nat 4%nat)) in
  doN '(initialETypeID, initialEType) :=
    n_res (match initial_etype (b_EType (r_ReqBody request)) with Some e => Ok e | None => Err "AS exchange: unsupported kerberos encryption type" end) in
  doN initialKey := n_res (string_to_key "AS exchange" initialEType password (default_salt clientPrincipal) []) in
  doN support := n_res (EncodeSupport offered_groups) in
  let request := with_padata request [mkPA PADataSPAKE support] in
  let realm := Realm clientPrincipal in
  let nonce := b_Nonce (r_ReqBody request) in
  doN response := roundTrip realm request in
  match decodeKRBError response with
  | None => answer (decodeASRep response clientPrincipal nonce initialETypeID initialKey now)
  | Some e =>
      if negb (err_ErrorCode e =? 25) && negb (err_ErrorCode e =? 91) then n_fail (CKrb e)
      else
        doN methodData := n_res (preauth_data "AS exchange" clientPrincipal e) in
        doN '(etypeID, salt, params) := n_res (SelectEType fips methodData realm clientPrincipal asRequestEnctypes) in
        doN etype := n_res (Registry_Get fips etypeID) in
        doN key := n_res (string_to_key "AS exchange" etype password salt params) in
        doN '(modulePA, handled, updatedKey) := n_res (wrap_err "AS exchange module preauthentication: "
          (processClientPreauthModules request methodData clientPrincipal etypeID key None e)) in
        if (handled : bool) then
          doN response := roundTrip realm (with_padata request (appendClientPreauthCookie modulePA methodData)) in
          answer (decodeASRep response clientPrincipal nonce (KeyType updatedKey) (KeyValue updatedKey) now)
        else
          let etypeID := KeyType updatedKey in
          doN etype := n_res (Registry_Get fips etypeID) in
          let key := KeyValue updatedKey in
          let fallback := with_timestamp clientPrincipal (krbtgt_of realm) request modulePA etypeID etype key in
          match FindPAData methodData PADataSPAKE with
          | None => fallback
          | Some challengePA =>
              if zlen (PADataValue challengePA) =? 0 then fallback
              else
                doN msg := n_res (wrap_err "AS exchange SPAKE challenge: " (spake_Decode (PADataValue challengePA))) in
                match sp_Challenge msg with
                | None => fallback
                | Some challenge => with_spake clientPrincipal request support methodData modulePA challengePA challenge etype key
                end
          end
  end.

(** [asExchangeServiceOnceWithKey]; [entry] is the type and the key of a keytab
    entry. *)
Definition asExchangeServiceOnceWithKey (clientPrincipal : Principal) (entry : option (Z * bytes)) (service : Principal) (password : bytes)
    : NE W Credentials :=
  doN _ := n_require (valid_client clientPrincipal) "AS service exchange: invalid client principal" in
  let service := if NameType service =? 0 then mkPrincipal (Realm service) NTSrvInstance (Components service) else service in
  doN _ := n_require (negb (zlen (Components service) =? 0)) "AS service exchange: invalid service principal" in
  doN request := n_res (newASReqForService clientPrincipal service now (draw 0%nat 4%nat)) in
  doN '(initialETypeID, initialEType) :=
    n_res (match initial_etype (b_EType (r_ReqBody request)) with
           | Some e => Ok e | None => Err "AS service exchange: unsupported kerberos encryption type" end) in
  doN '(initialETypeID, initialKey) :=
    n_res (match entry with
           | Some (enctype, key) => if negb (enctype =? initialETypeID) then res_bind (Registry_Get fips enctype) (λ _, Ok (enctype, key))
                                    else Ok (initialETypeID, key)
           | None => res_bind (string_to_key "AS service exchange" initialEType password (default_salt clientPrincipal) []) (λ key, Ok (initialETypeID, key))
           end) in
  let realm := Realm clientPrincipal in
  let nonce := b_Nonce (r_ReqBody request) in
  doN response := roundTrip realm request in
  match decodeKRBError response with
  | None => answer (decodeASRepForService response clientPrincipal service nonce initialETypeID initialKey now)
  | Some e =>
      if negb (err_ErrorCode e =? 25) then n_fail (CKrb e)
      else
        doN methodData := n_res (preauth_data "AS service exchange" clientPrincipal e) in
        doN '(etypeID, salt, params) := n_res (SelectEType fips methodData realm clientPrincipal asRequestEnctypes) in
        doN etype := n_res (Registry_Get fips etypeID) in
        doN key := n_res (match entry with
                          | Some (enctype, key) => if negb (enctype =? etypeID) then Err "AS service exchange keytab entry enctype does not match KDC enctype"
                                                   else Ok key
                          | None => string_to_key "AS service exchange" etype password salt params
                          end) in
        doN '(modulePA, handled, updatedKey) := n_res (wrap_err "AS service exchange module preauthentication: "
          (processClientPreauthModules request methodData clientPrincipal etypeID key None e)) in
        if (handled : bool) then
          doN response := roundTrip realm (with_padata request (appendClientPreauthCookie modulePA methodData)) in
          answer (decodeASRepForService response clientPrincipal service nonce (KeyType updatedKey) (KeyValue updatedKey) now)
        else
          doN etype := n_res (Registry_Get fips (KeyType updatedKey)) in
          with_timestamp clientPrincipal service request modulePA (KeyType updatedKey) etype (KeyValue updatedKey)
  end.

(** [ASExchangeFAST]: [armorTGT] are credentials for the ticket-granting
    service. *)
Definition armor_of (armorTGT : Credentials) : res Armor :=
  NewArmor fips (mkTGT (cr_Ticket armorTGT) (cr_Client armorTGT) (cr_Key armorTGT)) now (draw 4%nat) (draw 5%nat 16%nat).
Definition ASExchangeFAST (clientPrincipal : Principal) (password : bytes) (armorTGT : Credentials) : NE W Credentials :=
  doN _ := n_require (valid_client clientPrincipal) "FAST AS exchange: invalid client principal" in
  doN armor := n_res (armor_of armorTGT) in
  doN request := n_res (newASReq clientPrincipal now (draw 0%nat 4%nat)) in
  let body := r_ReqBody request in
  doN '(initialETypeID, initialEType) :=
    n_res (match initial_etype (b_EType body) with Some e => Ok e | None => Err "FAST AS exchange: unsupported kerberos encryption type" end) in
  doN initialKey := n_res (string_to_key "FAST AS exchange" initialEType password (default_salt clientPrincipal) []) in
  let realm := Realm clientPrincipal in
  let nonce := b_Nonce body in
  doN fastData := n_res (WrapASReq armor body [] (draw 6%nat 16%nat)) in
  doN response := roundTrip realm (with_padata request [fastData]) in
  match decodeKRBError response with
  | None => answer (decodeFASTASRep response clientPrincipal nonce initialETypeID initialKey armor now)
  | Some e =>
      if negb (err_ErrorCode e =? 25) then n_fail (CKrb e)
      else
        doN fastReply := n_res (wrap_err "FAST AS exchange preauthentication: " (UnwrapReply armor (errorMethodData e) [] nonce)) in
        let data := sortPreferredPadata realm (fp_PAData fastReply) in
        doN '(etypeID, salt, params) := n_res (SelectEType fips data realm clientPrincipal asRequestEnctypes) in
        doN etype := n_res (Registry_Get fips etypeID) in
        doN clientKey := n_res (string_to_key "FAST AS exchange" etype password salt params) in
        let armorKey := (λ e, mkEKey (etype_ID e) (am_Key armor)) <$> am_EType armor in
        doN '(modulePA, handled, updatedKey) := n_res (wrap_err "FAST AS exchange module preauthentication: "
          (processClientPreauthModules request data clientPrincipal etypeID clientKey armorKey e)) in
        let retry (retryPAData : MethodData) : NE W Credentials :=
          doN fastData := n_res (WrapASReq armor body retryPAData (draw 7%nat 16%nat)) in
          doN response := roundTrip realm (with_padata request [fastData]) in
          answer (decodeFASTASRep response clientPrincipal nonce (KeyType updatedKey) (KeyValue updatedKey) armor now) in
        if (handled : bool) then retry (appendClientPreauthCookie modulePA data)
        else
          doN etype := n_res (Registry_Get fips (KeyType updatedKey)) in
          doN retryPA := n_res (wrap_err "FAST AS exchange preauthentication: "
            (match FindPAData data PADataEncryptedChallenge with
             | Some _ => BuildEncryptedChallengeWithKeyEType (am_EType armor) (am_Key armor) (Some etype) (KeyValue updatedKey) now (draw 8%nat 16%nat)
             | None => BuildEncryptedTimestamp (Some etype) (KeyValue updatedKey) now 0 (draw 1%nat 16%nat)
             end)) in
          retry (appendClientPreauthCookie [retryPA] data)
  end.

(** [ASExchangeFASTOTP]: [provider] gives the value and the PIN for a challenge. *)
Definition FlagNextOTP : Z := 1.
Definition ASExchangeFASTOTP (clientPrincipal : Principal) (armorTGT : Credentials) (provider : PAOTPChallenge → res (bytes * bytes))
    : NE W Credentials :=
  doN _ := n_require (valid_client clientPrincipal) "OTP FAST AS exchange: invalid client principal" in
  doN armor := n_res (armor_of armorTGT) in
  doN request := n_res (newASReq clientPrincipal now (draw 0%nat 4%nat)) in
  let body := r_ReqBody request in
  let realm := Realm clientPrincipal in
  let nonce := b_Nonce body in
  doN fastData := n_res (WrapASReq armor body [] (draw 6%nat 16%nat)) in
  doN response := roundTrip realm (with_padata request [fastData]) in
  match decodeKRBError response with
  | None => n_fail (CErr "OTP FAST AS exchange: expected PREAUTH_REQUIRED")
  | Some e =>
      if negb (err_ErrorCode e =? 25) then n_fail (CKrb e)
      else
        doN fastReply := n_res (wrap_err "OTP FAST AS exchange preauthentication: " (UnwrapReply armor (errorMethodData e) [] nonce)) in
        doN challengePA := n_res (match FindPAData (fp_PAData fastReply) PADataChallenge with
                                  | Some pa => Ok pa | None => Err "OTP FAST AS exchange: missing PA-OTP-CHALLENGE" end) in
        doN challenge := n_res (wrap_err "OTP FAST AS challenge: " (Unmarshal (PADataValue challengePA))) in
        doN '(value, pin) := n_res (wrap_err "OTP FAST AS provider: " (provider challenge)) in
        doN ti := n_res (match oc_TokenInfo challenge with ti :: _ => Ok ti | [] => Err "OTP FAST AS challenge: no token information" end) in
        doN encData := n_res (wrap_err "OTP FAST AS request: " (EncryptNonce (am_EType armor) (am_Key armor) (oc_Nonce challenge) (draw 9%nat 16%nat))) in
        doN otpDER := n_res (wrap_err "OTP FAST AS request: " (Marshal (mkOTPRequest (Z.land (tk_Flags ti) FlagNextOTP) [] encData None None
          value (match pin with [] => None | _ => Some pin end) [] None [] (tk_Format ti) (tk_TokenID ti) (tk_AlgID ti) (tk_Vendor ti)))) in
        doN fastData := n_res (WrapASReq armor body [mkPA PADataRequest otpDER] (draw 7%nat 16%nat)) in
        doN response := roundTrip realm (with_padata request [fastData]) in
        doN etypeID := n_res (match am_EType armor with Some e => Ok (etype_ID e) | None => Panic end) in
        answer (decodeFASTASRep response clientPrincipal nonce etypeID (am_Key armor) armor now)
  end.
End exchanges.
End client.
