(* ===== verification/Ap.v ===== *)
(** * The application exchange (src/krb5/ap/ap.go)

    What a client sends to a service with its ticket, the checks of the service,
    and the reply that proves the service to the client.  The replay cache of the
    process is a state; a persistent cache, if there is one, is any of those of
    RCache.v.  A call is one step: its sweep and its look-up take the lock of the
    cache one after the other, and the look-up inserts under the same lock. *)

From S2P Require Import Prelude GoTime Principal Keytab RCache Crypto Ulog Kdb Protocol Asn1 Wire Asn1Total Messages Cammac KdcPolicy KdcCommon KdcTgs Fast ClientAs.
Local Open Scope Z_scope.

(** ** Messages *)

Record APRep := mkAPRep { apr_PVNO : Z; apr_MsgType : Z; apr_EncPart : EncryptedData }.
Record EncAPRepPart := mkAPRepPart {
  rp_Ctime : KerberosTime; rp_Cusec : Z; rp_SubKey : option EncryptionKey; rp_SeqNumber : option Z }.

Definition apRep_codec : codec APRep.
Proof.
  refine (mkCodec (TStruct (Some 15)
      [field "PVNO" "tag:0" int32;
       field "MsgType" "tag:1" int32;
       field "EncPart" "tag:2" encryptedData_codec])
    (λ x, VStruct
      [c_put int32 (apr_PVNO x);
       c_put int32 (apr_MsgType x);
       c_put encryptedData_codec (apr_EncPart x)])
    (λ v, match v with
          | VStruct [a; b; c] =>
              a ← c_get int32 a;
              b ← c_get int32 b;
              c ← c_get encryptedData_codec c; Some (mkAPRep a b c)
          | _ => None
          end) _ _); [struct_codec|total_codec].
Defined.

Definition encAPRepPart_codec : codec EncAPRepPart.
Proof.
  refine (mkCodec (TStruct (Some 27)
      [field "Ctime" "tag:0" ktime;
       field "Cusec" "tag:1" int32;
       field "SubKey" "tag:2,optional" (ptr encryptionKey_codec);
       field "SeqNumber" "tag:3,optional" (ptr uint32)])
    (λ x, VStruct
      [c_put ktime (rp_Ctime x);
       c_put int32 (rp_Cusec x);
       c_put (ptr encryptionKey_codec) (rp_SubKey x);
       c_put (ptr uint32) (rp_SeqNumber x)])
    (λ v, match v with
          | VStruct [a; b; c; d] =>
              a ← c_get ktime a;
              b ← c_get int32 b;
              c ← c_get (ptr encryptionKey_codec) c;
              d ← c_get (ptr uint32) d; Some (mkAPRepPart a b c d)
          | _ => None
          end) _ _); [struct_codec|total_codec].
Defined.

#[export] Instance ap_rep_der : Der APRep := codec_der apRep_codec.
#[export] Instance enc_ap_rep_part_der : Der EncAPRepPart := codec_der encAPRepPart_codec.

Definition authenticatorUsage : Z := 11.
Definition ticketUsage : Z := 2.
Definition apRepUsage : Z := 12.
Definition APUseSessionKey : Z := 2.
Definition APMutualRequired : Z := 4.

(** [APReq] of this package: what the initiator keeps. *)
Record APReqState := mkAPReqState {
  aq_DER : bytes; aq_SessionKey : EncryptionKey; aq_AuthenticatorTime : Z; aq_Cusec : Z; aq_SubKey : option EncryptionKey;
  aq_SeqNumber : option Z; aq_APOptions : Z }.
Record APReqOptions := mkAPReqOptions {
  ao_Checksum : option ChecksumValue; ao_AuthorizationData : AuthorizationData; ao_SubKey : option EncryptionKey; ao_NoSubKey : bool }.
Record VerifiedAPReq := mkVerified {
  va_Client : Principal; va_Server : Principal; va_SessionKey : EncryptionKey; va_Flags : Z; va_EndTime : KerberosTime;
  va_AuthenticatorTime : Z; va_Cusec : Z; va_SubKey : option EncryptionKey; va_SeqNumber : option Z; va_APOptions : Z;
  va_Checksum : option ChecksumValue; va_AuthenticatorAuthorizationData : AuthorizationData; va_AuthorizationData : AuthorizationData }.
Record APRepDetails := mkDetails { de_SubKey : option EncryptionKey; de_SeqNumber : option Z }.

(** ** The initiator *)

Section ap.
Context `{GoCrypto} (fips : bool).

(** [BuildAPReqWithOptions] for credentials that are not nil; the random bytes
    are those of the subkey and of the sequence number. *)
Definition BuildAPReqWithOptions (creds : Credentials) (opts now : Z) (options : APReqOptions) (draw : nat → nat → res bytes)
    : res (APReqState * bytes) :=
  if (zlen (cr_Ticket creds) =? 0) || (zlen (KeyValue (cr_Key creds)) =? 0) then Err "build AP-REQ: incomplete credentials"
  else
    res_bind (Registry_Get fips (KeyType (cr_Key creds))) (λ etype,
    res_bind (wrap_err "build AP-REQ ticket: " (Unmarshal (cr_Ticket creds) : res Ticket)) (λ ticket,
    if (zlen (t_Realm ticket) =? 0) || (zlen (NameString (t_SName ticket)) =? 0) then Err "build AP-REQ: invalid ticket service"
    else
      let cusec := nanosecond now / 1000 in
      res_bind (match ao_SubKey options with
                | Some key => if negb (KeyType key =? KeyType (cr_Key creds)) then Err "build AP-REQ subkey: enctype mismatch" else Ok (Some key)
                | None => if negb (ao_NoSubKey options)
                          then res_bind (wrap_err "build AP-REQ subkey: " (draw 0%nat (etype_KeySize etype))) (λ value,
                               Ok (Some (mkEKey (KeyType (cr_Key creds)) value)))
                          else Ok None
                end) (λ subkey,
      res_bind (wrap_err "build AP-REQ sequence number: " (draw 1%nat 4%nat)) (λ sequenceBytes,
      let sequence := Z.land (be_value sequenceBytes) 0x7fffffff in
      let authenticator := mkAuthenticator 5 (Realm (cr_Client creds)) (mkPName (NameType (cr_Client creds)) (Components (cr_Client creds)))
        (ao_Checksum options) cusec (mkKTime now cusec true) subkey (Some sequence) (ao_AuthorizationData options) in
      res_bind (wrap_err "build AP-REQ authenticator: " (Marshal authenticator)) (λ authenticatorDER,
      res_bind (wrap_err "build AP-REQ authenticator encryption: "
                  (etype_Encrypt etype (draw 2%nat 16%nat) (KeyValue (cr_Key creds)) authenticatorUsage authenticatorDER)) (λ ciphertext,
      res_bind (wrap_err "build AP-REQ: " (Marshal (mkAPReq 5 14 opts ticket (mkEnc (KeyType (cr_Key creds)) None ciphertext)))) (λ der,
      Ok (mkAPReqState der (cr_Key creds) now cusec subkey (Some sequence) opts, der)))))))).
Definition no_options : APReqOptions := mkAPReqOptions None [] None false.
Definition BuildAPReq (creds : Credentials) (opts now : Z) (draw : nat → nat → res bytes) : res (APReqState * bytes) :=
  BuildAPReqWithOptions creds opts now no_options draw.

(** ** The acceptor *)

Definition ap_withinSkew (value now skew : Z) : bool :=
  let difference := time_sub value now in
  let difference := if difference <? 0 then i64 (- difference) else difference in
  difference <=? skew.
Definition ap_skew (skew : Z) : Z := if skew <? 0 then i64 (- skew) else skew.

(** The replay cache of the process. *)
Record replay_state := mkReplay { rs_entries : gmap bytes Z; rs_lastSweep : Z; rs_sweepCount : Z }.
Definition no_replays : replay_state := mkReplay ∅ zero_time 0.
Definition sweepReplayCache (now skew : Z) (r : replay_state) : replay_state :=
  if negb (rs_lastSweep r =? zero_time) && (time_sub now (rs_lastSweep r) <? second) then r
  else if negb (rs_lastSweep r =? zero_time) && (Z.of_nat (size (rs_entries r)) <=? rs_sweepCount r) then r
  else
    let entries := filter (λ '(_, ctime), ap_withinSkew ctime now skew = true) (rs_entries r) in
    mkReplay entries now (Z.of_nat (size entries)).

Definition servicePrincipalEqual (left right : Principal) : bool :=
  bytes_eqb (Realm left) (Realm right) && bool_decide (Components left = Components right).
(** The entry of the service with the highest version, or with that of the ticket. *)
Fixpoint select_entry_loop (ticket : Ticket) (entries : list Entry) (selected : option Entry) : option Entry :=
  match entries with
  | [] => selected
  | entry :: entries =>
      let target := mkPrincipal (t_Realm ticket) (NameType_ (t_SName ticket)) (NameString (t_SName ticket)) in
      let skip := negb (servicePrincipalEqual (e_Principal entry) target) || negb (e_Enctype entry =? ed_EType (t_EncPart ticket)) ||
                  match ed_KVNO (t_EncPart ticket) with Some kvno => negb (e_KVNO entry =? kvno) | None => false end in
      select_entry_loop ticket entries
        (if skip then selected
         else match selected with
              | Some best => if e_KVNO best <? e_KVNO entry then Some entry else selected
              | None => Some entry
              end)
  end.
Definition findServiceEntry (kt : Keytab) (ticket : Ticket) : res Entry :=
  match select_entry_loop ticket (EntriesSnapshot (Some kt)) None with
  | Some entry => Ok entry
  | None => Err "verify AP-REQ: service key not found"
  end.

Definition ticketValid (part : EncTicketPart) (now skew : Z) : res unit :=
  let skew := ap_skew skew in
  let start := match tp_StartTime part with Some t => if Present t then Time t else Time (tp_AuthTime part) | None => Time (tp_AuthTime part) end in
  if now <? start + i64 (- skew) then Err "kerberos ticket not yet valid"
  else if Time (tp_EndTime part) + skew <? now then Err "kerberos ticket expired"
  else Ok tt.

(** What is opened of a request before the replay caches are asked. *)
Record opened := mkOpened { op_part : EncTicketPart; op_authenticator : Authenticator; op_etype : EType; op_protected : AuthorizationData }.
Definition open_request (request : APReq) (ticketKey : EncryptionKey) (now skew : Z) : res opened :=
  res_bind (Registry_Get fips (KeyType ticketKey)) (λ etype,
  res_bind (wrap_err "verify AP-REQ ticket: " (etype_Decrypt etype (KeyValue ticketKey) ticketUsage (ed_Cipher (t_EncPart (ap_Ticket request))))) (λ ticketPlain,
  res_bind (match (Unmarshal ticketPlain : res EncTicketPart) with
            | Ok part => Ok part | Panic => Panic | Err _ => Err ("verify AP-REQ ticket: " +:+ ErrIntegrity)%string end) (λ ticketPart,
  res_bind (match VerifyService fips (tp_AuthorizationData ticketPart) ticketKey with
            | Ok elements => Ok elements
            | Panic => Panic
            | Err err => if errors_Is err ErrNotFound then Ok [] else Err ("verify AP-REQ CAMMAC: " +:+ err)%string
            end) (λ protected,
  if has (tp_Flags ticketPart) TicketInvalid then Err "verify AP-REQ ticket: kerberos ticket invalid"
  else
    res_bind (wrap_err "verify AP-REQ ticket: " (ticketValid ticketPart now skew)) (λ _,
    if negb (ed_EType (ap_Authenticator request) =? KeyType (tp_Key ticketPart)) then Err ("verify AP-REQ authenticator: " +:+ ErrIntegrity)%string
    else
      res_bind (Registry_Get fips (KeyType (tp_Key ticketPart))) (λ sessionEType,
      res_bind (wrap_err "verify AP-REQ authenticator: "
                  (etype_Decrypt sessionEType (KeyValue (tp_Key ticketPart)) authenticatorUsage (ed_Cipher (ap_Authenticator request)))) (λ authPlain,
      res_bind (match (Unmarshal authPlain : res Authenticator) with
                | Ok a => Ok a | Panic => Panic | Err _ => Err ("verify AP-REQ authenticator: " +:+ ErrIntegrity)%string end) (λ authenticator,
      if negb (a_VNO authenticator =? 5) || negb (bytes_eqb (a_CRealm authenticator) (tp_CRealm ticketPart)) ||
         negb (sameProtocolPrincipal (a_CName authenticator) (tp_CName ticketPart))
      then Err "verify AP-REQ client principal mismatch"
      else Ok (mkOpened ticketPart authenticator sessionEType protected))))))))).

Definition verified_of (request : APReq) (o : opened) : VerifiedAPReq :=
  let a := op_authenticator o in
  let part := op_part o in
  let sname := t_SName (ap_Ticket request) in
  mkVerified (mkPrincipal (a_CRealm a) (NameType_ (a_CName a)) (NameString (a_CName a)))
    (mkPrincipal (t_Realm (ap_Ticket request)) (NameType_ sname) (NameString sname))
    (tp_Key part) (tp_Flags part) (tp_EndTime part) (Time (a_Ctime a)) (a_Cusec a) (a_SubKey a) (a_SeqNumber a) (ap_Options request)
    (a_Checksum a) (a_AuthorizationData a) (op_protected o).

Context (sha256_Sum : bytes → bytes).
Definition replay_name (request : APReq) : bytes := hex (sha256_Sum (ed_Cipher (ap_Authenticator request))).
Context {P : Type} `{ReplayCache P}.

(** [verifyAPReqWithTicketKey]: [cache] is the persistent cache, if one is
    configured, and [random] the bytes it may need for a new file. *)
Definition verifyAPReqWithTicketKey (request : APReq) (ticketKey : EncryptionKey) (now skew : Z) (random : bytes)
    (st : replay_state * option P) : res VerifiedAPReq * (replay_state * option P) :=
  match open_request request ticketKey now skew with
  | Err e => (Err e, st)
  | Panic => (Panic, st)
  | Ok o =>
      let skew := ap_skew skew in
      let local := sweepReplayCache now skew (fst st) in
      let ctime := Time (a_Ctime (op_authenticator o)) in
      if negb (ap_withinSkew ctime now skew) then (Err "verify AP-REQ authenticator: kerberos clock skew", (local, snd st))
      else match snd st with
      | Some cache =>
          match TagFromCiphertext (ed_Cipher (ap_Authenticator request)) (Z.of_nat (ChecksumSize (op_etype o))) with
          | Ok tag =>
              let '(cache, result) := rc_store random cache tag ctime skew in
              (match result with
               | Ok _ => Ok (verified_of request o)
               | Panic => Panic
               | Err err => if errors_Is err ErrReplay then Err ("verify AP-REQ: " +:+ ErrReplay)%string
                            else Err ("verify AP-REQ replay cache: " +:+ err)%string
               end, (local, Some cache))
          | Err e => (Err e, (local, snd st))
          | Panic => (Panic, (local, snd st))
          end
      | None =>
          let name := replay_name request in
          match rs_entries local !! name with
          | Some _ => (Err ("verify AP-REQ: " +:+ ErrReplay)%string, (local, None))
          | None => (Ok (verified_of request o), (mkReplay (<[name := ctime]> (rs_entries local)) (rs_lastSweep local) (rs_sweepCount local), None))
          end
      end
  end.

(** [VerifyAPReqWithOptions] with a keytab, once the cache is resolved. *)
Definition VerifyAPReqWithOptions (kt : Keytab) (der : bytes) (now skew : Z) (random : bytes) (st : replay_state * option P)
    : res VerifiedAPReq * (replay_state * option P) :=
  match res_bind (wrap_err "verify AP-REQ: " (Unmarshal der : res APReq)) (λ request,
        if negb (ap_PVNO request =? 5) || negb (ap_MsgType request =? 14) then Err "verify AP-REQ: unexpected message"
        else res_bind (findServiceEntry kt (ap_Ticket request)) (λ entry, Ok (request, entry))) with
  | Ok (request, entry) => verifyAPReqWithTicketKey request (mkEKey (e_Enctype entry) (e_Key entry)) now skew random st
  | Err e => (Err e, st)
  | Panic => (Panic, st)
  end.
Definition VerifyAPReqWithSessionKeyWithOptions (key : EncryptionKey) (der : bytes) (now skew : Z) (random : bytes) (st : replay_state * option P)
    : res VerifiedAPReq * (replay_state * option P) :=
  match (if (KeyType key =? 0) || (zlen (KeyValue key) =? 0) then Err "verify AP-REQ with session key: incomplete key"
         else
           res_bind (wrap_err "verify AP-REQ with session key: " (Unmarshal der : res APReq)) (λ request,
           if negb (ap_PVNO request =? 5) || negb (ap_MsgType request =? 14) then Err "verify AP-REQ with session key: unexpected message"
           else if negb (has (ap_Options request) APUseSessionKey) then Err "verify AP-REQ with session key: APUseSessionKey not set"
           else if negb (ed_EType (t_EncPart (ap_Ticket request)) =? KeyType key)
                then Err ("verify AP-REQ with session key: " +:+ ErrIntegrity)%string
           else Ok request)) with
  | Ok request => verifyAPReqWithTicketKey request key now skew random st
  | Err e => (Err e, st)
  | Panic => (Panic, st)
  end.

(** ** Mutual authentication *)

Definition buildAPRepWithTimeAndSequence (request : VerifiedAPReq) (ctime : Z) (sequence : option Z) (conf : res bytes) : res bytes :=
  res_bind (Registry_Get fips (KeyType (va_SessionKey request))) (λ etype,
  let cusec := va_Cusec request in
  res_bind (wrap_err "build AP-REP encrypted part: " (Marshal (mkAPRepPart (mkKTime ctime cusec true) cusec None sequence))) (λ plain,
  res_bind (wrap_err "build AP-REP encrypted part: " (etype_Encrypt etype conf (KeyValue (va_SessionKey request)) apRepUsage plain)) (λ ciphertext,
  wrap_err "build AP-REP: " (Marshal (mkAPRep 5 15 (mkEnc (KeyType (va_SessionKey request)) None ciphertext)))))).
Definition BuildAPRep (request : VerifiedAPReq) (conf : res bytes) : res bytes :=
  buildAPRepWithTimeAndSequence request (va_AuthenticatorTime request) None conf.
Definition BuildAPRepWithSequence (request : VerifiedAPReq) (sequence : Z) (conf : res bytes) : res bytes :=
  buildAPRepWithTimeAndSequence request (va_AuthenticatorTime request) (Some sequence) conf.

Definition VerifyAPRepWithDetails (request : APReqState) (der : bytes) : res APRepDetails :=
  if negb (has (aq_APOptions request) APMutualRequired) then Err "verify AP-REP: mutual authentication was not requested"
  else
    res_bind (wrap_err "verify AP-REP: " (Unmarshal der : res APRep)) (λ reply,
    if negb (apr_PVNO reply =? 5) || negb (apr_MsgType reply =? 15) || negb (ed_EType (apr_EncPart reply) =? KeyType (aq_SessionKey request))
    then Err ("verify AP-REP: " +:+ ErrIntegrity)%string
    else
      res_bind (Registry_Get fips (KeyType (aq_SessionKey request))) (λ etype,
      res_bind (wrap_err "verify AP-REP encrypted part: "
                  (etype_Decrypt etype (KeyValue (aq_SessionKey request)) apRepUsage (ed_Cipher (apr_EncPart reply)))) (λ plain,
      res_bind (match (Unmarshal plain : res EncAPRepPart) with
                | Ok part => Ok part | Panic => Panic | Err _ => Err ("verify AP-REP encrypted part: " +:+ ErrIntegrity)%string end) (λ part,
      if negb (Present (rp_Ctime part)) || negb (Time (rp_Ctime part) =? truncate_s (aq_AuthenticatorTime request)) ||
         negb (rp_Cusec part =? aq_Cusec request)
      then Err "verify AP-REP: authenticator time mismatch"
      else Ok (mkDetails (rp_SubKey part) (rp_SeqNumber part)))))).
(** [VerifyAPRep]: a subkey of the acceptor replaces that of the request. *)
Definition VerifyAPRep (request : APReqState) (der : bytes) : res APReqState :=
  res_bind (VerifyAPRepWithDetails request der) (λ details,
  Ok (match de_SubKey details with
      | Some key => mkAPReqState (aq_DER request) (aq_SessionKey request) (aq_AuthenticatorTime request) (aq_Cusec request) (Some key)
                      (aq_SeqNumber request) (aq_APOptions request)
      | None => request
      end)).
End ap.

(** ** Messages in range *)

Lemma fits_authenticator realm name cusec t key seq :
  name_ok name → 0 <= cusec < 1000000 → time_ok t = true → key_ok key → 0 <= seq < 2 ^ 32 →
  fits authenticator_codec (300 + zlen realm + name_size name + zlen (KeyValue key)) (mkAuthenticator 5 realm name None cusec t (Some key) (Some seq) []).
Proof. intros Hn Hc Ht Hk Hs. fits_record. cbn [a_CRealm a_CName KeyValue]. lia. Qed.
Lemma fits_ap_req options ticket enc :
  0 <= options < 2 ^ 32 → ticket_ok ticket → enc_ok enc →
  fits apReq_codec (100 + ticket_size ticket + enc_size enc) (mkAPReq 5 14 options ticket enc).
Proof. intros Ho Ht He. fits_record. cbn [ap_Ticket ap_Authenticator]. lia. Qed.
Lemma fits_ap_rep enc : enc_ok enc → fits apRep_codec (100 + enc_size enc) (mkAPRep 5 15 enc).
Proof. intros He. fits_record. cbn [apr_EncPart]. lia. Qed.
Lemma fits_ap_rep_part t cusec : time_ok t = true → 0 <= cusec < 1000000 → fits encAPRepPart_codec 150 (mkAPRepPart t cusec None None).
Proof. intros Ht Hc. fits_record. lia. Qed.

Lemma authenticator_received now realm name cusec key seq :
  name_ok name → 0 <= cusec < 1000000 → 0 <= now < last_instant → key_ok key → 0 <= seq < 2 ^ 32 →
  300 + zlen realm + name_size name + zlen (KeyValue key) < 2 ^ 32 →
  ∃ d, Marshal (mkAuthenticator 5 realm name None cusec (mkKTime now cusec true) (Some key) (Some seq) []) = Ok d ∧
       Unmarshal d = Ok (mkAuthenticator 5 realm name None cusec (at_time (whole_time now)) (Some key) (Some seq) []) ∧
       zlen d <= 300 + zlen realm + name_size name + zlen (KeyValue key).
Proof.
  intros Hn Hc Ht Hk Hs Hz. eapply (marshal_fits authenticator_codec); [by vm_compute| |apply fits_authenticator; try done|done].
  - cbn. by rewrite whole_twice.
  - apply calendar_time, whole_time_range; [apply whole_time_mod|done].
Qed.
Lemma ap_rep_part_received now cusec :
  0 <= cusec < 1000000 → 0 <= now < last_instant →
  ∃ d, Marshal (mkAPRepPart (mkKTime now cusec true) cusec None None) = Ok d ∧
       Unmarshal d = Ok (mkAPRepPart (at_time (whole_time now)) cusec None None) ∧ zlen d <= 150.
Proof.
  intros Hc Ht. eapply (marshal_fits encAPRepPart_codec); [by vm_compute| |apply fits_ap_rep_part; [|done]|done].
  - cbn. by rewrite whole_twice.
  - apply calendar_time, whole_time_range; [apply whole_time_mod|done].
Qed.

Lemma truncate_whole t : truncate_s t = whole_time t.
Proof. unfold truncate_s, whole_time. change zero_time with (-62135596800 * nanos). change second with nanos. unfold nanos. Z.to_euclidean_division_equations; lia. Qed.

(** ** The exchange *)

Section exchange.
Context `{GoCryptoLaws} (fips : bool) (sha256_Sum : bytes → bytes) {P : Type} `{ReplayCache P}.

(** The credentials and the keytab fit: the ticket opens with an entry of the
    keytab and is valid, and the session key is that of the credentials. *)
Record serviceable (creds : Credentials) (kt : Keytab) (now skew : Z) (ticket : Ticket) (part : EncTicketPart) : Prop := {
  sv_ticket : Unmarshal (cr_Ticket creds) = Ok ticket ∧ ticket_ok ticket ∧ ticket_size ticket < 2 ^ 30;
  sv_named : t_Realm ticket ≠ [] ∧ NameString (t_SName ticket) ≠ [];
  sv_entry : ∃ entry etype plain, findServiceEntry kt ticket = Ok entry ∧ Registry_Get fips (e_Enctype entry) = Ok etype ∧
    etype_Decrypt etype (e_Key entry) ticketUsage (ed_Cipher (t_EncPart ticket)) = Ok plain ∧ Unmarshal plain = Ok part;
  sv_part : tp_Key part = cr_Key creds ∧ tp_CRealm part = Realm (cr_Client creds) ∧ tp_CName part = protocolPrincipal (cr_Client creds) ∧
    tp_AuthorizationData part = [];
  sv_valid : has (tp_Flags part) TicketInvalid = false ∧ ticketValid part now skew = Ok tt;
  sv_key : ∃ etype, Registry_Get fips (KeyType (cr_Key creds)) = Ok etype ∧ length (KeyValue (cr_Key creds)) = etype_KeySize etype;
  sv_client : name_ok (protocolPrincipal (cr_Client creds)) ∧ name_size (protocolPrincipal (cr_Client creds)) + zlen (Realm (cr_Client creds)) < 2 ^ 30;
}.

Lemma res_step {A B} (x : res A) (k : A → res B) a r : x = Ok a → k a = r → res_bind x k = r.
Proof. by intros -> <-. Qed.
(** What the client sends. *)
Definition request_of (options : Z) (ticket : Ticket) (key : EncryptionKey) (cipher : bytes) : APReq :=
  mkAPReq 5 14 options ticket (mkEnc (KeyType key) None cipher).
Lemma nonempty_zlen {A} (l : list A) : l ≠ [] → (zlen l =? 0) = false.
Proof. destruct l as [|x l]; [done|]. intros _. rewrite zlen_cons. pose proof (zlen_nonneg l). lia. Qed.
Lemma sequence_range data : 0 <= Z.land (be_value data) 0x7fffffff < 2 ^ 32.
Proof.
  assert (0 <= Z.land (be_value data) 0x7fffffff < 2 ^ 31); [|lia]. apply land_range; [lia| |lia]. pose proof (be_value_range data). lia.
Qed.

Context (creds : Credentials) (kt : Keytab) (now nowC skew options : Z) (ticket : Ticket) (part : EncTicketPart) (draw : nat → nat → res bytes).
Context (Hsv : serviceable creds kt now skew ticket part) (Hopt : 0 <= options < 2 ^ 32) (HnowC : 0 <= nowC < last_instant).
Context (Hdraw : ∀ i n, ∃ r, draw i n = Ok r ∧ length r = n).

Lemma ap_req_sent : ∃ state der cipher etype authPlain authenticator,
  BuildAPReq fips creds options nowC draw = Ok (state, der) ∧
  Unmarshal der = Ok (request_of options ticket (cr_Key creds) cipher) ∧
  Registry_Get fips (KeyType (cr_Key creds)) = Ok etype ∧
  etype_Decrypt etype (KeyValue (cr_Key creds)) authenticatorUsage cipher = Ok authPlain ∧ Unmarshal authPlain = Ok authenticator ∧
  a_VNO authenticator = 5 ∧ a_CRealm authenticator = Realm (cr_Client creds) ∧ a_CName authenticator = protocolPrincipal (cr_Client creds) ∧
  Time (a_Ctime authenticator) = whole_time nowC ∧ a_Cusec authenticator = nanosecond nowC / 1000 ∧ a_SubKey authenticator = aq_SubKey state ∧
  aq_SessionKey state = cr_Key creds ∧ aq_AuthenticatorTime state = nowC ∧ aq_Cusec state = nanosecond nowC / 1000 ∧ aq_APOptions state = options.
Proof.
  destruct Hsv as [(Hu & Htok & Htsz) (Hrn & Hnn) _ _ _ (etype & He & Hk) (Hcn & Hcs)].
  destruct (Hdraw 0%nat (etype_KeySize etype)) as (sub & D0 & L0). destruct (Hdraw 1%nat 4%nat) as (seq & D1 & _). destruct (Hdraw 2%nat 16%nat) as (conf & D2 & L2).
  pose proof (key_size_le fips _ _ He) as Hks. pose proof (enctype_range fips _ _ He) as Hid.
  pose proof (name_size_pos (protocolPrincipal (cr_Client creds))). pose proof (zlen_nonneg (Realm (cr_Client creds))).
  assert (Hsub : zlen sub <= 32) by (unfold zlen; lia).
  assert (Hc : 0 <= nanosecond nowC / 1000 < 1000000) by (unfold nanosecond, second; Z.to_euclidean_division_equations; lia).
  destruct (authenticator_received nowC (Realm (cr_Client creds)) (protocolPrincipal (cr_Client creds)) (nanosecond nowC / 1000)
    (mkEKey (KeyType (cr_Key creds)) sub) (Z.land (be_value seq) 0x7fffffff) Hcn Hc HnowC Hid (sequence_range seq)) as (ad & Had & Hua & La).
  { cbn [KeyValue]. lia. }
  destruct (seal_ok etype conf (KeyValue (cr_Key creds)) authenticatorUsage ad ltac:(by eexists _, _) Hk L2) as (cipher & Hen & Hde & Lc).
  destruct (encoded_fits apReq_codec (request_of options ticket (cr_Key creds) cipher) _ ltac:(by vm_compute)
    (fits_ap_req options ticket (mkEnc (KeyType (cr_Key creds)) None cipher) Hopt Htok ltac:(by split))) as (der & Hder & Hud & _).
  { unfold enc_size. cbn [ed_Cipher KeyValue] in *. lia. }
  exists (mkAPReqState der (cr_Key creds) nowC (nanosecond nowC / 1000) (Some (mkEKey (KeyType (cr_Key creds)) sub))
    (Some (Z.land (be_value seq) 0x7fffffff)) options), der, cipher, etype, ad. eexists. split; [|by split_and!].
  unfold BuildAPReq, BuildAPReqWithOptions. rewrite (nonempty_zlen (cr_Ticket creds)) by (by intros Hx; rewrite Hx in Hu).
  rewrite (nonempty_zlen (KeyValue (cr_Key creds))) by (intros Hx; rewrite Hx in Hk; by apply key_size_pos in He; cbn in Hk; lia).
  cbn [orb]. eapply res_step; [exact He|]. eapply res_step; [exact (f_equal (wrap_err _) Hu)|]. rewrite !nonempty_zlen by done. cbn [orb].
  eapply res_step; [cbn [no_options ao_SubKey ao_NoSubKey negb]; rewrite D0; reflexivity|]. eapply res_step; [exact (f_equal (wrap_err _) D1)|].
  eapply res_step; [exact (f_equal (wrap_err _) Had)|]. eapply res_step; [rewrite D2; exact (f_equal (wrap_err _) Hen)|].
  eapply res_step; [exact (f_equal (wrap_err _) Hder)|]. reflexivity.
Qed.

(** The service opens it. *)
Lemma request_opened cipher etype authPlain authenticator entry etypeS plain :
  findServiceEntry kt ticket = Ok entry → Registry_Get fips (e_Enctype entry) = Ok etypeS →
  etype_Decrypt etypeS (e_Key entry) ticketUsage (ed_Cipher (t_EncPart ticket)) = Ok plain → Unmarshal plain = Ok part →
  Registry_Get fips (KeyType (cr_Key creds)) = Ok etype →
  etype_Decrypt etype (KeyValue (cr_Key creds)) authenticatorUsage cipher = Ok authPlain → Unmarshal authPlain = Ok authenticator →
  a_VNO authenticator = 5 → a_CRealm authenticator = Realm (cr_Client creds) → a_CName authenticator = protocolPrincipal (cr_Client creds) →
  open_request fips (request_of options ticket (cr_Key creds) cipher) (mkEKey (e_Enctype entry) (e_Key entry)) now skew =
    Ok (mkOpened part authenticator etype []).
Proof.
  intros Hf Hes Hd Hup He Hda Hua Hv Hcr Hcn. destruct Hsv as [_ _ _ (Hkey & Hrealm & Hname & Had) (Hinv & Hval) _ _].
  unfold open_request. cbn [KeyType KeyValue request_of ap_Ticket ap_Authenticator ed_EType ed_Cipher].
  eapply res_step; [exact Hes|]. eapply res_step; [exact (f_equal (wrap_err _) Hd)|]. eapply res_step; [by rewrite Hup|].
  eapply res_step; [rewrite Had; reflexivity|]. rewrite Hinv. eapply res_step; [exact (f_equal (wrap_err _) Hval)|].
  rewrite Hkey, Z.eqb_refl. cbn [negb]. eapply res_step; [exact He|]. eapply res_step; [exact (f_equal (wrap_err _) Hda)|].
  eapply res_step; [by rewrite Hua|]. rewrite Hv, Hcr, Hcn, Hrealm, Hname, bytes_eqb_refl. unfold sameProtocolPrincipal.
  rewrite !Z.eqb_refl, bool_decide_true by done. reflexivity.
Qed.

(** The reply of the service convinces the client. *)
Lemma ap_rep_accepted v state conf :
  va_SessionKey v = cr_Key creds → va_AuthenticatorTime v = whole_time nowC → va_Cusec v = nanosecond nowC / 1000 →
  aq_SessionKey state = cr_Key creds → aq_AuthenticatorTime state = nowC → aq_Cusec state = nanosecond nowC / 1000 →
  has (aq_APOptions state) APMutualRequired = true → length conf = 16%nat →
  ∃ rep, BuildAPRep fips v (Ok conf) = Ok rep ∧ VerifyAPRep fips state rep = Ok state.
Proof.
  intros Vk Vt Vc Sk St Sc Hm Lc. destruct Hsv as [_ _ _ _ _ (etype & He & Hk) _].
  assert (Hc : 0 <= nanosecond nowC / 1000 < 1000000) by (unfold nanosecond, second; Z.to_euclidean_division_equations; lia).
  destruct (ap_rep_part_received (whole_time nowC) (nanosecond nowC / 1000) Hc (whole_time_range _ HnowC)) as (plain & Hp & Hup & Lp).
  rewrite (whole_time_id (whole_time nowC)) in Hup by apply whole_time_mod.
  destruct (seal_ok etype conf (KeyValue (cr_Key creds)) apRepUsage plain ltac:(by eexists _, _) Hk Lc) as (cipher & Hen & Hde & Lci).
  destruct (encoded_fits apRep_codec (mkAPRep 5 15 (mkEnc (KeyType (cr_Key creds)) None cipher)) _ ltac:(by vm_compute)
    (fits_ap_rep (mkEnc (KeyType (cr_Key creds)) None cipher) ltac:(split; [exact (enctype_range fips _ _ He)|done]))) as (rep & Hr & Hur & _).
  { unfold enc_size. cbn [ed_Cipher]. lia. }
  exists rep. split.
  - unfold BuildAPRep, buildAPRepWithTimeAndSequence. rewrite Vk, Vt, Vc. eapply res_step; [exact He|]. eapply res_step; [exact (f_equal (wrap_err _) Hp)|].
    eapply res_step; [exact (f_equal (wrap_err _) Hen)|]. exact (f_equal (wrap_err _) Hr).
  - unfold VerifyAPRep, VerifyAPRepWithDetails. rewrite Hm. cbn [negb]. eapply (res_step _ _ (mkDetails None None)); [|reflexivity].
    eapply res_step; [exact (f_equal (wrap_err _) Hur)|]. cbn [apr_PVNO apr_MsgType apr_EncPart ed_EType ed_Cipher Z.eqb Pos.eqb negb orb].
    rewrite Sk, Z.eqb_refl. cbn [negb]. eapply res_step; [exact He|]. eapply res_step; [exact (f_equal (wrap_err _) Hde)|].
    eapply res_step; [by rewrite Hup|]. cbn [rp_Ctime rp_Cusec at_time Present Time negb orb]. rewrite St, Sc, truncate_whole, !Z.eqb_refl. reflexivity.
Qed.

(** C7: a client and a service that both hold their part of a valid ticket, with
    clocks within the skew, authenticate each other.  The client builds a request
    the service can read; unless the replay cache of the process holds it, the
    service accepts it with the name of the client, the session key of the ticket
    and the subkey that the client chose; and the client accepts the reply. *)
Theorem ap_exchange_succeeds (st : replay_state) conf :
  ap_withinSkew (whole_time nowC) now (ap_skew skew) = true → has options APMutualRequired = true → length conf = 16%nat →
  ∃ state der request, BuildAPReq fips creds options nowC draw = Ok (state, der) ∧ Unmarshal der = Ok request ∧
    (rs_entries (sweepReplayCache now (ap_skew skew) st) !! replay_name sha256_Sum request = None →
     ∃ v st' rep, VerifyAPReqWithOptions fips sha256_Sum kt der now skew [] (st, @None P) = (Ok v, st') ∧
       va_Client v = cr_Client creds ∧ va_SessionKey v = cr_Key creds ∧ va_SubKey v = aq_SubKey state ∧
       BuildAPRep fips v (Ok conf) = Ok rep ∧ VerifyAPRep fips state rep = Ok state).
Proof.
  intros Hsk Hm Lc. destruct ap_req_sent as (state & der & cipher & etype & ap & a & Hb & Hud & He & Hda & Hua & Hv & Hcr & Hcn & Hct & Hcu & Hsub & Sk & St & Sc & So).
  exists state, der. eexists. split; [done|]. split; [exact Hud|]. intros Hnew. pose proof Hsv as [_ _ (entry & etypeS & plain & Hf & Hes & Hd & Hup) (Hkey & _) _ _ _].
  pose proof (request_opened cipher etype ap a entry etypeS plain Hf Hes Hd Hup He Hda Hua Hv Hcr Hcn) as Ho.
  set (req := request_of options ticket (cr_Key creds) cipher) in *. set (v := verified_of req (mkOpened part a etype [])).
  destruct (ap_rep_accepted v state conf) as (rep & Hrep & Hver); [exact Hkey|exact Hct|exact Hcu|done..|by rewrite So|done|].
  eexists v, _, rep. split_and!; [|by subst v; cbn; rewrite Hcr, Hcn; destruct (cr_Client creds)|exact Hkey|exact Hsub|done|done].
  unfold VerifyAPReqWithOptions. rewrite Hud. cbn [wrap_err res_bind]. change (ap_PVNO req) with 5. change (ap_MsgType req) with 14.
  change (ap_Ticket req) with ticket. cbn [Z.eqb Pos.eqb negb orb]. rewrite Hf. cbn [res_bind].
  unfold verifyAPReqWithTicketKey. rewrite Ho. cbn [fst snd op_authenticator]. rewrite Hct, Hsk. cbn [negb]. rewrite Hnew. reflexivity.
Qed.
End exchange.

(** ** What acceptance implies *)

Section accepted.
Context `{GoCryptoLaws} (fips : bool) (sha256_Sum : bytes → bytes) {P : Type} `{ReplayCache P}.

(** The entry is one of the keytab, for the service and the type of the ticket. *)
Lemma select_entry_spec ticket entries selected entry :
  select_entry_loop ticket entries selected = Some entry →
  selected = Some entry ∨ (entry ∈ entries ∧ e_Enctype entry = ed_EType (t_EncPart ticket) ∧
    servicePrincipalEqual (e_Principal entry) (mkPrincipal (t_Realm ticket) (NameType_ (t_SName ticket)) (NameString (t_SName ticket))) = true ∧
    ∀ kvno, ed_KVNO (t_EncPart ticket) = Some kvno → e_KVNO entry = kvno).
Proof.
  revert selected. induction entries as [|e entries IH]; intros selected; cbn [select_entry_loop]; [by left|].
  set (skip := negb _ || negb _ || _). intros [Hs|(Hin & Hr)]%IH; [|right; split; [by right|done]].
  assert (Hcase : selected = Some entry ∨ (e = entry ∧ skip = false)).
  { destruct skip; [by left|]. destruct selected as [best|]; [destruct (e_KVNO best <? e_KVNO e)|]; simplify_eq; auto. }
  destruct Hcase as [|[-> Hskip]]; [by left|]. right. subst skip. apply orb_false_iff in Hskip as [[Hp%negb_false_iff Ht%negb_false_iff]%orb_false_iff Hk].
  split_and!; [left|lia|done|]. intros kvno Hkv. rewrite Hkv in Hk. apply negb_false_iff in Hk. lia.
Qed.

(** What a service knows of a request it has opened. *)
Record ap_authentic (request : APReq) (key : EncryptionKey) (now skew : Z) (o : opened) : Prop := {
  aa_ticket : ∃ etype plain, Registry_Get fips (KeyType key) = Ok etype ∧
    sealed_by etype (KeyValue key) ticketUsage plain (ed_Cipher (t_EncPart (ap_Ticket request))) ∧ Unmarshal plain = Ok (op_part o);
  aa_authenticator : ∃ plain, Registry_Get fips (KeyType (tp_Key (op_part o))) = Ok (op_etype o) ∧
    sealed_by (op_etype o) (KeyValue (tp_Key (op_part o))) authenticatorUsage plain (ed_Cipher (ap_Authenticator request)) ∧
    Unmarshal plain = Ok (op_authenticator o);
  aa_client : a_CRealm (op_authenticator o) = tp_CRealm (op_part o) ∧ a_CName (op_authenticator o) = tp_CName (op_part o);
  aa_usable : has (tp_Flags (op_part o)) TicketInvalid = false ∧ ticketValid (op_part o) now skew = Ok tt;
}.
Lemma open_authentic request key now skew o : open_request fips request key now skew = Ok o → ap_authentic request key now skew o.
Proof.
  intros Ho. unfold open_request in Ho. inv_res.
  repeat match goal with
         | Hx : match Unmarshal ?p with _ => _ end = Ok _ |- _ => let Hu := fresh "Hu" in destruct (Unmarshal p) eqn:Hu; try discriminate Hx; injection Hx as ->
         | Hx : _ || _ = false |- _ => apply orb_false_iff in Hx as [? ?]
         | Hx : negb _ = false |- _ => apply negb_false_iff in Hx
         | x : unit |- _ => destruct x
         end.
  match goal with Hx : sameProtocolPrincipal _ _ = true |- _ => apply sameProtocolPrincipal_eq in Hx end.
  subst o. split; cbn [op_part op_authenticator op_etype].
  - do 2 eexists. split_and!; [done|apply opened_sealed; [by eexists _, _|done]|done].
  - eexists. split_and!; [done|apply opened_sealed; [by eexists _, _|done]|done].
  - split; [by apply bytes_eqb_true|done].
  - done.
Qed.

(** A request is accepted once it is opened and new. *)
Lemma accepted_new request key now skew random st v st' :
  verifyAPReqWithTicketKey fips sha256_Sum request key now skew random st = (Ok v, st') →
  ∃ o, open_request fips request key now skew = Ok o ∧ v = verified_of request o ∧
    ap_withinSkew (Time (a_Ctime (op_authenticator o))) now (ap_skew skew) = true ∧
    match snd st with
    | None => rs_entries (sweepReplayCache now (ap_skew skew) (fst st)) !! replay_name sha256_Sum request = None ∧
              rs_entries (fst st') !! replay_name sha256_Sum request = Some (Time (a_Ctime (op_authenticator o)))
    | Some cache => ∃ tag, TagFromCiphertext (ed_Cipher (ap_Authenticator request)) (Z.of_nat (ChecksumSize (op_etype o))) = Ok tag ∧
                           (rc_store random cache tag (Time (a_Ctime (op_authenticator o))) (ap_skew skew)).2 = Ok tt
    end.
Proof.
  unfold verifyAPReqWithTicketKey. destruct (open_request _ _ _ _ _) as [o| |]; [|done..]. intros Hv. exists o. split; [done|].
  destruct (ap_withinSkew _ _ _); [|done]. cbn [negb] in Hv. destruct st as [local [cache|]]; cbn [fst snd] in *.
  - destruct (TagFromCiphertext _ _) as [tag| |]; [|done..]. destruct (rc_store _ _ _ _ _) as [cache' result] eqn:Hs.
    destruct result as [[]|e|]; [|by destruct (errors_Is e ErrReplay)|done]. injection Hv as <- <-. split_and!; [done..|]. exists tag. by rewrite Hs.
  - destruct (rs_entries _ !! _) eqn:Hr; [done|]. injection Hv as <- <-. split_and!; [done..|]. apply lookup_insert_eq.
Qed.

(** C6: a service accepts only requests of the holder of a session key.  When an
    application request is accepted, its ticket was sealed with a key of the
    keytab for the service and the encryption type it names, the authenticator
    was sealed with the session key in that ticket, and has the ticket's client
    and a time within the skew; the ticket is valid now; the client and the key that
    are reported are those of the ticket; and the request was not yet in the
    replay cache of the process, and is afterwards, or a persistent cache has
    recorded its tag. *)
Theorem ap_accept_authentic kt der now skew random st v st' :
  VerifyAPReqWithOptions fips sha256_Sum kt der now skew random st = (Ok v, st') →
  ∃ request entry o, Unmarshal der = Ok request ∧ entry ∈ kt ∧ e_Enctype entry = ed_EType (t_EncPart (ap_Ticket request)) ∧
    servicePrincipalEqual (e_Principal entry) (va_Server v) = true ∧
    ap_authentic request (mkEKey (e_Enctype entry) (e_Key entry)) now skew o ∧
    ap_withinSkew (Time (a_Ctime (op_authenticator o))) now (ap_skew skew) = true ∧
    va_Client v = mkPrincipal (tp_CRealm (op_part o)) (NameType_ (tp_CName (op_part o))) (NameString (tp_CName (op_part o))) ∧
    va_SessionKey v = tp_Key (op_part o) ∧
    match snd st with
    | None => rs_entries (sweepReplayCache now (ap_skew skew) (fst st)) !! replay_name sha256_Sum request = None ∧
              rs_entries (fst st') !! replay_name sha256_Sum request = Some (Time (a_Ctime (op_authenticator o)))
    | Some cache => ∃ tag, TagFromCiphertext (ed_Cipher (ap_Authenticator request)) (Z.of_nat (ChecksumSize (op_etype o))) = Ok tag ∧
                           (rc_store random cache tag (Time (a_Ctime (op_authenticator o))) (ap_skew skew)).2 = Ok tt
    end.
Proof.
  unfold VerifyAPReqWithOptions. intros Hv.
  destruct (res_bind _ _) as [[request entry]| |] eqn:Hb; [|done..]. inv_res.
  match goal with Hx : (_, _) = (_, _) |- _ => injection Hx as -> -> end.
  match goal with Hx : findServiceEntry _ _ = Ok _ |- _ => rename Hx into Hf end. unfold findServiceEntry in Hf.
  destruct (select_entry_loop _ _ _) as [e|] eqn:Hs; [|done]. injection Hf as ->. apply select_entry_spec in Hs as [Hs|(Hin & Het & Hsp & _)]; [done|].
  apply accepted_new in Hv as (o & Ho & -> & Hsk & Hcache). apply open_authentic in Ho as Ha. exists request, entry, o.
  pose proof (aa_client _ _ _ _ _ Ha) as [Hcr Hcn]. split_and!; try done.
  - cbn [EntriesSnapshot] in Hin. by rewrite clone_all in Hin.
  - cbn. by rewrite Hcr, Hcn.
Qed.

(** *** Replays *)

(** A later call, of any request under any key. *)
Record ap_call := mkApCall { ac_request : APReq; ac_key : EncryptionKey; ac_now : Z; ac_skew : Z }.
Definition ap_run (r : replay_state) (c : ap_call) : replay_state :=
  fst (snd (verifyAPReqWithTicketKey fips sha256_Sum (ac_request c) (ac_key c) (ac_now c) (ac_skew c) [] (r, @None P))).

Lemma sweep_keeps r name ctime now skew :
  rs_entries r !! name = Some ctime → ap_withinSkew ctime now skew = true → rs_entries (sweepReplayCache now skew r) !! name = Some ctime.
Proof.
  intros Hr Hw. unfold sweepReplayCache. repeat (case_match; [done|]). cbn [rs_entries]. by apply map_lookup_filter_Some.
Qed.
Lemma ap_run_keeps r name ctime c :
  rs_entries r !! name = Some ctime → ap_withinSkew ctime (ac_now c) (ap_skew (ac_skew c)) = true → rs_entries (ap_run r c) !! name = Some ctime.
Proof.
  intros Hr Hw. pose proof (sweep_keeps _ _ _ _ _ Hr Hw) as Hs. unfold ap_run, verifyAPReqWithTicketKey.
  destruct (open_request _ _ _ _ _) as [o| |]; [|exact Hr..]. cbn [fst snd]. destruct (ap_withinSkew (Time _) _ _); [|exact Hs]. cbn [negb].
  destruct (rs_entries _ !! replay_name _ _) eqn:Hn; [exact Hs|]. cbn [fst snd rs_entries]. rewrite lookup_insert_ne; [exact Hs|]. intros Heq. by rewrite Heq, Hs in Hn.
Qed.

(** C25: a service accepts an authenticator once.  After a request is accepted, and
    after any further requests, no request with the same encrypted authenticator is
    accepted, as long as every call is made with a skew within which the time of
    the authenticator lies. *)
Theorem ap_replay_refused request key now skew r v r' calls request' key' now' skew' :
  verifyAPReqWithTicketKey fips sha256_Sum request key now skew [] (r, @None P) = (Ok v, (r', None)) →
  Forall (λ c, ap_withinSkew (va_AuthenticatorTime v) (ac_now c) (ap_skew (ac_skew c)) = true) calls →
  ap_withinSkew (va_AuthenticatorTime v) now' (ap_skew skew') = true →
  ed_Cipher (ap_Authenticator request') = ed_Cipher (ap_Authenticator request) →
  is_ok (verifyAPReqWithTicketKey fips sha256_Sum request' key' now' skew' [] (foldl ap_run r' calls, @None P)).1 = false.
Proof.
  intros Hv Hcalls Hnow Hc. apply accepted_new in Hv as (o & _ & -> & _ & _ & Hr). cbn [fst verified_of va_AuthenticatorTime] in *.
  set (ctime := Time (a_Ctime (op_authenticator o))) in *.
  assert (Hname : replay_name sha256_Sum request' = replay_name sha256_Sum request) by (unfold replay_name; by rewrite Hc).
  assert (Hk : rs_entries (foldl ap_run r' calls) !! replay_name sha256_Sum request = Some ctime).
  { clear -Hr Hcalls. revert r' Hr. induction Hcalls as [|c calls Hw _ IH]; intros r' Hr; [done|]. cbn [foldl]. by apply IH, ap_run_keeps. }
  apply (sweep_keeps _ _ _ _ _ Hk) in Hnow as Hs. unfold verifyAPReqWithTicketKey.
  destruct (open_request _ _ _ _ _) as [o'| |]; [|done..]. cbn [fst snd]. destruct (ap_withinSkew (Time (a_Ctime (op_authenticator o'))) _ _); [|done]. cbn [negb]. by rewrite Hname, Hs.
Qed.
End accepted.

Module ApExample.
#[local] Existing Instance toy_crypto.
#[local] Existing Instance toy_crypto_laws.

Definition alice : Principal := mkPrincipal (str "R") NTPrincipal [str "alice"].
Definition service : Principal := mkPrincipal (str "R") NTSrvInstance [str "host"; str "h"].
Definition service_key : EncryptionKey := mkEKey EnctypeAES128SHA1 (str "0123456789abcdef").
Definition session : EncryptionKey := mkEKey EnctypeAES128SHA1 (str "fedcba9876543210").
Definition part : EncTicketPart :=
  mkTicketPart TicketInitial session (str "R") (protocolPrincipal alice) (mkTransited 0 []) (at_time 0) None (at_time (1000 * second)) None [] [].
Definition ticket : Ticket :=
  mkTicket 5 (str "R") (protocolPrincipal service) (mkEnc EnctypeAES128SHA1 (Some 1) (Example.seal service_key ticketUsage (marshalDER part))).
Definition creds : Credentials :=
  mkCredentials alice service session TicketInitial (at_time 0) None (at_time (1000 * second)) None (marshalDER ticket).
Definition keytab : Keytab := [mkEntry service 0 1 EnctypeAES128SHA1 (KeyValue service_key)].
Definition draw (_ n : nat) : res bytes := Ok (zeros n).
(** The request made at a second, and its verification. *)
Definition request_at (n : Z) : bytes :=
  match BuildAPReq false creds APMutualRequired (n * second) draw with Ok (_, der) => der | _ => [] end.
#[local] Abbreviation verify n now skew st :=
  (VerifyAPReqWithOptions false (λ x, x) keytab (request_at n) (now * second) (skew * second) [] (st, @None (gmap bytes Z))).

Lemma example_serviceable : serviceable false creds keytab (101 * second) (300 * second) ticket part.
Proof.
  split.
  - split; [vm_compute; reflexivity|]. split; [|vm_compute; reflexivity]. vm_compute. repeat split; discriminate.
  - split; discriminate.
  - exists (mkEntry service 0 1 EnctypeAES128SHA1 (KeyValue service_key)), (EAes (mkAes EnctypeAES128SHA1 16 12 false SHA1 EmptyString 4096)), (marshalDER part).
    split; [vm_compute; reflexivity|]. split; [reflexivity|]. split; vm_compute; reflexivity.
  - split_and!; reflexivity.
  - split; vm_compute; reflexivity.
  - eexists. split; reflexivity.
  - split; [|vm_compute; reflexivity]. vm_compute. repeat split; discriminate.
Qed.
Lemma draw_ok i n : ∃ r, draw i n = Ok r ∧ length r = n.
Proof. exists (zeros n). split; [done|]. unfold zeros. by rewrite ?length_replicate. Qed.
Lemma ap_exchange_succeeds_witness :
  ∃ state der request, BuildAPReq false creds APMutualRequired (100 * second) draw = Ok (state, der) ∧ Unmarshal der = Ok request ∧
    (rs_entries (sweepReplayCache (101 * second) (ap_skew (300 * second)) no_replays) !! replay_name (λ x, x) request = None →
     ∃ v st' rep, VerifyAPReqWithOptions false (λ x, x) keytab der (101 * second) (300 * second) [] (no_replays, @None (gmap bytes Z)) = (Ok v, st') ∧
       va_Client v = alice ∧ va_SessionKey v = session ∧ va_SubKey v = aq_SubKey state ∧
       BuildAPRep false v (Ok (zeros 16)) = Ok rep ∧ VerifyAPRep false state rep = Ok state).
Proof.
  assert (Hw : ap_withinSkew (whole_time (100 * second)) (101 * second) (ap_skew (300 * second)) = true) by (vm_compute; reflexivity).
  exact (ap_exchange_succeeds false (λ x, x) creds keytab (101 * second) (100 * second) (300 * second) APMutualRequired ticket part draw
    example_serviceable ltac:(by vm_compute) ltac:(by vm_compute) draw_ok no_replays (zeros 16) Hw eq_refl eq_refl).
Defined.

Lemma accepted_result {A B} (r : res A * B) : is_ok r.1 = true → ∃ v st, r = (Ok v, st).
Proof. destruct r as [[v| |] st]; [by exists v, st|done..]. Qed.
Lemma first_accepted : ∃ v st, verify 100 101 300 no_replays = (Ok v, st).
Proof. apply accepted_result. vm_compute. reflexivity. Qed.

Lemma ap_accept_authentic_witness :
  ∃ request entry o, Unmarshal (request_at 100) = Ok request ∧ entry ∈ keytab ∧
    ap_authentic false request (mkEKey (e_Enctype entry) (e_Key entry)) (101 * second) (300 * second) o.
Proof.
  destruct first_accepted as (v & st & Hv). apply ap_accept_authentic in Hv as (request & entry & o & Hu & Hin & _ & _ & Ha & _).
  exact (ex_intro _ request (ex_intro _ entry (ex_intro _ o (conj Hu (conj Hin Ha))))).
Defined.

(** The same request, parsed. *)
Definition parsed (n : Z) : APReq := match Unmarshal (request_at n) with Ok r => r | _ => mkAPReq 0 0 0 ticket (mkEnc 0 None []) end.
#[local] Abbreviation check n now skew r :=
  (verifyAPReqWithTicketKey false (λ x, x) (parsed n) service_key (now * second) (skew * second) [] (r, @None (gmap bytes Z))).
Lemma local_result {V R X} (f : V → bool) (x : res V * (R * option X)) :
  match x with (Ok v, (_, None)) => f v | _ => false end = true → ∃ v r, x = (Ok v, (r, None)) ∧ f v = true.
Proof. destruct x as [[v| |] [r [p|]]]; try done. intros Hr. by exists v, r. Qed.
Lemma checked : ∃ v r, check 100 101 300 no_replays = (Ok v, (r, None)) ∧ (va_AuthenticatorTime v =? 100 * second) = true.
Proof. apply (local_result (λ v, va_AuthenticatorTime v =? 100 * second)). vm_compute. reflexivity. Qed.
Definition between : list ap_call := [mkApCall (parsed 102) service_key (102 * second) (300 * second)].
Lemma ap_replay_refused_witness :
  ∃ v r, check 100 101 300 no_replays = (Ok v, (r, None)) ∧
    is_ok (check 100 103 300 (foldl (ap_run false (λ x, x) (P := gmap bytes Z)) r between)).1 = false.
Proof.
  destruct checked as (v & r & Hv & Ht). apply Z.eqb_eq in Ht. refine (ex_intro _ v (ex_intro _ r (conj Hv _))).
  assert (Hb : Forall (λ c, ap_withinSkew (va_AuthenticatorTime v) (ac_now c) (ap_skew (ac_skew c)) = true) between).
  { rewrite Ht. constructor; [vm_compute; reflexivity|constructor]. }
  assert (Hn : ap_withinSkew (va_AuthenticatorTime v) (103 * second) (ap_skew (300 * second)) = true) by (rewrite Ht; vm_compute; reflexivity).
  exact (ap_replay_refused false (λ x, x) (parsed 100) service_key (101 * second) (300 * second) no_replays v r between (parsed 100) service_key
    (103 * second) (300 * second) Hv Hb Hn eq_refl).
Defined.

Lemma swept_result {V R X} (first : res V * (R * option X)) (second third : R → res V * (R * option X)) :
  match first with
  | (Ok v1, (r1, None)) =>
      negb (is_ok (third r1).1) &&
      match second r1 with (Ok v2, (r2, None)) => match third r2 with (Ok v3, (r3, None)) => true | _ => false end | _ => false end
  | _ => false
  end = true →
  ∃ v1 v2 v3 r1 r2 r3, first = (Ok v1, (r1, None)) ∧ second r1 = (Ok v2, (r2, None)) ∧ third r2 = (Ok v3, (r3, None)) ∧ is_ok (third r1).1 = false.
Proof.
  destruct first as [[v1| |] [r1 [|]]]; try done. intros [Hn%negb_true_iff Hr]%andb_prop.
  destruct (second r1) as [[v2| |] [r2 [|]]] eqn:E2; try done. destruct (third r2) as [[v3| |] [r3 [|]]] eqn:E3; try done.
  by exists v1, v2, v3, r1, r2, r3.
Qed.

End ApExample.
