(* ===== verification/Login.v ===== *)
(** * A login from end to end

    The client of ClientAs.v and the KDC of KdcServer.v, joined: each message the
    client sends is handled by the KDC at some moment, and the answer goes back.
    An honest client whose account is in order, whose key is that of the
    database and whose clock is near that of the KDC gets its ticket. *)

From S2P Require Import Prelude GoTime Principal GoStrings Lookaside Crypto Ulog Kdb Protocol Asn1 Wire Asn1Total Messages Cammac Transited Pac PacData KdcPolicy KdcCommon KdcTgs Spake Preauth KdcPreauth KdcAs KdcServer Fast ClientAs Ap.
Local Open Scope Z_scope.

Section login.
Context `{GoCryptoLaws} `{SpakeGroups} (fips : bool) {D : Type} `{Store D} (s : Server).
Context (md5_Sum : bytes → bytes) (hmac_md5 : bytes → bytes → bytes) (dec_time : Z → bytes).
Context (Authorize : Principal → Principal → bool → option HookError).
Context (CheckAllowedToDelegate : option (option Principal → Principal → option Principal → bool)).
Context (hooks : pac_hooks).

(** A KDC without registered modules, one-time passwords and PKINIT. *)
Definition kdc : bytes → moment → kdc_state D → option bytes * kdc_state D :=
  handleMessage fips s md5_Sum hmac_md5 dec_time Authorize CheckAllowedToDelegate (λ p, p) hooks [] no_otp no_pkinit.

(** The network: the moments at which the messages arrive are in the list. *)
Definition network (realm payload : bytes) (w : kdc_state D * list moment) : res bytes * (kdc_state D * list moment) :=
  match w with
  | (st, t :: ts) =>
      let '(response, st) := kdc payload t st in
      (match response with Some response => Ok response | None => Err "connection closed" end, (st, ts))
  | (st, []) => (Err "no answer", w)
  end.

(** Steps of the handler that succeed. *)
Lemma s_step {A B} (x : SE D A) k st a st1 (r : E B * as_state D) : x st = (inr a, st1) → k a st1 = r → s_bind x k st = r.
Proof. intros Hx <-. unfold s_bind. by rewrite Hx. Qed.
Lemma s_stop {A B} (x : SE D A) (k : A → SE D B) st e st1 : x st = (inl e, st1) → s_bind x k st = (inl e, st1).
Proof. intros Hx. unfold s_bind. by rewrite Hx. Qed.
Lemma s_lift_step {A B} (x : E A) k st a (r : E B * as_state D) : x = inr a → k a st = r → s_bind (s_lift x) k st = r.
Proof. by intros -> <-. Qed.
Lemma s_get_step {B} k st (r : E B * as_state D) : k st st = r → s_bind s_get k st = r.
Proof. by intros <-. Qed.
Lemma s_put_step {B} k st st' (r : E B * as_state D) : k tt st' = r → s_bind (s_put st') k st = r.
Proof. by intros <-. Qed.

Lemma e_step {A B} (x : E A) (k : A → E B) a r : x = inr a → k a = r → e_bind x k = r.
Proof. by intros -> <-. Qed.

(** Words of flags. *)
Definition word (z : Z) : Prop := 0 <= z < 2 ^ 32.
Lemma word_with a b : word a → word b → word (with_flags a b).
Proof. intros. by apply (lor_range 32). Qed.
Lemma word_without a b : word a → word (without a b).
Proof.
  unfold word. rewrite !(range_bits 32) by done. intros [Ha Hb]. unfold without. split; [apply Z.ldiff_nonneg; by left|].
  intros i Hi. by rewrite Z.ldiff_spec, Hb.
Qed.
Lemma word_if (b : bool) x y : word x → word y → word (if b then x else y).
Proof. by destruct b. Qed.
Lemma word_flag_if b flag flags : word flag → word flags → word (flag_if b flag flags).
Proof. intros. unfold flag_if. destruct b; [by apply word_with|done]. Qed.

(** The order of the method data. *)
Lemma take_first_perm kind data found rest : take_first kind data = Some (found, rest) → found :: rest ≡ₚ data.
Proof.
  revert rest. induction data as [|pa data IH]; intros rest; cbn [take_first]; [done|]. case_match; [by intros [= -> ->]|].
  destruct (take_first kind data) as [[f r]|]; [|done]. intros [= -> <-]. by rewrite <- (IH r eq_refl), Permutation_swap.
Qed.
Lemma sort_perm preferred data : sort_padata preferred data ≡ₚ data.
Proof.
  revert data. induction preferred as [|kind preferred IH]; intros data; cbn [sort_padata]; [done|].
  destruct (take_first kind data) as [[found rest]|] eqn:Ht; [|done]. rewrite IH. by apply take_first_perm with kind.
Qed.

(** One entry of the encryption types is chosen wherever it is. *)
Lemma preferred_entry entry pref :
  ei_EType entry ∈ pref → registered_id fips (ei_EType entry) = true →
  List.find (λ entry, registered_id fips (ei_EType entry)) (preferred_entries pref [entry]) = Some entry.
Proof.
  intros Hin Hr. unfold preferred_entries. destruct pref as [|p pref]; [by apply elem_of_nil in Hin|].
  induction (p :: pref) as [|q l IH]; [by apply elem_of_nil in Hin|]. rewrite bind_cons. destruct (Z.eq_dec (ei_EType entry) q) as [Hq|Hq].
  - rewrite filter_cons_True by done. cbn. by rewrite Hr.
  - rewrite filter_cons_False by done. apply IH. by apply elem_of_cons in Hin as [?|].
Qed.
Lemma select_entry info entry l realm name pref :
  PADataType info = PADataETypeInfo2 → Unmarshal (PADataValue info) = Ok [entry] → ei_EType entry ∈ pref →
  registered_id fips (ei_EType entry) = true → info ∈ l →
  (∀ pa, pa ∈ l → pa = info ∨ (PADataType pa ≠ PADataETypeInfo2 ∧ PADataType pa ≠ PADataETypeInfo)) →
  SelectEType fips l realm name pref =
    Ok (ei_EType entry, default (realm ++ strings_join [] (Components name)) (ei_Salt entry), ei_S2KParams entry).
Proof.
  intros Ht Hu Hp Hr. induction l as [|pa l IH]; intros Hin Hl; [by apply elem_of_nil in Hin|]. cbn [SelectEType].
  destruct (Hl pa (list_elem_of_here _ _)) as [-> | [N2 N1]].
  - unfold etype_entries. rewrite Ht, Hu. cbn [Z.eqb Pos.eqb PADataETypeInfo2 wrap_err res_bind].
    change (Some [entry] ≫= _) with (List.find (λ entry, registered_id fips (ei_EType entry)) (preferred_entries pref [entry])). by rewrite preferred_entry.
  - unfold etype_entries. pose proof N2 as E2. apply Z.eqb_neq in E2 as ->. apply Z.eqb_neq in N1 as ->. cbn [res_bind]. change (None ≫= _) with (@None ETypeInfo2Entry).
    apply IH; [|by intros; apply Hl; right]. apply elem_of_cons in Hin as [<-|]; [|done]. by rewrite Ht in N2.
Qed.

(** ** The account *)

(** The client [cr] may have a ticket for the service [sr]: their keys [ck] and
    [sk] of the type [id] are those the KDC selects. *)
Record in_order (now : Z) (db : D) (body : KDCReqBody) (client service : Principal) (cr sr : PrincipalRecord) (id : Z) (ck sk : Key) : Prop := {
  io_realm : s_Realm s ≠ [];
  io_body : b_CName body = Some (mkPName (NameType client) (Components client)) ∧
            b_SName body = Some (mkPName (NameType service) (Components service)) ∧
            b_Realm body = Realm client ∧ Realm service = Realm client ∧ Realm client ≠ [];
  io_client : st_Lookup db client = Ok (Some cr);
  io_service : st_Lookup db service = Ok (Some sr);
  io_unlocked : p_Policy cr = [];
  io_usable : validateASAccount now cr sr (b_KDCOptions body) = 0;
  io_password : has (p_Flags cr) RequiresHWAuth = false ∧ (s_DisablePreauth s = false ∨ has (p_Flags cr) RequiresPreAuth = true);
  io_options : has (b_KDCOptions body) KDCRequestAnonymous = false ∧ has (b_KDCOptions body) KDCPostdated = false;
  io_anonymous : restrictAnonymous s client service = false;
  io_authorized : Authorize client service true = None;
  io_indicators : TrimSpace (default [] (p_Strings sr !! str "require_auth")) = [];
  io_pac : s_EnablePAC s = false;
  io_keys : selectASKeys (b_EType body) cr sr = Some (id, ck, sk);
  io_registered : ∃ etype, Registry_Get fips id = Ok etype ∧ length (Key_Key ck) = etype_KeySize etype ∧ length (Key_Key sk) = etype_KeySize etype;
}.

Section kdc_side.
Context (now clock : Z) (draw : nat → nat → res bytes) (st : as_state D) (body : KDCReqBody) (client service : Principal) (cr sr : PrincipalRecord)
  (id : Z) (ck sk : Key).
Context (Hio : in_order now (as_db st) body client service cr sr id ck sk).

Definition context_for (pas : MethodData) : as_context :=
  mkCtx (mkReq 5 10 pas body) None false client client cr service sr id ck sk.

Lemma as_prepare_ok pas raw :
  findPA pas PAFXFast = None → findPA pas PADataPKASReq = None →
  as_prepare fips s [] no_otp no_pkinit (mkReq 5 10 pas body) raw now clock st = (inr (context_for pas), st).
Proof.
  intros Hf Hp. destruct Hio as [Hr (Hc & Hs & Hrealm & Hsr & Hne) Hl Hls Hpol Hu _ [Han _] Hra _ _ _ Hk _].
  assert (Hz : (zlen (b_Realm body) =? 0) = false) by (rewrite Hrealm; destruct (Realm client); [done|]; rewrite zlen_cons; pose proof (zlen_nonneg l); lia).
  assert (Hname : ∀ p, Realm p = Realm client → principalFromProtocol (mkPName (NameType p) (Components p)) (b_Realm body) = p)
    by (intros [] Hx; cbn in *; rewrite Hrealm, <- Hx; done).
  unfold as_prepare. eapply s_get_step. eapply s_lift_step.
  { unfold as_request, unwrapFASTASReq. cbn [r_ReqBody r_PVNO r_MsgType r_PAData]. rewrite Hc, Hs, Hz, Hf. reflexivity. }
  unfold as_principals, lookup_record. cbn [r_ReqBody]. rewrite Hc, Hs, Han. cbn [deref andb negb].
  eapply s_lift_step; [reflexivity|]. rewrite Hname by done. eapply s_lift_step; [reflexivity|]. eapply s_get_step.
  eapply s_lift_step; [unfold find_client, lookup_record; rewrite Hl; reflexivity|]. cbv beta iota zeta.
  eapply s_step.
  { unfold lockedOut, passwordPolicy. rewrite Hpol. cbn [zlen length Z.of_nat Z.eqb]. eapply s_put_step. eapply s_lift_step; [reflexivity|]. reflexivity. }
  eapply s_get_step. eapply s_lift_step; [reflexivity|]. rewrite Hname by done. rewrite Hra. eapply s_lift_step; [reflexivity|].
  cbn [as_db]. rewrite Hls. eapply s_lift_step; [reflexivity|]. eapply s_lift_step; [reflexivity|]. cbv beta iota zeta. rewrite Hu.
  eapply s_lift_step; [reflexivity|].
  eapply s_lift_step; [unfold select_keys; cbn [r_PAData r_ReqBody]; rewrite Hp, Hk; reflexivity|].
  cbv beta iota zeta. unfold s_ret, context_for. by destruct st.
Qed.

(** What a client without pre-authentication is told. *)
Definition hint_data : MethodData :=
  [mkPA PADataEncryptedTimestamp []] ++ (if s_EnableSPAKE s then [mkPA PADataSPAKE []] else []) ++
  [mkPA PADataETypeInfo2 (marshalDER [mkEInfo2 id (Some (principalSalt ck client)) []])].

Lemma key_id : Key_Enctype ck = id ∧ (id =? 0) = false ∧ Key_Enctype sk = id.
Proof.
  destruct Hio as [_ _ _ _ _ _ _ _ _ _ _ _ Hk (etype & He & _)]. assert (Hid : (id =? 0) = false) by (apply Z.eqb_neq; by intros ->).
  clear -Hk Hid. induction (b_EType body) as [|e l IH]; cbn in Hk; [done|]. repeat case_match; simplify_eq; auto.
Qed.

Lemma decide_hint raw :
  decide fips s Authorize [] no_otp no_pkinit now clock draw (context_for []) nothing_verified raw st =
    (inl (ErrorReply (mkError None kdcErrPreauthRequired (marshalDER hint_data) [])), st).
Proof.
  destruct key_id as (Hid & Hid0 & _). destruct Hio as [_ _ _ _ _ _ [Hhw Hpre] _ _ _ _ _ _ _].
  assert (Hreq : preauthRequired s [] (context_for []) = true).
  { unfold preauthRequired. cbn [context_for cx_clientRecord]. rewrite has_mask. destruct Hpre as [->| ->]; [done|]. by rewrite !orb_true_r. }
  unfold decide. cbn [nothing_verified ve_aggregate no_result vr_Authenticated context_for cx_anonymous cx_request r_PAData findPA List.find andb].
  change (otpEnabled no_otp) with false. cbn [andb]. unfold spake_or_after, requiresHWAuth.
  cbn [context_for cx_clientRecord cx_anonymous cx_request r_PAData findPA List.find]. rewrite Hhw, Hreq.
  unfold hint_data, spake_hint, after_spake, without_preauth, hint, etype_info.
  cbn [context_for cx_clientKey cx_etypeID cx_clientName cx_armor]. rewrite Hid, Hid0. destruct (s_EnableSPAKE s); cbn [andb negb].
  - reflexivity.
  - cbn [context_for cx_request r_PAData findPA List.find]. rewrite Hreq. reflexivity.
Qed.

(** The time stamp of the client is accepted. *)
Lemma decide_timestamp raw etype cipher plain t :
  let pas := [mkPA PADataEncryptedTimestamp cipher] in
  Registry_Get fips id = Ok etype → timestamp_cipher (context_for pas) cipher = cipher →
  etype_Decrypt etype (Key_Key ck) 1 cipher = Ok plain → Unmarshal plain = Ok (mkEncTS (at_time t) None) → withinSkew s now t = true →
  ∃ record st', decide fips s Authorize [] no_otp no_pkinit now clock draw (context_for pas) nothing_verified raw st =
    (inr (mkASGrant (set_clientRecord (context_for pas) record) id ck true None [] [] false [] (str "enc-timestamp")), st').
Proof.
  intros pas He Hc Hd Hu Hw. destruct Hio as [_ _ _ _ _ Hval [Hhw _] _ _ Hauth _ _ _ _].
  assert (Hpw : passwordExpiredForService now cr sr = false).
  { unfold validateASAccount in Hval. by repeat case_match. }
  destruct (recordPreauthSuccess (as_db st) now clock client cr) as [record db'] eqn:Hrs. exists record, (mkState db' (as_spakeKey st)).
  assert (F : findPA pas PADataRequest = None ∧ findPA pas PADataEncryptedChallenge = None ∧ findPA pas PADataSPAKE = None ∧
    findPA pas PADataPKASReq = None ∧ findPA pas PADataEncryptedTimestamp = Some (mkPA PADataEncryptedTimestamp cipher)) by done.
  destruct F as (FR & FC & FS & FP & FT). unfold decide, spake_or_after, after_spake.
  change (r_PAData (cx_request (context_for pas))) with pas. rewrite FR, FC, FS, FP, FT. change (otpEnabled no_otp) with false.
  cbn [nothing_verified ve_aggregate no_result vr_Authenticated context_for cx_anonymous andb].
  change (negb (bool_decide (is_Some (Some (mkPA PADataEncryptedTimestamp cipher))))) with false. rewrite !andb_false_r. cbn [andb].
  unfold by_timestamp. cbn [PADataValue cx_etypeID context_for cx_clientKey cx_clientRecord cx_serviceRecord cx_armor cx_clientName cx_serviceName].
  eapply s_lift_step; [rewrite He; reflexivity|]. fold (context_for pas). rewrite Hc, Hd, Hpw.
  eapply s_lift_step; [rewrite Hu; reflexivity|]. cbn [ts_PATimestamp at_time Present Time]. rewrite Hw.
  eapply s_lift_step; [reflexivity|]. eapply s_lift_step; [reflexivity|].
  eapply s_lift_step; [unfold authorize, authorizationError; cbn [context_for cx_clientName cx_serviceName]; rewrite Hauth; reflexivity|].
  eapply s_lift_step; [unfold requiresHWAuth; cbn [context_for cx_clientRecord]; rewrite Hhw; reflexivity|].
  eapply s_step; [unfold record_success; cbn [context_for cx_clientName cx_clientRecord]; rewrite Hrs; reflexivity|].
  eapply s_lift_step; [reflexivity|]. reflexivity.
Qed.

(** *** The ticket *)

(** The times of a ticket: from the second [now] falls in, for at most the
    life the server allows. *)
Definition server_life : Z := Z.max (if s_MaxTicketLife s <=? 0 then 10 * hour else s_MaxTicketLife s) (s_MaxRenewableLife s).
Definition ticket_time (now : Z) (t : KerberosTime) : Prop :=
  ∃ z, t = at_time (truncate_s z) ∧ truncate_s now <= z <= now + server_life.

Lemma end_time till client_record :
  ticket_time now (ticketEndFromRecords s till (truncate_s now) client_record (Some sr)).
Proof.
  pose proof (truncate_s_le now). destruct (ticket_end_spec s till (truncate_s now) client_record (Some sr)) as (e & He & Hb & _).
  exists e. split; [unfold ticketEndFromRecords in *; cbn [Time at_time] in He; by rewrite He|].
  pose proof (limit_by_le (limit_by (if s_MaxTicketLife s <=? 0 then 10 * hour else s_MaxTicketLife s) (p_MaxLife <$> client_record)) (p_MaxLife <$> Some sr)).
  pose proof (limit_by_le (if s_MaxTicketLife s <=? 0 then 10 * hour else s_MaxTicketLife s) (p_MaxLife <$> client_record)).
  unfold max_life in Hb. unfold server_life. lia.
Qed.
Lemma renew_time options requested till end_ client_record t :
  renewTillRecords s options requested till (truncate_s now) end_ client_record (Some sr) = Some t → ticket_time now t.
Proof.
  pose proof (truncate_s_le now). intros Ht. destruct (renew_till_spec _ _ _ _ _ _ _ _ _ Ht) as (target & Htt & Hlt & Hcap & _).
  exists target. split.
  - unfold renewTillRecords in Ht. repeat case_match; simplify_eq; cbn [Time at_time] in Htt; by rewrite Htt.
  - pose proof (limit_by_le (limit_by (s_MaxRenewableLife s) (p_MaxRenew <$> client_record)) (p_MaxRenew <$> Some sr)).
    pose proof (limit_by_le (s_MaxRenewableLife s) (p_MaxRenew <$> client_record)). unfold server_life. lia.
Qed.

Lemma policy_word flags c r : word flags → word (applyPrincipalFlagPolicy (applyFlagPolicy s flags) c r).
Proof.
  intros Hf. unfold applyPrincipalFlagPolicy, applyFlagPolicy. cbv zeta.
  destruct (s_Policy s); repeat first [assumption|apply word_if|apply word_without].
Qed.

Definition timestamp_grant (pas : MethodData) (record : PrincipalRecord) : as_grant :=
  mkASGrant (set_clientRecord (context_for pas) record) id ck true None [] [] false [] (str "enc-timestamp").
Lemma as_times_ok pas record :
  ∃ flags end_ renew,
    as_times s (timestamp_grant pas record) [] now = inr (flags, at_time (truncate_s now), end_, renew) ∧
    word flags ∧ ticket_time now end_ ∧ (∀ t, renew = Some t → ticket_time now t).
Proof.
  destruct Hio as [_ _ _ _ _ _ _ [Han Hpo] _ _ _ _ _ _]. unfold as_times.
  cbn [timestamp_grant ag_context set_clientRecord context_for cx_request r_ReqBody ag_hwAuthenticated ag_preauthenticated cx_clientRecord cx_serviceRecord cx_armor].
  rewrite Han, Hpo. cbn [e_bind apply_policies Time at_time].
  do 3 eexists. split; [reflexivity|]. split_and!.
  - repeat first [apply policy_word|apply word_flag_if|apply word_if|apply word_without]; by vm_compute.
  - apply end_time.
  - intros t Ht. repeat case_match; try done; by eapply renew_time.
Qed.

(** What the KDC issues: the parts for the service and for the client. *)
Definition ticket_part (session : bytes) (flags : Z) (end_ : KerberosTime) (renew : option KerberosTime) : EncTicketPart :=
  mkTicketPart flags (mkEKey id session) (Realm client) (protocolPrincipal client) (mkTransited 0 []) (at_time (truncate_s now))
    (Some (at_time (truncate_s now))) end_ renew [] [].
Definition rep_part (session : bytes) (flags : Z) (end_ : KerberosTime) (renew : option KerberosTime) : EncKDCRepPart :=
  mkRepPart (mkEKey id session) [mkLastReq 0 (at_time (truncate_s now))] (b_Nonce body) None flags (at_time (truncate_s now))
    (Some (at_time (truncate_s now))) end_ renew (Realm client) (protocolPrincipal service) [].
Definition as_reply (ticketCipher replyCipher : bytes) : KDCRep :=
  mkRep 5 11 [] (Realm client) (protocolPrincipal client)
    (mkTicket 5 (Realm client) (protocolPrincipal service) (mkEnc id (Some (Key_KVNO sk)) ticketCipher)) (mkEnc id None replyCipher).

Lemma as_ticket_part_ok db pas record session flags end_ renew conf :
  as_ticket_part fips s (λ p, p) hooks db (timestamp_grant pas record) session (flags, at_time (truncate_s now), end_, renew) now conf =
    inr (ticket_part session flags end_ renew).
Proof.
  destruct Hio as [_ _ _ _ _ _ _ _ _ _ _ Hpac _ _]. unfold as_ticket_part, issuePACWithOptions. rewrite Hpac. by destruct (has flags TicketAnonymous).
Qed.

Lemma build_ok db pas record etype session c1 c2 :
  Registry_Get fips id = Ok etype → draw 0%nat (etype_KeySize etype) = Ok session →
  draw 1%nat 16%nat = Ok c1 → length c1 = 16%nat → draw 2%nat 16%nat = Ok c2 → length c2 = 16%nat →
  ∃ flags end_ renew tc rc,
    buildASRepWithPreauth fips s (λ p, p) hooks db (timestamp_grant pas record) draw [] now =
      inr (mkASIssued (ticket_part session flags end_ renew) sk (rep_part session flags end_ renew) (as_reply tc rc) None ck) ∧
    word flags ∧ ticket_time now end_ ∧ (∀ t, renew = Some t → ticket_time now t) ∧
    etype_Decrypt etype (Key_Key sk) 2 tc = Ok (marshalDER (ticket_part session flags end_ renew)) ∧
    etype_Decrypt etype (Key_Key ck) 3 rc = Ok (marshalDER (H := enc_as_rep_part_der) (rep_part session flags end_ renew)) ∧
    zlen tc <= zlen (marshalDER (ticket_part session flags end_ renew)) + 40 ∧
    zlen rc <= zlen (marshalDER (H := enc_as_rep_part_der) (rep_part session flags end_ renew)) + 40.
Proof.
  intros He Hd0 Hd1 Hc1 Hd2 Hc2. destruct (as_times_ok pas record) as (flags & end_ & renew & Ht & Hw & Hend & Hren).
  destruct key_id as (Hck & _ & Hsk). destruct Hio as [_ (_ & Hsn & Hrealm & Hsr & _) _ _ _ _ _ _ _ _ Hind Hpac _ (etype' & He' & Lck & Lsk)].
  rewrite He in He'. injection He' as <-. assert (Hreg : registered etype) by (by exists fips, id).
  destruct (seal_ok etype c1 (Key_Key sk) 2 (marshalDER (ticket_part session flags end_ renew)) Hreg Lsk Hc1) as (tc & Et & Dt & Lt).
  destruct (seal_ok etype c2 (Key_Key ck) 3 (marshalDER (H := enc_as_rep_part_der) (rep_part session flags end_ renew)) Hreg Lck Hc2) as (rc & Er & Dr & Lr).
  exists flags, end_, renew, tc, rc. split; [|done]. unfold buildASRepWithPreauth.
  change (ag_etypeID (timestamp_grant pas record)) with id.
  eapply e_step; [unfold requireAuthError; cbn [timestamp_grant ag_context set_clientRecord context_for cx_serviceRecord]; rewrite Hind; reflexivity|].
  eapply e_step; [rewrite He; reflexivity|]. eapply e_step; [rewrite Hd0; reflexivity|]. eapply e_step; [exact Ht|].
  eapply e_step; [reflexivity|]. cbv beta iota. eapply e_step; [by apply as_ticket_part_ok|].
  cbn [timestamp_grant ag_context set_clientRecord context_for cx_serviceKey cx_request r_ReqBody ag_clientKey ag_replyEncryptionKey].
  eapply e_step; [unfold encryptWithKey; rewrite Hsk, He, Hd1; cbn [res_bind]; rewrite Et; reflexivity|].
  eapply e_step; [rewrite Hsn; reflexivity|]. eapply e_step; [reflexivity|]. cbv beta iota zeta. eapply e_step; [reflexivity|].
  eapply e_step; [unfold encryptWithKey; rewrite Hck, He, Hd2, Hrealm; exact (f_equal (orelse None kdcErrGeneric) Er)|].
  unfold as_reply. rewrite Hck, Hrealm. reflexivity.
Qed.

(** *** The messages *)

Lemma kdc_as d request r l :
  Unmarshal (Der := as_req_der) d = Ok request →
  kdc d (mkMoment now clock draw []) (mkKdcState st r l) =
    let '(response, as_st) := handleASReq fips s Authorize (λ p, p) hooks [] no_otp no_pkinit request d now clock draw [] st in
    (response, mkKdcState as_st r l).
Proof.
  intros Hu. destruct Hio as [Hr _ _ _ _ _ _ _ _ _ _ _ _ _]. unfold kdc, handleMessage.
  assert (Hz : (zlen (s_Realm s) =? 0) = false) by (destruct (s_Realm s); [done|]; rewrite zlen_cons; pose proof (zlen_nonneg l0); lia).
  rewrite Hz. destruct d as [|b d]; [done|].
  pose proof (of_der_app_tag (kdcReq_codec TagASReq) request 10 _ b d eq_refl Hu) as Ht. rewrite Ht. cbn [app_tag].
  change (app_tag 10 =? 0x6a) with true. rewrite Hu. done.
Qed.

Definition hint_error (now : Z) : KRBError :=
  mkKrbError 5 30 None None (at_time now) (nanosecond now / 1000) kdcErrPreauthRequired None None (s_Realm s) (protocolPrincipal service) None
    (marshalDER hint_data).
Lemma no_modules pas : verifyPreauthModules [] (make_rock (context_for pas)) pas = Ok nothing_verified.
Proof.
  unfold verifyPreauthModules. set (l := _ ≫= _). assert (Hl : l = []); [|by rewrite Hl].
  subst l. induction pas as [|pa pas IH]; [done|]. rewrite bind_cons, IH, app_nil_r. by case_match.
Qed.
Lemma decided d pas g st' :
  findPA pas PAFXFast = None → findPA pas PADataPKASReq = None →
  decide fips s Authorize [] no_otp no_pkinit now clock draw (context_for pas) nothing_verified d st = (g, st') →
  as_decide fips s Authorize [] no_otp no_pkinit (mkReq 5 10 pas body) d now clock draw st = (g, st').
Proof. intros Hf Hp Hd. unfold as_decide. eapply s_step; [by apply as_prepare_ok|]. eapply s_lift_step; [|exact Hd]. cbn [context_for cx_request r_PAData]. fold (context_for pas). by rewrite no_modules. Qed.

Lemma kdc_hint d r l :
  Unmarshal (Der := as_req_der) d = Ok (mkReq 5 10 [] body) →
  kdc d (mkMoment now clock draw []) (mkKdcState st r l) = (Some (marshalDER (hint_error now)), mkKdcState st r l).
Proof.
  intros Hu. rewrite (kdc_as d _ r l Hu). unfold handleASReq, handleASReqCore.
  assert (Hn : as_named_request fips s (as_db st) (mkReq 5 10 [] body) d now = mkReq 5 10 [] body)
    by (unfold as_named_request, as_request; by destruct (require _ _ _) as [|[]]).
  rewrite (s_stop _ _ _ _ _ (decided d [] _ _ eq_refl eq_refl (decide_hint d))), Hn. cbn [r_ReqBody].
  destruct Hio as [_ (_ & -> & _) _ _ _ _ _ _ _ _ _ _ _ _]. done.
Qed.

Lemma kdc_grant d r l cipher g st' issued :
  Unmarshal (Der := as_req_der) d = Ok (mkReq 5 10 [mkPA PADataEncryptedTimestamp cipher] body) →
  decide fips s Authorize [] no_otp no_pkinit now clock draw (context_for [mkPA PADataEncryptedTimestamp cipher]) nothing_verified d st = (inr g, st') →
  buildASRepWithPreauth fips s (λ p, p) hooks (as_db st') g draw [] now = inr issued → ai_armor issued = None →
  kdc d (mkMoment now clock draw []) (mkKdcState st r l) = (Some (marshalDER (H := as_rep_der) (ai_reply issued)), mkKdcState st' r l).
Proof.
  intros Hu Hd Hb Ha. rewrite (kdc_as d _ r l Hu). unfold handleASReq, handleASReqCore.
  rewrite (s_step _ _ _ _ _ (inr issued, st') (decided d [mkPA PADataEncryptedTimestamp cipher] _ _ eq_refl eq_refl Hd)).
  - by rewrite Ha.
  - eapply s_get_step. unfold s_lift. by rewrite Hb.
Qed.

(** *** The parts as they are read *)

Context (Hbody : body_ok body) (Hsmall : body_size body < 2 ^ 20) (Hnow : 0 <= now) (Hlife : now + server_life < last_instant).
Context (Hkvno : 0 <= Key_KVNO sk < 2 ^ 32).

Lemma whole_ok t : 0 <= t < last_instant → time_ok (at_time (truncate_s t)) = true.
Proof. intros Ht. rewrite truncate_whole. apply calendar_time, whole_time_range; [apply whole_time_mod|done]. Qed.
Lemma server_life_pos : 0 < server_life.
Proof. unfold server_life. destruct (Z.leb_spec (s_MaxTicketLife s) 0); unfold hour, minute, second in *; lia. Qed.
Lemma ticket_time_ok t : ticket_time now t → time_ok t = true.
Proof.
  intros (z & -> & Hz). apply whole_ok. rewrite truncate_whole in Hz. pose proof server_life_pos.
  pose proof (whole_time_range now ltac:(lia)). lia.
Qed.
Lemma names_ok : name_ok (protocolPrincipal client) ∧ name_ok (protocolPrincipal service) ∧
  name_size (protocolPrincipal client) + name_size (protocolPrincipal service) + zlen (Realm client) + 256 <= body_size body.
Proof.
  destruct Hio as [_ (Hc & Hs & Hr & _) _ _ _ _ _ _ _ _ _ _ _ _]. destruct Hbody as [_ (cn & Hc' & Hcn) (sn & Hs' & Hsn) _ _ _ _ _].
  rewrite Hc in Hc'. rewrite Hs in Hs'. injection Hc' as <-. injection Hs' as <-. split_and!; [done..|].
  unfold body_size, names_size. rewrite Hc, Hs, Hr. change (mkPName (NameType client) _) with (protocolPrincipal client).
  change (mkPName (NameType service) _) with (protocolPrincipal service).
  pose proof (sum_size_nonneg addr_size (b_Addresses body) ltac:(intros x; unfold addr_size; pose proof (zlen_nonneg (Address x)); lia)). lia.
Qed.
Lemma id_ok : - 2 ^ 31 <= id < 2 ^ 31.
Proof. destruct Hio as [_ _ _ _ _ _ _ _ _ _ _ _ _ (etype & He & _)]. by eapply enctype_range. Qed.

(** The authenticated parts are read as they were written. *)
Lemma parts_read session flags end_ renew :
  word flags → ticket_time now end_ → (∀ t, renew = Some t → ticket_time now t) → zlen session <= 64 →
  Unmarshal (marshalDER (ticket_part session flags end_ renew)) = Ok (ticket_part session flags end_ renew) ∧
  zlen (marshalDER (ticket_part session flags end_ renew)) < 2 ^ 20 + 2 ^ 10 ∧
  Unmarshal (Der := enc_as_rep_part_der) (marshalDER (H := enc_as_rep_part_der) (rep_part session flags end_ renew)) =
    Ok (rep_part session flags end_ renew) ∧
  zlen (marshalDER (H := enc_as_rep_part_der) (rep_part session flags end_ renew)) < 2 ^ 20 + 2 ^ 10 ∧
  as_part_tag (marshalDER (H := enc_as_rep_part_der) (rep_part session flags end_ renew)) =
    marshalDER (H := enc_as_rep_part_der) (rep_part session flags end_ renew).
Proof.
  intros Hf He Hr Hs. destruct names_ok as (Hcn & Hsn & Hsz). pose proof id_ok as Hid. pose proof server_life_pos.
  pose proof (name_size_pos (protocolPrincipal client)). pose proof (name_size_pos (protocolPrincipal service)). pose proof (zlen_nonneg (Realm client)).
  assert (Hn : time_ok (at_time (truncate_s now)) = true) by (apply whole_ok; lia). apply ticket_time_ok in He.
  assert (Hren : renew_ok renew) by (destruct renew; [by apply ticket_time_ok, Hr|done]).
  destruct (encoded_fits encTicketPart_codec (ticket_part session flags end_ renew) _ ltac:(by vm_compute)
    (fits_ticket_part flags (mkEKey id session) (Realm client) (protocolPrincipal client) _ _ end_ renew Hf Hid Hcn Hn Hn He Hren)) as (dt & Hdt & Ot & Lt).
  { cbn [KeyValue]. lia. }
  destruct (encoded_fits (encKDCRepPart_codec TagEncASRepPart) (rep_part session flags end_ renew) _ ltac:(by vm_compute)
    (fits_rep_part _ (mkEKey id session) (b_Nonce body) flags _ _ end_ renew (Realm client) (protocolPrincipal service) Hid (bo_nonce _ Hbody) Hf Hn Hn He Hren Hsn))
    as (dr & Hdr & Or & Lr).
  { cbn [KeyValue]. lia. }
  cbn [KeyValue] in *. unfold marshalDER. cbn [Marshal enc_ticket_part_der enc_as_rep_part_der codec_der Unmarshal]. rewrite Hdt, Hdr. split_and!; [done|lia|done|lia|].
  by destruct (to_der_app_tag (encKDCRepPart_codec TagEncASRepPart) _ 25 _ dr eq_refl Hdr) as (rest & ->).
Qed.

Lemma reply_read tc rc :
  zlen tc < 2 ^ 22 → zlen rc < 2 ^ 22 →
  let d := marshalDER (H := as_rep_der) (as_reply tc rc) in
  Unmarshal (Der := as_rep_der) d = Ok (as_reply tc rc) ∧ decodeKRBError d = None ∧ as_part_tag d = d ∧
  ∃ ticketDER, Marshal (rep_Ticket (as_reply tc rc)) = Ok ticketDER ∧ Unmarshal ticketDER = Ok (rep_Ticket (as_reply tc rc)).
Proof.
  intros Lt Lr d. destruct names_ok as (Hcn & Hsn & Hsz). pose proof id_ok as Hid.
  pose proof (name_size_pos (protocolPrincipal client)). pose proof (name_size_pos (protocolPrincipal service)). pose proof (zlen_nonneg (Realm client)).
  assert (Ht : ticket_ok (rep_Ticket (as_reply tc rc))) by (by split_and!).
  assert (Hz : ticket_size (rep_Ticket (as_reply tc rc)) < 2 ^ 23) by (unfold ticket_size, enc_size; cbn; lia).
  destruct (encoded_fits ticket_codec _ _ ltac:(by vm_compute) (fits_ticket _ Ht) ltac:(lia)) as (td & Htd & Otd & _).
  assert (He : enc_ok (rep_EncPart (as_reply tc rc))) by (by split).
  destruct (encoded_fits (kdcRep_codec TagASRep) (as_reply tc rc) _ ltac:(by vm_compute)
    (fits_rep _ (Realm client) (protocolPrincipal client) (rep_Ticket (as_reply tc rc)) (rep_EncPart (as_reply tc rc)) Hcn Ht He)) as (rd & Hrd & Ord & _).
  { unfold enc_size. cbn [as_reply rep_EncPart ed_Cipher] in *. lia. }
  assert (Hd : d = rd) by (subst d; unfold marshalDER; cbn [Marshal as_rep_der codec_der]; by rewrite Hrd). clearbody d. subst d.
  destruct (to_der_app_tag (kdcRep_codec TagASRep) _ 11 _ rd eq_refl Hrd) as (rest & ->). split_and!; [exact Ord| | |by exists td].
  - unfold decodeKRBError. destruct (Unmarshal _) as [e| |] eqn:Hu; [|done..].
    by pose proof (of_der_app_tag krbError_codec e 30 _ _ _ eq_refl Hu).
  - done.
Qed.

(** *** The reply at the client *)

Lemma id_requested : id ∈ b_EType body.
Proof.
  destruct Hio as [_ _ _ _ _ _ _ _ _ _ _ _ Hk _]. clear -Hk. induction (b_EType body) as [|e l IH]; cbn in Hk; [done|].
  repeat case_match; simplify_eq; set_solver.
Qed.

Lemma times_valid {X} (c : Client X) nowC session flags end_ renew :
  ticket_time now end_ → whole_time now <= nowC + clockSkew c → nowC - clockSkew c <= whole_time now →
  let part := rep_part session flags end_ renew in
  validTimes (ep_AuthTime part) (ep_StartTime part) (ep_EndTime part) nowC (clockSkew c) = true.
Proof.
  intros (z & -> & Hz & _) Hlate Hearly part. subst part. unfold validTimes. cbn [rep_part ep_AuthTime ep_StartTime ep_EndTime at_time Present Time andb].
  apply truncate_s_mono in Hz. rewrite !truncate_whole in *. rewrite (whole_time_id (whole_time now)) in Hz by apply whole_time_mod. lia.
Qed.

Definition credentials (session : bytes) (flags : Z) (end_ : KerberosTime) (renew : option KerberosTime) (ticketDER : bytes) : Credentials :=
  mkCredentials client service (mkEKey id session) flags (at_time (truncate_s now)) (Some (at_time (truncate_s now))) end_ renew ticketDER.
Lemma reply_decoded {X} (c : Client X) nowC etype session flags end_ renew tc rc :
  Registry_Get fips id = Ok etype → word flags → ticket_time now end_ → (∀ t, renew = Some t → ticket_time now t) → zlen session <= 64 →
  etype_Decrypt etype (Key_Key ck) 3 rc = Ok (marshalDER (H := enc_as_rep_part_der) (rep_part session flags end_ renew)) →
  zlen tc <= zlen (marshalDER (ticket_part session flags end_ renew)) + 40 →
  zlen rc <= zlen (marshalDER (H := enc_as_rep_part_der) (rep_part session flags end_ renew)) + 40 →
  whole_time now <= nowC + clockSkew c → nowC - clockSkew c <= whole_time now →
  ∃ ticketDER,
    decodeASRepForService fips c (marshalDER (H := as_rep_der) (as_reply tc rc)) client service (b_Nonce body) id (Key_Key ck) nowC =
      inr (credentials session flags end_ renew ticketDER) ∧ Unmarshal ticketDER = Ok (rep_Ticket (as_reply tc rc)).
Proof.
  intros He Hf Hend Hren Hs Hd Lt Lr Hlate Hearly. destruct (parts_read session flags end_ renew Hf Hend Hren Hs) as (_ & Zt & Ur & Zr & Tr).
  destruct (reply_read tc rc ltac:(lia) ltac:(lia)) as (Hu & _ & Hp & td & Hm & Hum). exists td. split; [|done].
  destruct Hio as [_ (_ & _ & _ & Hsr & _) _ _ _ _ _ _ _ _ _ _ _ _].
  unfold decodeASRepForService. rewrite Hp, Hu. cbn [as_reply rep_MsgType rep_CRealm rep_CName rep_EncPart ed_EType ed_Cipher rep_Ticket t_Realm t_SName Z.eqb Pos.eqb negb].
  assert (Hsame : ∀ p, samePrincipal (protocolPrincipal p) p = true) by (intros p; unfold samePrincipal; cbn; by rewrite Z.eqb_refl, bool_decide_true).
  rewrite bytes_eqb_refl, !Hsame, Z.eqb_refl, He. cbn [negb andb orb res_bind]. rewrite Hd. cbn [wrap_err res_bind]. rewrite Tr, Ur. cbn [wrap_err res_bind].
  change (ep_Nonce (rep_part session flags end_ renew)) with (b_Nonce body). change (ep_SRealm (rep_part session flags end_ renew)) with (Realm client).
  change (ep_SName (rep_part session flags end_ renew)) with (protocolPrincipal service). rewrite Z.eqb_refl, Hsr, bytes_eqb_refl, Hsame. cbn [negb orb].
  rewrite times_valid by done. cbn [as_reply rep_Ticket] in Hm. rewrite Hm. unfold credentials. cbn. rewrite <- Hsr at 2. by destruct client, service.
Qed.

(** The error tells the client the type of its key and its salt. *)
Context (Hrealm : zlen (s_Realm s) < 2 ^ 20) (Hsalt : zlen (principalSalt ck client) < 2 ^ 20).
Definition salt_info : PAData := mkPA PADataETypeInfo2 (marshalDER [mkEInfo2 id (Some (principalSalt ck client)) []]).
Lemma hint_read :
  (∃ e, decodeKRBError (marshalDER (hint_error now)) = Some e ∧ err_ErrorCode e = 25 ∧ ParseMethodData (err_EData e) = Ok hint_data) ∧
  Unmarshal (PADataValue salt_info) = Ok [mkEInfo2 id (Some (principalSalt ck client)) []].
Proof.
  destruct names_ok as (_ & Hsn & Hsz). pose proof (name_size_pos (protocolPrincipal client)). pose proof (zlen_nonneg (Realm client)). pose proof server_life_pos.
  destruct (encoded_fits (slice eTypeInfo2Entry_codec) _ _ ltac:(by vm_compute) (fits_etype_info id (principalSalt ck client) id_ok) ltac:(lia)) as (di & Hdi & Oi & Li).
  assert (Hi : PADataValue salt_info = di) by (unfold salt_info, marshalDER; cbn [PADataValue Marshal etype_info2_der codec_der]; by rewrite Hdi).
  split; [|rewrite Hi; exact Oi].
  assert (Hpas : Forall pa_ok hint_data) by (unfold hint_data; destruct (s_EnableSPAKE s); repeat constructor; by vm_compute).
  assert (Hps : sum_size pa_size hint_data < 2 ^ 21).
  { unfold hint_data. fold salt_info. destruct (s_EnableSPAKE s); unfold sum_size, pa_size; cbn [app foldr]; rewrite Hi; cbn [PADataValue]; change (zlen []) with 0; lia. }
  destruct (encoded_fits (slice paData_codec) hint_data _ ltac:(by vm_compute) (fits_method_data _ Hpas) ltac:(lia)) as (dm & Hdm & Om & Lm).
  assert (Hm : marshalDER hint_data = dm) by (unfold marshalDER; cbn [Marshal method_data_der codec_der]; by rewrite Hdm).
  destruct (error_received now (nanosecond now / 1000) kdcErrPreauthRequired (s_Realm s) (protocolPrincipal service) (marshalDER hint_data)) as (de & Hde & Oe).
  - lia.
  - unfold nanosecond, second. Z.to_euclidean_division_equations; lia.
  - done.
  - done.
  - unfold error_size. cbn [err_Realm err_SName err_EData]. rewrite Hm. lia.
  - eexists. unfold decodeKRBError, marshalDER at 1, hint_error. rewrite Hde, Oe. split_and!; [done|done|].
    cbn [err_EData]. rewrite Hm. change (wrap_err "parse METHOD-DATA: " (of_der (slice paData_codec) dm) = Ok hint_data). by rewrite Om.
Qed.
End kdc_side.

(** ** The client *)

Lemma n_step {W A B} (x : NE W A) k w a w1 (r : (client_error + B) * W) : x w = (inr a, w1) → k a w1 = r → n_bind x k w = r.
Proof. intros Hx <-. unfold n_bind. by rewrite Hx. Qed.
Lemma n_res_step {W A B} (x : res A) k w a (r : (client_error + B) * W) : x = Ok a → k a w = r → n_bind (n_res x) k w = r.
Proof. by intros -> <-. Qed.
Lemma n_require_step {W B} (b : bool) message k w (r : (client_error + B) * W) : b = true → k tt w = r → n_bind (n_require b message) k w = r.
Proof. by intros -> <-. Qed.
Lemma roundTrip_ok realm request d t ts st response st' :
  Marshal (Der := as_req_der) request = Ok d → kdc d t st = (Some response, st') →
  roundTrip network realm request (st, t :: ts) = (inr response, (st', ts)).
Proof. intros Hm Hk. unfold roundTrip. eapply n_res_step; [by rewrite Hm|]. cbn [network]. by rewrite Hk. Qed.

Section client_side.
Context {X : Type} (x0 : X) (c : Client X) (client service : Principal) (entry : option (Z * bytes)) (password : bytes).
Context (nowC : Z) (drawC : nat → nat → res bytes).

(** What a request says. *)
Lemma request_shape request :
  newASReqForService fips c client service nowC (drawC 0%nat 4%nat) = Ok request →
  request = mkReq 5 10 [] (r_ReqBody request) ∧ b_EType (r_ReqBody request) = asRequestEnctypes fips c ∧ ∃ t, b_Till (r_ReqBody request) = at_time t.
Proof.
  unfold newASReqForService. destruct (drawC 0%nat 4%nat) as [n| |]; [|done..]. cbn [wrap_err res_bind]. intros Hr. apply Ok_inj in Hr as <-.
  split_and!; [done..|by eexists].
Qed.

Lemma initial_ok id : id ∈ asRequestEnctypes fips c →
  ∃ id0 etype0, initial_etype fips (asRequestEnctypes fips c) = Some (id0, etype0) ∧ Registry_Get fips id0 = Ok etype0.
Proof.
  intros Hid. unfold initial_etype. destruct (asRequestEnctypes fips c) as [|id0 l] eqn:Ha; [by apply elem_of_nil in Hid|].
  assert (Hin : id0 ∈ asRequestEnctypes fips c) by (rewrite Ha; left). unfold asRequestEnctypes, supportedRequestEnctypes in Hin.
  apply list_elem_of_filter in Hin as [Hr _]. exists id0. destruct (Registry_Get fips id0) as [e| |] eqn:Hg; [|done..]. exists e. cbn. by rewrite Hg.
Qed.

(** The client knows the key [key] of type [id]: it is in its keytab, or that
    of its password and its salt. *)
Definition knows (etype : EType) (id : Z) (salt key : bytes) : Prop :=
  match entry with
  | Some (enctype, k) => enctype = id ∧ k = key
  | None => StringToKey etype password salt [] = Ok key
  end.
Lemma initial_key_ok etype id salt key id0 etype0 :
  Registry_Get fips id = Ok etype → Registry_Get fips id0 = Ok etype0 → knows etype id salt key →
  ∃ first, match entry with
           | Some (enctype, key) => if negb (enctype =? id0) then res_bind (Registry_Get fips enctype) (λ _, Ok (enctype, key)) else Ok (id0, key)
           | None => res_bind (string_to_key "AS service exchange" etype0 password (default_salt client) []) (λ key, Ok (id0, key))
           end = Ok first.
Proof.
  intros He He0. unfold knows. destruct entry as [[enctype k]|].
  - intros [-> ->]. rewrite He. by destruct (negb _); eexists.
  - intros _. pose proof (string_to_key_total etype0 password (default_salt client) [] ltac:(by exists fips, id0)) as Ht.
    cbn [parseIterations zlen length] in Ht. destruct Ht as (_ & k & Hk & _). unfold string_to_key. rewrite Hk. by eexists.
Qed.

(** ** The exchange *)

Context (t1 t2 : moment) (st : as_state D) (r : replays) (l : lookasideCache).
Context (request : KDCReq) (cr sr : PrincipalRecord) (id : Z) (ck sk : Key) (etype : EType).
Abbreviation body := (received (r_ReqBody request)).

(** The account, the keys and the clocks are in order, at both moments. *)
Record login_ready : Prop := {
  lr_principals : valid_client client = true ∧ NameType service ≠ 0 ∧ Components service ≠ [];
  lr_no_modules : c_PreauthModules c = [] ∧ mo_modules t1 = [] ∧ mo_modules t2 = [];
  lr_request : newASReqForService fips c client service nowC (drawC 0%nat 4%nat) = Ok request;
  lr_body : body_ok body ∧ body_size body < 2 ^ 20;
  lr_etype : Registry_Get fips id = Ok etype;
  lr_key : knows etype id (principalSalt ck client) (Key_Key ck);
  lr_account : ∀ t, t = t1 ∨ t = t2 →
    in_order (mo_now t) (as_db st) body client service cr sr id ck sk ∧ 0 <= mo_now t ∧ mo_now t + server_life < last_instant;
  lr_sizes : zlen (s_Realm s) < 2 ^ 20 ∧ zlen (principalSalt ck client) < 2 ^ 20 ∧ 0 <= Key_KVNO sk < 2 ^ 32;
  lr_random : (∃ conf, drawC 1%nat 16%nat = Ok conf ∧ length conf = 16%nat) ∧
    (∃ session, mo_draw t2 0%nat (etype_KeySize etype) = Ok session ∧ length session = etype_KeySize etype) ∧
    (∃ c1 c2, mo_draw t2 1%nat 16%nat = Ok c1 ∧ mo_draw t2 2%nat 16%nat = Ok c2 ∧ length c1 = 16%nat ∧ length c2 = 16%nat);
  lr_clocks : 0 <= nowC < last_instant ∧ withinSkew s (mo_now t2) (whole_time nowC) = true ∧
    whole_time (mo_now t2) <= nowC + clockSkew c ∧ nowC - clockSkew c <= whole_time (mo_now t2);
  lr_bare : ∀ pa encrypted, BuildEncryptedTimestamp (Some etype) (Key_Key ck) nowC 0 (drawC 1%nat 16%nat) = Ok pa →
    Unmarshal (PADataValue pa) = Ok encrypted → ed_EType encrypted ≠ id;
}.
Context (Hready : login_ready).

(** The credentials are of use: the ticket in them opens with the key of the
    service and holds the client's name and the session key. *)
Definition logged_in (cred : Credentials) : Prop :=
  cr_Client cred = client ∧ cr_Server cred = service ∧
  ∃ ticket plain part, Unmarshal (cr_Ticket cred) = Ok ticket ∧ etype_Decrypt etype (Key_Key sk) 2 (ed_Cipher (t_EncPart ticket)) = Ok plain ∧
    Unmarshal plain = Ok part ∧ tp_Key part = cr_Key cred ∧ tp_CRealm part = Realm client ∧ tp_CName part = protocolPrincipal client ∧
    tp_Flags part = cr_Flags cred ∧ tp_EndTime part = cr_EndTime cred.

(** The time stamp of the client, sealed with its key. *)
Lemma timestamp_sent : ∃ cipher plain,
  BuildEncryptedTimestamp (Some etype) (Key_Key ck) nowC 0 (drawC 1%nat 16%nat) = Ok (mkPA PADataEncryptedTimestamp cipher) ∧
  etype_Decrypt etype (Key_Key ck) 1 cipher = Ok plain ∧ Unmarshal plain = Ok (mkEncTS (at_time (whole_time nowC)) None) ∧ zlen cipher <= 140 ∧
  timestamp_cipher (context_for body client service cr sr id ck sk [mkPA PADataEncryptedTimestamp cipher]) cipher = cipher.
Proof.
  destruct Hready as [_ _ _ _ He _ Hacc _ ((conf & Hconf & Lconf) & _ & _) (Hnow & _) Hbare].
  destruct (Hacc t2 (or_intror eq_refl)) as ([_ _ _ _ _ _ _ _ _ _ _ _ _ (etype' & He' & Lck & _)] & _ & _). rewrite He in He'. apply Ok_inj in He' as <-.
  destruct (timestamp_received nowC Hnow) as (plain & Hmp & Hup & Lp).
  destruct (seal_ok etype conf (Key_Key ck) 1 plain ltac:(by exists fips, id) Lck Lconf) as (cipher & Hen & Hde & Lc). exists cipher, plain.
  assert (Hbt : BuildEncryptedTimestamp (Some etype) (Key_Key ck) nowC 0 (drawC 1%nat 16%nat) = Ok (mkPA PADataEncryptedTimestamp cipher)).
  { unfold BuildEncryptedTimestamp. cbn [Z.eqb]. rewrite Hmp. cbn [wrap_err res_bind]. rewrite Hconf, Hen. done. }
  split_and!; [done..|lia|]. specialize (λ encrypted, Hbare _ encrypted Hbt) as Hne.
  unfold timestamp_cipher. cbn [PADataValue] in Hne. destruct (Unmarshal cipher) as [encrypted| |] eqn:Hu; [|done..].
  specialize (Hne encrypted eq_refl). apply Z.eqb_neq in Hne. cbn [context_for cx_etypeID]. by rewrite Hne.
Qed.

Lemma timestamp_stage :
  ∃ cred st',
    with_timestamp fips c network nowC drawC client service request [] id etype (Key_Key ck) (mkKdcState st r l, [t2]) = (inr cred, (st', [])) ∧
    logged_in cred.
Proof.
  destruct timestamp_sent as (cipher & plain & Hbt & Hde & Hup & Lc & Hbare).
  destruct Hready as [_ (_ & _ & Hm2) Hrq (Hb & Hbs) He _ Hacc (Hrl & Hsl & Hkv) (_ & (session & Hses & Lses) & (c1 & c2 & D1 & D2 & L1 & L2))
    (_ & Hskew & Hlate & Hearly) _].
  destruct (Hacc t2 (or_intror eq_refl)) as (Hio & Hn0 & Hn1). destruct (request_shape request Hrq) as (Hshape & _ & till & Htill).
  destruct t2 as [now clock draw modules]. cbn [mo_now mo_draw mo_modules] in *. subst modules.
  set (pas := [mkPA PADataEncryptedTimestamp cipher]).
  destruct (request_received pas (r_ReqBody request) till Htill ltac:(by repeat constructor) Hb) as (d & Hmd & Hud).
  { unfold req_size. cbn [r_PAData r_ReqBody pas sum_size foldr]. unfold pa_size. cbn [PADataValue]. lia. }
  destruct (decide_timestamp now clock draw st body client service cr sr id ck sk Hio d etype cipher plain (whole_time nowC) He Hbare Hde Hup Hskew)
    as (record & st' & Hdec).
  destruct (build_ok now draw st body client service cr sr id ck sk Hio (as_db st') pas record etype session c1 c2 He Hses D1 L1 D2 L2)
    as (flags & end_ & renew & tc & rc & Hbuild & Hw & Hend & Hren & Dt & Dr & Lt & Lr).
  pose proof (kdc_grant now clock draw st body client service cr sr id ck sk Hio d r l cipher _ st' _ Hud Hdec Hbuild eq_refl) as Hk.
  assert (Hsz : zlen session <= 64) by (apply key_size_le in He; unfold zlen; lia).
  destruct (reply_decoded now st body client service cr sr id ck sk Hio Hb Hbs Hn0 Hn1 Hkv c nowC etype session flags end_ renew tc rc
    He Hw Hend Hren Hsz Dr Lt Lr Hlate Hearly) as (td & Hdd & Hut).
  destruct (parts_read now st body client service cr sr id ck sk Hio Hb Hbs Hn0 Hn1 session flags end_ renew Hw Hend Hren Hsz) as (Hup' & _).
  exists (credentials now client service id session flags end_ renew td), (mkKdcState st' r l). split.
  - unfold with_timestamp. eapply n_res_step; [exact Hbt|]. rewrite Hshape at 1. cbn [with_padata r_PVNO r_MsgType r_ReqBody].
    eapply n_step; [by eapply roundTrip_ok|]. unfold answer. cbn [ai_reply]. rewrite Hshape. cbn [r_ReqBody]. f_equal. exact Hdd.
  - split_and!; [done..|]. eexists _, _, _. split_and!; [exact Hut|exact Dt|exact Hup'|done..].
Qed.

(** The first message is answered with the hint, from which the key follows. *)
Lemma hint_stage preference : id ∈ preference →
  ∃ d response e,
    Marshal (Der := as_req_der) request = Ok d ∧ kdc d t1 (mkKdcState st r l) = (Some response, mkKdcState st r l) ∧
    decodeKRBError response = Some e ∧ err_ErrorCode e = 25 ∧
    ∃ methodData, preauth_data c "AS service exchange" client e = Ok methodData ∧
      SelectEType fips methodData (Realm client) client preference = Ok (id, principalSalt ck client, []).
Proof.
  intros Hpref. destruct Hready as [_ (_ & Hm1 & _) Hrq (Hb & Hbs) He _ Hacc (Hrl & Hsl & Hkv) _ _ _].
  destruct (Hacc t1 (or_introl eq_refl)) as (Hio & Hn0 & Hn1). destruct (request_shape request Hrq) as (Hshape & _ & till & Htill).
  destruct t1 as [now clock draw modules]. cbn [mo_now mo_draw mo_modules] in *. subst modules.
  destruct (request_received [] (r_ReqBody request) till Htill ltac:(constructor) Hb) as (d & Hmd & Hud).
  { unfold req_size. cbn [r_PAData r_ReqBody sum_size foldr]. lia. }
  rewrite <- Hshape in Hmd.
  pose proof (kdc_hint now clock draw st body client service cr sr id ck sk Hio d r l Hud) as Hk.
  destruct (hint_read now st body client service cr sr id ck sk Hio Hb Hbs Hn0 Hn1 Hkv Hrl Hsl) as ((e & Hde & Hcode & Hparse) & Hinfo).
  exists d, (marshalDER (hint_error client service id ck now)), e. split_and!; [done..|].
  unfold preauth_data. rewrite Hparse. eexists. split; [reflexivity|].
  apply (select_entry (salt_info client id ck) (mkEInfo2 id (Some (principalSalt ck client)) [])); [done|exact Hinfo|exact Hpref| | |].
  - cbn [ei_EType]. unfold registered_id. by rewrite He.
  - unfold sortPreferredPadata. rewrite sort_perm. unfold hint_data. fold (salt_info client id ck).
    apply elem_of_app. right. apply elem_of_app. right. left.
  - intros pa. unfold sortPreferredPadata. rewrite sort_perm. unfold hint_data. fold (salt_info client id ck). generalize (salt_info client id ck). intros info.
    destruct (s_EnableSPAKE s); cbn [app]; rewrite !elem_of_cons, elem_of_nil; naive_solver.
Qed.

(** C5: a client whose account is in order gets its ticket.  If its principal and
    that of the service are in the database and usable, the KDC has a key for both
    of a type the client asks for, the client knows its key from its keytab or
    from its password, the two clocks are within the skew, and the sources of
    random bytes work, then the exchange of the client with a KDC that has no
    plug-in modules and issues no PAC, two messages each way through their
    encodings, ends with credentials: the ticket in them opens with the service's
    key, and holds the client's name and the session key the client has. *)
Theorem login_succeeds :
  ∃ cred st', asExchangeServiceOnceWithKey fips x0 c network nowC drawC client entry service password (mkKdcState st r l, [t1; t2]) =
                (inr cred, (st', [])) ∧ logged_in cred.
Proof.
  destruct timestamp_stage as (cred & st' & Hts & Hin). exists cred, st'. split; [|done].
  pose proof Hready as [(Hvalid & Hnt & Hcomp) (Hmod & _ & _) Hrq _ He Hkey Hacc _ _ _ _].
  destruct (Hacc t1 (or_introl eq_refl)) as (Hio & _). destruct (request_shape request Hrq) as (_ & Het & _).
  assert (Hid : id ∈ asRequestEnctypes fips c) by (rewrite <- Het; exact (id_requested _ _ _ _ _ _ _ _ _ _ Hio)).
  destruct (initial_ok id Hid) as (id0 & etype0 & Hi0 & He0). destruct (initial_key_ok etype id _ _ id0 etype0 He He0 Hkey) as ([i1 k1] & Hfirst).
  destruct (hint_stage _ Hid) as (d & response & e & Hmd & Hk & Hde & Hcode & methodData & Hpre & Hsel).
  unfold asExchangeServiceOnceWithKey. eapply n_require_step; [exact Hvalid|]. apply Z.eqb_neq in Hnt. rewrite Hnt. cbv zeta.
  eapply n_require_step; [by destruct (Components service)|]. eapply n_res_step; [exact Hrq|].
  eapply n_res_step; [rewrite Het, Hi0; reflexivity|]. cbv beta iota. eapply n_res_step; [exact Hfirst|]. cbv beta iota.
  eapply n_step; [by eapply roundTrip_ok|]. rewrite Hde, Hcode. cbn [Z.eqb Pos.eqb negb].
  eapply n_res_step; [exact Hpre|]. eapply n_res_step; [exact Hsel|]. cbv beta iota. eapply n_res_step; [exact He|].
  eapply n_res_step.
  { unfold knows in Hkey. destruct entry as [[enctype k]|]; [destruct Hkey as [-> ->]; by rewrite Z.eqb_refl|]. unfold string_to_key. by rewrite Hkey. }
  eapply n_res_step; [unfold processClientPreauthModules; rewrite Hmod; reflexivity|]. cbv beta iota. cbn [KeyType KeyValue].
  eapply n_res_step; [exact He|]. exact Hts.
Qed.
End client_side.
End login.

Module LoginExample.
#[local] Existing Instance toy_crypto.
#[local] Existing Instance toy_crypto_laws.
#[local] Existing Instance SpakeExample.toy_groups.

Definition alice : Principal := mkPrincipal AsExample.realm NTPrincipal [str "alice"].
Definition tgs : Principal := krbtgt_of AsExample.realm.
Definition client : Client unit := mkClient None [] false [].
Definition entry : option (Z * bytes) := Some (EnctypeAES128SHA1, Key_Key AsExample.alice_key).
Definition draw (_ n : nat) : res bytes := Ok (zeros n).
Definition at_second (n : Z) : moment := mkMoment (n * second) (n * second) draw [].
Definition request : KDCReq := match newASReqForService false client alice tgs (4 * second) (draw 0 4) with Ok r => r | _ => mkReq 0 0 [] AsExample.body end.
Definition record_of (p : Principal) (key : Key) : PrincipalRecord := empty_record p {[ EnctypeAES128SHA1 := key ]} 1 0.
Definition tgs_key : Key := AsExample.key_of (str "0123456789abcdef").
Definition etype : EType := EAes (mkAes EnctypeAES128SHA1 16 12 false SHA1 EmptyString 4096).
Definition start : as_state Database := mkState AsExample.database [].

Lemma account_in_order n : n = 5 ∨ n = 6 →
  in_order false AsExample.server (λ _ _ _, None) (n * second) AsExample.database (received (r_ReqBody request)) alice tgs
    (record_of alice AsExample.alice_key) (record_of tgs tgs_key) EnctypeAES128SHA1 AsExample.alice_key tgs_key.
Proof.
  intros [-> | ->]; (split; [by vm_compute|by vm_compute|by vm_compute|by vm_compute|by vm_compute|by vm_compute|split; [by vm_compute|left; by vm_compute]|by vm_compute..|]).
  all: exists etype; by vm_compute.
Qed.

Lemma body_in_range : body_ok (received (r_ReqBody request)).
Proof.
  split.
  - by vm_compute.
  - eexists. split; [vm_compute; reflexivity|by vm_compute].
  - eexists. split; [vm_compute; reflexivity|by vm_compute].
  - vm_compute. reflexivity.
  - by vm_compute.
  - change (b_EType _) with [18; 17; 20; 19; 25; 26]. repeat constructor; done.
  - constructor.
  - exact (conj eq_refl (conj eq_refl (conj eq_refl eq_refl))).
Qed.
Lemma example_ready :
  login_ready false AsExample.server (λ _ _ _, None) client alice tgs entry [] (4 * second) draw (at_second 5) (at_second 6) start request
    (record_of alice AsExample.alice_key) (record_of tgs tgs_key) EnctypeAES128SHA1 AsExample.alice_key tgs_key etype.
Proof.
  split.
  - by vm_compute.
  - exact (conj eq_refl (conj eq_refl eq_refl)).
  - vm_compute. reflexivity.
  - exact (conj body_in_range (eq_refl : (body_size (received (r_ReqBody request)) ?= 2 ^ 20) = Lt)).
  - exact eq_refl.
  - exact (conj eq_refl eq_refl).
  - intros t [-> | ->]; (split; [apply account_in_order; auto|by vm_compute]).
  - by vm_compute.
  - exact (conj (ex_intro _ (zeros 16) (conj eq_refl eq_refl)) (conj (ex_intro _ (zeros 16) (conj eq_refl eq_refl))
      (ex_intro _ (zeros 16) (ex_intro _ (zeros 16) (conj eq_refl (conj eq_refl (conj eq_refl eq_refl))))))).
  - by vm_compute.
  - intros pa encrypted Hb Hu. exfalso.
    assert (Hn : match BuildEncryptedTimestamp (Some etype) (Key_Key AsExample.alice_key) (4 * second) 0 (draw 1 16) with
                 | Ok pa => is_ok (Unmarshal (PADataValue pa) : res EncryptedData) | _ => true end = false) by (vm_compute; reflexivity).
    rewrite Hb, Hu in Hn. discriminate Hn.
Qed.

Lemma login_succeeds_witness :
  ∃ cred st',
    asExchangeServiceOnceWithKey false tt client (network false AsExample.server id (λ _ _, []) (λ _, []) (λ _ _ _, None) None no_pac_hooks)
      (4 * second) draw alice entry tgs [] (mkKdcState start ∅ (newLookasideCache), [at_second 5; at_second 6]) = (inr cred, (st', [])) ∧
    logged_in alice tgs tgs_key etype cred.
Proof.
  exact (login_succeeds false AsExample.server id (λ _ _, []) (λ _, []) (λ _ _ _, None) None no_pac_hooks tt client alice tgs entry []
    (4 * second) draw (at_second 5) (at_second 6) start ∅ newLookasideCache request (record_of alice AsExample.alice_key) (record_of tgs tgs_key)
    EnctypeAES128SHA1 AsExample.alice_key tgs_key etype example_ready).
Defined.
End LoginExample.
